(* ===== verification/_CoqProject ===== *)
-Q . S2P
Prelude.v
Text.v
Sip.v
Bimap.v
Ssp.v
Tokenizer.v
FsMessage.v
FsInstance.v
FsMonitor.v
PoolThread.v
PropertyTree.v
Routing.v
SspConfig.v
Routes.v
Stateless.v
Cdr.v
CdrWriter.v
TrunkStats.v
CallControl.v
CallTables.v
CallSafety.v
CallRuns.v
CallMachine.v
CallEffects.v
CallSetup.v
CallResponses.v
CallAttempts.v
CallEnd.v
CallLimit.v
Nagios.v
Spoofer.v
DuplicateTester.v
Lifecycle.v
Threads.v
