(* ===== verification/Prelude.v ===== *)
(** * ssp: a SIP load-balancing proxy, in Rocq (root file)

    [ssp] stands between carriers and a pool of FreeSWITCH application servers.
    A call that comes from a carrier (an _origination_) goes to a server of the
    pool; a call that a server makes (a _termination_) goes to a trunk of a
    carrier, and to another carrier's when that fails.  This library models the
    program under [src/] (the vendored libraries of [src/deps] aside) and
    proves what makes it correct.

    ** The program and the files that model it

    - [ssp.h], [ssp.cpp]: enumerations and their spellings: [Ssp].
    - [fs-message.cpp]: the text messages of a server's event socket:
      [FsMessage], on [Tokenizer] ([boost::tokenizer], as the bundled Boost
      has it) and [Text] (the C and C++ string functions).
    - [fs-instance.cpp]: the connection to one server, a state machine driven
      by completion handlers: [FsInstance].
    - [fs-monitor.cpp]: the pool of servers and the choice among them:
      [FsMonitor].  Class [ServerPool] states what the proxy relies on, and
      [monitor_pool] is the instance.  [PoolThread] composes the pool with its
      connections: the thread that runs their handlers, and what these tell the
      pool.
    - [ssp-config.cpp]: [Routing] (numbers, address spaces, weighted rotation
      over trunks) and [SspConfig] (reading the file, on [PropertyTree]; the
      routing decisions).  Class [CallRoutes] of [Routes] states what the call
      handling relies on, and [config_routes] is the instance.
    - [ssp-controller.cpp], [sip-inbound-call.cpp], stateless mode: [Stateless].
    - [ssp-controller.cpp], [ssp-controller.h], stateful mode: [CallControl] has
      every callback of the SIP stack as a computation on the controller's
      tables; [Bimap] and [TrunkStats] are the containers; [CallTables],
      [CallSafety], [CallRuns] the invariant, the assumptions and the runs;
      [CallMachine] the abstract machine of calls that every run implements;
      [CallEffects] the exact effect of the shared parts; [CallSetup],
      [CallResponses], [CallEnd] the life of a call; [CallAttempts] and
      [CallLimit] its bounds.  [Sip] has the vocabulary of the stack.
    - [cdr-writer.cpp]: call detail records ([Cdr]) and the thread that writes
      them to the database ([CdrWriter]).
    - [nagios-connector.cpp], [check-ssp.cpp]: the statistics server and its
      client: [Nagios].
    - [fs-spoofer.cpp]: a stand-in for a server: [Spoofer].
      [duplicate-tester.cpp]: a peer that sends its answers three times:
      [DuplicateTester].
    - [main.cpp] and the rest of [ssp-controller.cpp]: start-up, reload, the
      watchdog, shutdown, and the main thread in both modes: [Lifecycle].
    - The threads together (the main thread, the pool's, the statistics
      server's, the database writers'), as one machine: [Threads].

    A C++ class is a record with the names of its members, a method is a
    definition of the same name; a method that can die is a computation
    [M St A] of this file, whose [Fault]s are the ways a process dies: a failed
    assertion, a null or past-the-end dereference, an uncaught exception.  An
    exception that something catches is a value.  Handles of the stack are
    numbers and null is 0; the calls made to the stack are recorded in order;
    what the stack, the database, the clock and the random UUIDs answer comes
    with each event.  A [shared_ptr] to a record that is posted and changed
    later is an index into a store, since the sharing shows.  Unsigned
    arithmetic wraps where the code's does.

    ** What is proved

    - Safety: in every run of the stateful proxy, and of the whole process with
      both modes, its reloads, its watchdog and its threads, the next handler
      returns and the tables stay well-formed ([callbacks_never_crash],
      [process_never_crashes], [watchdog_never_asserts]); the calls of a server
      that is online are recognised as such, whatever the process went through
      ([online_servers_are_recognised]); nothing of a call that is over is left
      ([nothing_leaks]); counters keep to their types ([counters_stay_typed]).
    - Refinement: every run of the stateful proxy is a run of a machine that
      only knows each call's kind and phase, and every callback makes a move
      that it is allowed ([proxy_refines_calls]).
    - The life of a call: which status an INVITE gets ([invite_outcome]), what a
      call looks like when it is set up ([origination_call],
      [termination_call]), answered, retried, refused, ended by either side or
      cancelled; how many carriers are tried and how many calls are taken.
    - Routing: the rotation over carriers and trunks meets its schedule, the
      other carrier after a failure, the configuration's invariant.
    - The pool: the detailed choice of servers implements its specification and
      is fair; each server of a running pool goes through a run of its own
      connection, which has one operation outstanding
      ([pool_refines_connections]), and an honest dialogue brings it up.
    - Texts and records: round trips of messages, status answers and commands,
      the tokenizer's equivalence with a reference, the rows of the database.
    - Tools and lifecycle: start-up reaches a safe state, reload installs what
      it installs, the process ends exactly when its work is done; the
      monitoring client always ends, and prints the answer it asked for.
    - Failures of the program itself are theorems too: what an early BYE, an
      unknown ACK, a split message, a failed read, a failed reload or two
      servers on one host lead to.

    ** Assumptions

    Sections and hypotheses carry them.  [event_ok] of [CallSafety] is what the
    SIP stack is expected to do: handles it makes are new, responses belong to
    outstanding requests, lookups find what exists, and the headers that the
    code uses without looking are there.  It excludes, by name, the inputs
    that are known to kill the process; [message_ok] of [Stateless] does so for
    stateless mode, [answer_ok] of [PoolThread] for what a server answers.
    [program_fits] of [Threads] puts them together.  [sort_laws] are those of [std::sort];
    the iteration order of an [unordered_map] is any permutation; the XML
    parser and the file system are functions; [config_fits] and [small] bound
    sizes that the code does not check.  The instances that the witnesses use
    (an insertion sort, the distributed [ssp.conf.xml]) show that they can
    be met.

    ** Fuel

    [collect] of [FsMonitor] (the [do]-[while] of [getAvailableServers]) has
    the number of servers as fuel, since each round looks at another server;
    the theorems show that it never runs out.  The decimal digits of a number
    are printed with its bit length as fuel.  Everything else is structural.

    ** Not modelled

    Logging ([initializeLogging], [logAgentStats], the logger of the stack) and
    [daemonize] only touch the world outside; mutexes and the interleaving of
    threads inside one operation are sequential here; of the messages the SIP
    stack sends in stateless mode the process of [Threads] keeps no list (runs
    of [Stateless] do); what [run] does after the event loop has ended is only
    the end of the process; the SQL under [src/database] and the vendored
    libraries are not the program's own code.

    This file itself holds what the components share: machine integers,
    outcomes and the state monad, record updates, runs of a step relation, and
    the lemmas, hints and tactics on them. *)

From Stdlib Require Export Ascii.
From stdpp Require Export base list strings gmap.
From Stdlib Require Export ZArith Lia Permutation Sorted.

#[export] Set Default Goal Selector "!".
#[global] Open Scope Z_scope.

(** ** Machine integers

    [unsigned int] is 32 bits and [size_t], [usize_t] and [unsigned long] are
    64 bits wide on the targets the build files name.  A value is kept as a
    [Z]; the operations that can leave the range reduce it explicitly. *)

Definition wrap32 (z : Z) : Z := z `mod` 2^32.
Definition wrap64 (z : Z) : Z := z `mod` 2^64.

(** Conversion of a 64-bit [long] to a 32-bit [int] (two's complement). *)
Definition to_int32 (z : Z) : Z := (z + 2^31) `mod` 2^32 - 2^31.

Definition is_u32 (z : Z) : Prop := 0 <= z < 2^32.
Definition is_u64 (z : Z) : Prop := 0 <= z < 2^64.

(** ** Outcomes

    What running a piece of the program can lead to: a normal return, or one
    of the ways in which the process dies.  [AssertFailed] is a failed
    [assert] or [BOOST_ASSERT] ([ssp] is built without [NDEBUG]); [NullDeref]
    and [PastTheEnd] are undefined behaviour (a null pointer or an end
    iterator is dereferenced); [Uncaught] is an exception nothing catches. *)

Inductive fault :=
| AssertFailed
| NullDeref
| PastTheEnd
| Uncaught.

#[export] Instance fault_eq_dec : EqDecision fault.
Proof. solve_decision. Defined.

Inductive outcome (A : Type) :=
| Ok (a : A)
| Fault (f : fault).
Arguments Ok {A} a.
Arguments Fault {A} f.

#[export] Instance outcome_eq_dec `{EqDecision A} : EqDecision (outcome A).
Proof. solve_decision. Defined.

#[export] Instance outcome_ret : MRet outcome := fun A a => Ok a.
#[export] Instance outcome_bind : MBind outcome := fun A B f m =>
  match m with Ok a => f a | Fault e => Fault e end.

(** ** Stateful computations over a state [St] *)

Definition M (St A : Type) : Type := St -> outcome (A * St).

#[export] Instance M_ret {St} : MRet (M St) := fun A a s => Ok (a, s).
#[export] Instance M_bind {St} : MBind (M St) := fun A B f m s =>
  match m s with
  | Ok (a, s') => f a s'
  | Fault e => Fault e
  end.

Definition get {St} : M St St := fun s => Ok (s, s).
Definition gets {St A} (f : St -> A) : M St A := fun s => Ok (f s, s).
Definition modify {St} (f : St -> St) : M St unit := fun s => Ok (tt, f s).
Definition fail {St A} (f : fault) : M St A := fun _ => Fault f.

(** [assert( b )]. *)
Definition assert_ {St} (b : bool) : M St unit :=
  if b then mret tt else fail AssertFailed.

(** [if( b ) m]. *)
Definition when {St} (b : bool) (m : M St unit) : M St unit :=
  if b then m else mret tt.

Definition lift {St A} (o : outcome A) : M St A := fun s =>
  match o with Ok a => Ok (a, s) | Fault f => Fault f end.

(** Dereference of a pointer that may be null. *)
Definition deref {St A} (o : option A) : M St A :=
  match o with Some a => mret a | None => fail NullDeref end.

(** ** Predicates on computations

    [returns m Q s]: from [s], [m] returns (no fault) and the result and final
    state satisfy [Q].  [keeps I m]: a normal return of [m] preserves [I];
    nothing is said of a fault. *)

Definition returns {St A} (m : M St A) (Q : A -> St -> Prop) (s : St) : Prop :=
  match m s with Ok (a, s') => Q a s' | Fault _ => False end.

Definition keeps {St A} (I : St -> Prop) (m : M St A) : Prop :=
  forall s a s', I s -> m s = Ok (a, s') -> I s'.

(** ** Record update

    [r <| field := v |>] and [r <| field ::= f |>].  A record type declares how
    it is rebuilt from its projections ([Rebuild]); the updater of a field is
    then found by abstracting that projection in the rebuilt record. *)

Class Rebuild (R : Type) := rebuild : R -> R.
Class Updater {R T : Type} (field : R -> T) := update : (T -> T) -> R -> R.

Arguments update {R T field Updater} f r / : rename.

Ltac derive_updater :=
  match goal with
  | |- @Updater ?R ?T ?field =>
      let r := fresh "r" in let u := fresh "u" in
      refine (fun (u : T -> T) (r : R) => _);
      let e := eval hnf in (rebuild r) in
      let g := eval pattern (field r) in e in
      match g with ?h _ => let b := eval cbv beta in (h (u (field r))) in exact b end
  end.

#[export] Hint Extern 1 (Updater _) => derive_updater : typeclass_instances.

Notation "r <| field ::= f |>" := (update (field := field) f r)
  (at level 1, left associativity, field at level 10).
Notation "r <| field := v |>" := (update (field := field) (fun _ => v) r)
  (at level 1, left associativity, field at level 10).

(** ** Reflexive transitive closure indexed by the labels of the steps *)

Section Runs.
Context {St L : Type} (step : St -> L -> St -> Prop).

Inductive runs : St -> list L -> St -> Prop :=
| runs_nil s : runs s [] s
| runs_cons s l s' ls s'' : step s l s' -> runs s' ls s'' -> runs s (l :: ls) s''.

Lemma runs_snoc s ls s' l s'' : runs s ls s' -> step s' l s'' -> runs s (ls ++ [l]) s''.
Proof. induction 1; intros; simpl; econstructor; eauto using runs. Qed.

Lemma runs_app s ls s' ls' s'' : runs s ls s' -> runs s' ls' s'' -> runs s (ls ++ ls') s''.
Proof. induction 1; intros; simpl; [done|]. econstructor; eauto. Qed.

(** Rule induction for an invariant. *)
Lemma runs_invariant (I : St -> Prop) :
  (forall s l s', I s -> step s l s' -> I s') ->
  forall s ls s', runs s ls s' -> I s -> I s'.
Proof. intros Hstep s ls s' H. induction H; eauto. Qed.
End Runs.

(** ** Tactics and hint databases *)

(** Case analysis on every [if] and [match] of the goal. *)
Ltac split_matches := repeat (case_match; simplify_eq/=; try done).

(** The head of an equation [m s = Ok (a, s')] is taken apart one bind at a
    time. *)
Ltac inv_ok H :=
  repeat (unfold mbind, M_bind, mret, M_ret, outcome_bind, outcome_ret in H;
          simpl in H; case_match; simplify_eq/=).

Create HintDb ssp.
Create HintDb keeps.

Section KeepsLemmas.
Context {St : Type} (I : St -> Prop).

Lemma keeps_elim {A} (m : M St A) s a s' : keeps I m -> I s -> m s = Ok (a, s') -> I s'.
Proof. intros H. apply H. Qed.

Lemma keeps_ret {A} (a : A) : keeps I (mret a).
Proof. by intros s b s' Hs [= <- <-]. Qed.

Lemma keeps_bind {A B} (m : M St A) (f : A -> M St B) :
  keeps I m -> (forall a, keeps I (f a)) -> keeps I (m ≫= f).
Proof.
  intros Hm Hf s b s' Hs. unfold mbind, M_bind.
  destruct (m s) as [[a s1]|] eqn:E; [|done]. intros H.
  exact (Hf _ _ _ _ (Hm _ _ _ Hs E) H).
Qed.

Lemma keeps_fail {A} e : keeps I (fail (A := A) e).
Proof. done. Qed.

Lemma keeps_gets {A} (f : St -> A) : keeps I (gets f).
Proof. by intros s b s' Hs [= <- <-]. Qed.

Lemma keeps_lift {A} (o : outcome A) : keeps I (lift o).
Proof. intros s b s' Hs. unfold lift. destruct o; [by intros [= _ <-]|done]. Qed.

Lemma keeps_get : keeps I get.
Proof. by intros s b s' Hs [= <- <-]. Qed.

Lemma keeps_modify f : (forall s, I s -> I (f s)) -> keeps I (modify f).
Proof. intros Hf s b s' Hs [= <- <-]. auto. Qed.

Lemma keeps_when b m : keeps I m -> keeps I (when b m).
Proof. destruct b; [done|]. intros _. apply keeps_ret. Qed.

Lemma keeps_assert b : keeps I (assert_ b).
Proof. destruct b; [apply keeps_ret|apply keeps_fail]. Qed.

Lemma keeps_deref {A} (o : option A) : keeps I (deref o).
Proof. destruct o; [apply keeps_ret|apply keeps_fail]. Qed.
End KeepsLemmas.

#[export] Hint Resolve keeps_ret keeps_bind keeps_fail keeps_gets keeps_get
  keeps_modify keeps_when keeps_assert keeps_deref keeps_lift : keeps.

(** [keeps] of a computation, by its structure. *)
Ltac keeps_auto :=
  repeat (cbv zeta; lazymatch goal with
  | |- forall _, _ => intros ?
  | |- keeps _ (mbind _ _) => apply keeps_bind
  | |- keeps _ (match ?x with _ => _ end) => destruct x
  | |- keeps _ (when _ _) => apply keeps_when
  | |- keeps _ _ => solve [eauto 4 with keeps]
  end).

(** ** Inversion of a computation that returned *)

Lemma outcome_bind_ok {A B} (m : outcome A) (f : A -> outcome B) b :
  m ≫= f = Ok b <-> exists a, m = Ok a /\ f a = Ok b.
Proof.
  unfold mbind, outcome_bind. destruct m; split; [eauto|naive_solver|done|naive_solver].
Qed.

Lemma M_bind_ok {St A B} (m : M St A) (f : A -> M St B) s r :
  (m ≫= f) s = Ok r <-> exists a s', m s = Ok (a, s') /\ f a s' = Ok r.
Proof.
  unfold mbind, M_bind. destruct (m s) as [[a s']|]; split; [eauto|naive_solver|done|naive_solver].
Qed.

(** ** Computations that return *)

Section ReturnsLemmas.
Context {St : Type}.

Lemma returns_elim {A} (m : M St A) Q s : returns m Q s -> exists a s', m s = Ok (a, s') /\ Q a s'.
Proof. unfold returns. destruct (m s) as [[a s']|]; [eauto|done]. Qed.

Lemma returns_mono {A} (m : M St A) (Q Q' : A -> St -> Prop) s :
  returns m Q s -> (forall a s', Q a s' -> Q' a s') -> returns m Q' s.
Proof. unfold returns. destruct (m s) as [[a s']|]; eauto. Qed.

Lemma returns_keeps {A} (I : St -> Prop) (m : M St A) (Q : A -> St -> Prop) s :
  keeps I m -> I s -> returns m Q s -> returns m (fun a s' => Q a s' /\ I s') s.
Proof. unfold returns. intros Hm Hs H. destruct (m s) as [[a s']|] eqn:E; [|done]. split; [done|by eapply Hm]. Qed.

Lemma returns_bind {A B} (m : M St A) (f : A -> M St B) Q s :
  returns m (fun a s' => returns (f a) Q s') s -> returns (m ≫= f) Q s.
Proof. unfold returns, mbind, M_bind. by destruct (m s) as [[a s']|]. Qed.

Lemma returns_unbind {A B} (m : M St A) (f : A -> M St B) Q s :
  returns (m ≫= f) Q s -> returns m (fun a s' => returns (f a) Q s') s.
Proof. unfold returns, mbind, M_bind. by destruct (m s) as [[a s']|]. Qed.

Lemma returns_ret {A} (a : A) (Q : A -> St -> Prop) s : Q a s -> returns (mret a) Q s.
Proof. done. Qed.

Lemma returns_gets {A} (f : St -> A) (Q : A -> St -> Prop) s : Q (f s) s -> returns (gets f) Q s.
Proof. done. Qed.

Lemma returns_modify f (Q : unit -> St -> Prop) s : Q tt (f s) -> returns (modify f) Q s.
Proof. done. Qed.

Lemma returns_assert (b : bool) (Q : unit -> St -> Prop) s : b = true -> Q tt s -> returns (assert_ b) Q s.
Proof. by intros ->. Qed.

Lemma returns_deref {A} (o : option A) a (Q : A -> St -> Prop) s : o = Some a -> Q a s -> returns (deref o) Q s.
Proof. by intros ->. Qed.

Lemma returns_lift {A} (o : outcome A) a (Q : A -> St -> Prop) s : o = Ok a -> Q a s -> returns (lift o) Q s.
Proof. by intros ->. Qed.

Lemma returns_when_true m (Q : unit -> St -> Prop) s : returns m Q s -> returns (when true m) Q s.
Proof. done. Qed.

Lemma returns_when_false m (Q : unit -> St -> Prop) s : Q tt s -> returns (when false m) Q s.
Proof. done. Qed.
End ReturnsLemmas.

(** Symbolic execution of a computation, up to the next case analysis. *)
Ltac run :=
  repeat lazymatch goal with
  | |- returns (mbind _ _) _ _ => apply returns_bind
  | |- returns (mret _) _ _ => apply returns_ret
  | |- returns (gets _) _ _ => apply returns_gets
  | |- returns (modify _) _ _ => apply returns_modify
  | |- returns (when true _) _ _ => apply returns_when_true
  | |- returns (when false _) _ _ => apply returns_when_false
  | |- returns (assert_ _) _ _ => apply returns_assert; [reflexivity|]
  | |- returns (deref (Some _)) _ _ => eapply returns_deref; [reflexivity|]
  | |- returns (lift (Ok _)) _ _ => eapply returns_lift; [reflexivity|]
  end.

(** ** Partial correctness: what holds when a computation returns *)

Definition gives {St A} (m : M St A) (Q : A -> St -> Prop) (s : St) : Prop :=
  match m s with Ok (a, s') => Q a s' | Fault _ => True end.

Section Gives.
Context {St : Type}.

Lemma gives_bind {A B} (m : M St A) (f : A -> M St B) Q s :
  gives m (fun a s' => gives (f a) Q s') s -> gives (m ≫= f) Q s.
Proof. unfold gives, mbind, M_bind. by destruct (m s) as [[a s']|]. Qed.

Lemma gives_ret {A} (a : A) (Q : A -> St -> Prop) s : Q a s -> gives (mret a) Q s.
Proof. done. Qed.

Lemma gives_gets {A} (f : St -> A) (Q : A -> St -> Prop) s : Q (f s) s -> gives (gets f) Q s.
Proof. done. Qed.

Lemma gives_modify f (Q : unit -> St -> Prop) s : Q tt (f s) -> gives (modify f) Q s.
Proof. done. Qed.

Lemma gives_fail {A} e (Q : A -> St -> Prop) s : gives (fail e) Q s.
Proof. done. Qed.

Lemma gives_deref {A} (o : option A) (Q : A -> St -> Prop) s :
  (forall a, o = Some a -> Q a s) -> gives (deref o) Q s.
Proof. destruct o; [|done]. intros H. by apply H. Qed.

Lemma gives_mono {A} (m : M St A) (Q Q' : A -> St -> Prop) s :
  gives m Q s -> (forall a s', Q a s' -> Q' a s') -> gives m Q' s.
Proof. unfold gives. destruct (m s) as [[a s']|]; eauto. Qed.

Lemma gives_returns {A} (m : M St A) (Q Q' : A -> St -> Prop) s :
  gives m Q s -> returns m Q' s -> returns m (fun a s' => Q a s' /\ Q' a s') s.
Proof. unfold gives, returns. destruct (m s) as [[a s']|]; eauto. Qed.
End Gives.

(** Symbolic execution of a computation that may fail. *)
Ltac run_gives :=
  repeat lazymatch goal with
  | |- gives (mbind _ _) _ _ => apply gives_bind
  | |- gives (mret _) _ _ => apply gives_ret
  | |- gives (gets _) _ _ => apply gives_gets
  | |- gives (modify _) _ _ => apply gives_modify
  | |- gives (when true _) _ _ => unfold when at 1
  | |- gives (fail _) _ _ => apply gives_fail
  | |- gives (deref _) _ _ => apply gives_deref; intros ? ?
  end.

(** ** Lemmas on machine integers *)

Lemma wrap32_small z : is_u32 z -> wrap32 z = z.
Proof. unfold is_u32, wrap32. intros. by apply Z.mod_small. Qed.

Lemma wrap32_range z : is_u32 (wrap32 z).
Proof. unfold is_u32, wrap32. apply Z.mod_pos_bound. lia. Qed.

Lemma wrap64_small z : is_u64 z -> wrap64 z = z.
Proof. unfold is_u64, wrap64. intros. by apply Z.mod_small. Qed.

Lemma wrap64_range z : is_u64 (wrap64 z).
Proof. unfold is_u64, wrap64. apply Z.mod_pos_bound. lia. Qed.

Lemma to_int32_small z : -2^31 <= z < 2^31 -> to_int32 z = z.
Proof. unfold to_int32. intros. rewrite Z.mod_small; lia. Qed.

#[export] Hint Resolve wrap32_range wrap64_range : ssp.
Create Rewrite HintDb ssp.
#[export] Hint Rewrite wrap32_small wrap64_small to_int32_small using (unfold is_u32, is_u64 in *; lia) : ssp.
