(* ===== verification/Text.v ===== *)
(** * Text: the C and C++ string functions the program uses

    [std::string] as [String.string]; [find], [substr], [atoi], [strtol],
    the decimal output of an integer by a stream, and the character classes of
    the C locale.  These are the standard library's, not the program's. *)

From S2P Require Import Prelude.

#[global] Open Scope string_scope.
#[global] Open Scope list_scope.
#[global] Open Scope Z_scope.

#[global] Arguments String.append !_ _ / : simpl nomatch.

(** ** Characters of the C locale *)

Definition code (c : Ascii.ascii) : Z := Z.of_N (Ascii.N_of_ascii c).
Definition isspace (c : Ascii.ascii) : bool :=
  (code c =? 32) || ((9 <=? code c) && (code c <=? 13)).
Definition isdigit (c : Ascii.ascii) : bool := (48 <=? code c) && (code c <=? 57).
Definition digit_value (c : Ascii.ascii) : Z := code c - 48.
Definition digit_char (d : Z) : Ascii.ascii := Ascii.ascii_of_N (Z.to_N (48 + d)).

Definition newline : Ascii.ascii := Ascii.ascii_of_N 10.
Definition endl : string := String newline EmptyString.
Definition crlf : string := String (Ascii.ascii_of_N 13) (String newline EmptyString).
Definition dquote : string := String (Ascii.ascii_of_N 34) EmptyString.

(** ** [std::string] *)

Definition length_ (s : string) : Z := Z.of_nat (String.length s).
Definition empty_ (s : string) : bool := match s with EmptyString => true | _ => false end.

(** [0 == s.find(p)]. *)
Fixpoint begins (p s : string) : bool :=
  match p, s with
  | EmptyString, _ => true
  | String c p', String d s' => Ascii.eqb c d && begins p' s'
  | String _ _, EmptyString => false
  end.

Fixpoint drop_str (n : nat) (s : string) : string :=
  match n, s with
  | O, _ => s
  | S n', String _ s' => drop_str n' s'
  | S _, EmptyString => EmptyString
  end.

Fixpoint take_str (n : nat) (s : string) : string :=
  match n, s with
  | O, _ => EmptyString
  | S n', String c s' => String c (take_str n' s')
  | S _, EmptyString => EmptyString
  end.

(** [s.substr(pos)] and [s.substr(pos, len)] with [pos] a [size_t]: [None] is
    the exception [std::out_of_range]. *)
Definition substr_from (s : string) (pos : Z) : option string :=
  if length_ s <? pos then None else Some (drop_str (Z.to_nat pos) s).
Definition substr (s : string) (pos len : Z) : option string :=
  take_str (Z.to_nat len) <$> substr_from s pos.

Fixpoint mem_char (c : Ascii.ascii) (s : string) : bool :=
  match s with
  | EmptyString => false
  | String d s' => Ascii.eqb c d || mem_char c s'
  end.

(** [s.find_first_not_of(set) == npos]. *)
Fixpoint only_chars_of (set s : string) : bool :=
  match s with
  | EmptyString => true
  | String c s' => mem_char c set && only_chars_of set s'
  end.

Fixpoint exists_char (p : Ascii.ascii -> bool) (s : string) : bool :=
  match s with
  | EmptyString => false
  | String c s' => p c || exists_char p s'
  end.

(** ** Reading integers *)

Fixpoint skip_space (s : string) : string :=
  match s with
  | String c s' => if isspace c then skip_space s' else s
  | EmptyString => EmptyString
  end.

(** The value of the longest prefix of decimal digits, added to [acc], and
    what follows it. *)
Fixpoint read_digits (acc : Z) (s : string) : Z * string :=
  match s with
  | String c s' => if isdigit c then read_digits (10 * acc + digit_value c) s' else (acc, s)
  | EmptyString => (acc, EmptyString)
  end.

Definition clamp (lo hi z : Z) : Z := Z.max lo (Z.min hi z).

(** [strtol(s, NULL, 10)]: blanks, an optional sign, digits; the value is
    clamped to the range of a 64-bit [long]. *)
Definition strtol (s : string) : Z :=
  let s := skip_space s in
  let value := match s with
               | String "-"%char s' => - fst (read_digits 0 s')
               | String "+"%char s' => fst (read_digits 0 s')
               | _ => fst (read_digits 0 s)
               end in
  clamp (-2^63) (2^63 - 1) value.

(** [atoi(s)], as the C library defines it: [(int) strtol(s, NULL, 10)]. *)
Definition atoi (s : string) : Z := to_int32 (strtol s).

(** [atoi] assigned to an [unsigned int]. *)
Definition atoi_u32 (s : string) : Z := wrap32 (atoi s).

(** ** Order *)

(** [std::string::compare], on unsigned bytes. *)
Definition string_ltb (a b : string) : bool :=
  match String.compare a b with Lt => true | _ => false end.

(** ** Writing integers *)

Fixpoint dec_go (fuel : nat) (n : Z) (acc : string) : string :=
  match fuel with
  | O => acc
  | S fuel' =>
      let acc' := String (digit_char (n `mod` 10)) acc in
      if n `div` 10 =? 0 then acc' else dec_go fuel' (n `div` 10) acc'
  end.

(** [ostream << n] for a non-negative [n]; [log2 n + 1] binary digits are
    enough fuel for the decimal ones. *)
Definition dec (n : Z) : string := dec_go (S (Z.to_nat (Z.log2 n))) n EmptyString.

(** The [w] low decimal digits of [n], leading zeros included. *)
Fixpoint digits (w : nat) (n : Z) : string :=
  match w with
  | O => EmptyString
  | S w => digits w (n `div` 10) +:+ String (digit_char (n `mod` 10)) EmptyString
  end.

(** [istream >> n] into an integer of the range [lo .. hi] followed by
    [istream >> ws] to the end of the string: [None] when a digit is missing,
    the value is out of range or something is left.  For an unsigned type
    ([lo = 0]) the library negates the value of a text with a minus sign
    modulo [hi + 1]. *)
Definition stream_int (lo hi : Z) (s : string) : option Z :=
  let s := skip_space s in
  let '(neg, s) := match s with
                   | String "-"%char s' => (true, s')
                   | String "+"%char s' => (false, s')
                   | _ => (false, s)
                   end in
  match s with
  | EmptyString => None
  | String c _ =>
      if negb (isdigit c) then None
      else
        let '(n, rest) := read_digits 0 s in
        if negb (empty_ (skip_space rest)) then None
        else if neg then
          (if lo =? 0 then (if n <=? hi then Some ((- n) `mod` (hi + 1)) else None)
           else if lo <=? - n then Some (- n) else None)
        else if n <=? hi then Some n else None
  end.

Definition stream_u32 (s : string) : option Z := stream_int 0 (2^32 - 1) s.
Definition stream_u64 (s : string) : option Z := stream_int 0 (2^64 - 1) s.
Definition stream_i32 (s : string) : option Z := stream_int (-2^31) (2^31 - 1) s.

(** ** Lemmas *)

Lemma begins_spec p s : begins p s = true <-> exists r, s = p +:+ r.
Proof.
  revert s; induction p as [|c p IH]; intros s; simpl.
  - split; [by exists s|done].
  - destruct s as [|d s]; [by split; [|intros [? [=]]]|].
    rewrite andb_true_iff, Ascii.eqb_eq, IH. split.
    + intros [-> [r ->]]. by exists r.
    + intros [r [= -> ->]]. eauto.
Qed.

Lemma drop_str_app p r : drop_str (String.length p) (p +:+ r) = r.
Proof. induction p; simpl; auto. Qed.

Lemma app_str_assoc a b c : (a +:+ b) +:+ c = a +:+ (b +:+ c).
Proof. induction a as [|x a IH]; simpl; [done|]. by rewrite IH. Qed.

Lemma app_str_nil_r a : a +:+ EmptyString = a.
Proof. induction a; simpl; congruence. Qed.

Lemma length_str_app a b : String.length (a +:+ b) = (String.length a + String.length b)%nat.
Proof. induction a; simpl; congruence. Qed.

Lemma app_str_inj_l a b c : a +:+ b = a +:+ c -> b = c.
Proof. induction a; simpl; [done|]. intros [= H]. auto. Qed.

Lemma length_drop_str n s : (String.length (drop_str n s) <= String.length s)%nat.
Proof. revert n. induction s as [|c s IH]; intros [|n]; simpl; [lia..|]. specialize (IH n). lia. Qed.

(** A decimal digit prints as a digit character of that value. *)
Lemma digit_char_spec d :
  0 <= d < 10 -> isdigit (digit_char d) = true /\ digit_value (digit_char d) = d /\
                 isspace (digit_char d) = false.
Proof.
  intros H. assert (d = 0 \/ d = 1 \/ d = 2 \/ d = 3 \/ d = 4 \/ d = 5 \/ d = 6 \/ d = 7
    \/ d = 8 \/ d = 9) as Hd by lia.
  by destruct_or! Hd; subst.
Qed.

Lemma code_range c : 0 <= code c < 256.
Proof.
  unfold code. pose proof (Ascii.N_ascii_bounded c). lia.
Qed.

(** A number below [10^(k+1)] has at most [k+1] digits. *)
Lemma dec_go_length k : forall fuel n acc,
  0 <= n < 10 ^ Z.of_nat (S k) -> (String.length (dec_go fuel n acc) <= S k + String.length acc)%nat.
Proof.
  induction k as [|k IH]; intros fuel n acc Hn; (destruct fuel as [|fuel]; [simpl; lia|]); cbn [dec_go].
  - change (10 ^ Z.of_nat 1) with 10 in Hn. rewrite Z.div_small by lia. simpl. lia.
  - destruct (n `div` 10 =? 0); [simpl; lia|]. etransitivity; [apply IH|simpl; lia].
    rewrite (Nat2Z.inj_succ (S k)), Z.pow_succ_r in Hn by lia. split; [apply Z.div_pos; lia|].
    apply Z.div_lt_upper_bound; lia.
Qed.

Lemma dec_u32_length n : is_u32 n -> length_ (dec n) <= 10.
Proof.
  intros Hn. unfold length_, dec, is_u32 in *.
  pose proof (dec_go_length 9 (S (Z.to_nat (Z.log2 n))) n EmptyString) as H.
  change (10 ^ Z.of_nat 10) with 10000000000 in H. change (String.length EmptyString) with 0%nat in H.
  specialize (H ltac:(lia)). lia.
Qed.

(** [dec_go] emits the digits of [n] in front of [acc]: reading them back
    shifts the accumulator and adds [n]. *)
Lemma read_dec_go fuel n acc a :
  0 <= n -> Z.log2 n < Z.of_nat fuel ->
  exists k, 0 <= k /\ read_digits a (dec_go fuel n acc) = read_digits (a * 10 ^ k + n) acc.
Proof.
  revert n acc a. induction fuel as [|fuel IH]; intros n acc a Hn Hf.
  { pose proof (Z.log2_nonneg n). lia. }
  cbn [dec_go].
  pose proof (Z.div_mod n 10) as Hdm. pose proof (Z.mod_pos_bound n 10) as Hm.
  destruct (digit_char_spec (n `mod` 10)) as (Hd & Hv & _); [lia|].
  destruct (Z.eqb_spec (n `div` 10) 0) as [Hz|Hz].
  - exists 1. split; [lia|]. simpl. rewrite Hd, Hv. f_equal. lia.
  - assert (n `div` 10 <= n `div` 2) as Hle
      by (pose proof (Z.div_le_compat_l n 2 10); lia).
    assert (0 < n `div` 10) by (pose proof (Z.div_pos n 10); lia).
    assert (n <> 1) by (intros ->; done).
    destruct (IH (n `div` 10) (String (digit_char (n `mod` 10)) acc) a) as (k & Hk & ->); [lia| |].
    + apply Z.log2_le_mono in Hle.
      assert (Z.log2 (n `div` 2) = Z.log2 n - 1).
      { change 2 with (2^1) at 1. rewrite <- Z.shiftr_div_pow2, Z.log2_shiftr by lia.
        pose proof (Z.log2_pos n). lia. }
      lia.
    + exists (k + 1). split; [lia|]. simpl. rewrite Hd, Hv. f_equal.
      rewrite Z.pow_add_r by lia. lia.
Qed.

(** [dec] starts with a digit, whatever follows. *)
Lemma dec_go_head fuel n acc :
  (0 < fuel)%nat -> 0 <= n ->
  exists d s, dec_go fuel n acc = String (digit_char d) s /\ 0 <= d < 10.
Proof.
  revert n acc. induction fuel as [|fuel IH]; intros n acc Hf Hn; [lia|]. cbn [dec_go].
  pose proof (Z.mod_pos_bound n 10). pose proof (Z.div_pos n 10).
  destruct (n `div` 10 =? 0); [by eexists _, _; split; [reflexivity|lia]|].
  destruct fuel as [|fuel]; [by eexists _, _; split; [reflexivity|lia]|].
  apply IH; lia.
Qed.

Lemma read_digits_dec n : 0 <= n -> read_digits 0 (dec n) = (n, EmptyString).
Proof.
  intros Hn. unfold dec.
  destruct (read_dec_go (S (Z.to_nat (Z.log2 n))) n EmptyString 0) as (k & _ & ->);
    [done|pose proof (Z.log2_nonneg n); lia|].
  done.
Qed.

(** A text that starts with a digit has neither blanks nor a sign to skip. *)
Lemma digit_char_match {A} d (x y z : A) :
  0 <= d < 10 -> match digit_char d with "-"%char => x | "+"%char => y | _ => z end = z.
Proof.
  intros H. assert (d = 0 \/ d = 1 \/ d = 2 \/ d = 3 \/ d = 4 \/ d = 5 \/ d = 6 \/ d = 7
    \/ d = 8 \/ d = 9) as Hd by lia.
  by destruct_or! Hd; subst.
Qed.

Lemma strtol_digit d s :
  0 <= d < 10 -> strtol (String (digit_char d) s) =
                 clamp (-2^63) (2^63-1) (fst (read_digits 0 (String (digit_char d) s))).
Proof.
  intros Hd. destruct (digit_char_spec d Hd) as (_ & _ & Hsp).
  unfold strtol. cbn [skip_space]. rewrite Hsp. f_equal. by apply (digit_char_match (A := Z)).
Qed.

Lemma strtol_dec n : 0 <= n < 2^63 -> strtol (dec n) = n.
Proof.
  intros Hn. pose proof (read_digits_dec n ltac:(lia)) as Hr. unfold dec in *.
  destruct (dec_go_head (S (Z.to_nat (Z.log2 n))) n EmptyString) as (d & s & E & Hd); [lia..|].
  rewrite E in *. rewrite strtol_digit, Hr by done. unfold clamp. simpl. lia.
Qed.

Lemma stream_u32_dec n : is_u32 n -> stream_u32 (dec n) = Some n.
Proof.
  unfold is_u32. intros Hn. pose proof (read_digits_dec n ltac:(lia)) as Hr. unfold dec in *.
  destruct (dec_go_head (S (Z.to_nat (Z.log2 n))) n EmptyString) as (d & s & E & Hd); [lia..|].
  rewrite E in *. destruct (digit_char_spec d Hd) as (Hdig & _ & Hsp).
  unfold stream_u32, stream_int. cbn [skip_space]. rewrite Hsp.
  rewrite (digit_char_match (A := bool * string)) by done. rewrite Hdig. cbn [negb]. rewrite Hr. simpl.
  destruct (Z.leb_spec n (2 ^ 32 - 1)); [done|lia].
Qed.

(** Printing an [int] or [unsigned int] and reading it back. *)
Lemma atoi_dec n : 0 <= n < 2^31 -> atoi (dec n) = n.
Proof. intros Hn. unfold atoi. rewrite strtol_dec, to_int32_small by lia. done. Qed.

Lemma atoi_u32_dec n : is_u32 n -> atoi_u32 (dec n) = n.
Proof.
  intros Hn. unfold atoi_u32, atoi, is_u32 in *. rewrite strtol_dec by lia.
  unfold to_int32, wrap32.
  rewrite Zminus_mod_idemp_l. rewrite Z.add_simpl_r. apply Z.mod_small. lia.
Qed.

Lemma dec_inj n m : 0 <= n -> 0 <= m -> dec n = dec m -> n = m.
Proof.
  intros Hn Hm H. apply (f_equal (read_digits 0)) in H.
  rewrite !read_digits_dec in H by done. by simplify_eq.
Qed.

(** Keep [begins] folded on the literal prefixes of the sources. *)
#[global] Arguments begins : simpl never.
#[export] Hint Rewrite app_str_assoc app_str_nil_r drop_str_app : ssp.

(** *** Fixed-width numbers *)

Lemma read_digits_fixed w : forall n acc s,
  0 <= n < 10 ^ Z.of_nat w ->
  read_digits acc (digits w n +:+ s) = read_digits (acc * 10 ^ Z.of_nat w + n) s.
Proof.
  induction w as [|w IH]; intros n acc s Hn; simpl digits.
  { simpl. f_equal. simpl in Hn. lia. }
  rewrite Nat2Z.inj_succ, Z.pow_succ_r in * by lia.
  pose proof (Z.div_mod n 10). pose proof (Z.mod_pos_bound n 10).
  rewrite app_str_assoc, IH by lia. simpl.
  destruct (digit_char_spec (n `mod` 10)) as (-> & -> & _); [lia|]. f_equal. lia.
Qed.

Lemma length_digits w n : String.length (digits w n) = w.
Proof. revert n. induction w as [|w IH]; intros n; simpl; [done|]. rewrite length_str_app, IH. simpl. lia. Qed.

Lemma digits_head w n : exists d s, digits (S w) n = String (digit_char d) s /\ 0 <= d < 10.
Proof.
  revert n. induction w as [|w IH]; intros n.
  - exists (n `mod` 10), EmptyString. split; [done|]. apply Z.mod_pos_bound. lia.
  - destruct (IH (n `div` 10)) as (d & s & E & Hd). exists d. simpl digits in *. rewrite E.
    simpl. eauto.
Qed.

Lemma atoi_u32_digits w n :
  (0 < w <= 9)%nat -> 0 <= n < 10 ^ Z.of_nat w -> atoi_u32 (digits w n) = n.
Proof.
  intros Hw Hn. pose proof (read_digits_fixed w n 0 EmptyString Hn) as Hr.
  rewrite app_str_nil_r in Hr. destruct w as [|w]; [lia|].
  destruct (digits_head w n) as (d & s & E & Hd). rewrite E in *.
  assert (10 ^ Z.of_nat (S w) <= 10 ^ 9) by (apply Z.pow_le_mono_r; lia).
  unfold atoi_u32, atoi. rewrite strtol_digit, Hr by done. simpl fst. unfold clamp.
  change (10 ^ 9) with 1000000000 in *. rewrite to_int32_small by lia. rewrite wrap32_small by (unfold is_u32; lia). lia.
Qed.

Lemma drop_str_app_length (p s : string) n : n = String.length p -> drop_str n (p +:+ s) = s.
Proof. intros ->. apply drop_str_app. Qed.

Lemma take_str_app_length (p s : string) n : n = String.length p -> take_str n (p +:+ s) = p.
Proof. intros ->. induction p as [|c p IH]; simpl; [by destruct s|]. by rewrite IH. Qed.

(** *** Order *)

Lemma string_ltb_cons c d a b :
  string_ltb (String c a) (String d b) = true <->
  (Ascii.N_of_ascii c < Ascii.N_of_ascii d)%N \/ (c = d /\ string_ltb a b = true).
Proof.
  unfold string_ltb. simpl. unfold Ascii.compare.
  destruct (N.compare_spec (Ascii.N_of_ascii c) (Ascii.N_of_ascii d)) as [E|E|E]; simpl.
  - assert (c = d) by (rewrite <- (Ascii.ascii_N_embedding c), E; apply Ascii.ascii_N_embedding).
    split; [by right|]. intros [?|[_ ?]]; [lia|done].
  - split; [by left|done].
  - split; [done|]. intros [?|[-> _]]; lia.
Qed.

Lemma string_ltb_trans a : forall b c, string_ltb a b = true -> string_ltb b c = true -> string_ltb a c = true.
Proof.
  induction a as [|x a IH]; intros [|y b] [|z c]; try done.
  rewrite !string_ltb_cons. intros [H|[-> H]] [H'|[-> H']]; [left; lia|by left|by left|right; eauto].
Qed.

Lemma string_ltb_irrefl a : string_ltb a a = false.
Proof.
  induction a as [|c a IH]; [done|]. apply not_true_iff_false. rewrite string_ltb_cons.
  intros [H|[_ H]]; [lia|congruence].
Qed.

Lemma string_ltb_total a b : string_ltb a b = false -> a <> b -> string_ltb b a = true.
Proof.
  unfold string_ltb. rewrite (String.compare_antisym b a). intros H Hne.
  destruct (String.compare a b) eqn:E; [|done|done]. by apply String.compare_eq_iff in E.
Qed.

Lemma string_ltb_incomparable a b c :
  string_ltb a b = false -> string_ltb b c = false -> string_ltb a c = false.
Proof.
  intros H1 H2. apply not_true_iff_false. intros H. destruct (String.eqb_spec a b) as [->|Hne]; [congruence|].
  pose proof (string_ltb_trans b a c (string_ltb_total a b H1 Hne) H). congruence.
Qed.
