(* ===== verification/Sip.v ===== *)
(** * Sip: what both modes of the proxy look at in a SIP message

    The methods the proxy distinguishes ([sip_method_t] of the SIP stack; every
    other method is [sip_method_other]), and the fixed buffer that request URIs
    are copied to. *)

From S2P Require Import Prelude Text.

Inductive sip_method :=
| sip_method_options
| sip_method_invite
| sip_method_ack
| sip_method_bye
| sip_method_cancel
| sip_method_other.

#[export] Instance sip_method_eq_dec : EqDecision sip_method.
Proof. solve_decision. Defined.

Definition URL_MAXLEN : Z := 65536.

(** Copying a text of the given length into [char str[URL_MAXLEN]] with
    [strncpy]: past the end of the array unless it fits with its final NUL. *)
Definition fits_url {St} (url : string) : M St unit :=
  if length_ url <? URL_MAXLEN then mret tt else fail PastTheEnd.

(** A bound on the addresses of servers and trunks, far below the buffer. *)
Definition ADDRESS_MAX : Z := 1024.

Lemma fits_returns {S} url (Q : unit -> S -> Prop) s : length_ url < URL_MAXLEN -> Q tt s -> returns (fits_url url) Q s.
Proof. intros H HQ. unfold fits_url. destruct (Z.ltb_spec (length_ url) URL_MAXLEN); [done|lia]. Qed.
