(* ===== verification/Bimap.v ===== *)
(** * Bimap: the two-way maps of the call tables

    [boost::bimap] with a set view on each side, as a list of pairs: an
    insertion does nothing when either key is present; each side finds and
    erases by its own key. *)

From S2P Require Import Prelude.

(** ** Operations *)

Definition bimap : Type := list (Z * Z).

Definition left_find (a : Z) (m : bimap) : option Z := snd <$> List.find (fun p => fst p =? a) m.
Definition right_find (b : Z) (m : bimap) : option Z := fst <$> List.find (fun p => snd p =? b) m.
Definition left_erase (a : Z) (m : bimap) : bimap := List.filter (fun p => negb (fst p =? a)) m.
Definition right_erase (b : Z) (m : bimap) : bimap := List.filter (fun p => negb (snd p =? b)) m.

Definition bimap_insert (a b : Z) (m : bimap) : bimap :=
  if existsb (fun p => (fst p =? a) || (snd p =? b)) m then m else (a, b) :: m.

(** Neither side repeats a key. *)
Definition bimap_ok (m : bimap) : Prop := NoDup (map fst m) /\ NoDup (map snd m).

(** ** Lemmas *)

Lemma left_find_in a b m : left_find a m = Some b -> (a, b) ∈ m.
Proof.
  unfold left_find. destruct (List.find _ m) as [[a' b']|] eqn:E; [|done].
  apply find_some in E as [Hin Ha]. simpl in *. apply Z.eqb_eq in Ha as ->. intros [= ->].
  by apply list_elem_of_In.
Qed.

Lemma right_find_in a b m : right_find b m = Some a -> (a, b) ∈ m.
Proof.
  unfold right_find. destruct (List.find _ m) as [[a' b']|] eqn:E; [|done].
  apply find_some in E as [Hin Hb]. simpl in *. apply Z.eqb_eq in Hb as ->. intros [= ->].
  by apply list_elem_of_In.
Qed.

Lemma fst_inj (m : bimap) a b b' : NoDup (map fst m) -> (a, b) ∈ m -> (a, b') ∈ m -> b = b'.
Proof.
  induction m as [|[x y] m IH]; simpl; [by intros _ ?%elem_of_nil|]. intros [Hx Hm]%NoDup_cons.
  assert (forall c, (x, c) ∉ m) as Hnot.
  { intros c Hc. apply Hx. apply list_elem_of_fmap. by exists (x, c). }
  rewrite !elem_of_cons. intros [H1|H1] [H2|H2]; simplify_eq/=.
  - done.
  - by destruct (Hnot _ H2).
  - by destruct (Hnot _ H1).
  - by apply IH.
Qed.

Lemma snd_inj (m : bimap) a a' b : NoDup (map snd m) -> (a, b) ∈ m -> (a', b) ∈ m -> a = a'.
Proof.
  induction m as [|[x y] m IH]; simpl; [by intros _ ?%elem_of_nil|]. intros [Hx Hm]%NoDup_cons.
  assert (forall c, (c, y) ∉ m) as Hnot.
  { intros c Hc. apply Hx. apply list_elem_of_fmap. by exists (c, y). }
  rewrite !elem_of_cons. intros [H1|H1] [H2|H2]; simplify_eq/=.
  - done.
  - by destruct (Hnot _ H2).
  - by destruct (Hnot _ H1).
  - by apply IH.
Qed.

Lemma left_find_Some m a b : bimap_ok m -> left_find a m = Some b <-> (a, b) ∈ m.
Proof.
  intros [Hf _]. split; [apply left_find_in|]. intros Hin.
  unfold left_find. destruct (List.find _ m) as [[a' b']|] eqn:E.
  - apply find_some in E as [Hin' Ha]. simpl in *. apply Z.eqb_eq in Ha as ->. f_equal.
    apply list_elem_of_In in Hin'. by eapply fst_inj.
  - apply list_elem_of_In in Hin. apply (find_none _ _ E) in Hin. simpl in Hin. by rewrite Z.eqb_refl in Hin.
Qed.

Lemma right_find_Some m a b : bimap_ok m -> right_find b m = Some a <-> (a, b) ∈ m.
Proof.
  intros [_ Hs]. split; [apply right_find_in|]. intros Hin.
  unfold right_find. destruct (List.find _ m) as [[a' b']|] eqn:E.
  - apply find_some in E as [Hin' Hb]. simpl in *. apply Z.eqb_eq in Hb as ->. f_equal.
    apply list_elem_of_In in Hin'. by eapply snd_inj.
  - apply list_elem_of_In in Hin. apply (find_none _ _ E) in Hin. simpl in Hin. by rewrite Z.eqb_refl in Hin.
Qed.

Lemma left_find_None m a : left_find a m = None <-> a ∉ map fst m.
Proof.
  unfold left_find. split.
  - destruct (List.find _ m) eqn:E; [done|]. intros _ Hin.
    apply list_elem_of_fmap in Hin as ([x y] & -> & Hin). apply list_elem_of_In in Hin.
    apply (find_none _ _ E) in Hin. simpl in Hin. by rewrite Z.eqb_refl in Hin.
  - intros Hnot. destruct (List.find _ m) as [[x y]|] eqn:E; [|done].
    apply find_some in E as [Hin Ha]. simpl in Ha. apply Z.eqb_eq in Ha as ->.
    destruct Hnot. apply list_elem_of_fmap. exists (a, y). by rewrite list_elem_of_In.
Qed.

Lemma right_find_None m b : right_find b m = None <-> b ∉ map snd m.
Proof.
  unfold right_find. split.
  - destruct (List.find _ m) eqn:E; [done|]. intros _ Hin.
    apply list_elem_of_fmap in Hin as ([x y] & -> & Hin). apply list_elem_of_In in Hin.
    apply (find_none _ _ E) in Hin. simpl in Hin. by rewrite Z.eqb_refl in Hin.
  - intros Hnot. destruct (List.find _ m) as [[x y]|] eqn:E; [|done].
    apply find_some in E as [Hin Ha]. simpl in Ha. apply Z.eqb_eq in Ha as ->.
    destruct Hnot. apply list_elem_of_fmap. exists (x, b). by rewrite list_elem_of_In.
Qed.

Lemma elem_of_left_erase m a p : p ∈ left_erase a m <-> p ∈ m /\ fst p <> a.
Proof.
  unfold left_erase. rewrite !list_elem_of_In, filter_In. destruct (Z.eqb_spec (fst p) a); naive_solver.
Qed.

Lemma elem_of_right_erase m b p : p ∈ right_erase b m <-> p ∈ m /\ snd p <> b.
Proof.
  unfold right_erase. rewrite !list_elem_of_In, filter_In. destruct (Z.eqb_spec (snd p) b); naive_solver.
Qed.

Lemma NoDup_map_filter {A} (f : A -> Z) (g : A -> bool) l : NoDup (map f l) -> NoDup (map f (List.filter g l)).
Proof.
  induction l as [|x l IH]; simpl; [done|]. intros [Hx Hl]%NoDup_cons. destruct (g x); [|by apply IH].
  simpl. constructor; [|by apply IH]. intros (y & E & Hy)%list_elem_of_fmap. apply Hx.
  apply list_elem_of_fmap. exists y. split; [done|]. apply list_elem_of_In in Hy. apply filter_In in Hy as [Hy _].
  by apply list_elem_of_In.
Qed.

Lemma bimap_ok_left_erase a m : bimap_ok m -> bimap_ok (left_erase a m).
Proof. intros [H1 H2]. by split; apply NoDup_map_filter. Qed.

Lemma bimap_ok_right_erase b m : bimap_ok m -> bimap_ok (right_erase b m).
Proof. intros [H1 H2]. by split; apply NoDup_map_filter. Qed.

(** With both keys absent, the insertion takes place. *)
Lemma bimap_insert_fresh a b m : a ∉ map fst m -> b ∉ map snd m -> bimap_insert a b m = (a, b) :: m.
Proof.
  intros Ha Hb. unfold bimap_insert. destruct (existsb _ m) eqn:E; [|done].
  apply existsb_exists in E as ([x y] & Hin & H). simpl in H. apply list_elem_of_In in Hin.
  apply orb_true_iff in H as [->%Z.eqb_eq| ->%Z.eqb_eq].
  - destruct Ha. apply list_elem_of_fmap. by exists (a, y).
  - destruct Hb. apply list_elem_of_fmap. by exists (x, b).
Qed.

Lemma bimap_ok_cons a b m : a ∉ map fst m -> b ∉ map snd m -> bimap_ok m -> bimap_ok ((a, b) :: m).
Proof. intros Ha Hb [H1 H2]. split; simpl; by constructor. Qed.

(** An insertion keeps the map one-to-one, also when it does nothing. *)
Lemma bimap_ok_insert a b m : bimap_ok m -> bimap_ok (bimap_insert a b m).
Proof.
  intros Hm. unfold bimap_insert. destruct (existsb _ m) eqn:E; [done|]. apply bimap_ok_cons; [| |done].
  - intros ([x y] & -> & Hin)%list_elem_of_fmap. simpl in E.
    assert (existsb (fun p => (fst p =? x) || (snd p =? b)) m = true) as E'; [|congruence].
    apply existsb_exists. exists (x, y). rewrite <- list_elem_of_In. split; [done|]. simpl. by rewrite Z.eqb_refl.
  - intros ([x y] & -> & Hin)%list_elem_of_fmap. simpl in E.
    assert (existsb (fun p => (fst p =? a) || (snd p =? y)) m = true) as E'; [|congruence].
    apply existsb_exists. exists (x, y). rewrite <- list_elem_of_In. split; [done|]. simpl.
    by rewrite Z.eqb_refl, orb_true_r.
Qed.

Lemma elem_of_keys (m : bimap) a b : (a, b) ∈ m -> a ∈ map fst m /\ b ∈ map snd m.
Proof. intros H. split; apply list_elem_of_fmap; by exists (a, b). Qed.

Lemma elem_of_fst (m : bimap) a : a ∈ map fst m <-> exists b, (a, b) ∈ m.
Proof.
  rewrite list_elem_of_fmap. split; [intros ([x y] & -> & H); eauto|].
  intros (b & H). by exists (a, b).
Qed.

Lemma elem_of_snd (m : bimap) b : b ∈ map snd m <-> exists a, (a, b) ∈ m.
Proof.
  rewrite list_elem_of_fmap. split; [intros ([x y] & -> & H); eauto|].
  intros (a & H). by exists (a, b).
Qed.

#[export] Hint Resolve bimap_ok_left_erase bimap_ok_right_erase bimap_ok_insert : ssp.

Lemma filter_filter_b {A} (f g : A -> bool) l :
  List.filter f (List.filter g l) = List.filter (fun x => g x && f x) l.
Proof.
  induction l as [|x l IH]; simpl; [done|]. destruct (g x); simpl; [|done]. destruct (f x); by rewrite IH.
Qed.

Lemma filter_ext_in_b {A} (f g : A -> bool) l :
  (forall x, x ∈ l -> f x = g x) -> List.filter f l = List.filter g l.
Proof. intros H. apply filter_ext_in. intros x Hx. by apply H, list_elem_of_In. Qed.
