(* ===== verification/Ssp.v ===== *)
(** * Ssp: the enumerations of [ssp.h] and their textual forms ([ssp.cpp])

    The three conversion functions look a key up in a function-local static
    [boost::unordered_map]; the maps are the association lists below. *)

From S2P Require Import Prelude Text.

(** ** Data *)

Inductive severity_levels := log_notice | log_error | log_warning | log_info | log_debug.

Inductive routing_error :=
| invalid_sender
| dnis_not_provisioned
| no_available_server
| no_routes_provisioned.

Inductive routing_strategy :=
| unknown_routing_strategy
| round_robin
| least_loaded
| random
| same_in_same_out_carrier
| same_in_same_out_server
| selected_carrier
| selected_server.

Inductive route_selector := unknown_route_selector | ani_selector | customer_selector.

Inductive agent_mode := agent_mode_stateless | agent_mode_stateful.

Inductive call_type_t := unknown_call_type | origination_call_type | termination_call_type.

#[export] Instance severity_levels_eq_dec : EqDecision severity_levels.
Proof. solve_decision. Defined.
#[export] Instance routing_error_eq_dec : EqDecision routing_error.
Proof. solve_decision. Defined.
#[export] Instance routing_strategy_eq_dec : EqDecision routing_strategy.
Proof. solve_decision. Defined.
#[export] Instance route_selector_eq_dec : EqDecision route_selector.
Proof. solve_decision. Defined.
#[export] Instance agent_mode_eq_dec : EqDecision agent_mode.
Proof. solve_decision. Defined.
#[export] Instance call_type_eq_dec : EqDecision call_type_t.
Proof. solve_decision. Defined.

(** The numeric value the compiler gives a severity; the log filter of the
    controller and the sofia log redirection compare severities by it. *)
Definition severity_value (l : severity_levels) : Z :=
  match l with
  | log_notice => 0 | log_error => 1 | log_warning => 2 | log_info => 3 | log_debug => 4
  end.

(** ** Conversions *)

Definition routing_strategy_map : list (string * routing_strategy) :=
  [ ("round-robin", round_robin);
    ("least-loaded", least_loaded);
    ("random", random);
    ("same-in-same-out-carrier", same_in_same_out_carrier);
    ("same-in-same-out-server", same_in_same_out_server);
    ("selected-carrier", selected_carrier);
    ("selected-server", selected_server) ].

Definition route_selector_map : list (string * route_selector) :=
  [ ("ani", ani_selector); ("customer", customer_selector) ].

Definition routing_error_map : list (routing_error * string) :=
  [ (dnis_not_provisioned, "dnis is not provisioned");
    (invalid_sender, "invalid sender");
    (no_available_server, "no available server");
    (no_routes_provisioned, "no routes provisioned") ].

(** [map.find(k)], the first pair with that key. *)
Fixpoint find_key {K V} `{EqDecision K} (k : K) (l : list (K * V)) : option V :=
  match l with
  | [] => None
  | (k', v) :: l' => if decide (k = k') then Some v else find_key k l'
  end.

Definition String2RoutingStrategy (s : string) : routing_strategy :=
  default unknown_routing_strategy (find_key s routing_strategy_map).

Definition String2RouteSelector (s : string) : route_selector :=
  default unknown_route_selector (find_key s route_selector_map).

Definition RoutingError2String (e : routing_error) : string :=
  default "unknown error" (find_key e routing_error_map).

(** ** Properties *)

Lemma elem_of_key {K V} (k : K) (v : V) l : (k, v) ∈ l -> k ∈ l.*1.
Proof. intros H. apply list_elem_of_fmap. by exists (k, v). Qed.

Lemma find_key_spec {K V} `{EqDecision K} (k : K) (v : V) l :
  NoDup l.*1 -> find_key k l = Some v <-> (k, v) ∈ l.
Proof.
  induction l as [|[k' v'] l IH]; simpl; [by intros _; split; [|intros ?%not_elem_of_nil]|].
  intros [Hk Hl]%NoDup_cons. rewrite elem_of_cons. case_decide as E; subst.
  - split; [by intros [= ->]; left|]. intros [[= ->]|Hin]; [done|].
    destruct Hk. by eapply elem_of_key.
  - rewrite IH by done. naive_solver.
Qed.

(** The spelling of a routing strategy is recognised exactly: a string
    converts to a known strategy iff it is the one spelling the table gives
    that strategy, and every other string converts to
    [unknown_routing_strategy]. *)
Theorem String2RoutingStrategy_spec (s : string) (r : routing_strategy) :
  String2RoutingStrategy s = r <->
  (s, r) ∈ routing_strategy_map \/
  (r = unknown_routing_strategy /\ s ∉ routing_strategy_map.*1).
Proof.
  unfold String2RoutingStrategy.
  assert (NoDup routing_strategy_map.*1) as Hnd by (apply (bool_decide_unpack _); by vm_compute).
  destruct (find_key s routing_strategy_map) as [v|] eqn:E.
  - apply find_key_spec in E; [|done]. split.
    + intros <-. by left.
    + intros [Hr|[_ Hs]].
      * apply find_key_spec in E, Hr; [|done..]. rewrite E in Hr. by injection Hr.
      * destruct Hs. by eapply elem_of_key.
  - split.
    + intros <-. right. split; [done|]. intros [[s' v] [-> Hin]]%list_elem_of_fmap.
      apply find_key_spec in Hin; [|done].
      change (find_key s' routing_strategy_map = None) in E. by rewrite E in Hin.
    + intros [Hr|[-> _]]; [|done]. apply find_key_spec in Hr; [|done]. by rewrite E in Hr.
Qed.
