(* ===== verification/Tokenizer.v ===== *)
(** * Tokenizer: [boost::tokenizer] with a [char_separator]

    Every parser of the program ([FsMessage], [FsMonitor::reset],
    [NagiosConnector]) cuts its input with [boost::tokenizer] and a
    [boost::char_separator<char>] built from a string of dropped delimiters,
    with no kept delimiters and the [drop_empty_tokens] policy.  The functor
    and the iterator are those of the Boost sources bundled with the
    program. *)

From S2P Require Import Prelude Text.

(** [for(; next != end && is_dropped( *next ); ++next)]. *)
Fixpoint skip_dropped (dropped s : string) : string :=
  match s with
  | String c s' => if mem_char c dropped then skip_dropped dropped s' else s
  | EmptyString => EmptyString
  end.

(** [for(; next != end && !is_dropped( *next ); ++next) tok += *next]: the token
    and what is left. *)
Fixpoint take_token (dropped s : string) : string * string :=
  match s with
  | String c s' =>
      if mem_char c dropped then (EmptyString, s)
      else let '(t, r) := take_token dropped s' in (String c t, r)
  | EmptyString => (EmptyString, EmptyString)
  end.

(** [char_separator::operator()(next, end, tok)]: [None] when it returns
    [false]. *)
Definition char_separator (dropped s : string) : option (string * string) :=
  match skip_dropped dropped s with
  | EmptyString => None
  | s' => Some (take_token dropped s')
  end.

(** The tokens a [token_iterator] visits from [begin()] to [end()]; each call
    of the functor consumes a character, so the length of the input is enough
    fuel ([tokenize_unfold]). *)
Fixpoint tokens_from (fuel : nat) (dropped s : string) : list string :=
  match fuel with
  | O => []
  | S fuel' =>
      match char_separator dropped s with
      | None => []
      | Some (t, r) => t :: tokens_from fuel' dropped r
      end
  end.

Definition tokenize (dropped s : string) : list string :=
  tokens_from (String.length s) dropped s.

(** A [token_iterator] is represented by the tokens it has still to visit;
    [dereference] and [increment] assert that it is valid. *)
Definition token_iterator : Type := list string.

Definition dereference (it : token_iterator) : outcome string :=
  match it with t :: _ => Ok t | [] => Fault AssertFailed end.

Definition increment (it : token_iterator) : outcome token_iterator :=
  match it with _ :: r => Ok r | [] => Fault AssertFailed end.

(** [std::advance(it, n)]. *)
Fixpoint advance (n : nat) (it : token_iterator) : outcome token_iterator :=
  match n with
  | O => Ok it
  | S n' => it' ← increment it; advance n' it'
  end.

(** ** Reference definition: cut at every dropped character, then drop the
    empty pieces *)

Fixpoint split_all (dropped s cur : string) : list string :=
  match s with
  | EmptyString => [cur]
  | String c s' =>
      if mem_char c dropped then cur :: split_all dropped s' EmptyString
      else split_all dropped s' (cur +:+ String c EmptyString)
  end.

Definition tokens_ref (dropped s : string) : list string :=
  filter (fun t => t <> EmptyString) (split_all dropped s EmptyString).

(** A string none of whose characters is dropped. *)
Definition clean (dropped t : string) : bool :=
  negb (exists_char (fun c => mem_char c dropped) t).

(** ** Lemmas *)

Lemma length_skip_dropped d s : (String.length (skip_dropped d s) <= String.length s)%nat.
Proof. induction s; simpl; [done|]. case_match; simpl; lia. Qed.

Lemma take_token_app d s t r : take_token d s = (t, r) -> s = t +:+ r.
Proof.
  revert t r. induction s as [|c s IH]; simpl; intros t r.
  - by intros [= <- <-].
  - destruct (mem_char c d); [by intros [= <- <-]|].
    destruct (take_token d s) as [t' r'] eqn:E. intros [= <- <-]. simpl. f_equal. by apply IH.
Qed.

Lemma skip_dropped_head d s c s' : skip_dropped d s = String c s' -> mem_char c d = false.
Proof.
  induction s as [|a s IH]; simpl; [done|]. destruct (mem_char a d) eqn:E; [done|].
  by intros [= <- <-].
Qed.

Lemma char_separator_shorter d s t r :
  char_separator d s = Some (t, r) -> (String.length r < String.length s)%nat /\ t <> EmptyString.
Proof.
  unfold char_separator. pose proof (length_skip_dropped d s).
  destruct (skip_dropped d s) as [|c s'] eqn:E; [done|].
  apply skip_dropped_head in E. simpl. rewrite E.
  destruct (take_token d s') as [t' r'] eqn:E'. intros [= <- <-].
  apply take_token_app in E'. subst. simpl in *. rewrite length_str_app in *. split; [lia|done].
Qed.

Lemma tokens_from_fuel d n m s :
  (String.length s <= n)%nat -> (String.length s <= m)%nat -> tokens_from n d s = tokens_from m d s.
Proof.
  revert m s. induction n as [|n IH]; intros m s Hn Hm.
  - destruct s; simpl in *; [|lia]. by destruct m.
  - destruct m as [|m]; [destruct s; simpl in *; [done|lia]|]. cbn [tokens_from].
    destruct (char_separator d s) as [[t r]|] eqn:E; [|done].
    apply char_separator_shorter in E as [? _]. f_equal. apply IH; lia.
Qed.

Lemma tokenize_unfold d s :
  tokenize d s = match char_separator d s with
                 | None => []
                 | Some (t, r) => t :: tokenize d r
                 end.
Proof.
  unfold tokenize at 1. destruct s as [|c s]; [done|]. cbn [String.length tokens_from].
  destruct (char_separator d (String c s)) as [[t r]|] eqn:E; [|done].
  apply char_separator_shorter in E as [Hl _]. f_equal. apply tokens_from_fuel; simpl in *; lia.
Qed.

(** Induction on the length of the input. *)
Lemma string_length_ind (P : string -> Prop) :
  (forall s, (forall s', (String.length s' < String.length s)%nat -> P s') -> P s) -> forall s, P s.
Proof.
  intros H s. remember (String.length s) as n eqn:En. revert s En.
  induction (lt_wf n) as [n _ IH]. intros s ->. apply H. intros s' Hs'. by eapply IH.
Qed.

Lemma tokenize_nil d : tokenize d EmptyString = [].
Proof. done. Qed.

(** A dropped character at the front changes nothing. *)
Lemma tokenize_dropped d c s : mem_char c d = true -> tokenize d (String c s) = tokenize d s.
Proof.
  intros Hc. rewrite (tokenize_unfold d (String c s)), (tokenize_unfold d s).
  unfold char_separator. simpl. by rewrite Hc.
Qed.

Lemma clean_cons d c t : clean d (String c t) = negb (mem_char c d) && clean d t.
Proof. unfold clean. simpl. by rewrite negb_orb. Qed.

Lemma take_token_clean d t s :
  clean d t = true -> (s = EmptyString \/ exists c s', s = String c s' /\ mem_char c d = true) ->
  take_token d (t +:+ s) = (t, s).
Proof.
  intros Ht Hs. induction t as [|c t IH]; simpl.
  - destruct Hs as [->|(c & s' & -> & Hc)]; [done|]. simpl. by rewrite Hc.
  - rewrite clean_cons in Ht. apply andb_true_iff in Ht as [Hc Ht].
    apply negb_true_iff in Hc. by rewrite Hc, IH.
Qed.

(** A clean token followed by a dropped character or by the end of the input
    is the first token. *)
Lemma tokenize_token d t s :
  t <> EmptyString -> clean d t = true ->
  (s = EmptyString \/ exists c s', s = String c s' /\ mem_char c d = true) ->
  tokenize d (t +:+ s) = t :: tokenize d s.
Proof.
  intros Hne Ht Hs. rewrite tokenize_unfold. unfold char_separator.
  pose proof (take_token_clean d t s Ht Hs) as E.
  destruct t as [|c t]; [done|]. simpl in *. rewrite clean_cons in Ht.
  apply andb_true_iff in Ht as [Hc Ht]. apply negb_true_iff in Hc. rewrite Hc in *. simpl.
  rewrite Hc. by rewrite E.
Qed.

Lemma tokenize_one d t : t <> EmptyString -> clean d t = true -> tokenize d t = [t].
Proof.
  intros Hne Ht. rewrite <- (app_str_nil_r t) at 1. rewrite tokenize_token; auto.
Qed.

Lemma tokenize_sep d t c s :
  t <> EmptyString -> clean d t = true -> mem_char c d = true ->
  tokenize d (t +:+ String c s) = t :: tokenize d s.
Proof.
  intros Hne Ht Hc. rewrite tokenize_token, tokenize_dropped; eauto.
Qed.

Lemma split_all_clean d t s cur :
  clean d t = true -> split_all d (t +:+ s) cur = split_all d s (cur +:+ t).
Proof.
  revert cur. induction t as [|c t IH]; intros cur Ht; simpl; [by rewrite app_str_nil_r|].
  rewrite clean_cons in Ht. apply andb_true_iff in Ht as [Hc%negb_true_iff Ht].
  rewrite Hc, IH by done. by rewrite app_str_assoc.
Qed.

Lemma take_token_spec d s t r :
  take_token d s = (t, r) ->
  clean d t = true /\ (r = EmptyString \/ exists c r', r = String c r' /\ mem_char c d = true).
Proof.
  revert t r. induction s as [|c s IH]; simpl; intros t r.
  - intros [= <- <-]. auto.
  - destruct (mem_char c d) eqn:E; [intros [= <- <-]; eauto 10|].
    destruct (take_token d s) as [t' r'] eqn:E'. intros [= <- <-].
    rewrite clean_cons, E. simpl. by apply IH.
Qed.

(** C32: The tokenizer's loop over [char_separator] terminates and computes
    the reference definition: the input is cut at every dropped character and
    the empty pieces are dropped. *)
Theorem tokenize_correct (d s : string) : tokenize d s = tokens_ref d s.
Proof.
  unfold tokens_ref. induction s as [s IH] using string_length_ind.
  destruct s as [|c s]; [done|]. destruct (mem_char c d) eqn:Hc.
  - rewrite tokenize_dropped by done. rewrite IH by (simpl; lia).
    simpl. rewrite Hc. by rewrite filter_cons_False by naive_solver.
  - destruct (take_token d (String c s)) as [t r] eqn:E.
    pose proof (take_token_app _ _ _ _ E) as Es. rewrite Es in IH |- *.
    assert (t <> EmptyString) as Hne.
    { simpl in E. rewrite Hc in E. destruct (take_token d s). by simplify_eq. }
    destruct (take_token_spec _ _ _ _ E) as [Ht Hr].
    rewrite tokenize_token by done. rewrite split_all_clean by done. simpl.
    rewrite IH by (rewrite length_str_app; destruct t; simpl; [done|lia]).
    destruct Hr as [->|(a & r' & -> & Ha)]; simpl.
    + rewrite !filter_cons. by repeat case_decide.
    + rewrite Ha, !filter_cons. by repeat case_decide.
Qed.

(** Every token is non-empty and free of delimiters. *)
Lemma tokenize_tokens d s : Forall (fun t => t <> EmptyString /\ clean d t = true) (tokenize d s).
Proof.
  induction s as [s IH] using string_length_ind. rewrite tokenize_unfold.
  unfold char_separator. destruct (skip_dropped d s) as [|c s'] eqn:E; [constructor|].
  destruct (take_token d (String c s')) as [t r] eqn:E'.
  assert (char_separator d s = Some (t, r)) as Hcs by (unfold char_separator; by rewrite E, E').
  apply char_separator_shorter in Hcs as [Hl Hne]. apply take_token_spec in E' as [Ht _].
  constructor; [done|]. by apply IH.
Qed.

(** Advancing succeeds iff there are enough tokens. *)
Lemma advance_spec n it :
  advance n it = if (n <=? length it)%nat then Ok (drop n it) else Fault AssertFailed.
Proof. revert it. induction n as [|n IH]; intros [|t it]; simpl; [done..|apply IH]. Qed.
