(* ===== verification/FsMessage.v ===== *)
(** * FsMessage: the event-socket messages of a FreeSWITCH server

    [fs-message.h] and [fs-message.cpp]: the bytes read from the event socket
    are appended to an [FsMessage], whose [parse] recognises the header lines
    and collects the content until it has the declared length; the two query
    functions read the SIP profile and the session counts out of the content.
    The log statements are left out. *)

From S2P Require Import Prelude Text Tokenizer.

(** ** Data *)

Inductive FS_MSG_CATEGORY := unknown_category | api | auth | command | text.
Inductive FS_MSG_TYPE := unknown_type | request | reply | response | disconnect_notice.
Inductive FS_REPLY_STATUS := undefined | ok | err.

#[export] Instance FS_MSG_CATEGORY_eq_dec : EqDecision FS_MSG_CATEGORY.
Proof. solve_decision. Defined.
#[export] Instance FS_MSG_TYPE_eq_dec : EqDecision FS_MSG_TYPE.
Proof. solve_decision. Defined.
#[export] Instance FS_REPLY_STATUS_eq_dec : EqDecision FS_REPLY_STATUS.
Proof. solve_decision. Defined.

Record FsMessage := mkFsMessage {
  m_category : FS_MSG_CATEGORY;
  m_type : FS_MSG_TYPE;
  m_replyStatus : FS_REPLY_STATUS;
  m_strReplyText : string;
  m_nContentLength : Z;
  m_strContent : string;
  m_rawMsg : string;
  m_bValid : bool;
  m_bComplete : bool
}.

#[export] Instance FsMessage_rebuild : Rebuild FsMessage := fun m =>
  mkFsMessage (m_category m) (m_type m) (m_replyStatus m) (m_strReplyText m)
    (m_nContentLength m) (m_strContent m) (m_rawMsg m) (m_bValid m) (m_bComplete m).

(** The [string] exceptions [parse] throws, by the check that fails. *)
Inductive parse_error :=
| ExpectedContentType
| InvalidContentType
| UnknownCategory
| UnknownType
| MultipleReplyText
| ExpectedReplyText
| InvalidReplyStatus
| ExpectedContentLength.

(** ** Parsing *)

(** [FsMessage::reset]; the constructor calls it. *)
Definition reset (m : FsMessage) : FsMessage :=
  m <| m_category := unknown_category |> <| m_type := unknown_type |>
    <| m_replyStatus := undefined |> <| m_rawMsg := EmptyString |>
    <| m_strContent := EmptyString |> <| m_strReplyText := EmptyString |>
    <| m_nContentLength := 0 |> <| m_bComplete := false |> <| m_bValid := false |>.

Definition new_FsMessage : FsMessage :=
  mkFsMessage unknown_category unknown_type undefined EmptyString 0 EmptyString EmptyString
    false false.

Definition category_of (t : string) : option FS_MSG_CATEGORY :=
  if String.eqb t "api" then Some api
  else if String.eqb t "auth" then Some auth
  else if String.eqb t "command" then Some command
  else if String.eqb t "text" then Some text
  else None.

Definition type_of (t : string) : option FS_MSG_TYPE :=
  if String.eqb t "reply" then Some reply
  else if String.eqb t "request" then Some request
  else if String.eqb t "response" then Some response
  else if String.eqb t "disconnect-notice" then Some disconnect_notice
  else None.

(** The first branch of the loop body: the [Content-Type] line. *)
Definition parse_content_type (line : string) (m : FsMessage) : FsMessage * option parse_error :=
  if negb (begins "Content-Type: " line) then (m, Some ExpectedContentType)
  else
    let s := drop_str 14 line in
    match tokenize "/" s with
    | [t1; t2] =>
        match category_of t1 with
        | None => (m, Some UnknownCategory)
        | Some c =>
            let m := m <| m_category := c |> in
            match type_of t2 with
            | None => (m, Some UnknownType)
            | Some t => (m <| m_type := t |>, None)
            end
        end
    | _ => (m, Some InvalidContentType)
    end.

(** The second branch: the [Reply-Text] line of a [command/reply]. *)
Definition parse_reply_text (line : string) (m : FsMessage) : FsMessage * option parse_error :=
  if decide (m_replyStatus m <> undefined) then (m, Some MultipleReplyText)
  else if negb (begins "Reply-Text: " line) then (m, Some ExpectedReplyText)
  else
    let m := m <| m_strReplyText := line |> in
    let s := drop_str 12 line in
    if begins "+OK" s then (m <| m_replyStatus := ok |>, None)
    else if begins "+ERR" s then (m <| m_replyStatus := err |>, None)
    else (m, Some InvalidReplyStatus).

(** The third branch: the [Content-Length] line and the content lines. *)
Definition parse_content (line : string) (m : FsMessage) : FsMessage * option parse_error :=
  if m_nContentLength m =? 0 then
    if negb (begins "Content-Length: " line) then (m, Some ExpectedContentLength)
    else (m <| m_nContentLength := atoi_u32 (drop_str 16 line) |>, None)
  else (m <| m_strContent ::= fun c => c +:+ line +:+ endl |>, None).

(** One iteration of the loop over the lines. *)
Definition parse_line (line : string) (m : FsMessage) : FsMessage * option parse_error :=
  if decide (m_category m = unknown_category) then parse_content_type line m
  else if decide (m_category m = command /\ m_type m = reply) then parse_reply_text line m
  else if decide ((m_category m = api /\ m_type m = response) \/ m_category m = text)
    then parse_content line m
  else (m, None).

(** The loop; an exception leaves it with the members as they are. *)
Fixpoint parse_lines (lines : list string) (m : FsMessage) : FsMessage * option parse_error :=
  match lines with
  | [] => (m, None)
  | line :: lines' =>
      match parse_line line m with
      | (m', None) => parse_lines lines' m'
      | (m', Some e) => (m', Some e)
      end
  end.

(** The condition under which the message is complete. *)
Definition has_all (m : FsMessage) : bool :=
  bool_decide (m_type m = request)
  || bool_decide (m_type m = reply /\ m_replyStatus m <> undefined)
  || ((0 <? m_nContentLength m) && (length_ (m_strContent m) =? m_nContentLength m)).

(** [FsMessage::parse]. *)
Definition parse (data : string) (m : FsMessage) : FsMessage * option parse_error :=
  let '(m', e) :=
    if 0 <? m_nContentLength m then (m <| m_strContent ::= fun c => c +:+ data |>, None)
    else parse_lines (tokenize endl (m_rawMsg m)) m in
  match e with
  | Some _ => (m', e)
  | None => ((if has_all m' then m' <| m_bComplete := true |> else m'), None)
  end.

(** [FsMessage::append]: the exception is caught and logged.  (Its result,
    [m_bComplete], is read through [isComplete] by the caller.) *)
Definition append (data : string) (m : FsMessage) : FsMessage :=
  let m := m <| m_rawMsg ::= fun r => r +:+ data |> in
  match parse data m with
  | (m', None) => m' <| m_bValid := true |>
  | (m', Some _) => m'
  end.

Definition isComplete (m : FsMessage) : bool := m_bComplete m.

(** ** Queries *)

(** [FsMessage::parseLeadingInteger]: [Ok None] is [false]. *)
Definition parseLeadingInteger (str : string) : outcome (option Z) :=
  s ← dereference (tokenize " " str);
  mret (if negb (empty_ s) && exists_char isdigit s then Some (atoi_u32 s) else None).

(** What [getFsStatus] does to its two reference parameters: the first is
    assigned before the second is known to be there. *)
Record status_result := mkStatus {
  sr_ok : bool; sr_current : option Z; sr_max : option Z
}.

(** [FsMessage::getFsStatus]. *)
Definition getFsStatus (m : FsMessage) : outcome status_result :=
  let tok := tokenize endl (m_strContent m) in
  if (length tok <? 5)%nat then mret (mkStatus false None None)
  else
    it ← advance 3 tok;
    l3 ← dereference it;
    cur ← parseLeadingInteger l3;
    match cur with
    | None => mret (mkStatus false None None)
    | Some n =>
        it ← advance 1 it;
        l4 ← dereference it;
        mx ← parseLeadingInteger l4;
        match mx with
        | None => mret (mkStatus false (Some n) None)
        | Some k => mret (mkStatus true (Some n) (Some k))
        end
    end.

Definition blank_tab : string := String " " (String (Ascii.ascii_of_N 9) EmptyString).

(** The body of [getSipProfile]'s loop on a line whose first token is the
    profile. *)
Definition profile_address (it2 : token_iterator) : outcome (string * Z) :=
  it2 ← advance 2 it2;
  contact ← dereference it2;
  it3 ← advance 2 (tokenize "@:" contact);
  address ← dereference it3;
  it3 ← increment it3;
  match it3 with
  | [] => mret (address, 5060)
  | t :: _ => mret (address, atoi_u32 t)
  end.

(** [FsMessage::getSipProfile], over the lines of the content. *)
Fixpoint getSipProfile_lines (profile : string) (lines : list string)
  : outcome (option (string * Z)) :=
  match lines with
  | [] => mret None
  | line :: lines' =>
      let it2 := tokenize blank_tab line in
      t ← dereference it2;
      if String.eqb t profile then r ← profile_address it2; mret (Some r)
      else getSipProfile_lines profile lines'
  end.

Definition getSipProfile (profile : string) (m : FsMessage) : outcome (option (string * Z)) :=
  getSipProfile_lines profile (tokenize endl (m_strContent m)).

(** ** The wire format, as FreeSWITCH writes it *)

Fixpoint unlines (lines : list string) : string :=
  match lines with
  | [] => EmptyString
  | l :: ls => l +:+ endl +:+ unlines ls
  end.

Fixpoint concat_str (l : list string) : string :=
  match l with [] => EmptyString | s :: l' => s +:+ concat_str l' end.

(** A line of text: not empty, without a newline. *)
Definition is_line (l : string) : bool := negb (empty_ l) && clean endl l.

(** The header of an [api/response] that announces [n] bytes of content. *)
Definition api_header (n : Z) : string :=
  unlines ["Content-Type: api/response"; "Content-Length: " +:+ dec n] +:+ endl.

(** ** Lemmas *)

(** The state [append] reaches once the two header lines are read. *)
Definition after_header (n : Z) (raw content : string) (valid complete : bool) : FsMessage :=
  mkFsMessage api response undefined EmptyString n content raw valid complete.

Definition stuck_header (m : FsMessage) : Prop :=
  m_category m <> unknown_category /\ m_type m <> request /\ m_nContentLength m = 0 /\
  m_replyStatus m = undefined /\ m_bComplete m = false /\
  exists t ts, tokenize endl (m_rawMsg m) = t :: ts /\ begins "Content-Type: " t = true.

Definition status_lines : list string :=
  ["UP 0 years, 1 day"; "FreeSWITCH (Version 1.2.10) is ready"; "39 session(s) since startup";
   "17 session(s) - 0 out of max 30 per sec"; "1000 session(s) max"; "min idle cpu 0.00/100.00"].

Lemma is_line_spec l : is_line l = true <-> l <> EmptyString /\ clean endl l = true.
Proof. unfold is_line. rewrite andb_true_iff, negb_true_iff. by destruct l; split; intros []. Qed.

Lemma tokenize_unlines lines s :
  Forall (fun l => is_line l = true) lines ->
  tokenize endl (unlines lines +:+ s) = lines ++ tokenize endl s.
Proof.
  induction 1 as [|l lines [Hne Hl]%is_line_spec _ IH]; [done|]. simpl.
  rewrite !app_str_assoc. unfold endl at 2. simpl. rewrite tokenize_sep by done.
  by rewrite IH.
Qed.

Lemma clean_app d a b : clean d (a +:+ b) = clean d a && clean d b.
Proof.
  induction a as [|c a IH]; [done|]. simpl. rewrite !clean_cons, IH. by rewrite andb_assoc.
Qed.

(** A decimal number contains digits only. *)
Lemma exists_char_dec_go p fuel n acc :
  0 <= n -> (forall d, 0 <= d < 10 -> p (digit_char d) = false) ->
  exists_char p (dec_go fuel n acc) = exists_char p acc.
Proof.
  intros Hn Hp. revert n acc Hn. induction fuel as [|fuel IH]; intros n acc Hn; [done|].
  cbn [dec_go]. pose proof (Z.mod_pos_bound n 10). pose proof (Z.div_pos n 10).
  destruct (n `div` 10 =? 0); [|rewrite IH by lia]; simpl; by rewrite Hp by lia.
Qed.

Lemma clean_dec d n :
  0 <= n -> (forall c, mem_char c d = true -> isdigit c = false) -> clean d (dec n) = true.
Proof.
  intros Hn Hd. unfold clean, dec. rewrite exists_char_dec_go; [done..|].
  intros k Hk. destruct (digit_char_spec k Hk) as [Hdig _].
  apply not_true_iff_false. intros Hc%Hd. congruence.
Qed.

Lemma dec_not_empty n : 0 <= n -> dec n <> EmptyString.
Proof. intros Hn. unfold dec. destruct (dec_go_head (S (Z.to_nat (Z.log2 n))) n EmptyString) as (d & s & -> & _); [lia..|done]. Qed.

Lemma mem_endl_digit c : mem_char c endl = true -> isdigit c = false.
Proof.
  unfold endl. simpl. rewrite orb_false_r. intros ->%Ascii.eqb_eq. done.
Qed.

Lemma is_line_content_length n : 0 <= n -> is_line ("Content-Length: " +:+ dec n) = true.
Proof.
  intros Hn. apply is_line_spec. split; [done|]. rewrite clean_app.
  rewrite (clean_dec endl n Hn mem_endl_digit). done.
Qed.

Lemma begins_app p s : begins p (p +:+ s) = true.
Proof. apply begins_spec. by exists s. Qed.

Lemma parse_content_lines n raw c v lines :
  0 < n ->
  parse_lines lines (after_header n raw c v false)
  = (after_header n raw (c +:+ unlines lines) v false, None).
Proof.
  intros Hn. revert c. induction lines as [|l lines IH]; intros c; simpl.
  - by rewrite app_str_nil_r.
  - unfold parse_line. simpl. unfold parse_content. simpl.
    destruct (Z.eqb_spec n 0); [lia|]. simpl.
    etransitivity; [exact (IH (c +:+ l +:+ endl))|]. by rewrite !app_str_assoc.
Qed.

Lemma parse_line_content_type raw :
  parse_line "Content-Type: api/response"
    (mkFsMessage unknown_category unknown_type undefined EmptyString 0 EmptyString raw false false)
  = (after_header 0 raw EmptyString false false, None).
Proof. done. Qed.

Lemma parse_line_content_length n raw :
  is_u32 n ->
  parse_line ("Content-Length: " +:+ dec n) (after_header 0 raw EmptyString false false)
  = (after_header n raw EmptyString false false, None).
Proof.
  intros Hn. unfold parse_line, parse_content. cbn [decide].
  change (m_nContentLength (after_header 0 raw EmptyString false false) =? 0) with true.
  cbn iota. rewrite begins_app. cbn [negb].
  change (drop_str 16 ("Content-Length: " +:+ dec n)) with (dec n).
  by rewrite atoi_u32_dec.
Qed.

(** What one [append] of a header followed by [body] leads to. *)
Lemma append_header_body n body :
  is_u32 n -> 0 < n ->
  append (api_header n +:+ body) new_FsMessage =
  let content := unlines (tokenize endl body) in
  after_header n (api_header n +:+ body) content true (length_ content =? n).
Proof.
  intros Hu Hn. unfold append, parse. cbn [update m_nContentLength m_rawMsg new_FsMessage].
  change (0 <? 0) with false. cbn iota.
  change (EmptyString +:+ api_header n +:+ body) with (api_header n +:+ body).
  assert (tokenize endl (api_header n +:+ body) =
    "Content-Type: api/response" :: ("Content-Length: " +:+ dec n) :: tokenize endl body) as ->.
  { unfold api_header. rewrite app_str_assoc, tokenize_unlines.
    - simpl app. do 2 f_equal. unfold endl at 2. simpl. by rewrite tokenize_dropped.
    - repeat constructor. apply is_line_content_length. lia. }
  cbn [parse_lines]. rewrite parse_line_content_type, parse_line_content_length by done.
  rewrite parse_content_lines by done. cbv zeta.
  change (EmptyString +:+ unlines (tokenize endl body)) with (unlines (tokenize endl body)).
  unfold has_all. cbn [m_type m_replyStatus m_nContentLength m_strContent after_header].
  rewrite !bool_decide_eq_false_2 by naive_solver. cbn [orb].
  destruct (Z.ltb_spec 0 n); [|lia]. cbn [andb].
  by destruct (length_ (unlines (tokenize endl body)) =? n).
Qed.

(** Later chunks are appended to the content as they are. *)
Lemma append_more n raw c v data :
  0 < n ->
  append data (after_header n raw c v false) =
  after_header n (raw +:+ data) (c +:+ data) true (length_ (c +:+ data) =? n).
Proof.
  intros Hn. unfold append, parse. cbn [update m_nContentLength after_header m_rawMsg].
  destruct (Z.ltb_spec 0 n) as [_|]; [|lia]. unfold has_all.
  cbn [update m_type m_replyStatus m_nContentLength m_strContent after_header m_category].
  rewrite !bool_decide_eq_false_2 by naive_solver. cbn [orb].
  destruct (Z.ltb_spec 0 n); [|lia]. cbn [andb].
  by destruct (length_ (c +:+ data) =? n).
Qed.

Lemma tokenize_unlines_all lines :
  Forall (fun l => is_line l = true) lines -> tokenize endl (unlines lines) = lines.
Proof.
  intros H. rewrite <- (app_str_nil_r (unlines lines)), tokenize_unlines by done.
  by rewrite app_nil_r.
Qed.

Lemma length__app a b : length_ (a +:+ b) = length_ a + length_ b.
Proof. unfold length_. rewrite length_str_app. lia. Qed.

Lemma length__pos s : s <> EmptyString -> 0 < length_ s.
Proof. unfold length_. destruct s; simpl; [done|lia]. Qed.

Lemma append_chunks n raw c v cs :
  0 < n -> Forall (fun d => d <> EmptyString) cs -> length_ c + length_ (concat_str cs) = n ->
  cs <> [] ->
  exists raw', foldl (fun m d => append d m) (after_header n raw c v false) cs =
               after_header n raw' (c +:+ concat_str cs) true true.
Proof.
  intros Hn Hcs. revert raw c v. induction Hcs as [|d cs Hd Hcs IH]; [done|].
  intros raw c v Hlen _. simpl in *. rewrite append_more by done.
  rewrite length__app in *. destruct cs as [|d' cs'].
  - simpl in *. rewrite app_str_nil_r. eexists. f_equal.
    apply Z.eqb_eq. change (length_ EmptyString) with 0 in Hlen. lia.
  - assert (0 < length_ (concat_str (d' :: cs'))).
    { simpl. rewrite length__app. apply Forall_cons in Hcs as [?%length__pos _].
      unfold length_ in *. lia. }
    destruct (Z.eqb_spec (length_ c + length_ d) n); [lia|].
    rewrite <- app_str_assoc. apply IH; [|done]. rewrite length__app. lia.
Qed.

(** ** Properties *)

(** C29: Round trip.  An [api/response] whose content consists of non-empty
    lines and whose declared length is the length of that content, received
    in one piece, is parsed into a complete and valid message with exactly
    that content. *)
Theorem append_roundtrip (lines : list string) :
  Forall (fun l => is_line l = true) lines ->
  0 < length_ (unlines lines) < 2^32 ->
  let body := unlines lines in
  let m := append (api_header (length_ body) +:+ body) new_FsMessage in
  isComplete m = true /\ m_bValid m = true /\ m_strContent m = body /\
  m_category m = api /\ m_type m = response.
Proof.
  intros Hl Hn body m. unfold m, body. rewrite append_header_body by (unfold is_u32; lia).
  rewrite tokenize_unlines_all by done. simpl. by rewrite Z.eqb_refl.
Qed.

Lemma append_roundtrip_witness :
  isComplete (append (api_header 12 +:+ unlines ["UP 0"; "1 of 2"]) new_FsMessage) = true.
Proof.
  refine (proj1 (append_roundtrip ["UP 0"; "1 of 2"] _ _)).
  - repeat constructor.
  - vm_compute. split; reflexivity.
Defined.

(** *** Blank lines *)

Fixpoint newlines (s : string) : Z :=
  match s with
  | EmptyString => 0
  | String c s => (if Ascii.eqb c newline then 1 else 0) + newlines s
  end.

Lemma newlines_app a b : newlines (a +:+ b) = newlines a + newlines b.
Proof. induction a as [|c a IH]; simpl; [done|]. rewrite IH. lia. Qed.

Lemma newlines_clean s : clean endl s = true -> newlines s = 0.
Proof.
  induction s as [|c s IH]; [done|]. rewrite clean_cons. unfold endl. simpl. rewrite orb_false_r.
  intros [Hc%negb_true_iff Hs]%andb_true_iff. rewrite Hc. by apply IH.
Qed.

(** Cutting a text into its non-empty lines drops the newlines. *)
Lemma length_tokens s :
  length_ (unlines (tokenize endl s)) + newlines s = length_ s + Z.of_nat (length (tokenize endl s)).
Proof.
  induction s as [s IH] using string_length_ind. destruct s as [|c s]; [done|].
  destruct (mem_char c endl) eqn:Hc.
  - rewrite tokenize_dropped by done. unfold endl in Hc. simpl in Hc. rewrite orb_false_r in Hc.
    simpl newlines. rewrite Hc. unfold length_ at 2. simpl String.length.
    pose proof (IH s ltac:(simpl; lia)) as H. unfold length_ in *. lia.
  - destruct (take_token endl (String c s)) as [t r] eqn:E.
    pose proof (take_token_app _ _ _ _ E) as Es. destruct (take_token_spec _ _ _ _ E) as [Ht Hr].
    assert (t <> EmptyString) as Hne.
    { cbn [take_token] in E. rewrite Hc in E. destruct (take_token endl s). by simplify_eq. }
    rewrite Es in IH |- *. rewrite tokenize_token by done. rewrite newlines_app, newlines_clean by done.
    assert (String.length r < String.length (t +:+ r))%nat as Hlt.
    { rewrite length_str_app. destruct t; [done|simpl; lia]. }
    pose proof (IH r Hlt) as H. cbn [unlines length]. rewrite !length__app. change (length_ endl) with 1. lia.
Qed.

(** C30: Which honest responses are recognised.  An [api/response] that declares
    the length of its content and arrives in one piece is complete exactly
    when its content has as many newlines as non-empty lines: a blank line
    that no missing final newline makes up for (or the reverse) leaves the
    instance waiting for more. *)
Theorem response_completes_iff (body : string) :
  0 < length_ body < 2^32 ->
  isComplete (append (api_header (length_ body) +:+ body) new_FsMessage) = true <->
  newlines body = Z.of_nat (length (tokenize endl body)).
Proof.
  intros Hl. rewrite append_header_body by (unfold is_u32; lia). pose proof (length_tokens body) as H.
  change (isComplete _) with (length_ (unlines (tokenize endl body)) =? length_ body). rewrite Z.eqb_eq. lia.
Qed.

Lemma response_completes_iff_witness :
  let body := "UP 0 years" +:+ endl +:+ endl +:+ "1000 session(s) max" +:+ endl in
  isComplete (append (api_header (length_ body) +:+ body) new_FsMessage) <> true.
Proof.
  intros body H. apply (response_completes_iff body) in H; [|vm_compute; split; reflexivity].
  vm_compute in H. discriminate.
Defined.

(** Fragmentation at a line boundary.  When the first read delivers the
    header and any number of whole lines, and the rest of the content arrives
    in any number of non-empty further reads, the message is complete after
    the last of them, with exactly the bytes sent as its content. *)
Theorem append_fragments (lines : list string) (cs : list string) :
  Forall (fun l => is_line l = true) lines ->
  Forall (fun c => c <> EmptyString) cs -> cs <> [] ->
  let body := unlines lines +:+ concat_str cs in
  length_ body < 2^32 ->
  let first := append (api_header (length_ body) +:+ unlines lines) new_FsMessage in
  let m := foldl (fun m c => append c m) first cs in
  isComplete first = false /\ isComplete m = true /\ m_strContent m = body.
Proof.
  intros Hl Hcs Hne body Hlen first m.
  assert (0 < length_ (concat_str cs)) as Hpos.
  { destruct Hcs as [|d cs Hd _]; [done|]. simpl. rewrite length__app.
    apply length__pos in Hd. unfold length_ in *. lia. }
  assert (length_ body = length_ (unlines lines) + length_ (concat_str cs)) as Hbody
    by apply length__app.
  assert (0 < length_ body) by (unfold length_ in *; lia).
  assert (first = after_header (length_ body) (api_header (length_ body) +:+ unlines lines)
                    (unlines lines) true false) as Hfirst.
  { unfold first. rewrite append_header_body by (unfold is_u32; lia).
    rewrite tokenize_unlines_all by done. cbv zeta. f_equal. apply Z.eqb_neq. lia. }
  unfold m. rewrite Hfirst. split; [done|].
  edestruct append_chunks as [raw' ->]; [| |symmetry; exact Hbody|..]; done.
Qed.

Lemma append_fragments_witness :
  isComplete (foldl (fun m c => append c m)
    (append (api_header 13 +:+ unlines ["UP 0"]) new_FsMessage) ["1 o"; "f 2" +:+ endl +:+ endl]) = true.
Proof.
  refine (proj1 (proj2 (append_fragments ["UP 0"] ["1 o"; "f 2" +:+ endl +:+ endl] _ _ _ _))).
  - repeat constructor.
  - repeat constructor; discriminate.
  - discriminate.
  - vm_compute. reflexivity.
Defined.

(** *** Reads that end inside the header

    A read that ends between the two header lines leaves the category set and
    the declared length 0.  The next [append] parses the whole of [m_rawMsg]
    again, but now the first line goes to a branch that does not expect it. *)

Lemma begins_trans p a b : begins p a = true -> begins p (a +:+ b) = true.
Proof. intros [r ->]%begins_spec. apply begins_spec. exists (r +:+ b). apply app_str_assoc. Qed.

(** Appending to the input extends its first token or leaves it alone. *)
Lemma tokenize_app_first d s s' t ts :
  tokenize d s = t :: ts -> exists r ts', tokenize d (s +:+ s') = (t +:+ r) :: ts'.
Proof.
  intros H. rewrite tokenize_unfold in H |- *. unfold char_separator in *.
  assert (skip_dropped d s <> EmptyString ->
          skip_dropped d (s +:+ s') = skip_dropped d s +:+ s') as Hskip.
  { clear. induction s as [|c s IH]; simpl; [done|]. case_match; auto. }
  destruct (skip_dropped d s) as [|c s1]; [done|]. rewrite Hskip by done. cbn -[take_token tokenize] in *.
  destruct (take_token d (String c s1)) as [t1 r1] eqn:E. injection H as -> _.
  pose proof (take_token_app _ _ _ _ E) as Es.
  destruct (take_token_spec _ _ _ _ E) as [Ht Hr1].
  assert (exists r r2, take_token d (String c s1 +:+ s') = (t +:+ r, r2)) as (r & r2 & E2).
  { rewrite Es, app_str_assoc. destruct Hr1 as [->|(a & r' & -> & Ha)].
    - clear -Ht. induction t as [|c t IH]; simpl.
      + destruct (take_token d s') as [r r2]. by exists r, r2.
      + rewrite clean_cons in Ht. apply andb_true_iff in Ht as [Hc%negb_true_iff Ht].
        destruct (IH Ht) as (r & r2 & E). simpl in E. rewrite Hc, E. by exists r, r2.
    - rewrite (take_token_clean d t (String a r' +:+ s') Ht) by (simpl; eauto).
      exists EmptyString. rewrite app_str_nil_r. eauto. }
  change (take_token d (String c (s1 +:+ s')) = (t +:+ r, r2)) in E2. rewrite E2. eauto.
Qed.

Lemma begins_content_type_not l p :
  begins "Content-Type: " l = true -> p = "Reply-Text: " \/ p = "Content-Length: " ->
  begins p l = false.
Proof.
  intros [r ->]%begins_spec [->| ->]; reflexivity.
Qed.

Lemma parse_stuck m data : stuck_header m -> stuck_header (append data m).
Proof.
  intros (Hc & Ht & Hn & Hr & Hb & t & ts & Htok & Hbeg). unfold append, parse.
  cbn [update m_nContentLength m_rawMsg]. rewrite Hn. change (0 <? 0) with false. cbn iota.
  destruct (tokenize_app_first endl (m_rawMsg m) data t ts Htok) as (r & ts' & Htok').
  pose proof (begins_trans _ _ r Hbeg) as Hbeg'. rewrite Htok'.
  set (m1 := mkFsMessage _ _ _ _ _ _ _ _ _).
  assert (stuck_header m1) as Hm1 by (repeat split; eauto; exists (t +:+ r), ts'; eauto).
  destruct (decide (m_category m = command /\ m_type m = reply)) as [Hcr|Hncr].
  { assert (parse_line (t +:+ r) m1 = (m1, Some ExpectedReplyText)) as E.
    { unfold parse_line. rewrite decide_False by done. rewrite decide_True by done.
      unfold parse_reply_text. rewrite decide_False by (unfold m1; simpl; tauto).
      by rewrite (begins_content_type_not _ "Reply-Text: " Hbeg') by auto. }
    cbn [parse_lines]. by rewrite E. }
  destruct (decide ((m_category m = api /\ m_type m = response) \/ m_category m = text)) as [Hat|Hnat].
  { assert (parse_line (t +:+ r) m1 = (m1, Some ExpectedContentLength)) as E.
    { unfold parse_line. rewrite decide_False by done. rewrite decide_False by done.
      rewrite decide_True by done. unfold parse_content, m1. cbn -[begins].
      by rewrite (begins_content_type_not _ "Content-Length: " Hbeg') by auto. }
    cbn [parse_lines]. by rewrite E. }
  assert (forall ls, parse_lines ls m1 = (m1, None)) as E.
  { induction ls as [|l ls IH]; [done|]. cbn [parse_lines]. unfold parse_line.
    rewrite !decide_False by done. exact IH. }
  rewrite E. unfold has_all, m1. cbn [m_type m_replyStatus m_nContentLength].
  rewrite (bool_decide_eq_false_2 (m_type m = request)), bool_decide_eq_false_2
    by naive_solver. exact Hm1.
Qed.

(** The raw message after an [append] is the bytes received. *)
Lemma parse_line_rawMsg l m : m_rawMsg (fst (parse_line l m)) = m_rawMsg m.
Proof.
  unfold parse_line, parse_content_type, parse_reply_text, parse_content.
  by repeat case_match.
Qed.

Lemma parse_lines_rawMsg ls m : m_rawMsg (fst (parse_lines ls m)) = m_rawMsg m.
Proof.
  revert m. induction ls as [|l ls IH]; intros m; simpl; [done|].
  pose proof (parse_line_rawMsg l m) as H.
  destruct (parse_line l m) as [m' [e|]]; simpl in *; [done|]. by rewrite IH.
Qed.

Lemma append_rawMsg data m : m_rawMsg (append data m) = m_rawMsg m +:+ data.
Proof.
  unfold append, parse. set (m1 := update (field := m_rawMsg) _ m).
  pose proof (parse_lines_rawMsg (tokenize endl (m_rawMsg m1)) m1) as H.
  destruct (0 <? m_nContentLength m1).
  - by destruct (has_all _).
  - destruct (parse_lines _ m1) as [m2 [e|]]; simpl in *; [done|].
    by destruct (has_all m2).
Qed.

(** A category is only ever set by a first line that is a [Content-Type]. *)
Lemma append_category chunk :
  m_category (append chunk new_FsMessage) <> unknown_category ->
  exists t ts, tokenize endl chunk = t :: ts /\ begins "Content-Type: " t = true.
Proof.
  unfold append, parse. simpl. change (EmptyString +:+ chunk) with chunk.
  destruct (tokenize endl chunk) as [|t ts]; [done|]. intros H. exists t, ts. split; [done|].
  apply not_false_iff_true. intros Hb. apply H. cbn [parse_lines]. unfold parse_line. simpl.
  unfold parse_content_type. rewrite Hb. done.
Qed.

(** A read that ends inside the header is fatal.  If the first read sets
    the category (its [Content-Type] line is there) but does not deliver the
    [Content-Length] or [Reply-Text] line of a message that needs one, no
    sequence of further reads ever completes the message. *)
Theorem append_split_header_never_completes (chunk : string) (chunks : list string) :
  let m := append chunk new_FsMessage in
  m_category m <> unknown_category -> m_type m <> request ->
  m_nContentLength m = 0 -> m_replyStatus m = undefined -> isComplete m = false ->
  isComplete (foldl (fun m c => append c m) m chunks) = false.
Proof.
  intros m Hc Ht Hn Hr Hb.
  assert (stuck_header m) as Hs.
  { repeat split; try done. unfold m. rewrite append_rawMsg. by apply append_category. }
  clear Hc Ht Hn Hr Hb. clearbody m. revert m Hs. induction chunks as [|c cs IH]; intros m Hs.
  - apply Hs.
  - simpl. apply IH, parse_stuck, Hs.
Qed.

Lemma append_split_header_never_completes_witness :
  isComplete (foldl (fun m c => append c m)
    (append ("Content-Type: api/response" +:+ endl) new_FsMessage)
    ["Content-Length: 5" +:+ endl +:+ endl; "UP 0" +:+ endl]) = false.
Proof.
  apply (append_split_header_never_completes ("Content-Type: api/response" +:+ endl));
    vm_compute; (reflexivity || discriminate).
Defined.

(** A first read that ends inside a content line spoils the message.  The
    loop puts a newline after the partial line, so the content is one byte
    longer than what was sent, and when the rest (more than the final newline)
    arrives the message does not complete. *)
Theorem append_partial_line_spoils (l rest : string) :
  is_line l = true -> 1 < length_ rest -> length_ (l +:+ rest) < 2^32 ->
  let first := append (api_header (length_ (l +:+ rest)) +:+ l) new_FsMessage in
  isComplete first = false /\ isComplete (append rest first) = false /\
  m_strContent (append rest first) = l +:+ endl +:+ rest.
Proof.
  intros [Hne Hl]%is_line_spec Hr Hlen first. unfold first.
  pose proof (length__pos _ Hne). rewrite length__app in *.
  rewrite append_header_body by (unfold is_u32; lia). rewrite tokenize_one by done. cbv zeta.
  assert (length_ (unlines [l]) = length_ l + 1) as Hu by (simpl; by rewrite length__app).
  rewrite Hu. destruct (Z.eqb_spec (length_ l + 1) (length_ l + length_ rest)); [lia|].
  rewrite append_more by lia. split; [done|]. split.
  - simpl. simpl in Hu. rewrite length__app, Hu. apply Z.eqb_neq. lia.
  - simpl. by rewrite app_str_assoc.
Qed.

Lemma append_partial_line_spoils_witness :
  isComplete (append ("ars" +:+ endl) (append (api_header 8 +:+ "3 ye") new_FsMessage)) = false.
Proof.
  refine (proj1 (proj2 (append_partial_line_spoils "3 ye" ("ars" +:+ endl) _ _ _)));
    vm_compute; reflexivity.
Defined.

(** *** The queries *)

Lemma parseLeadingInteger_dec n rest :
  is_u32 n -> parseLeadingInteger (dec n +:+ " " +:+ rest) = Ok (Some n).
Proof.
  intros Hn. unfold is_u32 in Hn. unfold parseLeadingInteger.
  change (" " +:+ rest) with (String " " rest).
  assert (forall c, mem_char c " " = true -> isdigit c = false) as Hsp.
  { intros c. simpl. rewrite orb_false_r. by intros ->%Ascii.eqb_eq. }
  rewrite tokenize_sep; [|apply dec_not_empty; lia|apply clean_dec; [lia|done]|done].
  simpl. assert (exists_char isdigit (dec n) = true) as ->.
  { unfold dec. destruct (dec_go_head (S (Z.to_nat (Z.log2 n))) n EmptyString) as (d & s & -> & Hd);
      [lia..|]. simpl. by destruct (digit_char_spec d Hd) as [-> _]. }
  pose proof (dec_not_empty n ltac:(lia)). destruct (dec n) eqn:E; [done|]. simpl.
  rewrite <- E, atoi_u32_dec by done. done.
Qed.



Lemma getSipProfile_line (m : FsMessage) (profile : string) (pre post : list string)
    (line t w contact p1 p2 host : string) (ws ps : list string) :
  tokenize endl (m_strContent m) = pre ++ line :: post ->
  Forall (fun l => exists t' ts, tokenize blank_tab l = t' :: ts /\ t' <> profile) pre ->
  tokenize blank_tab line = profile :: w :: contact :: ws ->
  tokenize "@:" contact = p1 :: p2 :: host :: ps ->
  getSipProfile profile m =
    Ok (Some (host, match ps with [] => 5060 | port :: _ => atoi_u32 port end)).
Proof.
  intros Hc Hpre Hl Hp. unfold getSipProfile. rewrite Hc. clear Hc.
  induction Hpre as [|l pre (t' & ts & Ht & Hne) _ IH]; simpl.
  - rewrite Hl. simpl. rewrite String.eqb_refl. unfold profile_address. simpl. rewrite Hp. simpl.
    by destruct ps.
  - rewrite Ht. simpl. apply String.eqb_neq in Hne. by rewrite Hne.
Qed.

(** The SIP profile is found.  When the lines before it start with
    another word, and the profile's line has a contact as its third word with
    at least three parts, [getSipProfile] returns the third part (the host)
    and the fourth as port, or 5060 when there is none. *)
Theorem getSipProfile_found (m : FsMessage) (profile : string) (pre post : list string)
    (line t w contact p1 p2 host : string) (ws ps : list string) :
  tokenize endl (m_strContent m) = pre ++ line :: post ->
  Forall (fun l => exists t' ts, tokenize blank_tab l = t' :: ts /\ t' <> profile) pre ->
  tokenize blank_tab line = profile :: w :: contact :: ws ->
  tokenize "@:" contact = p1 :: p2 :: host :: ps ->
  getSipProfile profile m =
    Ok (Some (host, match ps with [] => 5060 | port :: _ => atoi_u32 port end)).
Proof. exact (getSipProfile_line m profile pre post line t w contact p1 p2 host ws ps). Qed.

Lemma getSipProfile_found_witness :
  let line := "internal profile sip:mod_sofia@10.10.2.35:5080 RUNNING (0)" in
  getSipProfile "internal" (append (api_header 82 +:+ unlines ["Name Type Data State"; line])
    new_FsMessage) = Ok (Some ("10.10.2.35", 5080)).
Proof.
  intros line. unfold line.
  eapply (getSipProfile_found _ "internal" ["Name Type Data State"] [] _ "" _ _ _ _ "10.10.2.35"
            _ ["5080"]).
  - vm_compute. reflexivity.
  - constructor; [|constructor]. exists "Name", ["Type"; "Data"; "State"]. split; [vm_compute; reflexivity|discriminate].
  - vm_compute. reflexivity.
  - vm_compute. reflexivity.
Defined.
