(* ===== verification/FsInstance.v ===== *)
(** * FsInstance: the connection of the proxy to one FreeSWITCH server

    [fs-instance.h] and [fs-instance.cpp]: a state machine driven by the
    completion handlers of asynchronous operations.  The record below has the
    members of the class that its behaviour depends on, the operations that
    are outstanding on its socket, resolver and timer, and the actions it has
    performed.  A handler is run by the event loop of [FsMonitor] when an
    outstanding operation completes; the step relation at the end says so. *)

From S2P Require Import Prelude Text Tokenizer FsMessage.

(** ** Data *)

Inductive CONNECTION_STATE :=
| starting
| resolving
| resolve_failed
| connecting
| connect_failed
| waiting_for_greeting
| authenticating
| authentication_failed
| obtaining_sip_configuration
| obtaining_sip_configuration_failed
| querying_status
| disconnecting.

#[export] Instance CONNECTION_STATE_eq_dec : EqDecision CONNECTION_STATE.
Proof. solve_decision. Defined.

(** Asynchronous operations: [async_resolve], [async_connect] (with the
    endpoints left to try after the one being tried), [async_read_some] and
    [async_wait]. *)
Inductive pending_op :=
| PResolve
| PConnect (rest : list string)
| PRead
| PTimer (milliseconds : Z).

(** Effects on the outside. *)
Inductive action :=
| AResolve (host port : string)
| AConnect (endpoint : string)
| AWrite (data : string)
| AClose
| ANotify (fsAddress sipAddress : string).

(** The exceptions a handler lets out into the event loop: the two of
    [fs-exception.h], and the [boost::system::system_error] a failing
    synchronous [write] throws. *)
Inductive exn := FsDisconnectException | FsReconnectException | system_error.

#[export] Instance exn_eq_dec : EqDecision exn.
Proof. solve_decision. Defined.

Record FsInstance := mkFsInstance {
  m_strAddress : string;
  m_nEventSocketPort : Z;
  m_bDisconnected : bool;
  m_bReloadingXml : bool;
  m_nMaxSessions : Z;
  m_nCurrentSessions : Z;
  m_strSipAddress : string;
  m_nSipPort : Z;
  m_state : CONNECTION_STATE;
  m_fsMsg : FsMessage;
  m_pending : list pending_op;
  m_actions : list action
}.

#[export] Instance FsInstance_rebuild : Rebuild FsInstance := fun i =>
  mkFsInstance (m_strAddress i) (m_nEventSocketPort i) (m_bDisconnected i) (m_bReloadingXml i)
    (m_nMaxSessions i) (m_nCurrentSessions i) (m_strSipAddress i) (m_nSipPort i) (m_state i)
    (m_fsMsg i) (m_pending i) (m_actions i).

(** The constructor. *)
Definition new_FsInstance (address : string) (port : Z) : FsInstance :=
  mkFsInstance address port false false 0 0 EmptyString 0 starting new_FsMessage [] [].

(** ** Getters *)

Definition isOnline (i : FsInstance) : bool := bool_decide (m_state i = querying_status).

(** [querying_status == m_state && m_nCurrentSessions < m_nMaxSessions - 2], in
    unsigned arithmetic. *)
Definition isAvailable (i : FsInstance) : bool :=
  bool_decide (m_state i = querying_status)
  && (m_nCurrentSessions i <? wrap32 (m_nMaxSessions i - 2)).

Definition getAvailableSessions (i : FsInstance) : Z :=
  wrap32 (m_nMaxSessions i - m_nCurrentSessions i).

(** ** Operations *)

Definition act (a : action) (i : FsInstance) : FsInstance := i <| m_actions ::= fun l => l ++ [a] |>.
Definition pend (p : pending_op) (i : FsInstance) : FsInstance :=
  i <| m_pending ::= fun l => l ++ [p] |>.

Definition is_timer (p : pending_op) : bool := match p with PTimer _ => true | _ => false end.
Definition is_read (p : pending_op) : bool := match p with PRead => true | _ => false end.

(** [start_timer]: [expires_from_now] cancels a wait that is outstanding; its
    handler then runs with an error and only logs. *)
Definition start_timer (ms : Z) (i : FsInstance) : FsInstance :=
  pend (PTimer ms) (i <| m_pending ::= fun l => List.filter (fun p => negb (is_timer p)) l |>).

(** [m_socket.close()]: the outstanding reads are cancelled; their handlers
    run with an error and only log. *)
Definition close_socket (i : FsInstance) : FsInstance :=
  act AClose (i <| m_pending ::= fun l => List.filter (fun p => negb (is_read p)) l |>).

(** [FsInstance::start]. *)
Definition start (i : FsInstance) : FsInstance :=
  let i := i <| m_state := resolving |> <| m_fsMsg ::= reset |> in
  pend PResolve (act (AResolve (m_strAddress i) (dec (m_nEventSocketPort i))) i).

(** [FsInstance::resolve_handler]; [inl tt] is an error code.  The iterator is
    dereferenced without a test: a successful resolution has an endpoint. *)
Definition resolve_handler (r : unit + list string) (i : FsInstance) : outcome FsInstance :=
  match r with
  | inr (endpoint :: it) => Ok (pend (PConnect it) (act (AConnect endpoint) (i <| m_state := connecting |>)))
  | inr [] => Fault PastTheEnd
  | inl tt => Ok (start_timer 5000 (i <| m_state := resolve_failed |>))
  end.

(** [FsInstance::connect_handler]; [ec] is true for an error. *)
Definition connect_handler (ec : bool) (it : list string) (i : FsInstance) : FsInstance :=
  if negb ec then pend PRead (i <| m_state := waiting_for_greeting |>)
  else match it with
       | endpoint :: it' => pend (PConnect it') (act (AConnect endpoint) (close_socket i))
       | [] => start_timer 5000 (i <| m_state := connect_failed |>)
       end.

(** The local variables of [read_handler] its [switch] assigns. *)
Record switch_result := mkSwitch {
  sw_inst : FsInstance; bSetTimer : bool; bReadAgain : bool; bNotifyReconnect : bool; out : string
}.

Definition sw (i : FsInstance) : switch_result := mkSwitch i false false false EmptyString.

#[export] Instance switch_rebuild : Rebuild switch_result := fun s =>
  mkSwitch (sw_inst s) (bSetTimer s) (bReadAgain s) (bNotifyReconnect s) (out s).

Definition is_api_response (m : FsMessage) : bool :=
  bool_decide (m_category m = api /\ m_type m = response).

Definition opt_set (o : option Z) (z : Z) : Z := default z o.

(** The [switch( m_state )] of [read_handler], on a complete message. *)
Definition read_switch (i : FsInstance) : outcome switch_result :=
  let msg := m_fsMsg i in
  match m_state i with
  | waiting_for_greeting =>
      if decide (m_category msg <> auth) then mret ((sw i) <| bSetTimer := true |>)
      else mret ((sw (i <| m_state := authenticating |>))
                   <| out := "auth ClueCon" +:+ crlf +:+ crlf |> <| bReadAgain := true |>)
  | authenticating =>
      if decide (m_replyStatus msg <> ok) then
        mret ((sw (i <| m_state := authentication_failed |>)) <| bSetTimer := true |>)
      else mret ((sw (i <| m_state := obtaining_sip_configuration |>))
                   <| out := "api sofia status" +:+ crlf +:+ crlf |> <| bReadAgain := true |>)
  | obtaining_sip_configuration =>
      if is_api_response msg then
        p ← getSipProfile "internal" msg;
        match p with
        | None =>
            mret ((sw (i <| m_state := obtaining_sip_configuration_failed |>)) <| bSetTimer := true |>)
        | Some (address, port) =>
            let i := i <| m_strSipAddress := address |> <| m_nSipPort := port |>
                       <| m_state := querying_status |> in
            mret ((sw (act (ANotify (m_strAddress i) address) i))
                    <| out := "api status" +:+ crlf +:+ crlf |> <| bReadAgain := true |>)
        end
      else mret (sw i)
  | querying_status =>
      if is_api_response msg then
        if m_bReloadingXml i then mret (sw (i <| m_bReloadingXml := false |>))
        else
          r ← getFsStatus msg;
          let i := i <| m_nCurrentSessions ::= opt_set (sr_current r) |>
                     <| m_nMaxSessions ::= opt_set (sr_max r) |> in
          if negb (sr_ok r) then mret ((sw i) <| bSetTimer := true |>)
          else if m_bDisconnected i then
            mret ((sw (i <| m_bDisconnected := false |>)) <| bSetTimer := true |>
                    <| bNotifyReconnect := true |>)
          else mret ((sw i) <| bSetTimer := true |>)
      else mret (sw i)
  | _ => mret (sw i)
  end.

Section Handlers.
(** [theOneAndOnlyController->getFSHealthCheckTimerTimeMsecs()]. *)
Context (health_check_ms : Z).

(** [boost::asio::write( m_socket, ... )]: [wr] is false when it fails, which
    it reports by throwing. *)
Definition write_socket (wr : bool) (data : string) (i : FsInstance) : FsInstance * option exn :=
  if wr then (act (AWrite data) i, None) else (i, Some system_error).

(** What follows the [switch] in [read_handler]. *)
Definition read_finish (wr : bool) (r : switch_result) : FsInstance * option exn :=
  let '(i, e) := if empty_ (out r) then (sw_inst r, None) else write_socket wr (out r) (sw_inst r) in
  match e with
  | Some _ => (i, e)
  | None =>
      let i := i <| m_fsMsg ::= reset |> in
      let i := if bReadAgain r then pend PRead i else i in
      let i := if bSetTimer r then
                 start_timer (if decide (m_state i = querying_status) then health_check_ms else 5000) i
               else i in
      (i, if bNotifyReconnect r then Some FsReconnectException else None)
  end.

(** [FsInstance::read_handler]; [ec] is true for an error, [data] the bytes
    transferred. *)
Definition read_handler (ec : bool) (data : string) (wr : bool) (i : FsInstance)
  : outcome (FsInstance * option exn) :=
  if ec then mret (i, None)
  else
    let i := i <| m_fsMsg ::= append data |> in
    let msg := m_fsMsg i in
    if negb (isComplete msg) then mret (pend PRead i, None)
    else if decide (m_category msg = text /\ m_type msg = disconnect_notice) then
      mret (start_timer 1000 ((close_socket i) <| m_bDisconnected := true |> <| m_state := starting |>),
            Some FsDisconnectException)
    else
      r ← read_switch i;
      mret (read_finish wr r).

(** [FsInstance::timer_handler] without an error. *)
Definition timer_handler (wr : bool) (i : FsInstance) : FsInstance * option exn :=
  match m_state i with
  | starting => (start i, None)
  | connect_failed => (start ((close_socket i) <| m_state := starting |>), None)
  | resolve_failed | waiting_for_greeting | authentication_failed
  | obtaining_sip_configuration_failed => (i, None)
  | _ =>
      match write_socket wr ("api status" +:+ crlf +:+ crlf) i with
      | (i, Some e) => (i, Some e)
      | (i, None) => (pend PRead i, None)
      end
  end.

(** [FsInstance::reloadxml], called by the statistics server. *)
Definition reloadxml (wr : bool) (i : FsInstance) : FsInstance * option exn :=
  if decide (m_state i <> querying_status) then (i, None)
  else match write_socket wr ("api reloadxml" +:+ crlf +:+ crlf) i with
       | (i, Some e) => (i, Some e)
       | (i, None) => (pend PRead (i <| m_bReloadingXml := true |>), None)
       end.

(** ** Steps: an outstanding operation completes *)

Inductive event :=
| EResolve (r : unit + list string)
| EConnect (ec : bool)
| ERead (ec : bool) (data : string) (wr : bool)
| ETimer (wr : bool)
| EReload (wr : bool).

(** The operation is removed from the outstanding ones before its handler
    runs. *)
Definition completing (p : pending_op) (i i0 : FsInstance) : Prop :=
  exists l1 l2, m_pending i = l1 ++ p :: l2 /\ i0 = i <| m_pending := l1 ++ l2 |>.

Inductive step (i : FsInstance) : event -> FsInstance -> Prop :=
| step_resolve r i0 i' :
    completing PResolve i i0 -> resolve_handler r i0 = Ok i' -> step i (EResolve r) i'
| step_connect ec it i0 :
    completing (PConnect it) i i0 -> step i (EConnect ec) (connect_handler ec it i0)
| step_read ec data wr i0 i' e :
    completing PRead i i0 -> read_handler ec data wr i0 = Ok (i', e) -> step i (ERead ec data wr) i'
| step_timer wr ms i0 :
    completing (PTimer ms) i i0 -> step i (ETimer wr) (fst (timer_handler wr i0))
| step_reload wr :
    step i (EReload wr) (fst (reloadxml wr i)).
End Handlers.

(** ** Which operation may be outstanding in which state *)

Definition is_reload (ev : event) : bool := match ev with EReload _ => true | _ => false end.

Definition allowed (s : CONNECTION_STATE) (p : pending_op) : Prop :=
  match s, p with
  | starting, PTimer _ | resolving, PResolve | resolve_failed, PTimer _
  | connecting, PConnect _ | connect_failed, PTimer _
  | waiting_for_greeting, (PRead | PTimer _) | authenticating, PRead
  | authentication_failed, PTimer _ | obtaining_sip_configuration, PRead
  | obtaining_sip_configuration_failed, PTimer _ | querying_status, (PRead | PTimer _) => True
  | _, _ => False
  end.

(** The states in which an instance can be left with nothing outstanding. *)
Definition may_be_idle (s : CONNECTION_STATE) : Prop :=
  match s with
  | resolve_failed | waiting_for_greeting | authenticating | authentication_failed
  | obtaining_sip_configuration | obtaining_sip_configuration_failed | querying_status => True
  | _ => False
  end.

Definition one_outstanding (i : FsInstance) : Prop :=
  (m_pending i = [] /\ may_be_idle (m_state i)) \/
  (exists p, m_pending i = [p] /\ allowed (m_state i) p).

Definition counts_u32 (i : FsInstance) : Prop :=
  is_u32 (m_nCurrentSessions i) /\ is_u32 (m_nMaxSessions i).

(** Two answers of a server. *)
Definition sofia_example : string :=
  let body := unlines ["Name Type Data State"; "internal profile sip:mod_sofia@10.10.2.35:5080 RUNNING (0)"] in
  api_header (length_ body) +:+ body.

Definition status_example : string :=
  api_header (length_ (unlines status_lines)) +:+ unlines status_lines.

(** What the switch leaves for the rest of the handler: at most one of a read
    and a timer is asked for, one the new state allows. *)
Definition switch_ok (r : switch_result) : Prop :=
  let s := m_state (sw_inst r) in
  may_be_idle s /\ (bReadAgain r = true -> allowed s PRead /\ bSetTimer r = false) /\
  (bSetTimer r = true -> forall ms, allowed s (PTimer ms)).

Definition greeting : string := "Content-Type: auth/request" +:+ endl +:+ endl.
Definition auth_accepted : string :=
  "Content-Type: command/reply" +:+ endl +:+ "Reply-Text: +OK accepted" +:+ endl +:+ endl.

Definition complete_api_response (data : string) : Prop :=
  let m := append data new_FsMessage in
  isComplete m = true /\ m_category m = api /\ m_type m = response.

(** The events of a connection that succeeds at its first endpoint. *)
Definition connect_events (ep : string) : list event :=
  [EResolve (inr [ep]); EConnect false; ERead false greeting true; ERead false auth_accepted true].

(** The instance after the login, waiting for the SIP configuration. *)
Definition logged_in (address : string) (port : Z) (ep : string) : FsInstance :=
  mkFsInstance address port false false 0 0 EmptyString 0 obtaining_sip_configuration
    new_FsMessage [PRead]
    [AResolve address (dec port); AConnect ep; AWrite ("auth ClueCon" +:+ crlf +:+ crlf);
     AWrite ("api sofia status" +:+ crlf +:+ crlf)].

(** The instance once the SIP profile is known. *)
Definition profiled (address : string) (port : Z) (ep host : string) (sip_port : Z) : FsInstance :=
  (logged_in address port ep) <| m_strSipAddress := host |> <| m_nSipPort := sip_port |>
    <| m_state := querying_status |>
    <| m_actions ::= fun l => l ++ [ANotify address host; AWrite ("api status" +:+ crlf +:+ crlf)] |>.

(** ** Lemmas *)

Lemma reset_new m : reset m = new_FsMessage.
Proof. done. Qed.

(** Completing the only outstanding operation leaves none. *)
Lemma completing_only p i i0 q :
  completing p i i0 -> m_pending i = [q] -> q = p /\ i0 = i <| m_pending := [] |>.
Proof.
  intros (l1 & l2 & Hp & ->) Hq. rewrite Hp in Hq.
  destruct l1 as [|a l1]; simpl in Hq.
  - by injection Hq as -> ->.
  - by destruct l1.
Qed.

Lemma completing_nil p i i0 : completing p i i0 -> m_pending i <> [].
Proof. intros (l1 & l2 & -> & _). by destruct l1. Qed.

Lemma read_switch_ok i r :
  allowed (m_state i) PRead -> read_switch i = Ok r ->
  m_pending (sw_inst r) = m_pending i /\ switch_ok r.
Proof.
  unfold read_switch. intros Ha H.
  destruct (m_state i) eqn:Es; try done; inv_ok H; unfold switch_ok; simpl; rewrite ?Es; naive_solver.
Qed.

Lemma read_finish_one ms wr r :
  m_pending (sw_inst r) = [] -> switch_ok r -> one_outstanding (fst (read_finish ms wr r)).
Proof.
  intros Hp (Hidle & Hread & Htimer). unfold read_finish, one_outstanding.
  assert (exists i1 e, (if empty_ (out r) then (sw_inst r, None)
            else write_socket wr (out r) (sw_inst r)) = (i1, e) /\
          m_state i1 = m_state (sw_inst r) /\ m_pending i1 = []) as (i1 & e & -> & Hs & Hp1).
  { destruct (empty_ _); [eauto|]. unfold write_socket. destruct wr; eauto. }
  destruct e; simpl; [left; by rewrite Hs|].
  destruct (bReadAgain r); [destruct Hread as [Hread ->]; [done|]; right; exists PRead; simpl;
    by rewrite Hp1, Hs|].
  destruct (bSetTimer r); simpl; rewrite Hp1, Hs; [right; eexists; split; [done|auto]|auto].
Qed.

Lemma read_handler_one ms ec data wr i i' e :
  m_pending i = [] -> allowed (m_state i) PRead ->
  read_handler ms ec data wr i = Ok (i', e) -> one_outstanding i'.
Proof.
  intros Hp Ha. unfold read_handler. destruct ec.
  { intros [= <- <-]. left. split; [done|]. by destruct (m_state i). }
  cbv zeta. destruct (isComplete _); simpl negb; cbv iota.
  2:{ intros [= <- <-]. right. exists PRead. simpl. by rewrite Hp. }
  case_decide.
  { intros [= <- <-]. right. exists (PTimer 1000). simpl. by rewrite Hp. }
  set (i1 := update (field := m_fsMsg) _ i). unfold mbind, outcome_bind.
  destruct (read_switch i1) as [r|] eqn:E; [|done]. intros [= Hr].
  apply read_switch_ok in E as [Hp1 Hok]; [|done].
  pose proof (read_finish_one ms wr r) as Hf. rewrite Hr in Hf. apply Hf; [|done]. by rewrite Hp1.
Qed.

Lemma timer_handler_one wr i ms :
  m_pending i = [] -> allowed (m_state i) (PTimer ms) ->
  one_outstanding (fst (timer_handler wr i)).
Proof.
  intros Hp Ha. unfold timer_handler, one_outstanding.
  destruct (m_state i) eqn:Es; try done; simpl; rewrite ?Es, ?Hp; simpl; eauto.
  destruct wr; simpl; rewrite ?Es, ?Hp; simpl; eauto.
Qed.

Lemma step_one ms i ev i' :
  one_outstanding i -> is_reload ev = false -> step ms i ev i' -> one_outstanding i'.
Proof.
  intros [[Hp _]|(q & Hp & Ha)] Hev Hstep.
  { destruct Hstep; [..|done]; exfalso; eapply completing_nil; eauto. }
  destruct Hstep as [r i0 i' Hc Hr|ec it i0 Hc|ec data wr i0 i' e Hc Hr|wr t i0 Hc|]; [..|done];
    destruct (completing_only _ _ _ _ Hc Hp) as [-> ->]; clear Hc.
  - destruct r as [[]|[|ep it]]; simpl in Hr; simplify_eq; right; eexists; by split.
  - unfold connect_handler. destruct ec, it; right; eexists; (split; [reflexivity|]); simpl;
      by destruct (m_state i).
  - eapply read_handler_one; [..|exact Hr]; done.
  - by apply (timer_handler_one wr _ t).
Qed.

Lemma start_one i : m_pending i = [] -> one_outstanding (start i).
Proof. intros H. right. exists PResolve. simpl. by rewrite H. Qed.

Lemma opt_set_u32 o z : is_u32 z -> (forall v, o = Some v -> is_u32 v) -> is_u32 (opt_set o z).
Proof. destruct o; simpl; auto. Qed.

Lemma parseLeadingInteger_u32 s v : parseLeadingInteger s = Ok (Some v) -> is_u32 v.
Proof.
  unfold parseLeadingInteger. intros H. inv_ok H; destruct (_ && _); simplify_eq.
  apply wrap32_range.
Qed.

Lemma getFsStatus_u32 m r :
  getFsStatus m = Ok r ->
  (forall v, sr_current r = Some v -> is_u32 v) /\ (forall v, sr_max r = Some v -> is_u32 v).
Proof.
  unfold getFsStatus. destruct (_ <? 5)%nat; [intros [= <-]; by split|].
  intros (it & _ & (l3 & _ & ([n|] & H3 & H)%outcome_bind_ok)%outcome_bind_ok)%outcome_bind_ok;
    [|injection H as <-; by split].
  apply outcome_bind_ok in H as (it' & _ & (l4 & _ & ([k|] & H4 & H)%outcome_bind_ok)%outcome_bind_ok);
    injection H as <-; split; intros v [= <-]; eauto using parseLeadingInteger_u32.
Qed.

Lemma step_counts ms i ev i' : counts_u32 i -> step ms i ev i' -> counts_u32 i'.
Proof.
  intros [Hc Hm] Hstep.
  destruct Hstep as [r i0 i' (l1 & l2 & _ & ->) Hr|ec it i0 (l1 & l2 & _ & ->)
    |ec data wr i0 i' e (l1 & l2 & _ & ->) Hr|wr t i0 (l1 & l2 & _ & ->)|wr].
  - destruct r as [[]|[|ep it']]; simpl in Hr; by simplify_eq.
  - unfold connect_handler. by destruct ec, it.
  - unfold read_handler in Hr. destruct ec; [by injection Hr as <- <-|]. cbv zeta in Hr.
    destruct (isComplete _); [|by injection Hr as <- <-]. simpl negb in Hr. cbv iota in Hr.
    destruct (decide _); [by injection Hr as <- <-|].
    apply outcome_bind_ok in Hr as (r & Hsw & Hr).
    assert (counts_u32 (sw_inst r)) as [Hc' Hm'].
    { clear Hr. unfold read_switch in Hsw. simpl in Hsw.
      destruct (m_state i); try (by injection Hsw as <-); try (by case_decide; injection Hsw as <-).
      - destruct (is_api_response _); [|by injection Hsw as <-].
        apply outcome_bind_ok in Hsw as ([[ad po]|] & _ & Hsw); by injection Hsw as <-.
      - destruct (is_api_response _); [|by injection Hsw as <-].
        destruct (m_bReloadingXml _); [by injection Hsw as <-|].
        apply outcome_bind_ok in Hsw as (st & Hst & Hsw). apply getFsStatus_u32 in Hst as [H1 H2].
        assert (is_u32 (opt_set (sr_current st) (m_nCurrentSessions i)) /\
                is_u32 (opt_set (sr_max st) (m_nMaxSessions i))) as [? ?]
          by (split; by apply opt_set_u32).
        repeat case_match; by injection Hsw as <-. }
    injection Hr as Hr. unfold read_finish, write_socket in Hr.
    destruct (empty_ _), wr, (bReadAgain r), (bSetTimer r); by injection Hr as <- <-.
  - unfold timer_handler. simpl. destruct (m_state i), wr; by split.
  - unfold reloadxml. case_decide; [by split|]. destruct wr; by split.
Qed.

Lemma runs_one ms s evs i :
  one_outstanding s -> runs (step ms) s evs i -> Forall (fun ev => is_reload ev = false) evs -> one_outstanding i.
Proof.
  intros H0 Hr. revert H0. induction Hr as [|s l s' ls s'' Hs _ IH]; [done|].
  intros H0 [Hl Hls]%Forall_cons. apply IH; [|done]. eapply step_one; eauto.
Qed.

(** ** Properties *)

(** From its start, and as long as no XML reload is requested, an
    instance has at most one asynchronous operation outstanding, of the kind
    its state allows; it has none only in the states [may_be_idle] lists, and
    whatever happens its two session counts stay 32-bit unsigned numbers. *)
Theorem instance_invariant (ms : Z) (address : string) (port : Z) (evs : list event) (i : FsInstance) :
  runs (step ms) (start (new_FsInstance address port)) evs i ->
  counts_u32 i /\ (Forall (fun ev => is_reload ev = false) evs -> one_outstanding i).
Proof.
  intros Hr. split.
  - eapply runs_invariant; [|exact Hr|by split; vm_compute]. intros; eapply step_counts; eauto.
  - eapply runs_one; [|exact Hr]. by apply start_one.
Qed.

Lemma instance_invariant_witness :
  one_outstanding (start (new_FsInstance "localhost" 8021)).
Proof.
  exact (proj2 (instance_invariant 5000 "localhost" 8021 [] _ (runs_nil _ _)) (List.Forall_nil _)).
Defined.

(** With nothing outstanding, nothing but a request to reload can happen. *)
Lemma idle_no_step ms i ev i' : m_pending i = [] -> step ms i ev i' -> is_reload ev = true.
Proof. intros Hp Hs. destruct Hs; [..|done]; exfalso; eapply completing_nil; eauto. Qed.

(** A broken connection is not noticed.  When the read outstanding on a
    connected server completes with an error, the instance goes on counting as
    online, with the session counts and the availability it had, and (unless a
    reload is requested) no event ever changes that. *)
Theorem read_error_is_final (ms : Z) (address : string) (port : Z) (evs : list event)
    (i i' : FsInstance) (data : string) (wr : bool) :
  runs (step ms) (start (new_FsInstance address port)) evs i ->
  Forall (fun ev => is_reload ev = false) evs -> isOnline i = true ->
  step ms i (ERead true data wr) i' ->
  isOnline i' = true /\ isAvailable i' = isAvailable i /\
  forall evs' i'', runs (step ms) i' evs' i'' -> Forall (fun ev => is_reload ev = false) evs' ->
                   i'' = i'.
Proof.
  intros Hr Hev Hon Hs.
  assert (one_outstanding i) as H1 by (eapply runs_one; [|exact Hr|exact Hev]; by apply start_one).
  inversion Hs as [| |ec d w i0 i1 e Hc Hh| |]; subst. injection Hh as <- _.
  assert (i0 = i <| m_pending := [] |>) as ->.
  { destruct H1 as [[Hp _]|(q & Hp & _)]; [by apply completing_nil in Hc|].
    by destruct (completing_only _ _ _ _ Hc Hp). }
  split; [done|]. split; [done|]. intros evs' i'' Hr' Hev'.
  inversion Hr' as [|s l s' ls s'' Hst Hrest]; [done|]; subst.
  apply Forall_cons in Hev' as [Hl _]. apply idle_no_step in Hst; [congruence|done].
Qed.

(** Availability, spelled out.  A connected server counts as available
    iff it has more than two free sessions, when its maximum is at least 2;
    with a maximum of 0 or 1 the unsigned subtraction wraps, and it counts as
    available unless its current count is close to [2^32]. *)
Theorem isAvailable_spec (i : FsInstance) :
  counts_u32 i -> m_state i = querying_status ->
  isAvailable i = true <->
  (2 <= m_nMaxSessions i /\ m_nCurrentSessions i + 2 < m_nMaxSessions i) \/
  (m_nMaxSessions i < 2 /\ m_nCurrentSessions i < 2^32 - 2 + m_nMaxSessions i).
Proof.
  unfold counts_u32, is_u32. intros [Hc Hm] Hs. unfold isAvailable, wrap32.
  rewrite bool_decide_eq_true_2 by done. simpl. rewrite Z.ltb_lt.
  destruct (decide (2 <= m_nMaxSessions i)).
  - rewrite Z.mod_small by lia. lia.
  - assert ((m_nMaxSessions i - 2) `mod` 2^32 = m_nMaxSessions i - 2 + 2^32) as ->; [|lia].
    symmetry. apply (Z.mod_unique_pos _ _ (-1)); lia.
Qed.

Lemma isAvailable_spec_witness :
  isAvailable ((new_FsInstance "a" 1) <| m_state := querying_status |> <| m_nMaxSessions := 3 |>) = true.
Proof.
  apply isAvailable_spec; [split; vm_compute; split; [discriminate|reflexivity| discriminate|reflexivity]|reflexivity|].
  left. vm_compute. split; [discriminate|reflexivity].
Defined.

(** *** The dialogue with a server *)

Lemma completing_head p i : completing p (i <| m_pending := [p] |>) (i <| m_pending := [] |>).
Proof. by exists [], []. Qed.

Lemma read_one ms d i i' e :
  m_pending i = [PRead] -> read_handler ms false d true (i <| m_pending := [] |>) = Ok (i', e) ->
  step ms i (ERead false d true) i'.
Proof. intros Hp Hr. eapply step_read; [|exact Hr]. exists [], []. by split. Qed.

Lemma complete_api_not_text data :
  complete_api_response data ->
  let m := append data new_FsMessage in
  isComplete m = true /\ is_api_response m = true /\ ~ (m_category m = text /\ m_type m = disconnect_notice).
Proof.
  intros (H1 & H2 & H3) m. split; [done|]. split; [by apply bool_decide_eq_true_2|].
  intros [Ht _]. unfold m in Ht. congruence.
Qed.

(** The handler on a complete message that is not a disconnect notice. *)
Lemma read_handler_complete ms d wr i :
  let i1 := i <| m_fsMsg ::= append d |> in
  isComplete (m_fsMsg i1) = true ->
  ~ (m_category (m_fsMsg i1) = text /\ m_type (m_fsMsg i1) = disconnect_notice) ->
  read_handler ms false d wr i = (r ← read_switch i1; mret (read_finish ms wr r)).
Proof.
  intros i1 Hc Ht. unfold read_handler. fold i1. rewrite Hc. simpl negb. cbv iota.
  by rewrite decide_False.
Qed.

Lemma read_switch_profile i host port :
  m_state i = obtaining_sip_configuration -> is_api_response (m_fsMsg i) = true ->
  getSipProfile "internal" (m_fsMsg i) = Ok (Some (host, port)) ->
  read_switch i = Ok (
    let i := i <| m_strSipAddress := host |> <| m_nSipPort := port |> <| m_state := querying_status |> in
    (sw (act (ANotify (m_strAddress i) host) i))
      <| out := "api status" +:+ crlf +:+ crlf |> <| bReadAgain := true |>).
Proof. intros Hs Ha Hp. unfold read_switch. by rewrite Hs, Ha, Hp. Qed.

Lemma read_switch_status i cur mx :
  m_state i = querying_status -> is_api_response (m_fsMsg i) = true ->
  m_bReloadingXml i = false -> m_bDisconnected i = false ->
  getFsStatus (m_fsMsg i) = Ok (mkStatus true (Some cur) (Some mx)) ->
  read_switch i = Ok ((sw (i <| m_nCurrentSessions := cur |> <| m_nMaxSessions := mx |>))
                        <| bSetTimer := true |>).
Proof.
  intros Hs Ha Hr Hd Hp. unfold read_switch. rewrite Hs, Ha, Hr, Hp. simpl. by rewrite Hd.
Qed.

(** A step that reads a complete message, given what the switch does. *)
Lemma msg_step ms data m i r i' e :
  m_pending i = [PRead] -> m_fsMsg i = new_FsMessage -> append data new_FsMessage = m ->
  isComplete m = true -> ~ (m_category m = text /\ m_type m = disconnect_notice) ->
  read_switch (i <| m_pending := [] |> <| m_fsMsg := m |>) = Ok r ->
  read_finish ms true r = (i', e) ->
  step ms i (ERead false data true) i'.
Proof.
  intros Hp Hm Hd Hc Ht Hsw Hf.
  assert (i <| m_pending := [] |> <| m_fsMsg ::= append data |> =
          i <| m_pending := [] |> <| m_fsMsg := m |>) as Ei
    by (simpl; by rewrite Hm, Hd).
  eapply read_one; [done|].
  rewrite read_handler_complete; rewrite Ei; [|exact Hc|exact Ht]. rewrite Hsw.
  unfold mbind, outcome_bind. by rewrite Hf.
Qed.

Lemma append_greeting :
  append greeting new_FsMessage
  = mkFsMessage auth request undefined EmptyString 0 EmptyString greeting true true.
Proof. vm_compute. reflexivity. Qed.

Lemma append_auth_accepted :
  append auth_accepted new_FsMessage
  = mkFsMessage command reply ok "Reply-Text: +OK accepted" 0 EmptyString auth_accepted true true.
Proof. vm_compute. reflexivity. Qed.

Lemma connect_run ms address port ep :
  runs (step ms) (start (new_FsInstance address port)) (connect_events ep) (logged_in address port ep).
Proof.
  unfold connect_events. econstructor.
  { eapply step_resolve; [exists [], []; by split|reflexivity]. }
  econstructor.
  { eapply step_connect. exists [], []. by split. }
  econstructor.
  { eapply msg_step; [reflexivity..|apply append_greeting|reflexivity|by intros []|reflexivity|reflexivity]. }
  econstructor.
  { eapply msg_step; [reflexivity..|apply append_auth_accepted|reflexivity|by intros []|reflexivity|reflexivity]. }
  constructor.
Qed.

Lemma profile_step ms address port ep sofia host sip_port :
  complete_api_response sofia ->
  getSipProfile "internal" (append sofia new_FsMessage) = Ok (Some (host, sip_port)) ->
  step ms (logged_in address port ep) (ERead false sofia true) (profiled address port ep host sip_port).
Proof.
  intros (Hc & Ha & Ht)%complete_api_not_text Hp. eapply msg_step; [done|done|done|done|done| |].
  - by apply read_switch_profile.
  - reflexivity.
Qed.

Lemma status_step ms address port ep host sip_port status cur mx :
  complete_api_response status ->
  getFsStatus (append status new_FsMessage) = Ok (mkStatus true (Some cur) (Some mx)) ->
  step ms (profiled address port ep host sip_port) (ERead false status true)
    ((profiled address port ep host sip_port) <| m_nCurrentSessions := cur |> <| m_nMaxSessions := mx |>
      <| m_pending := [PTimer ms] |>).
Proof.
  intros (Hc & Ha & Ht)%complete_api_not_text Hp. eapply msg_step; [done|done|done|done|done| |].
  - by apply read_switch_status.
  - reflexivity.
Qed.

Lemma read_error_is_final_witness :
  exists i i', isOnline i = true /\ step 10000 i (ERead true EmptyString true) i' /\
    isOnline i' = true.
Proof.
  set (i := profiled "localhost" 8021 "127.0.0.1:8021" "10.10.2.35" 5080).
  exists i, (i <| m_pending := [] |>). split; [reflexivity|].
  assert (step 10000 i (ERead true EmptyString true) (i <| m_pending := [] |>)) as Hs.
  { eapply step_read; [exists [], []; split; reflexivity|reflexivity]. }
  split; [exact Hs|].
  refine (proj1 (read_error_is_final 10000 "localhost" 8021
    (connect_events "127.0.0.1:8021" ++ [ERead false sofia_example true]) i _ EmptyString true
    _ _ eq_refl Hs)).
  - eapply runs_app; [apply connect_run|]. econstructor; [|constructor].
    apply profile_step; vm_compute; repeat split.
  - repeat constructor.
Defined.

(** C24: The dialogue brings a server up.  If the server answers the greeting,
    accepts the login, and returns a SIP status from which the internal
    profile can be read and a status from which the session counts can be
    read, the instance ends online with that SIP address, port and counts,
    having asked for exactly that, in that order, and having set the health
    check timer. *)
Theorem dialogue_brings_up (ms : Z) (address : string) (port : Z) (ep sofia status host : string)
    (sip_port cur mx : Z) :
  complete_api_response sofia ->
  getSipProfile "internal" (append sofia new_FsMessage) = Ok (Some (host, sip_port)) ->
  complete_api_response status ->
  getFsStatus (append status new_FsMessage) = Ok (mkStatus true (Some cur) (Some mx)) ->
  exists i, runs (step ms) (start (new_FsInstance address port))
    (connect_events ep ++ [ERead false sofia true; ERead false status true]) i /\
    isOnline i = true /\ m_strSipAddress i = host /\ m_nSipPort i = sip_port /\
    m_nCurrentSessions i = cur /\ m_nMaxSessions i = mx /\ m_pending i = [PTimer ms] /\
    m_actions i = [AResolve address (dec port); AConnect ep;
                   AWrite ("auth ClueCon" +:+ crlf +:+ crlf);
                   AWrite ("api sofia status" +:+ crlf +:+ crlf); ANotify address host;
                   AWrite ("api status" +:+ crlf +:+ crlf)].
Proof.
  intros Hs1 Hs2 Ht1 Ht2. eexists. split.
  - eapply runs_app; [apply connect_run|]. econstructor; [by apply profile_step|].
    econstructor; [by apply status_step|]. constructor.
  - done.
Qed.

Lemma dialogue_brings_up_witness :
  exists i, runs (step 10000) (start (new_FsInstance "localhost" 8021))
    (connect_events "127.0.0.1:8021" ++
       [ERead false sofia_example true; ERead false status_example true]) i /\
    isOnline i = true.
Proof.
  destruct (dialogue_brings_up 10000 "localhost" 8021 "127.0.0.1:8021" sofia_example status_example
              "10.10.2.35" 5080 17 1000) as (i & Hr & Ho & _).
  - vm_compute. repeat split.
  - vm_compute. reflexivity.
  - vm_compute. repeat split.
  - vm_compute. reflexivity.
  - exists i. split; assumption.
Defined.

(** A server is offered calls before it has reported any capacity: right
    after its SIP profile is known it counts as available, with a maximum of 0
    sessions. *)
Theorem available_without_capacity (ms : Z) (address : string) (port : Z) (ep sofia host : string)
    (sip_port : Z) :
  complete_api_response sofia ->
  getSipProfile "internal" (append sofia new_FsMessage) = Ok (Some (host, sip_port)) ->
  exists i, runs (step ms) (start (new_FsInstance address port))
    (connect_events ep ++ [ERead false sofia true]) i /\
    isAvailable i = true /\ m_nMaxSessions i = 0.
Proof.
  intros Hs1 Hs2. exists (profiled address port ep host sip_port). split; [|by split].
  eapply runs_app; [apply connect_run|]. econstructor; [by apply profile_step|]. constructor.
Qed.

Lemma available_without_capacity_witness :
  exists i, runs (step 10000) (start (new_FsInstance "localhost" 8021))
    (connect_events "127.0.0.1:8021" ++ [ERead false sofia_example true]) i /\
    isAvailable i = true /\ m_nMaxSessions i = 0.
Proof.
  apply (available_without_capacity 10000 "localhost" 8021 _ sofia_example "10.10.2.35" 5080).
  - vm_compute. repeat split.
  - vm_compute. reflexivity.
Defined.
