(* ===== verification/FsMonitor.v ===== *)
(** * FsMonitor: the pool of FreeSWITCH servers

    [fs-monitor.h] and [fs-monitor.cpp].  The pool keeps the connections
    ([FsInstance]), the addresses that count as application servers, and the
    position of the round robin.  A [shared_ptr] to an instance is modelled by
    its index in [m_servers]; [std::sort] is a parameter, with the two laws the
    C++ standard gives it. *)

From S2P Require Import Prelude Text Sip Tokenizer FsMessage FsInstance.

(** ** Data *)

Record FsMonitor := mkFsMonitor {
  m_servers : list FsInstance;
  m_RRInterval : Z;
  m_nLastServer : Z;
  m_nLastRR : Z;
  m_setServers : gset string
}.

#[export] Instance FsMonitor_rebuild : Rebuild FsMonitor := fun m =>
  mkFsMonitor (m_servers m) (m_RRInterval m) (m_nLastServer m) (m_nLastRR m) (m_setServers m).

(** The constructor. *)
Definition new_FsMonitor : FsMonitor := mkFsMonitor [] 0 0 0 ∅.

Definition MAX_SERVERS_TO_TRY : Z := 3.

(** ** The set of servers *)

(** One address of [reset]: [strAddress] and [nPort] are declared outside the
    loop, so what an address leaves out is taken from the one before. *)
Definition parse_address (address : string) (acc : string * Z) : string * Z :=
  match tokenize ":" address with
  | [] => acc
  | [strAddress] => (strAddress, snd acc)
  | strAddress :: nPort :: _ => (strAddress, atoi_u32 nPort)
  end.

Fixpoint reset_servers (servers : list string) (acc : string * Z) (m : FsMonitor) : FsMonitor :=
  match servers with
  | [] => m
  | address :: servers =>
      let acc := parse_address address acc in
      reset_servers servers acc
        (m <| m_servers ::= fun l => l ++ [start (new_FsInstance (fst acc) (snd acc))] |>
           <| m_setServers ::= fun s => {[ fst acc ]} ∪ s |>)
  end.

(** [FsMonitor::reset]; [nPort] is not initialised: [garbage] is its first
    value. *)
Definition reset (garbage : Z) (servers : list string) (m : FsMonitor) : FsMonitor :=
  reset_servers servers (EmptyString, garbage) (m <| m_servers := [] |> <| m_setServers := ∅ |>).

Definition isAppserver (sourceAddress : string) (m : FsMonitor) : bool :=
  bool_decide (sourceAddress ∈ m_setServers m).

Definition setRoundRobinInterval (nInterval : Z) (m : FsMonitor) : FsMonitor :=
  m <| m_RRInterval := nInterval |>.

(** [FsMonitor::notifySipServerAddress], called by the instances. *)
Definition notifySipServerAddress (fsAddress sipAddress : string) (m : FsMonitor) : FsMonitor :=
  m <| m_setServers ::= fun s => {[ sipAddress ]} ∪ (s ∖ {[ fsAddress ]}) |>.

(** ** The event thread *)

(** How a call of [m_ioService.run()] ends. *)
Inductive run_result := ended_normally | threw (e : exn).

Definition goes_on (r : run_result) : bool :=
  match r with
  | threw FsDisconnectException | threw FsReconnectException => true
  | _ => false
  end.

(** [FsMonitor::threadFunc] against the results of its successive calls of
    [run]: the calls it does not make, or [None] while the thread is running. *)
Fixpoint threadFunc (rs : list run_result) : option (list run_result) :=
  match rs with
  | [] => None
  | r :: rs => if goes_on r then threadFunc rs else Some rs
  end.

(** ** Choosing servers *)

(** [capacity_sorter]. *)
Definition capacity_sorter (a b : FsInstance) : bool :=
  if isAvailable a && isAvailable b then getAvailableSessions b <? getAvailableSessions a
  else if isAvailable a then true
  else false.

(** [m_servers[current]]. *)
Definition at_ (servers : list FsInstance) (current : Z) : outcome FsInstance :=
  match servers !! Z.to_nat current with
  | Some i => Ok i
  | None => Fault PastTheEnd
  end.

(** [++current < total ? current : 0]. *)
Definition next_index (total current : Z) : Z :=
  let c := wrap32 (current + 1) in if c <? total then c else 0.

Section Collect.
Context (servers : list FsInstance) (total start nReturnCount : Z).

(** The [do ... while] loop: the results and [m_nLastServer] it ends with, or
    [None] without fuel. *)
Fixpoint collect (fuel : nat) (current last : Z) (results : list Z)
  : outcome (option (list Z * Z)) :=
  match fuel with
  | O => mret None
  | S fuel =>
      s ← at_ servers current;
      let '(results, last) :=
        if isAvailable s then (results ++ [current], last)
        else if last =? current then (results, wrap32 (last + 1))
        else (results, last) in
      let current := next_index total current in
      if negb (current =? start) && (Z.of_nat (length results) <? nReturnCount)
      then collect fuel current last results
      else mret (Some (results, last))
  end.
End Collect.

Section Pool.
(** [std::sort], on the handles of the servers. *)
Context (sort : (Z -> Z -> bool) -> list Z -> list Z).

(** [cs( a, b )] on handles. *)
Definition by_capacity (servers : list FsInstance) (a b : Z) : bool :=
  match servers !! Z.to_nat a, servers !! Z.to_nat b with
  | Some x, Some y => capacity_sorter x y
  | _, _ => false
  end.

(** [FsMonitor::getAvailableServers]: the results (none when it returns
    false) and the new state. *)
Definition getAvailableServers (results : list Z) : M FsMonitor (option (list Z)) :=
  assert_ (bool_decide (results = []));;
  servers ← gets m_servers;
  let total_servers := wrap32 (Z.of_nat (length servers)) in
  let nReturnCount := Z.min MAX_SERVERS_TO_TRY total_servers in
  if nReturnCount =? 0 then mret None
  else
    modify (fun m => m <| m_nLastServer ::= next_index total_servers |>);;
    start ← gets m_nLastServer;
    r ← (fun m => r ← collect servers total_servers start nReturnCount (length servers) start start [];
                  Ok (r, m));
    match r with
    | None => fail Uncaught
    | Some (results, last) =>
        modify (fun m => m <| m_nLastServer := last |>);;
        if (length results =? 0)%nat then mret None
        else
          interval ← gets m_RRInterval;
          if (0 <? interval) && (1 <? total_servers) then
            modify (fun m => m <| m_nLastRR ::= fun n => wrap32 (n + 1) |>);;
            lastRR ← gets m_nLastRR;
            if interval <? lastRR then
              modify (fun m => m <| m_nLastRR := 0 |>);;
              match sort (by_capacity servers) (seqZ 0 (Z.of_nat (length servers))) with
              | best :: _ => mret (Some (best :: results))
              | [] => fail PastTheEnd
              end
            else mret (Some results)
          else mret (Some results)
    end.
End Pool.

(** [FsMonitor::toString] of a list of instances (its [i++ < 0] never holds, so
    no comma is ever written). *)
Fixpoint toString_from (i : Z) (d : list FsInstance) : string :=
  match d with
  | [] => EmptyString
  | fs :: d =>
      (if i <? 0 then "," else EmptyString) +:+ m_strSipAddress fs +:+
      (if negb (m_nSipPort fs =? 0) then ":" +:+ dec (m_nSipPort fs) else EmptyString) +:+
      toString_from (i + 1) d
  end.

Definition toString (d : list FsInstance) : string := toString_from 0 d.

(** ** The interface of the pool

    What the call handling relies on: to be given servers to try, if it is given
    any, all of them available at that moment; to be told which addresses are
    application servers; and, of a well-formed pool, that asking always returns
    and gives SIP addresses of a bounded length. *)

Definition short_address (i : FsInstance) : Prop :=
  length_ (m_strSipAddress i +:+ ":" +:+ dec (m_nSipPort i)) <= ADDRESS_MAX.

Class ServerPool (P : Type) := {
  pool_get : M P (option (list FsInstance));
  pool_isAppserver : string -> P -> bool;
  pool_ok : P -> Prop;
  pool_get_nonempty : forall p l p', pool_get p = Ok (Some l, p') -> l <> [];
  pool_get_available : forall p l p', pool_get p = Ok (Some l, p') -> Forall (fun i => isAvailable i = true) l;
  pool_get_ok : forall p, pool_ok p -> exists r p', pool_get p = Ok (r, p') /\ pool_ok p' /\
    match r with Some l => Forall short_address l | None => True end
}.

(** The instances behind a list of handles. *)
Fixpoint resolve (servers : list FsInstance) (l : list Z) : outcome (list FsInstance) :=
  match l with
  | [] => mret []
  | k :: l => i ← at_ servers k; insts ← resolve servers l; mret (i :: insts)
  end.

Definition get_servers (sort : (Z -> Z -> bool) -> list Z -> list Z) : M FsMonitor (option (list FsInstance)) :=
  r ← getAvailableServers sort [];
  servers ← gets m_servers;
  match r with
  | None => mret None
  | Some l => insts ← lift (resolve servers l); mret (Some insts)
  end.

(** ** Reference definitions *)

(** The handles in the order the round robin visits them. *)
Definition rotation (start total : Z) : list Z :=
  map (fun k => (start + k) `mod` total) (seqZ 0 total).

Definition available (servers : list FsInstance) (k : Z) : bool :=
  match servers !! Z.to_nat k with Some i => isAvailable i | None => false end.

(** The value [m_nLastServer] is left with: the first available server at or
    after [start], or the end. *)
Fixpoint first_from (servers : list FsInstance) (fuel : nat) (start : Z) : Z :=
  match fuel with
  | O => start
  | S fuel => if available servers start then start else first_from servers fuel (start + 1)
  end.

(** What a call with an empty result list does. *)
Definition least_loaded_turn (m : FsMonitor) : bool :=
  (0 <? m_RRInterval m) && (1 <? Z.of_nat (length (m_servers m)))
  && (m_RRInterval m <? wrap32 (m_nLastRR m + 1)).

Definition next_RR (m : FsMonitor) : Z :=
  if (0 <? m_RRInterval m) && (1 <? Z.of_nat (length (m_servers m)))
  then (if m_RRInterval m <? wrap32 (m_nLastRR m + 1) then 0 else wrap32 (m_nLastRR m + 1))
  else m_nLastRR m.

Definition pool_ref (sort : (Z -> Z -> bool) -> list Z -> list Z) (m : FsMonitor)
  : option (list Z) * FsMonitor :=
  let total := Z.of_nat (length (m_servers m)) in
  let start := next_index total (m_nLastServer m) in
  let chosen := take 3 (List.filter (available (m_servers m)) (rotation start total)) in
  let m1 := m <| m_nLastServer := first_from (m_servers m) (Z.to_nat (total - start)) start |> in
  match chosen with
  | [] => (None, m1)
  | _ =>
      (Some (if least_loaded_turn m
             then default 0 (head (sort (by_capacity (m_servers m)) (seqZ 0 total))) :: chosen
             else chosen),
       m1 <| m_nLastRR := next_RR m |>)
  end.

(** Successive calls, each with an empty result list. *)
Fixpoint calls (sort : (Z -> Z -> bool) -> list Z -> list Z) (n : nat)
  : M FsMonitor (list (option (list Z))) :=
  match n with
  | O => mret []
  | S n => r ← getAvailableServers sort []; rs ← calls sort n; mret (r :: rs)
  end.

(** A merge-free sort to instantiate [std::sort] with. *)
Fixpoint insert_by (cmp : Z -> Z -> bool) (a : Z) (l : list Z) : list Z :=
  match l with
  | [] => [a]
  | b :: l => if cmp a b then a :: b :: l else b :: insert_by cmp a l
  end.

Definition insertion_sort (cmp : Z -> Z -> bool) (l : list Z) : list Z :=
  foldr (insert_by cmp) [] l.

(** What the standard says of [std::sort], for a strict weak order. *)
Definition strict_weak {A} (P : A -> Prop) (cmp : A -> A -> bool) : Prop :=
  (forall a, P a -> cmp a a = false) /\
  (forall a b c, P a -> P b -> P c -> cmp a b = true -> cmp b c = true -> cmp a c = true) /\
  (forall a b c, P a -> P b -> P c -> cmp a b = false -> cmp b c = false -> cmp a c = false).

Definition sort_laws (sort : (Z -> Z -> bool) -> list Z -> list Z) : Prop :=
  forall cmp l, strict_weak (fun a => In a l) cmp ->
    Permutation (sort cmp l) l /\ StronglySorted (fun a b => cmp b a = false) (sort cmp l).

(** [capacity_sorter] compares keys. *)
Definition capacity_key (i : FsInstance) : Z := if isAvailable i then getAvailableSessions i else -1.

Definition online (cur mx : Z) : FsInstance :=
  (new_FsInstance "10.10.2.35" 8021) <| m_state := querying_status |>
    <| m_nCurrentSessions := cur |> <| m_nMaxSessions := mx |>.

(** A pool of four, the second of which is full. *)
Definition pool_example : FsMonitor :=
  mkFsMonitor [online 1 100; online 99 100; online 0 100; online 7 100] 2 3 2 ∅.

Definition monitor_ok (m : FsMonitor) : Prop :=
  Z.of_nat (length (m_servers m)) < 2^32 /\ Forall short_address (m_servers m).

(** ** Lemmas *)

Section CollectLemmas.
Context (servers : list FsInstance).
#[local] Abbreviation total := (Z.of_nat (length servers)).

Lemma at_available k :
  0 <= k < total -> exists i, at_ servers k = Ok i /\ isAvailable i = available servers k.
Proof.
  intros Hk. unfold at_, available.
  destruct (lookup_lt_is_Some_2 servers (Z.to_nat k)) as [i ->]; [lia|]. eauto.
Qed.

Lemma next_index_mod start k :
  0 <= start < total -> total < 2^32 -> 0 <= k ->
  next_index total ((start + k) `mod` total) = (start + (k + 1)) `mod` total.
Proof.
  intros Hs Ht Hk. unfold next_index.
  pose proof (Z.mod_pos_bound (start + k) total ltac:(lia)).
  rewrite wrap32_small by (unfold is_u32; lia).
  replace (start + (k + 1)) with ((start + k) + 1) by lia.
  rewrite (Z.add_mod (start + k) 1) by lia.
  destruct (decide (total = 1)) as [E|].
  { rewrite E. rewrite !Z.mod_1_r. reflexivity. }
  rewrite (Z.mod_small 1) by lia.
  destruct (Z.ltb_spec ((start + k) `mod` total + 1) total); [rewrite (Z.mod_small (_ + 1)) by lia; done|].
  replace ((start + k) `mod` total + 1) with total by lia. by rewrite Z.mod_same by lia.
Qed.

Lemma mod_start start k :
  0 <= start < total -> 0 < k < total -> (start + k) `mod` total <> start.
Proof.
  intros Hs Hk. destruct (decide (start + k < total)).
  - rewrite Z.mod_small by lia. lia.
  - replace ((start + k) `mod` total) with (start + k - total); [lia|].
    apply (Z.mod_unique_pos _ _ 1); lia.
Qed.

Lemma filter_cons_if {A} (f : A -> bool) a l :
  List.filter f (a :: l) = (if f a then [a] else []) ++ List.filter f l.
Proof. simpl. by destruct (f a). Qed.

(** The loop from its [k]-th iteration on, for the results. *)
Lemma collect_results start n fuel : forall k last results,
  0 <= start < total -> total < 2^32 -> 0 <= k < total ->
  Z.of_nat (length results) < n -> total - k <= Z.of_nat fuel ->
  exists last',
    collect servers total start n fuel ((start + k) `mod` total) last results
    = Ok (Some (results ++ take (Z.to_nat n - length results)
                 (List.filter (available servers)
                    (map (fun j => (start + j) `mod` total) (seqZ k (total - k)))), last')).
Proof.
  induction fuel as [|fuel IH]; intros k last results Hs Ht Hk Hn Hf; [lia|].
  rewrite seqZ_cons by lia. rewrite map_cons, filter_cons_if. simpl collect.
  set (cur := (start + k) `mod` total).
  assert (0 <= cur < total) as Hcur by (apply Z.mod_pos_bound; lia).
  destruct (at_available cur Hcur) as (i & -> & Ha).
  unfold mbind, outcome_bind. cbv beta iota zeta. rewrite Ha.
  unfold cur at 3 4 5 6. rewrite next_index_mod by lia.
  replace (Z.succ k) with (k + 1) by lia. replace (Z.pred (total - k)) with (total - (k + 1)) by lia.
  assert (forall results' last',
    (length results' <= Z.to_nat n)%nat ->
    exists last'', (if negb ((start + (k + 1)) `mod` total =? start)
      && (Z.of_nat (length results') <? n)
    then collect servers total start n fuel ((start + (k + 1)) `mod` total) last' results'
    else mret (Some (results', last')))
    = Ok (Some (results' ++ take (Z.to_nat n - length results')
         (List.filter (available servers)
           (map (fun j => (start + j) `mod` total) (seqZ (k + 1) (total - (k + 1))))), last''))) as Hrest.
  { intros results' last' Hl. destruct (Z.ltb_spec (Z.of_nat (length results')) n).
    2:{ rewrite andb_false_r. exists last'. replace (Z.to_nat n - length results')%nat with 0%nat by lia.
        by rewrite app_nil_r. }
    rewrite andb_true_r. destruct (decide (k + 1 = total)) as [E|].
    - rewrite E. rewrite <- Z.add_mod_idemp_r, Z.mod_same, Z.add_0_r, Z.mod_small, Z.eqb_refl by lia.
      exists last'. simpl. replace (total - total) with 0 by lia. rewrite seqZ_nil by lia.
      simpl. by rewrite take_nil, app_nil_r.
    - pose proof (mod_start start (k + 1) Hs ltac:(lia)) as Hne%Z.eqb_neq. rewrite Hne. simpl.
      apply IH; lia. }
  destruct (available servers cur) eqn:Ea.
  - destruct (Hrest (results ++ [cur]) last) as [l' ->]; [rewrite length_app; simpl; lia|].
    exists l'. do 3 f_equal. rewrite length_app. simpl.
    replace (Z.to_nat n - length results)%nat with (S (Z.to_nat n - (length results + 1)))%nat by lia.
    fold cur. rewrite Ea. simpl. by rewrite <- app_assoc.
  - fold cur. rewrite Ea. destruct (last =? cur); apply Hrest; lia.
Qed.

Lemma next_index_range current : 0 < total -> 0 <= next_index total current < total.
Proof.
  intros Ht. unfold next_index. pose proof (wrap32_range (current + 1)) as [Hl _].
  destruct (Z.ltb_spec (wrap32 (current + 1)) total); lia.
Qed.

(** Once [m_nLastServer] is on an available server or at the end, it stays. *)
Lemma collect_settled start n fuel : forall current last results r last',
  0 <= current < total -> (last = total \/ available servers last = true) ->
  collect servers total start n fuel current last results = Ok (Some (r, last')) -> last' = last.
Proof.
  induction fuel as [|fuel IH]; intros current last results r last' Hc Hl; [done|].
  simpl. destruct (at_available current Hc) as (i & -> & Ha).
  unfold mbind, outcome_bind. rewrite Ha.
  pose proof (next_index_range current ltac:(lia)).
  destruct (available servers current) eqn:Ea.
  - case_match; [by apply IH|by intros [= <- <-]].
  - destruct (Z.eqb_spec last current) as [->|]; [destruct Hl; [lia|congruence]|].
    case_match; [by apply IH|by intros [= <- <-]].
Qed.

Lemma collect_first start n fuel : forall current results r last',
  0 <= start <= current -> current < total -> total < 2^32 ->
  Z.of_nat (length results) < n ->
  collect servers total start n fuel current current results = Ok (Some (r, last')) ->
  last' = first_from servers (Z.to_nat (total - current)) current.
Proof.
  induction fuel as [|fuel IH]; intros current results r last' Hs Hc Ht Hn; [done|].
  replace (Z.to_nat (total - current)) with (S (Z.to_nat (total - (current + 1)))) by lia.
  simpl. destruct (at_available current ltac:(lia)) as (i & -> & Ha).
  unfold mbind, outcome_bind. rewrite Ha, Z.eqb_refl.
  pose proof (next_index_range current ltac:(lia)).
  destruct (available servers current) eqn:Ea.
  - case_match; [eapply collect_settled; [lia|by right]|by intros [= <- <-]].
  - rewrite wrap32_small by (unfold is_u32; lia).
    destruct (decide (current + 1 = total)) as [E|].
    + rewrite E. replace (Z.to_nat (total - total)) with 0%nat by lia. simpl.
      case_match; [eapply collect_settled; [lia|by left]|by intros [= <- <-]].
    + assert (next_index total current = current + 1) as ->.
      { unfold next_index. rewrite wrap32_small by (unfold is_u32; lia).
        by destruct (Z.ltb_spec (current + 1) total); [|lia]. }
      destruct (Z.eqb_spec (current + 1) start); [lia|]. simpl.
      destruct (Z.ltb_spec (Z.of_nat (length results)) n); [|lia]. apply IH; lia.
Qed.

Lemma first_from_range fuel k : k <= first_from servers fuel k <= k + Z.of_nat fuel.
Proof.
  revert k. induction fuel as [|fuel IH]; intros k; simpl; [lia|].
  destruct (available servers k); [lia|]. specialize (IH (k + 1)). lia.
Qed.

Lemma length_filter_le {A} (f : A -> bool) l : (length (List.filter f l) <= length l)%nat.
Proof. induction l as [|a l IH]; simpl; [done|]. destruct (f a); simpl; lia. Qed.

(** The whole loop. *)
Lemma collect_spec start :
  0 <= start < total -> total < 2^32 ->
  collect servers total start (Z.min MAX_SERVERS_TO_TRY total) (length servers) start start []
  = Ok (Some (take 3 (List.filter (available servers) (rotation start total)),
              first_from servers (Z.to_nat (total - start)) start)).
Proof.
  intros Hs Ht.
  destruct (collect_results start (Z.min MAX_SERVERS_TO_TRY total) (length servers) 0 start [])
    as [last' E]; [unfold MAX_SERVERS_TO_TRY; simpl; lia..|].
  rewrite Z.add_0_r, Z.mod_small in E by lia. rewrite E.
  apply collect_first in E; [|unfold MAX_SERVERS_TO_TRY; simpl; lia..]. subst last'.
  do 3 f_equal. simpl. unfold rotation. rewrite Nat.sub_0_r, Z.sub_0_r.
  set (l := List.filter _ _).
  assert (length l <= length servers)%nat.
  { unfold l. etrans; [apply length_filter_le|]. rewrite length_map, length_seqZ. lia. }
  unfold MAX_SERVERS_TO_TRY. destruct (decide (3 <= total)); [f_equal; lia|].
  rewrite !take_ge by lia. done.
Qed.
End CollectLemmas.

Lemma head_sort sort servers :
  sort_laws sort -> forall cmp, strict_weak (fun a => In a servers) cmp -> servers <> [] ->
  exists best rest, sort cmp servers = best :: rest /\ In best servers /\
    forall a, In a servers -> cmp a best = false.
Proof.
  intros Hsort cmp Hcmp Hne. destruct (Hsort cmp servers Hcmp) as [Hp Hs].
  destruct (sort cmp servers) as [|best rest].
  { apply Permutation_nil in Hp. done. }
  exists best, rest. split; [done|]. split; [apply (Permutation_in _ Hp); by left|].
  intros a Ha. apply (Permutation_in _ (Permutation_sym Hp)) in Ha.
  apply StronglySorted_inv in Hs as [_ Hf]. rewrite List.Forall_forall in Hf.
  destruct Ha as [<-|Ha]; [|by apply Hf]. apply Hcmp, (Permutation_in _ Hp). by left.
Qed.

Lemma capacity_sorter_key a b : capacity_sorter a b = (capacity_key b <? capacity_key a).
Proof.
  unfold capacity_sorter, capacity_key.
  assert (forall i, 0 <= getAvailableSessions i) as Hp by (intros; apply wrap32_range).
  pose proof (Hp a). pose proof (Hp b).
  destruct (isAvailable a), (isAvailable b); simpl; symmetry; [done|apply Z.ltb_lt; lia|apply Z.ltb_ge; lia|].
  by apply Z.ltb_ge.
Qed.

Lemma in_servers (servers : list FsInstance) a :
  In a (seqZ 0 (Z.of_nat (length servers))) -> exists i, servers !! Z.to_nat a = Some i.
Proof.
  intros H%list_elem_of_In%elem_of_seqZ. apply lookup_lt_is_Some_2. lia.
Qed.

Lemma by_capacity_strict_weak servers :
  strict_weak (fun a => In a (seqZ 0 (Z.of_nat (length servers)))) (by_capacity servers).
Proof.
  unfold by_capacity. repeat split; intros; repeat match goal with
    | H : In _ _ |- _ => apply in_servers in H as [? H]; rewrite H in * end;
    rewrite ?capacity_sorter_key in *; rewrite ?Z.ltb_lt, ?Z.ltb_ge in *; lia.
Qed.

Lemma length_seqZ_servers (servers : list FsInstance) :
  servers <> [] -> seqZ 0 (Z.of_nat (length servers)) <> [].
Proof. destruct servers; [done|]. intros _. by rewrite seqZ_cons by (simpl; lia). Qed.

Lemma best_server sort servers :
  sort_laws sort -> servers <> [] ->
  exists best rest i, sort (by_capacity servers) (seqZ 0 (Z.of_nat (length servers))) = best :: rest /\
    servers !! Z.to_nat best = Some i /\
    forall j, j ∈ servers -> isAvailable j = true ->
      isAvailable i = true /\ getAvailableSessions j <= getAvailableSessions i.
Proof.
  intros Hs Hne.
  destruct (head_sort sort _ Hs _ (by_capacity_strict_weak servers) (length_seqZ_servers _ Hne))
    as (best & rest & E & Hin & Hmax).
  destruct (in_servers _ _ Hin) as [i Hi]. exists best, rest, i. split; [done|]. split; [done|].
  intros j [k Hk]%list_elem_of_lookup Ha. pose proof (lookup_lt_Some _ _ _ Hk).
  specialize (Hmax (Z.of_nat k)). unfold by_capacity in Hmax. rewrite Nat2Z.id, Hk, Hi in Hmax.
  rewrite capacity_sorter_key, Z.ltb_ge in Hmax.
  assert (capacity_key j <= capacity_key i) as Hle.
  { apply Hmax, list_elem_of_In, elem_of_seqZ. lia. }
  unfold capacity_key in Hle. rewrite Ha in Hle. pose proof (wrap32_range (m_nMaxSessions j - m_nCurrentSessions j)).
  unfold getAvailableSessions in *. destruct (isAvailable i); [by split|]. unfold is_u32 in *. lia.
Qed.

Lemma mod_inj start total i j :
  0 <= i < total -> 0 <= j < total -> (start + i) `mod` total = (start + j) `mod` total -> i = j.
Proof.
  intros Hi Hj E. pose proof (Z.div_mod (start + i) total ltac:(lia)) as H1.
  pose proof (Z.div_mod (start + j) total ltac:(lia)) as H2. rewrite E in H1.
  set (a := (start + i) `div` total) in *. set (b := (start + j) `div` total) in *.
  assert (i - j = total * (a - b)) as H by lia. clear - H Hi Hj. clearbody a b.
  assert (a - b = 0) by nia. lia.
Qed.

Lemma rotation_NoDup start total : NoDup (rotation start total).
Proof.
  apply NoDup_fmap_2_strong; [|apply NoDup_seqZ].
  intros i j Hi%elem_of_seqZ Hj%elem_of_seqZ. apply mod_inj; lia.
Qed.

Lemma elem_of_rotation start total k : 0 < total -> k ∈ rotation start total <-> 0 <= k < total.
Proof.
  intros Ht. unfold rotation. rewrite list_elem_of_fmap. split.
  - intros (j & -> & _). by apply Z.mod_pos_bound.
  - intros Hk. exists ((k - start) `mod` total). split; [|apply elem_of_seqZ; pose proof (Z.mod_pos_bound (k - start) total); lia].
    rewrite Z.add_mod_idemp_r by lia. replace (start + (k - start)) with k by lia. by rewrite Z.mod_small.
Qed.

Lemma elem_of_filter_b {A} (f : A -> bool) (a : A) l : a ∈ List.filter f l <-> f a = true /\ a ∈ l.
Proof. rewrite !list_elem_of_In, List.filter_In. tauto. Qed.

Lemma filter_NoDup {A} (f : A -> bool) (l : list A) : NoDup l -> NoDup (List.filter f l).
Proof. rewrite !NoDup_ListNoDup. apply List.NoDup_filter. Qed.

Lemma take_incl {A} n (l : list A) a : a ∈ take n l -> a ∈ l.
Proof. intros (i & H)%list_elem_of_lookup. apply lookup_take_Some in H as [H _]. by eapply list_elem_of_lookup_2. Qed.

Lemma NoDup_take {A} n (l : list A) : NoDup l -> NoDup (take n l).
Proof. intros H. rewrite <- (take_drop n l) in H. by apply NoDup_app in H as [H _]. Qed.

Lemma insert_by_perm cmp a l : Permutation (insert_by cmp a l) (a :: l).
Proof.
  induction l as [|b l IH]; simpl; [done|]. destruct (cmp a b); [done|].
  rewrite IH. apply perm_swap.
Qed.

Lemma insertion_sort_laws : sort_laws insertion_sort.
Proof.
  intros cmp l. induction l as [|a l IH]; intros (Hirr & Htr & Hinc); [by split; constructor|].
  destruct IH as [Hp Hs].
  { split; [|split]; intros; eauto 10 using List.in_cons. }
  assert (Permutation (insertion_sort cmp (a :: l)) (a :: l)) as Hp'.
  { simpl. rewrite insert_by_perm. by apply perm_skip. }
  split; [done|]. simpl. fold (insertion_sort cmp l).
  assert (forall x, In x (insertion_sort cmp l) -> In x (a :: l)) as Hin.
  { intros x Hx. right. by apply (Permutation_in _ Hp). }
  clear Hp Hp'. set (l' := insertion_sort cmp l) in *. clearbody l'.
  assert (forall x y, In x (a :: l) -> In y (a :: l) -> cmp x y = true -> cmp y x = false) as Hasym.
  { intros x y Hx Hy E. apply not_true_iff_false. intros E'.
    pose proof (Htr x y x Hx Hy Hx E E'). rewrite Hirr in *; done. }
  induction l' as [|b l' IH]; simpl; [by repeat constructor|].
  apply StronglySorted_inv in Hs as [Hs Hf]. rewrite List.Forall_forall in Hf.
  assert (In b (a :: l)) by (apply Hin; by left). assert (In a (a :: l)) by by left.
  destruct (cmp a b) eqn:E.
  - constructor; [constructor; [done|by apply List.Forall_forall]|].
    constructor; [by apply Hasym|]. apply List.Forall_forall. intros c Hc.
    apply Hinc with b; [apply Hin; by right|done|done|by apply Hf|by apply Hasym].
  - constructor; [apply IH; [done|intros; apply Hin; by right]|].
    apply List.Forall_forall. intros c Hc. apply (Permutation_in _ (insert_by_perm _ _ _)) in Hc.
    destruct Hc as [<-|Hc]; [done|by apply Hf].
Qed.

Lemma getAvailableServers_ref sort m :
  sort_laws sort -> m_servers m <> [] -> Z.of_nat (length (m_servers m)) < 2^32 ->
  getAvailableServers sort [] m = Ok (pool_ref sort m).
Proof.
  intros Hsort Hne Hlen.
  assert (0 < Z.of_nat (length (m_servers m))) as Hpos by (destruct (m_servers m); simpl in *; [done|lia]).
  unfold getAvailableServers, pool_ref, least_loaded_turn, next_RR.
  unfold mbind, M_bind, outcome_bind, mret, M_ret, outcome_ret, assert_, gets, modify, fail. simpl.
  rewrite wrap32_small by (unfold is_u32; lia). set (total := Z.of_nat (length (m_servers m))) in *.
  assert ((Z.min MAX_SERVERS_TO_TRY total =? 0) = false) as -> by (apply Z.eqb_neq; unfold MAX_SERVERS_TO_TRY; lia).
  set (start := next_index total (m_nLastServer m)).
  assert (0 <= start < total) as Hst by (by apply next_index_range).
  unfold total in Hst, Hlen |- *. rewrite collect_spec by done. cbv beta iota zeta. fold total.
  set (chosen := take 3 _). simpl.
  destruct chosen as [|c cs]; [done|]. simpl.
  destruct ((0 <? m_RRInterval m) && (1 <? total)); [|done]. simpl.
  destruct (m_RRInterval m <? wrap32 (m_nLastRR m + 1)); [|done]. simpl.
  destruct (best_server sort (m_servers m) Hsort Hne) as (best & rest & i & E & _).
  fold total in E. by rewrite E.
Qed.

(** ** Properties *)

(** C19: Choosing servers refines its specification: on a pool with servers,
    the loop and its index arithmetic return the first three available
    servers in cyclic order from the one after the last call's start; every
    [m_RRInterval]+1-th successful call puts the sorted pool's head in front;
    [m_nLastServer] ends at the first available server at or after the start
    (or one past the last).  In particular no index leaves the pool, and the
    loop ends. *)
Theorem getAvailableServers_refines (sort : (Z -> Z -> bool) -> list Z -> list Z) (m : FsMonitor) :
  sort_laws sort -> m_servers m <> [] -> Z.of_nat (length (m_servers m)) < 2^32 ->
  getAvailableServers sort [] m = Ok (pool_ref sort m).
Proof.
  exact (getAvailableServers_ref sort m).
Qed.

Lemma getAvailableServers_refines_witness :
  getAvailableServers insertion_sort [] pool_example =
  Ok (Some [2; 0; 2; 3], pool_example <| m_nLastServer := 0 |> <| m_nLastRR := 0 |>).
Proof.
  etransitivity; [apply (getAvailableServers_refines insertion_sort pool_example)|vm_compute; reflexivity].
  - exact insertion_sort_laws.
  - discriminate.
  - vm_compute. reflexivity.
Defined.

(** What the caller is given.  The call fails exactly when no server is
    available; otherwise the list is, up to an extra head on a least-loaded
    turn, one to three distinct available servers; and that head is an
    available server that none has more free sessions than. *)
Theorem getAvailableServers_results (sort : (Z -> Z -> bool) -> list Z -> list Z) (m m' : FsMonitor)
    (r : option (list Z)) :
  sort_laws sort -> m_servers m <> [] -> Z.of_nat (length (m_servers m)) < 2^32 ->
  getAvailableServers sort [] m = Ok (r, m') ->
  match r with
  | None => Forall (fun i => isAvailable i = false) (m_servers m)
  | Some rs =>
      exists chosen, NoDup chosen /\ (1 <= length chosen <= 3)%nat /\
        Forall (fun k => available (m_servers m) k = true) chosen /\
        (rs = chosen \/
         exists best i, rs = best :: chosen /\ m_servers m !! Z.to_nat best = Some i /\
           isAvailable i = true /\
           Forall (fun j => isAvailable j = true -> getAvailableSessions j <= getAvailableSessions i)
             (m_servers m))
  end.
Proof.
  intros Hs Hne Hl. rewrite getAvailableServers_ref by done. unfold pool_ref.
  set (total := Z.of_nat (length (m_servers m))). set (st := next_index total (m_nLastServer m)).
  assert (0 < total) as Ht by (unfold total; destruct (m_servers m); simpl; [done|lia]).
  pose proof (fun k => elem_of_filter_b (available (m_servers m)) k (rotation st total)) as Hin.
  pose proof (filter_NoDup (available (m_servers m)) _ (rotation_NoDup st total)) as Hnd.
  set (l := List.filter _ _) in *. set (chosen := take 3 l).
  assert (Forall (fun k => available (m_servers m) k = true) chosen) as Hav.
  { apply Forall_forall. intros k Hk%take_incl. by apply Hin in Hk as [? _]. }
  assert (NoDup chosen) as Hndc by by apply NoDup_take.
  assert (length chosen <= 3)%nat as Hlen by (unfold chosen; rewrite length_take; lia).
  destruct chosen as [|c cs] eqn:Ec.
  - intros [= <- _]. apply Forall_forall. intros i [k Hk]%list_elem_of_lookup.
    apply not_true_iff_false. intros Ha. pose proof (lookup_lt_Some _ _ _ Hk).
    assert (Z.of_nat k ∈ l) as Hkl.
    { apply Hin. unfold available. rewrite Nat2Z.id, Hk. split; [done|]. apply elem_of_rotation; lia. }
    destruct l as [|x l]; [by apply elem_of_nil in Hkl|done].
  - intros [= <- _]. exists (c :: cs). simpl in Hlen |- *. split; [done|]. split; [lia|]. split; [done|].
    destruct (least_loaded_turn m); [|by left]. right.
    destruct (best_server sort (m_servers m) Hs Hne) as (best & rest & i & E & Hi & Hbest).
    fold total in E. rewrite E. exists best, i. simpl. split; [done|]. split; [done|].
    apply Forall_cons in Hav as [Hc _]. unfold available in Hc.
    destruct (m_servers m !! Z.to_nat c) as [j|] eqn:Ej; [|done].
    apply list_elem_of_lookup_2 in Ej. destruct (Hbest j Ej Hc) as [Hi' _]. split; [done|].
    apply Forall_forall. intros j' Hj' Ha. by apply Hbest.
Qed.

Lemma getAvailableServers_results_witness :
  exists chosen : list Z, NoDup chosen /\ (1 <= length chosen <= 3)%nat.
Proof.
  destruct (getAvailableServers_results insertion_sort pool_example
    (pool_example <| m_nLastServer := 0 |> <| m_nLastRR := 0 |>) (Some [2; 0; 2; 3]) insertion_sort_laws
    ltac:(discriminate) ltac:(vm_compute; reflexivity) ltac:(vm_compute; reflexivity))
    as (chosen & H1 & H2 & _).
  exists chosen. split; assumption.
Defined.

(** *** The round robin is fair *)

Lemma first_from_available servers fuel k : available servers k = true -> first_from servers fuel k = k.
Proof. destruct fuel; simpl; [done|]. by intros ->. Qed.

Lemma next_index_le total last : 0 <= last < total -> total < 2^32 -> next_index total last = (last + 1) `mod` total.
Proof.
  intros Hl Ht. unfold next_index. rewrite wrap32_small by (unfold is_u32; lia).
  destruct (Z.ltb_spec (last + 1) total); [by rewrite Z.mod_small by lia|].
  replace (last + 1) with total by lia. by rewrite Z.mod_same by lia.
Qed.

(** C26: The round robin is fair.  While every server is available (and no
    least-loaded turns are configured), the first server handed out by the
    k-th successive call is the k-th after the last one, cyclically: every
    server heads one list in every [length m_servers] calls. *)
Theorem round_robin_fair (sort : (Z -> Z -> bool) -> list Z -> list Z) (n : nat) (m : FsMonitor) :
  sort_laws sort -> Forall (fun i => isAvailable i = true) (m_servers m) ->
  Z.of_nat (length (m_servers m)) < 2^32 -> m_RRInterval m = 0 ->
  0 <= m_nLastServer m < Z.of_nat (length (m_servers m)) ->
  exists rs m', calls sort n m = Ok (rs, m') /\
    map (fun r => r ≫= head) rs =
    map (fun k => Some ((m_nLastServer m + 1 + k) `mod` Z.of_nat (length (m_servers m)))) (seqZ 0 (Z.of_nat n)).
Proof.
  intros Hs Hav Hl Hi. revert m Hav Hl Hi.
  induction n as [|n IH]; intros m Hav Hl Hi Hm; [by exists [], m|].
  simpl calls. unfold mbind, M_bind. rewrite getAvailableServers_ref; [|done|by intros E; rewrite E in Hm; simpl in Hm; lia|done].
  unfold pool_ref, least_loaded_turn, next_RR. rewrite Hi. simpl. rewrite next_index_le by done.
  set (total := Z.of_nat (length (m_servers m))) in *. set (st := (m_nLastServer m + 1) `mod` total).
  assert (0 <= st < total) as Hst by (apply Z.mod_pos_bound; lia).
  assert (available (m_servers m) st = true) as Hast.
  { unfold available. destruct (lookup_lt_is_Some_2 (m_servers m) (Z.to_nat st)) as [i Ei]; [lia|].
    rewrite Ei. rewrite Forall_lookup in Hav. by eapply Hav. }
  assert (exists cs, take 3 (List.filter (available (m_servers m)) (rotation st total)) = st :: cs) as [cs ->].
  { unfold rotation. rewrite seqZ_cons by lia. simpl. rewrite Z.add_0_r, Z.mod_small, Hast by lia. simpl. eauto. }
  simpl. rewrite first_from_available by done.
  destruct (IH (m <| m_nLastServer := st |>)) as (rs & m' & E & Hrs); [done..|].
  simpl in E.
  rewrite E. exists (Some (st :: cs) :: rs), m'. split; [done|].
  simpl. simpl in Hrs. fold total in Hrs.
  rewrite seqZ_cons by lia. simpl. f_equal; [by rewrite Z.add_0_r|].
  etransitivity; [exact Hrs|]. replace (Z.pred (Z.of_nat (S n))) with (Z.of_nat n) by lia.
  replace (Z.succ 0) with (1 + 0) by lia. rewrite <- (fmap_add_seqZ 1 0 (Z.of_nat n)).
  rewrite map_map. apply map_ext. intros k. f_equal. unfold st.
  rewrite <- (Z.add_assoc _ 1 k), Z.add_mod_idemp_l by lia. f_equal.
Qed.

Lemma round_robin_fair_witness :
  exists rs m',
    calls insertion_sort 5 (mkFsMonitor [online 1 9; online 2 9; online 3 9] 0 2 0 ∅) = Ok (rs, m') /\
    map (fun r => r ≫= head) rs = [Some 0; Some 1; Some 2; Some 0; Some 1].
Proof.
  apply (round_robin_fair insertion_sort 5 (mkFsMonitor [online 1 9; online 2 9; online 3 9] 0 2 0 ∅)).
  - exact insertion_sort_laws.
  - repeat constructor.
  - vm_compute. reflexivity.
  - reflexivity.
  - vm_compute. split; [discriminate|reflexivity].
Defined.

(** *** The pool implements its interface *)

Lemma collect_available servers total st n fuel : forall current last results r last',
  Forall (fun k => available servers k = true) results ->
  collect servers total st n fuel current last results = Ok (Some (r, last')) ->
  Forall (fun k => available servers k = true) r.
Proof.
  induction fuel as [|fuel IH]; intros current last results r last' Hr; [done|]. simpl.
  unfold at_, mbind, outcome_bind. destruct (servers !! Z.to_nat current) as [i|] eqn:Ei; [|done].
  assert (Forall (fun k => available servers k = true)
            (if isAvailable i then results ++ [current] else results)) as Hr'.
  { destruct (isAvailable i) eqn:Ea; [|done]. apply Forall_app. split; [done|]. constructor; [|constructor].
    unfold available. by rewrite Ei. }
  destruct (isAvailable i); [|destruct (last =? current)]; (case_match; [by apply IH|by intros [= <- <-]]).
Qed.

Lemma getAvailableServers_some sort m l m' :
  sort_laws sort -> getAvailableServers sort [] m = Ok (Some l, m') ->
  l <> [] /\ Forall (fun k => available (m_servers m) k = true) l /\ m_servers m' = m_servers m.
Proof.
  intros Hs. unfold getAvailableServers.
  unfold mbind, M_bind, outcome_bind, mret, M_ret, outcome_ret, assert_, gets, modify, fail. simpl.
  case_match; [done|].
  destruct (collect _ _ _ _ _ _ _ _) as [[[r last]|]|] eqn:E; [|done..].
  apply collect_available in E; [|constructor]. simpl.
  destruct r as [|c cs]; [done|]. simpl.
  destruct ((0 <? m_RRInterval m) && _); [|by intros [= <- <-]]. simpl.
  destruct (m_RRInterval m <? _); [|by intros [= <- <-]]. simpl.
  assert (m_servers m <> []) as Hne by (intros Hm; rewrite Hm in *; done).
  destruct (best_server sort (m_servers m) Hs Hne) as (best & rest & i & Eb & Hi & Hbest). rewrite Eb.
  intros [= <- <-]. split; [done|]. split; [|done]. constructor; [|done].
  apply Forall_cons in E as [Hc _]. unfold available in *. rewrite Hi.
  destruct (m_servers m !! Z.to_nat c) as [j|] eqn:Ej; [|done].
  apply list_elem_of_lookup_2 in Ej. by destruct (Hbest j Ej Hc).
Qed.

Lemma resolve_available servers l insts :
  resolve servers l = Ok insts -> Forall (fun k => available servers k = true) l ->
  length insts = length l /\ Forall (fun i => isAvailable i = true) insts.
Proof.
  revert insts. induction l as [|k l IH]; intros insts; simpl; [by intros [= <-]|].
  unfold at_, mbind, outcome_bind. destruct (servers !! Z.to_nat k) as [i|] eqn:Ei; [|done].
  destruct (resolve servers l) as [insts'|]; [|done]. intros [= <-] [Hk Hl]%Forall_cons.
  destruct (IH insts' eq_refl Hl) as [H1 H2]. simpl. split; [by rewrite H1|]. constructor; [|done].
  unfold available in Hk. by rewrite Ei in Hk.
Qed.

Lemma get_servers_some sort m l m' :
  sort_laws sort -> get_servers sort m = Ok (Some l, m') ->
  l <> [] /\ Forall (fun i => isAvailable i = true) l.
Proof.
  intros Hs. unfold get_servers, mbind at 1, M_bind.
  destruct (getAvailableServers sort [] m) as [[[ks|] m1]|] eqn:E; [|done..].
  destruct (getAvailableServers_some _ _ _ _ Hs E) as (Hne & Hav & Hm).
  unfold mbind, M_bind, gets, lift. simpl. rewrite Hm.
  destruct (resolve (m_servers m) ks) as [insts|] eqn:Er; [|done]. intros [= <- <-].
  destruct (resolve_available _ _ _ Er Hav) as [Hl Ha]. split; [|done]. by destruct ks, insts.
Qed.

Lemma resolve_ok servers l :
  Forall (fun k => available servers k = true) l ->
  exists insts, resolve servers l = Ok insts /\ Forall (fun i => i ∈ servers) insts.
Proof.
  induction 1 as [|k l Hk _ (insts & IH & Hin)]; simpl; [by eexists|].
  unfold available in Hk. unfold at_, mbind, outcome_bind.
  destruct (servers !! Z.to_nat k) as [i|] eqn:Ei; [|done]. rewrite IH.
  eexists. split; [reflexivity|]. constructor; [|done]. by eapply list_elem_of_lookup_2.
Qed.

Lemma get_servers_ok sort m :
  sort_laws sort -> monitor_ok m ->
  exists r m', get_servers sort m = Ok (r, m') /\ monitor_ok m' /\
    match r with Some l => Forall short_address l | None => True end.
Proof.
  intros Hs [Hl Hsh]. destruct (decide (m_servers m = [])) as [Hnil|Hne].
  { exists None, m. split; [|done]. unfold get_servers, getAvailableServers.
    unfold mbind, M_bind, mret, M_ret, assert_, gets. simpl. by rewrite Hnil. }
  pose proof (getAvailableServers_ref sort m Hs Hne Hl) as E.
  destruct (pool_ref sort m) as [r m'] eqn:Er.
  assert (m_servers m' = m_servers m) as Hm.
  { unfold pool_ref in Er. by repeat case_match; simplify_eq/=. }
  unfold get_servers, mbind at 1, M_bind. rewrite E. unfold mbind, M_bind, gets, lift, mret, M_ret.
  assert (monitor_ok m') as Hok by (unfold monitor_ok; by rewrite Hm).
  destruct r as [ks|]; [|by eexists _, _].
  destruct (getAvailableServers_some _ _ _ _ Hs E) as (_ & Hav & _).
  rewrite Hm. destruct (resolve_ok _ _ Hav) as (insts & -> & Hin).
  eexists _, _. split; [reflexivity|]. split; [done|].
  eapply Forall_impl; [exact Hin|]. intros i Hi. rewrite Forall_forall in Hsh. by apply Hsh.
Qed.

Section PoolInstance.
Context (sort : (Z -> Z -> bool) -> list Z -> list Z) (laws : sort_laws sort).

#[local] Obligation Tactic := idtac.

Program Definition monitor_pool : ServerPool FsMonitor :=
  {| pool_get := get_servers sort; pool_isAppserver := isAppserver; pool_ok := monitor_ok |}.
Next Obligation. intros p l p' H. by apply get_servers_some in H as [? _]. Qed.
Next Obligation. intros p l p' H. by apply get_servers_some in H as [_ ?]. Qed.
Next Obligation. intros p H. by apply get_servers_ok. Qed.
End PoolInstance.

(** *** The set of servers *)

Lemma tokenize_host_port h p :
  h <> EmptyString -> clean ":" h = true -> 0 <= p -> tokenize ":" (h +:+ ":" +:+ dec p) = [h; dec p].
Proof.
  intros Hne Hc Hp. change (":" +:+ dec p) with (String ":" (dec p)).
  assert (forall c, mem_char c ":" = true -> isdigit c = false) as Hd.
  { intros c. simpl. rewrite orb_false_r. by intros ->%Ascii.eqb_eq. }
  rewrite tokenize_sep; [|done|done|done].
  by rewrite tokenize_one; [|apply dec_not_empty|apply clean_dec].
Qed.

Lemma reset_servers_spec hps acc m :
  Forall (fun hp => fst hp <> EmptyString /\ clean ":" (fst hp) = true /\ is_u32 (snd hp)) hps ->
  reset_servers (map (fun hp => fst hp +:+ ":" +:+ dec (snd hp)) hps) acc m =
  m <| m_servers ::= fun l => l ++ map (fun hp => start (new_FsInstance (fst hp) (snd hp))) hps |>
    <| m_setServers ::= fun s => foldl (fun s hp => {[ fst hp ]} ∪ s) s hps |>.
Proof.
  intros Hf. revert acc m. induction Hf as [|[h p] hps (Hne & Hc & Hp) _ IH]; intros acc m.
  { destruct m; simpl. by rewrite app_nil_r. }
  cbn [fst snd] in *. cbn [map reset_servers fst snd]. unfold parse_address.
  rewrite tokenize_host_port by (done || apply Hp). rewrite atoi_u32_dec by done.
  rewrite IH. cbn. by rewrite <- app_assoc.
Qed.

Lemma elem_of_foldl_insert x (hps : list (string * Z)) (s : gset string) :
  x ∈ foldl (fun s hp => {[ fst hp ]} ∪ s) s hps <-> x ∈ s \/ x ∈ map fst hps.
Proof.
  revert s. induction hps as [|hp hps IH]; intros s; simpl; [set_solver|].
  rewrite IH, elem_of_cons. set_solver.
Qed.

(** Resetting the pool.  Given a list of well-formed "host:port"
    addresses, [reset] starts one connection per address, in order, each to its
    own host and port, forgets the old servers, and exactly the hosts count as
    application servers. *)
Theorem reset_spec (garbage : Z) (hps : list (string * Z)) (m : FsMonitor) :
  Forall (fun hp => fst hp <> EmptyString /\ clean ":" (fst hp) = true /\ is_u32 (snd hp)) hps ->
  let m' := reset garbage (map (fun hp => fst hp +:+ ":" +:+ dec (snd hp)) hps) m in
  m_servers m' = map (fun hp => start (new_FsInstance (fst hp) (snd hp))) hps /\
  (forall a, isAppserver a m' = true <-> a ∈ map fst hps) /\
  m_nLastServer m' = m_nLastServer m.
Proof.
  intros Hf m'. unfold m', reset. rewrite reset_servers_spec by done. split; [done|]. split; [|done].
  intros a. unfold isAppserver. rewrite bool_decide_eq_true. cbn. rewrite elem_of_foldl_insert. set_solver.
Qed.

Lemma reset_spec_witness :
  isAppserver "10.0.0.2" (reset 0 (map (fun hp => fst hp +:+ ":" +:+ dec (snd hp))
    [("10.0.0.1", 8021); ("10.0.0.2", 8022)]) new_FsMonitor) = true.
Proof.
  apply (reset_spec 0 [("10.0.0.1", 8021); ("10.0.0.2", 8022)] new_FsMonitor).
  - repeat constructor; vm_compute; congruence.
  - simpl. right. left.
Defined.

(** A server that leaves out its port is contacted at the port of the
    server before it in the list, and when it is the first, at whatever the
    uninitialised variable holds. *)
Theorem reset_port_not_defaulted (garbage p : Z) (h1 h2 : string) (m : FsMonitor) :
  h1 <> EmptyString -> clean ":" h1 = true -> h2 <> EmptyString -> clean ":" h2 = true -> is_u32 p ->
  map m_nEventSocketPort (m_servers (reset garbage [h1] m)) = [garbage] /\
  map m_nEventSocketPort (m_servers (reset garbage [h1 +:+ ":" +:+ dec p; h2] m)) = [p; p].
Proof.
  intros. unfold reset. cbn [reset_servers]. unfold parse_address.
  rewrite tokenize_host_port by (done || by destruct H3). rewrite !tokenize_one by done.
  by rewrite atoi_u32_dec by done.
Qed.

Lemma reset_port_not_defaulted_witness :
  map m_nEventSocketPort (m_servers (reset 77 ["a:8021"; "b"] new_FsMonitor)) = [8021; 8021].
Proof.
  apply (reset_port_not_defaulted 77 8021 "a" "b" new_FsMonitor); vm_compute; (reflexivity || discriminate || (split; [discriminate|reflexivity])).
Defined.

(** Which addresses count as application servers after an instance has
    learnt its SIP address: that address now does, the address it was
    configured with no longer does (unless they are the same), and nothing
    else changes. *)
Theorem notifySipServerAddress_spec (fsAddress sipAddress a : string) (m : FsMonitor) :
  isAppserver a (notifySipServerAddress fsAddress sipAddress m) =
  String.eqb a sipAddress || (negb (String.eqb a fsAddress) && isAppserver a m).
Proof.
  unfold isAppserver, notifySipServerAddress. cbn.
  destruct (String.eqb_spec a sipAddress) as [->|]; simpl; [apply bool_decide_eq_true; set_solver|].
  destruct (String.eqb_spec a fsAddress) as [->|]; simpl.
  - apply bool_decide_eq_false. set_solver.
  - apply bool_decide_ext. set_solver.
Qed.

(** The event thread.  It survives every disconnection and reconnection,
    however many, but a health check whose [write] fails on a connected
    server ends it, and with it the monitoring of all servers. *)
Theorem failed_write_ends_thread (i : FsInstance) (rs rest : list run_result) :
  isOnline i = true -> Forall (fun r => goes_on r = true) rs ->
  threadFunc rs = None /\
  exists e, timer_handler false i = (i, Some e) /\ threadFunc (rs ++ threw e :: rest) = Some rest.
Proof.
  intros Hi Hr. unfold isOnline in Hi. apply bool_decide_eq_true in Hi.
  assert (forall l, threadFunc (rs ++ l) = threadFunc l) as H.
  { intros l. induction Hr as [|r rs Hr _ IH]; simpl; [done|]. by rewrite Hr. }
  split; [rewrite <- (app_nil_r rs); by rewrite H|].
  exists system_error. unfold timer_handler. rewrite Hi. split; [done|]. by rewrite H.
Qed.

Lemma failed_write_ends_thread_witness :
  threadFunc [threw FsDisconnectException; threw FsReconnectException; threw FsDisconnectException] = None.
Proof.
  apply (failed_write_ends_thread (online 1 9) _ []); repeat constructor.
Defined.
