(* ===== verification/PoolThread.v ===== *)
(** * PoolThread: the pool of servers while the program runs

    [FsMonitor::threadFunc] runs the completion handlers of all connections on
    one thread ([fs-monitor.cpp], [fs-instance.cpp]); meanwhile the threads of
    the proxy choose servers and the statistics server has them reload.  This
    file composes [FsInstance] and [FsMonitor]: an event of the pool is one
    handler of one connection, with the calls it makes back into the pool, or
    one call from outside. *)

From S2P Require Import Prelude Text Sip Tokenizer FsMessage FsInstance FsMonitor.

(** ** The event loop *)

(** The handler of an operation, and the exception it lets out. *)
Definition complete (ms : Z) (p : pending_op) (ev : event) (i : FsInstance) : outcome (FsInstance * option exn) :=
  match p, ev with
  | PResolve, EResolve r => i ← resolve_handler r i; mret (i, None)
  | PConnect it, EConnect ec => mret (connect_handler ec it i, None)
  | PRead, ERead ec data wr => read_handler ms ec data wr i
  | PTimer _, ETimer wr => mret (timer_handler wr i)
  | _, _ => mret (i, None)
  end.

Definition completes (p : pending_op) (ev : event) : bool :=
  match p, ev with
  | PResolve, EResolve _ | PConnect _, EConnect _ | PRead, ERead _ _ _ | PTimer _, ETimer _ => true
  | _, _ => false
  end.

(** What an action does to the pool. *)
Definition perform (m : FsMonitor) (a : action) : FsMonitor :=
  match a with
  | ANotify fsAddress sipAddress => notifySipServerAddress fsAddress sipAddress m
  | _ => m
  end.

(** The server with a handle, after its handler: the actions are those it
    added. *)
Definition put (k : nat) (i i' : FsInstance) (m : FsMonitor) : FsMonitor :=
  foldl perform (m <| m_servers ::= <[ k := i' ]> |>) (drop (length (m_actions i)) (m_actions i')).

(** The operation at place [j] among those outstanding of server [k]
    completes. *)
Definition io_handler (ms : Z) (k j : nat) (ev : event) : M FsMonitor (option exn) := fun m =>
  match m_servers m !! k with
  | None => Ok (None, m)
  | Some i =>
      match m_pending i !! j with
      | None => Ok (None, m)
      | Some p =>
          r ← complete ms p ev (i <| m_pending ::= delete j |>);
          mret (snd r, put k i (fst r) m)
      end
  end.

(** The pool and its thread: an exception that [threadFunc] does not go on
    after ends it. *)
Record PoolState := mkPool { ps_monitor : FsMonitor; ps_running : bool }.

#[export] Instance PoolState_rebuild : Rebuild PoolState := fun s => mkPool (ps_monitor s) (ps_running s).

Definition thread_goes_on (e : option exn) : bool := match e with Some e => goes_on (threw e) | None => true end.

Inductive pool_event :=
| Completes (k j : nat) (ev : event)
| Reloads (k : nat) (wr : bool)
| Chooses.

Section Handle.
Context (sort : (Z -> Z -> bool) -> list Z -> list Z) (ms : Z).

Definition on_monitor {A} (m : M FsMonitor A) : M PoolState A := fun s =>
  match m (ps_monitor s) with Ok (a, p) => Ok (a, s <| ps_monitor := p |>) | Fault f => Fault f end.

Definition pool_handle (e : pool_event) : M PoolState unit :=
  match e with
  | Completes k j ev => r ← on_monitor (io_handler ms k j ev); modify (fun s => s <| ps_running := thread_goes_on r |>)
  | Reloads k wr =>
      modify (fun s => s <| ps_monitor ::= fun m => m <| m_servers ::= alter (fun i => fst (reloadxml wr i)) k |> |>)
  | Chooses => on_monitor (get_servers sort);; mret tt
  end.

(** ** What is expected of a server

    The code goes through the lines of an answer without looking: a line of the
    SIP status has a word, that of the internal profile has a third one with an
    address in it, and the lines with the session counts have a word.  The
    address is bounded. *)
Definition contact_readable (contact : string) : bool :=
  match tokenize "@:" contact with
  | _ :: _ :: address :: _ => length_ address <=? ADDRESS_MAX - 16
  | _ => false
  end.

Fixpoint profile_readable (lines : list string) : bool :=
  match lines with
  | [] => true
  | line :: lines =>
      match tokenize blank_tab line with
      | [] => false
      | t :: rest =>
          if String.eqb t "internal" then
            match rest with _ :: contact :: _ => contact_readable contact | _ => false end
          else profile_readable lines
      end
  end.

Definition has_word (line : string) : bool := match tokenize " " line with [] => false | _ :: _ => true end.

Definition status_readable (lines : list string) : bool :=
  match lines with
  | _ :: _ :: _ :: current :: max :: _ => has_word current && has_word max
  | _ => true
  end.

Definition answer_ok (i : FsInstance) (data : string) : Prop :=
  let msg := append data (m_fsMsg i) in
  let lines := tokenize endl (m_strContent msg) in
  isComplete msg = true ->
  match m_state i with
  | obtaining_sip_configuration => profile_readable lines = true
  | querying_status => status_readable lines = true
  | _ => True
  end.

(** The operation completes while the thread runs; a successful resolution has
    an endpoint. *)
Definition io_fits (m : FsMonitor) (k j : nat) (ev : event) : Prop :=
  exists i p, m_servers m !! k = Some i /\ m_pending i !! j = Some p /\ completes p ev = true /\
    match ev with
    | EResolve (inr l) => l <> []
    | ERead false data _ => answer_ok i data
    | _ => True
    end.

Definition pool_fits (s : PoolState) (e : pool_event) : Prop :=
  match e with
  | Completes k j ev => ps_running s = true /\ io_fits (ps_monitor s) k j ev
  | _ => True
  end.

Definition pool_step (s : PoolState) (e : pool_event) (s' : PoolState) : Prop :=
  pool_fits s e /\ pool_handle e s = Ok (tt, s').
End Handle.

(** The start of the thread; [FsMonitor::stop], which waits for its end. *)
Definition pool_start (m : FsMonitor) : PoolState := mkPool m true.
Definition stop (s : PoolState) : PoolState := mkPool ((ps_monitor s) <| m_servers := [] |>) false.

(** The part of an event sequence that concerns server [k]. *)
Definition of_server (k : nat) (e : pool_event) : list event :=
  match e with
  | Completes k' _ ev => if decide (k' = k) then [ev] else []
  | Reloads k' wr => if decide (k' = k) then [EReload wr] else []
  | Chooses => []
  end.

Definition reloads_server (k : nat) (e : pool_event) : bool :=
  match e with Reloads k' _ => bool_decide (k' = k) | _ => false end.

(** ** Which servers count as application servers *)

(** Every server that is online is known by its SIP address. *)
Definition known_online (m : FsMonitor) : Prop :=
  forall k i, m_servers m !! k = Some i -> isOnline i = true -> m_strSipAddress i ∈ m_setServers m.

(** The SIP address that a read by [i] reports, if it reports one. *)
Definition reported (i : FsInstance) (data : string) : option string :=
  match m_state i, getSipProfile "internal" (append data (m_fsMsg i)) with
  | obtaining_sip_configuration, Ok (Some (address, _)) => Some address
  | _, _ => None
  end.

(** A server that reports an address other than the one it is configured
    under takes the latter away from no other server that is online. *)
Definition no_clash (m : FsMonitor) (e : pool_event) : Prop :=
  match e with
  | Completes k _ (ERead false data _) =>
      forall i address j i', m_servers m !! k = Some i -> reported i data = Some address ->
        m_servers m !! j = Some i' -> j <> k -> isOnline i' = true ->
        m_strSipAddress i' = m_strAddress i -> address = m_strAddress i
  | _ => True
  end.

Definition honest_step (sort : (Z -> Z -> bool) -> list Z -> list Z) (ms : Z) (s : PoolState) (e : pool_event)
    (s' : PoolState) : Prop :=
  pool_step sort ms s e s' /\ no_clash (ps_monitor s) e.

(** ** Lemmas *)

(** *** What a handler changes of what the pool looks at *)

Definition is_notify (a : action) : bool := match a with ANotify _ _ => true | _ => false end.

(** Nothing is reported. *)
Definition quiet (i i' : FsInstance) : Prop :=
  m_strAddress i' = m_strAddress i /\ m_strSipAddress i' = m_strSipAddress i /\ m_nSipPort i' = m_nSipPort i /\
  (isOnline i' = true -> isOnline i = true) /\
  exists new, m_actions i' = m_actions i ++ new /\ Forall (fun a => is_notify a = false) new.

(** An address is reported. *)
Definition reports (address : string) (port : Z) (i i' : FsInstance) : Prop :=
  m_strAddress i' = m_strAddress i /\ m_strSipAddress i' = address /\ m_nSipPort i' = port /\
  exists new, m_actions i' = m_actions i ++ ANotify (m_strAddress i) address :: new /\
              Forall (fun a => is_notify a = false) new.

Lemma quiet_refl i : quiet i i.
Proof. split_and!; try done. exists []. by rewrite app_nil_r. Qed.

Lemma quiet_trans i1 i2 i3 : quiet i1 i2 -> quiet i2 i3 -> quiet i1 i3.
Proof.
  intros (H1 & H2 & H3 & H4 & n & H5 & Hn) (K1 & K2 & K3 & K4 & n' & K5 & Kn).
  split; [congruence|]. split; [congruence|]. split; [congruence|]. split; [auto|].
  exists (n ++ n'). rewrite K5, H5, app_assoc. split; [done|]. by apply Forall_app.
Qed.

Lemma reports_quiet address port i1 i2 i3 : reports address port i1 i2 -> quiet i2 i3 -> reports address port i1 i3.
Proof.
  intros (H1 & H2 & H3 & n & H5 & Hn) (K1 & K2 & K3 & K4 & n' & K5 & Kn).
  split; [congruence|]. split; [congruence|]. split; [congruence|].
  exists (n ++ n'). rewrite K5, H5, <- app_assoc. split; [done|]. by apply Forall_app.
Qed.

Lemma quiet_reports address port i1 i2 i3 : quiet i1 i2 -> m_actions i2 = m_actions i1 -> reports address port i2 i3 -> reports address port i1 i3.
Proof.
  intros (H1 & _) Ha (K1 & K2 & K3 & n & K5 & Kn).
  split; [congruence|]. split; [congruence|]. split; [congruence|]. exists n. by rewrite K5, Ha, H1.
Qed.

Lemma quiet_pend p i : quiet i (pend p i).
Proof. split_and!; try done. exists []. split; [symmetry; apply app_nil_r|constructor]. Qed.

Lemma quiet_act a i : is_notify a = false -> quiet i (act a i).
Proof. intros Ha. split_and!; try done. exists [a]. by repeat constructor. Qed.

Lemma quiet_same i i' :
  m_strAddress i' = m_strAddress i -> m_strSipAddress i' = m_strSipAddress i -> m_nSipPort i' = m_nSipPort i ->
  (isOnline i' = true -> isOnline i = true) -> m_actions i' = m_actions i -> quiet i i'.
Proof. intros. split_and!; try done. exists []. by rewrite app_nil_r. Qed.

Lemma offline s i : s <> querying_status -> isOnline (i <| m_state := s |>) = true -> isOnline i = true.
Proof. intros Hs H. by apply bool_decide_eq_true in H. Qed.

Lemma quiet_start i : quiet i (start i).
Proof.
  eapply quiet_trans; [|apply quiet_pend]. eapply quiet_trans; [|by apply quiet_act]. by apply quiet_same.
Qed.

Lemma quiet_start_timer ms i : quiet i (start_timer ms i).
Proof. eapply quiet_trans; [|apply quiet_pend]. by apply quiet_same. Qed.

Lemma quiet_close i : quiet i (close_socket i).
Proof. eapply quiet_trans; [|by apply quiet_act]. by apply quiet_same. Qed.

Lemma quiet_write wr data i : quiet i (fst (write_socket wr data i)).
Proof. unfold write_socket. destruct wr; [by apply quiet_act|apply quiet_refl]. Qed.

Lemma quiet_write_eq wr data i i' e : write_socket wr data i = (i', e) -> quiet i i'.
Proof. intros H. pose proof (quiet_write wr data i) as Hq. by rewrite H in Hq. Qed.

#[local] Hint Resolve quiet_refl quiet_pend quiet_start quiet_start_timer quiet_close : ssp.

Lemma quiet_resolve r i i' : resolve_handler r i = Ok i' -> quiet i i'.
Proof.
  destruct r as [[]|[|ep it]]; simpl; intros [= <-].
  - eapply quiet_trans; [|apply quiet_start_timer]. by apply quiet_same.
  - eapply quiet_trans; [|apply quiet_pend]. eapply quiet_trans; [|by apply quiet_act]. by apply quiet_same.
Qed.

Lemma quiet_connect ec it i : quiet i (connect_handler ec it i).
Proof.
  unfold connect_handler. destruct ec, it as [|ep it]; simpl negb; cbv iota.
  - eapply quiet_trans; [|apply quiet_start_timer]. by apply quiet_same.
  - eapply quiet_trans; [apply quiet_close|]. eapply quiet_trans; [|apply quiet_pend]. by apply quiet_act.
  - eapply quiet_trans; [|apply quiet_pend]. by apply quiet_same.
  - eapply quiet_trans; [|apply quiet_pend]. by apply quiet_same.
Qed.

Lemma quiet_timer wr i : quiet i (fst (timer_handler wr i)).
Proof.
  unfold timer_handler.
  assert (quiet i (fst (match write_socket wr ("api status" +:+ crlf +:+ crlf) i with
                        | (i, Some e) => (i, Some e) | (i, None) => (pend PRead i, None) end))) as Hw.
  { destruct (write_socket _ _ i) as [i1 e] eqn:E. apply quiet_write_eq in E.
    destruct e; [exact E|]. eapply quiet_trans; [exact E|apply quiet_pend]. }
  destruct (m_state i); try exact Hw; try apply quiet_refl; [apply quiet_start|].
  eapply quiet_trans; [|apply quiet_start]. eapply quiet_trans; [apply quiet_close|]. by apply quiet_same.
Qed.

Lemma quiet_reload wr i : quiet i (fst (reloadxml wr i)).
Proof.
  unfold reloadxml. case_decide; [apply quiet_refl|].
  destruct (write_socket _ _ i) as [i1 e] eqn:E. apply quiet_write_eq in E.
  destruct e; [exact E|]. eapply quiet_trans; [exact E|]. eapply quiet_trans; [|apply quiet_pend]. by apply quiet_same.
Qed.

Lemma quiet_finish ms wr r : quiet (sw_inst r) (fst (read_finish ms wr r)).
Proof.
  unfold read_finish.
  destruct (if empty_ (out r) then _ else _) as [i e] eqn:E.
  assert (quiet (sw_inst r) i) as Hi.
  { destruct (empty_ (out r)); [injection E as <- <-; apply quiet_refl|by apply quiet_write_eq in E]. }
  destruct e; [exact Hi|]. cbv zeta. cbn [fst].
  eapply quiet_trans; [exact Hi|]. apply quiet_trans with (i <| m_fsMsg ::= FsMessage.reset |>); [by apply quiet_same|].
  generalize (i <| m_fsMsg ::= FsMessage.reset |>). intros i1.
  apply quiet_trans with (if bReadAgain r then pend PRead i1 else i1); [destruct (bReadAgain r); auto with ssp|].
  destruct (bSetTimer r); auto with ssp.
Qed.

(** What the [switch] of [read_handler] does. *)
Lemma switch_quiet i r :
  read_switch i = Ok r ->
  quiet i (sw_inst r) \/
  exists address port, m_state i = obtaining_sip_configuration /\
    getSipProfile "internal" (m_fsMsg i) = Ok (Some (address, port)) /\ reports address port i (sw_inst r).
Proof.
  unfold read_switch. intros H.
  destruct (m_state i) eqn:Es;
    try (injection H as <-; left; apply quiet_refl);
    try (case_decide; injection H as <-; left; first [apply quiet_refl|by apply quiet_same]).
  - destruct (is_api_response _); [|injection H as <-; left; apply quiet_refl].
    apply outcome_bind_ok in H as ([[a po]|] & E & H); injection H as <-; [|left; by apply quiet_same].
    right. exists a, po. split; [done|]. split; [done|]. split_and!; [done..|]. exists []. by split.
  - left. assert (isOnline i = true) as Hon by by apply bool_decide_eq_true_2.
    destruct (is_api_response _); [|injection H as <-; apply quiet_refl].
    destruct (m_bReloadingXml i); [injection H as <-; by apply quiet_same|].
    apply outcome_bind_ok in H as (st & _ & H).
    destruct (negb (sr_ok st)); [injection H as <-; by apply quiet_same|].
    destruct (m_bDisconnected _); injection H as <-; by apply quiet_same.
Qed.

Lemma complete_quiet ms p ev i i' e :
  complete ms p ev i = Ok (i', e) ->
  quiet i i' \/
  exists data wr address port, ev = ERead false data wr /\ reported i data = Some address /\
    getSipProfile "internal" (append data (m_fsMsg i)) = Ok (Some (address, port)) /\ reports address port i i'.
Proof.
  intros H. destruct p as [|it| |t], ev as [r|ec|ec data wr|wr|wr]; simpl in H; try (injection H as <- _; left; apply quiet_refl).
  - apply outcome_bind_ok in H as (i1 & H1 & [= <- _]). left. by eapply quiet_resolve.
  - injection H as <- _. left. apply quiet_connect.
  - unfold read_handler in H. destruct ec; [injection H as <- _; left; apply quiet_refl|]. cbv zeta in H.
    set (i1 := i <| m_fsMsg ::= append data |>) in *.
    assert (quiet i i1) as H1 by by apply quiet_same.
    destruct (isComplete (m_fsMsg i1)); cbn [negb] in H.
    2:{ injection H as <- _. left. eapply quiet_trans; [exact H1|apply quiet_pend]. }
    destruct (decide _) as [Hd|Hd].
    { injection H as <- _. left. eapply quiet_trans; [exact H1|]. eapply quiet_trans; [apply quiet_close|].
      eapply quiet_trans; [|apply quiet_start_timer]. by apply quiet_same. }
    apply outcome_bind_ok in H as (r & Hr & H). injection H as H. pose proof (quiet_finish ms wr r) as Hf. rewrite H in Hf.
    destruct (switch_quiet i1 r Hr) as [Hq|(a & po & Hs & Hp & Hq)].
    + left. eapply quiet_trans; [exact H1|]. by eapply quiet_trans.
    + right. exists data, wr, a, po. split; [done|]. split.
      { unfold reported. change (m_state i1) with (m_state i) in Hs. rewrite Hs. change (append data (m_fsMsg i)) with (m_fsMsg i1).
        by rewrite Hp. }
      split; [exact Hp|]. eapply quiet_reports; [exact H1|done|]. by eapply reports_quiet.
  - injection H as H. left. pose proof (quiet_timer wr i) as Hq. by rewrite H in Hq.
Qed.

(** *** The calls back into the pool *)

Lemma perform_quiet new m : Forall (fun a => is_notify a = false) new -> foldl perform m new = m.
Proof. intros H. induction H as [|a new Ha _ IH]; [done|]. simpl. by destruct a. Qed.

Lemma put_quiet k i i' m : quiet i i' -> put k i i' m = m <| m_servers ::= <[ k := i' ]> |>.
Proof. intros (_ & _ & _ & _ & new & Ha & Hn). unfold put. rewrite Ha, drop_app_length. by apply perform_quiet. Qed.

Lemma put_reports address port k i i' m :
  reports address port i i' ->
  put k i i' m = notifySipServerAddress (m_strAddress i) address (m <| m_servers ::= <[ k := i' ]> |>).
Proof. intros (_ & _ & _ & new & Ha & Hn). unfold put. rewrite Ha, drop_app_length. simpl. by apply perform_quiet. Qed.

(** *** A handler is a step of its connection *)

Lemma complete_step ms i j p ev i' e :
  m_pending i !! j = Some p -> completes p ev = true ->
  complete ms p ev (i <| m_pending ::= delete j |>) = Ok (i', e) -> step ms i ev i'.
Proof.
  intros Hj Hc H.
  assert (completing p i (i <| m_pending ::= delete j |>)) as Hcomp.
  { exists (take j (m_pending i)), (drop (S j) (m_pending i)). split; [by rewrite take_drop_middle|].
    simpl. by rewrite delete_take_drop. }
  destruct p as [|it| |t], ev as [r|ec|ec data wr|wr|wr]; try done; simpl in H.
  - apply outcome_bind_ok in H as (i1 & H1 & [= <- _]). by eapply step_resolve.
  - injection H as <- _. by eapply step_connect.
  - by eapply step_read.
  - injection H as H. apply (f_equal fst) in H. simpl in H. rewrite <- H. by eapply (step_timer ms i wr t).
Qed.

(** *** Answers that can be read *)

Lemma atoi_u32_range s : is_u32 (atoi_u32 s).
Proof. apply wrap32_range. Qed.

Lemma contact_returns it contact :
  contact_readable contact = true -> (exists a b, it = a :: b :: contact :: drop 3 it) ->
  exists address port, profile_address it = Ok (address, port) /\ length_ address <= ADDRESS_MAX - 16 /\ is_u32 port.
Proof.
  intros Hc (a & b & ->). unfold profile_address, contact_readable in *. simpl.
  unfold mbind, outcome_bind, increment, dereference. simpl.
  destruct (tokenize "@:" contact) as [|x [|y [|address rest]]]; try done. simpl. apply Z.leb_le in Hc.
  destruct rest as [|t rest]; eexists _, _; (split; [reflexivity|]); (split; [done|]); [by vm_compute|apply atoi_u32_range].
Qed.

Lemma profile_returns lines :
  profile_readable lines = true ->
  exists r, getSipProfile_lines "internal" lines = Ok r /\
    match r with Some (address, port) => length_ address <= ADDRESS_MAX - 16 /\ is_u32 port | None => True end.
Proof.
  induction lines as [|line lines IH]; [by eexists|]. cbn [profile_readable getSipProfile_lines].
  destruct (tokenize blank_tab line) as [|t rest]; [done|].
  change (dereference (t :: rest)) with (Ok (A := string) t). unfold mbind, outcome_bind.
  destruct (String.eqb t "internal"); [|exact IH].
  destruct rest as [|b [|contact rest]]; try done. intros Hc.
  destruct (contact_returns (t :: b :: contact :: rest) contact Hc) as (address & port & -> & H); [by exists t, b|].
  by exists (Some (address, port)).
Qed.

Lemma leading_returns line : has_word line = true -> exists r, parseLeadingInteger line = Ok r.
Proof. unfold has_word, parseLeadingInteger. destruct (tokenize " " line); [done|]. by eexists. Qed.

Lemma status_returns m :
  status_readable (tokenize endl (m_strContent m)) = true -> exists r, getFsStatus m = Ok r.
Proof.
  unfold getFsStatus. destruct (tokenize endl (m_strContent m)) as [|l0 [|l1 [|l2 [|l3 [|l4 ls]]]]]; simpl; try by eexists.
  intros [H3 H4]%andb_true_iff. unfold mbind, outcome_bind, increment, dereference. simpl.
  destruct (leading_returns l3 H3) as [[n|] ->]; [|by eexists]. destruct (leading_returns l4 H4) as [[k|] ->]; by eexists.
Qed.

(** *** Every handler that is expected returns *)

Lemma short_profile i address port :
  length_ address <= ADDRESS_MAX - 16 -> is_u32 port -> m_strSipAddress i = address -> m_nSipPort i = port -> short_address i.
Proof.
  intros Ha Hp E1 E2. unfold short_address. rewrite E1, E2, !length__app. pose proof (dec_u32_length port Hp).
  change (length_ ":") with 1. lia.
Qed.

Lemma quiet_short i i' : quiet i i' -> short_address i -> short_address i'.
Proof. intros (_ & H1 & H2 & _). unfold short_address. by rewrite H1, H2. Qed.

Lemma switch_returns i :
  match m_state i with
  | obtaining_sip_configuration => profile_readable (tokenize endl (m_strContent (m_fsMsg i))) = true
  | querying_status => status_readable (tokenize endl (m_strContent (m_fsMsg i))) = true
  | _ => True
  end -> exists r, read_switch i = Ok r.
Proof.
  intros H. unfold read_switch. destruct (m_state i); try by eexists.
  - case_decide; by eexists.
  - case_decide; by eexists.
  - destruct (is_api_response _); [|by eexists]. unfold getSipProfile.
    destruct (profile_returns _ H) as ([[a po]|] & -> & _); by eexists.
  - destruct (is_api_response _); [|by eexists]. destruct (m_bReloadingXml i); [by eexists|].
    destruct (status_returns _ H) as [r ->]. unfold mbind, outcome_bind.
    destruct (negb _); [by eexists|]. destruct (m_bDisconnected _); by eexists.
Qed.

(** The address a readable answer reports. *)
Lemma reported_short i data address port :
  profile_readable (tokenize endl (m_strContent (append data (m_fsMsg i)))) = true ->
  getSipProfile "internal" (append data (m_fsMsg i)) = Ok (Some (address, port)) ->
  length_ address <= ADDRESS_MAX - 16 /\ is_u32 port.
Proof. intros H E. destruct (profile_returns _ H) as (r & E' & Hr). unfold getSipProfile in E. rewrite E in E'. by injection E' as <-. Qed.

Lemma complete_returns ms p ev i :
  completes p ev = true ->
  match ev with EResolve (inr l) => l <> [] | ERead false data _ => answer_ok i data | _ => True end ->
  exists i' e, complete ms p ev i = Ok (i', e).
Proof.
  intros Hc He. destruct p as [|it| |t], ev as [r|ec|ec data wr|wr|wr]; try done; simpl.
  - destruct r as [[]|[|ep l]]; try done; by eexists _, _.
  - by eexists _, _.
  - unfold read_handler. destruct ec; [by eexists _, _|]. cbv zeta.
    set (i1 := i <| m_fsMsg ::= append data |>). destruct (isComplete (m_fsMsg i1)) eqn:Ei; cbn [negb]; [|by eexists _, _].
    destruct (decide _); [by eexists _, _|]. destruct (switch_returns i1 (He Ei)) as [r ->]. unfold mbind, outcome_bind.
    destruct (read_finish ms wr r) as [i' e]. by exists i', e.
  - destruct (timer_handler wr i) as [i' e]. by eexists _, _.
Qed.

(** Only a read of a complete answer reports an address. *)
Lemma complete_short ms p ev i i' e :
  complete ms p ev i = Ok (i', e) ->
  match ev with ERead false data _ => answer_ok i data | _ => True end -> short_address i -> short_address i'.
Proof.
  intros H He Hi. destruct (complete_quiet ms p ev i i' e H) as [Hq|(data & wr & a & po & -> & Hr & Hp & _ & H1 & H2 & new & Ha & _)].
  { by eapply quiet_short. }
  unfold answer_ok in He. unfold reported in Hr. destruct (m_state i); try done.
  destruct (isComplete (append data (m_fsMsg i))) eqn:Ei.
  - destruct (reported_short i data a po (He eq_refl) Hp). by eapply short_profile.
  - exfalso. destruct p; simpl in H; try (injection H as <- _; apply (f_equal length) in Ha; rewrite length_app in Ha; simpl in Ha; lia).
    unfold read_handler in H. simpl in H. rewrite Ei in H. injection H as <- _. simpl in Ha.
    apply (f_equal length) in Ha. rewrite length_app in Ha. simpl in Ha. lia.
Qed.

(** *** One event of the pool *)

Lemma put_servers k i i' m : m_servers (put k i i' m) = <[ k := i' ]> (m_servers m).
Proof.
  unfold put. change (<[ k := i' ]> (m_servers m)) with (m_servers (m <| m_servers ::= <[ k := i' ]> |>)).
  generalize (m <| m_servers ::= <[ k := i' ]> |>) (drop (length (m_actions i)) (m_actions i')). intros m1 l. revert m1.
  induction l as [|a l IH]; intros m1; [done|]. simpl. rewrite IH. by destruct a.
Qed.

(** What a handler does: it is a step of its connection, and tells the pool
    of the address that is reported. *)
Definition handler_effect (ms : Z) (ev : event) (i i' : FsInstance) : Prop :=
  step ms i ev i' /\ (short_address i -> short_address i') /\
  (quiet i i' \/
   exists data wr address port, ev = ERead false data wr /\ reported i data = Some address /\ reports address port i i').

Lemma io_handler_spec ms k j ev m :
  io_fits m k j ev ->
  exists i i' e, m_servers m !! k = Some i /\ io_handler ms k j ev m = Ok (e, put k i i' m) /\ handler_effect ms ev i i'.
Proof.
  intros (i & p & Hk & Hj & Hc & He). set (i0 := i <| m_pending ::= delete j |>).
  assert (quiet i i0) as H0 by by apply quiet_same.
  destruct (complete_returns ms p ev i0 Hc) as (i' & e & E).
  { destruct ev as [[]|ec|[] data wr|wr|wr]; exact He. }
  exists i, i', e. split; [done|]. split; [unfold io_handler; rewrite Hk, Hj; fold i0; by rewrite E|].
  split; [by eapply complete_step|]. split.
  - intros Hs. eapply complete_short; [exact E| |by eapply quiet_short]. destruct ev as [[]|ec|[] data wr|wr|wr]; exact He || exact I.
  - destruct (complete_quiet ms p ev i0 i' e E) as [Hq|(data & wr & a & po & -> & Hr & _ & Hq)].
    + left. exact (quiet_trans i i0 i' H0 Hq).
    + right. exists data, wr, a, po. split; [done|]. split; [exact Hr|]. by eapply quiet_reports.
Qed.

Lemma get_servers_same sort m r m' :
  get_servers sort m = Ok (r, m') -> m_servers m' = m_servers m /\ m_setServers m' = m_setServers m.
Proof.
  intros H. refine (keeps_elim (fun m' => m_servers m' = m_servers m /\ m_setServers m' = m_setServers m) _ m r m' _ (conj eq_refl eq_refl) H).
  unfold get_servers. apply keeps_bind; [|keeps_auto]. unfold getAvailableServers. cbv zeta.
  assert (forall f, (forall x, m_servers (f x) = m_servers x) -> (forall x, m_setServers (f x) = m_setServers x) ->
    keeps (fun m' => m_servers m' = m_servers m /\ m_setServers m' = m_setServers m) (modify f)) as Hm.
  { intros f H1 H2. apply keeps_modify. intros x. by rewrite H1, H2. }
  assert (forall ss a b c, keeps (fun m' => m_servers m' = m_servers m /\ m_setServers m' = m_setServers m)
    (fun m => r ← collect ss a b c (length ss) b b []; Ok (r, m))) as Hc.
  { intros ss a b c x y x' Hx E. unfold mbind, outcome_bind in E. destruct (collect _ _ _ _ _ _ _ _); [by injection E as _ <-|done]. }
  repeat (lazymatch goal with
  | |- forall _, _ => intros ?
  | |- keeps _ (mbind _ _) => apply keeps_bind
  | |- keeps _ (modify _) => by apply Hm
  | |- keeps _ (match ?x with _ => _ end) => destruct x
  | |- keeps _ _ => solve [eauto 4 with keeps]
  end).
Qed.

Section Pool.
Context (sort : (Z -> Z -> bool) -> list Z -> list Z) (laws : sort_laws sort) (ms : Z).
#[local] Abbreviation pstep := (pool_step sort ms).
#[local] Abbreviation phandle := (pool_handle sort ms).

(** An event that is expected is handled, and the pool stays well-formed. *)
Lemma pool_handle_ok s e :
  monitor_ok (ps_monitor s) -> pool_fits s e ->
  exists s', phandle e s = Ok (tt, s') /\ monitor_ok (ps_monitor s').
Proof using laws.
  intros Hm He. destruct e as [k j ev|k wr|]; simpl in *.
  - destruct He as [_ He]. destruct (io_handler_spec ms k j ev _ He) as (i & i' & e & Hk & E & _ & Hs & _).
    unfold on_monitor, mbind, M_bind, modify. rewrite E. eexists. split; [reflexivity|]. simpl.
    destruct Hm as [Hl Hf]. unfold monitor_ok. rewrite put_servers, length_insert. split; [done|].
    apply Forall_insert; [done|]. apply Hs. by eapply Forall_lookup_1.
  - eexists. split; [reflexivity|]. destruct Hm as [Hl Hf]. unfold monitor_ok. simpl. rewrite length_alter. split; [done|].
    apply Forall_alter; [done|]. intros i _ Hi. by eapply quiet_short; [apply quiet_reload|].
  - unfold on_monitor, mbind, M_bind. destruct (get_servers_ok sort _ laws Hm) as (r & m' & E & Hok & _). rewrite E.
    by eexists.
Qed.

(** An event of the pool is a step of one connection, and leaves the others
    alone. *)
Lemma pool_step_server s e s' k i :
  pstep s e s' -> m_servers (ps_monitor s) !! k = Some i ->
  exists i', m_servers (ps_monitor s') !! k = Some i' /\ runs (step ms) i (of_server k e) i'.
Proof.
  intros [He H] Hk. destruct e as [k' j ev|k' wr|]; simpl in *.
  - destruct He as [_ He]. destruct (io_handler_spec ms k' j ev _ He) as (i1 & i1' & e & Hk' & E & Hst & _).
    unfold on_monitor, mbind, M_bind, modify in H. rewrite E in H. injection H as <-. simpl. rewrite put_servers.
    case_decide as Hd.
    + subst k'. rewrite Hk in Hk'. injection Hk' as <-. exists i1'. split.
      * apply list_lookup_insert_eq. by eapply lookup_lt_Some.
      * econstructor; [exact Hst|constructor].
    + exists i. rewrite list_lookup_insert_ne by done. split; [done|constructor].
  - injection H as <-. simpl. case_decide as Hd.
    + subst k'. rewrite list_lookup_alter_eq, Hk. eexists. split; [reflexivity|]. econstructor; [apply step_reload|constructor].
    + rewrite list_lookup_alter_ne by done. exists i. split; [done|constructor].
  - unfold on_monitor, mbind, M_bind in H. destruct (get_servers sort _) as [[r m']|] eqn:E; [|done].
    injection H as <-. simpl. destruct (get_servers_same _ _ _ _ E) as [-> _]. exists i. split; [done|constructor].
Qed.

Lemma pool_runs_server s es s' k i :
  runs pstep s es s' -> m_servers (ps_monitor s) !! k = Some i ->
  exists i', m_servers (ps_monitor s') !! k = Some i' /\ runs (step ms) i (mjoin (map (of_server k) es)) i'.
Proof.
  intros H. revert i. induction H as [s|s e s1 es s' Hs _ IH]; intros i Hk; [exists i; split; [done|constructor]|].
  destruct (pool_step_server s e s1 k i Hs Hk) as (i1 & H1 & R1). destruct (IH i1 H1) as (i' & H' & R').
  exists i'. split; [done|]. simpl. by eapply runs_app.
Qed.

(** A server that is not there does not come. *)
Lemma pool_runs_none s es s' k :
  runs pstep s es s' -> m_servers (ps_monitor s) !! k = None -> m_servers (ps_monitor s') !! k = None.
Proof.
  induction 1 as [|s e s1 es s' [He H] _ IH]; [done|]. intros Hk. apply IH. apply lookup_ge_None in Hk. apply lookup_ge_None.
  destruct e as [k' j ev|k' wr|]; simpl in He, H.
  - destruct He as [_ He]. destruct (io_handler_spec ms k' j ev _ He) as (i & i' & e & _ & E & _).
    unfold on_monitor, mbind, M_bind, modify in H. rewrite E in H. injection H as <-. simpl. by rewrite put_servers, length_insert.
  - injection H as <-. simpl. by rewrite length_alter.
  - unfold on_monitor, mbind, M_bind in H. destruct (get_servers sort _) as [[r m']|] eqn:E; [|done].
    injection H as <-. simpl. by destruct (get_servers_same _ _ _ _ E) as [-> _].
Qed.

Lemma no_reloads s es s' k :
  runs pstep s es s' -> Forall (fun e => reloads_server k e = false) es ->
  Forall (fun ev => is_reload ev = false) (mjoin (map (of_server k) es)).
Proof.
  induction 1 as [|s e s1 es s' [He _] _ IH]; [constructor|]. intros [Hk Hes]%Forall_cons. simpl.
  apply Forall_app. split; [|by apply IH].
  destruct e as [k' j ev|k' wr|]; simpl in *; [|case_decide as Hd; [by rewrite bool_decide_eq_false in Hk|constructor]|constructor].
  case_decide; [|constructor]. constructor; [|constructor]. destruct He as (_ & i & p & _ & _ & Hc & _). by destruct p, ev.
Qed.
End Pool.

(** *** The start *)

Lemma reset_servers_fresh (Q : FsInstance -> Prop) l : forall acc m,
  (forall h n, Q (start (new_FsInstance h n))) ->
  length (m_servers (reset_servers l acc m)) = (length (m_servers m) + length l)%nat /\
  (Forall Q (m_servers m) -> Forall Q (m_servers (reset_servers l acc m))).
Proof.
  intros acc m HQ. revert acc m. induction l as [|a l IH]; intros acc m; simpl; [split; [lia|done]|].
  destruct (IH (parse_address a acc)
    (m <| m_servers ::= fun l => l ++ [start (new_FsInstance (fst (parse_address a acc)) (snd (parse_address a acc)))] |>
       <| m_setServers ::= fun s => {[ fst (parse_address a acc) ]} ∪ s |>)) as [H1 H2].
  split.
  - etransitivity; [exact H1|]. simpl. rewrite length_app. simpl. lia.
  - intros Hm. apply H2. simpl. apply Forall_app. split; [done|]. by constructor.
Qed.

Lemma reset_fresh (Q : FsInstance -> Prop) garbage l m :
  (forall h n, Q (start (new_FsInstance h n))) ->
  length (m_servers (reset garbage l m)) = length l /\ Forall Q (m_servers (reset garbage l m)).
Proof.
  intros HQ. destruct (reset_servers_fresh Q l (EmptyString, garbage) (m <| m_servers := [] |> <| m_setServers := ∅ |>) HQ) as [H1 H2].
  split; [exact H1|]. by apply H2.
Qed.

(** *** The servers that are online stay known *)

Section Known.
Context (sort : (Z -> Z -> bool) -> list Z -> list Z) (ms : Z).

Lemma known_quiet k i i' m : m_servers m !! k = Some i -> quiet i i' ->
  known_online m -> known_online (m <| m_servers ::= <[ k := i' ]> |>).
Proof.
  intros Hk (_ & Hs & _ & Ho & _) H j ij Hj Hon. simpl in *. destruct (decide (k = j)) as [<-|Hne].
  - rewrite list_lookup_insert_eq in Hj by (by eapply lookup_lt_Some). injection Hj as <-. rewrite Hs. apply (H k i); auto.
  - rewrite list_lookup_insert_ne in Hj by done. by apply (H j).
Qed.

Lemma known_step s e s' :
  pool_step sort ms s e s' -> no_clash (ps_monitor s) e -> known_online (ps_monitor s) -> known_online (ps_monitor s').
Proof.
  intros [He H] Hn Hs. destruct e as [k j ev|k wr|]; simpl in H, He.
  - destruct He as [_ He]. destruct (io_handler_spec ms k j ev _ He) as (i & i' & e & Hk & E & _ & _ & Hq).
    unfold on_monitor, mbind, M_bind, modify in H. rewrite E in H. injection H as <-. simpl.
    destruct Hq as [Hq|(data & wr & a & po & -> & Hr & Hrep)]; [rewrite put_quiet by done; by eapply known_quiet|].
    rewrite (put_reports a po) by done. destruct Hrep as (_ & Ha & _ & _). intros j' ij Hj Hon. simpl in *.
    destruct (decide (k = j')) as [<-|Hne].
    + rewrite list_lookup_insert_eq in Hj by (by eapply lookup_lt_Some). injection Hj as <-. rewrite Ha. set_solver.
    + rewrite list_lookup_insert_ne in Hj by done. pose proof (Hs j' ij Hj Hon) as Hin.
      destruct (decide (m_strSipAddress ij = m_strAddress i)) as [Heq|]; [|set_solver].
      rewrite (Hn i a j' ij Hk Hr Hj) by congruence. rewrite Heq. set_solver.
  - injection H as <-. simpl. intros j ij Hj Hon. simpl in *. destruct (decide (k = j)) as [<-|Hne].
    + rewrite list_lookup_alter_eq in Hj. destruct (m_servers (ps_monitor s) !! k) as [i|] eqn:Ei; [|done].
      injection Hj as <-. destruct (quiet_reload wr i) as (_ & Hsip & _ & Ho & _). rewrite Hsip. apply (Hs k i); auto.
    + rewrite list_lookup_alter_ne in Hj by done. by apply (Hs j).
  - unfold on_monitor, mbind, M_bind in H. destruct (get_servers sort _) as [[r m']|] eqn:E; [|done].
    injection H as <-. simpl. destruct (get_servers_same _ _ _ _ E) as [E1 E2]. unfold known_online. by rewrite E1, E2.
Qed.
End Known.

(** *** An example: two servers on one host *)

Definition sofia_at (host : string) : string :=
  let body := unlines ["Name Type Data State"; "internal profile sip:mod_sofia@" +:+ host +:+ ":5080 RUNNING (0)"] in
  api_header (length_ body) +:+ body.

(** What brings server [k] up. *)
Definition brings_up (k : nat) (ep host : string) : list pool_event :=
  map (Completes k 0) (connect_events ep ++ [ERead false (sofia_at host) true]).

Definition one_host : FsMonitor := reset 0 ["10.0.0.1:8021"; "10.0.0.1:8022"] new_FsMonitor.

(** The next step of a concrete run. *)
Ltac pool_fact :=
  split; [split; [reflexivity|eexists _, _; split; [vm_compute; reflexivity|split; [vm_compute; reflexivity|
    split; [reflexivity|first [exact I|discriminate|intros _; vm_compute; first [exact I|reflexivity]]]]]]
         |vm_compute; reflexivity].
Ltac pool_go := eapply runs_cons; [pool_fact|].

(** One that is no clash, since no other server is online. *)
Ltac honest_go :=
  eapply runs_cons;
  [split; [pool_fact|first [exact I|intros ? ? [|[|?]] ? _ _ [= <-] ? ?; vm_compute in *; done]]|].

(** ** Properties *)

(** C25: The pool implements its connections.  Whatever happens to the pool, each
    of its servers goes through a run of its own connection, from its start,
    made of the events that concern it; so its session counts stay 32-bit
    numbers, and it has at most one operation outstanding as long as it is not
    asked to reload. *)
Theorem pool_refines_connections (sort : (Z -> Z -> bool) -> list Z -> list Z) (ms garbage : Z) (addresses : list string)
    (es : list pool_event) (s : PoolState) (k : nat) (i : FsInstance) :
  runs (pool_step sort ms) (pool_start (reset garbage addresses new_FsMonitor)) es s ->
  m_servers (ps_monitor s) !! k = Some i ->
  exists host port, m_servers (reset garbage addresses new_FsMonitor) !! k = Some (start (new_FsInstance host port)) /\
    runs (step ms) (start (new_FsInstance host port)) (mjoin (map (of_server k) es)) i /\
    counts_u32 i /\
    (Forall (fun e => reloads_server k e = false) es -> one_outstanding i).
Proof.
  intros Hr Hk. set (m0 := reset garbage addresses new_FsMonitor) in *.
  destruct (reset_fresh (fun i => exists h n, i = start (new_FsInstance h n)) garbage addresses new_FsMonitor) as [_ Hf];
    [eauto|]. fold m0 in Hf.
  destruct (m_servers m0 !! k) as [i0|] eqn:E0.
  2:{ pose proof (pool_runs_none sort ms _ _ _ k Hr E0). congruence. }
  destruct (Forall_lookup_1 _ _ _ _ Hf E0) as (h & n & ->).
  destruct (pool_runs_server sort ms _ _ _ k _ Hr E0) as (i' & Hk' & R). rewrite Hk in Hk'. injection Hk' as <-.
  exists h, n. split; [done|]. split; [exact R|]. split.
  - eapply (runs_invariant _ counts_u32); [|exact R|by split; vm_compute]. intros; by eapply step_counts.
  - intros Hes. eapply runs_one; [|exact R|by eapply no_reloads]. by apply start_one.
Qed.

Lemma pool_refines_connections_witness :
  exists s i, runs (pool_step insertion_sort 10000) (pool_start one_host) (brings_up 0 "10.0.0.1:8021" "10.0.0.1") s /\
    m_servers (ps_monitor s) !! 0%nat = Some i /\ one_outstanding i.
Proof.
  assert (exists s, runs (pool_step insertion_sort 10000) (pool_start one_host) (brings_up 0 "10.0.0.1:8021" "10.0.0.1") s /\
    exists i, m_servers (ps_monitor s) !! 0%nat = Some i) as (s & Hr & i & Hi).
  { eexists. split; [do 5 pool_go; apply runs_nil|]. eexists. vm_compute. reflexivity. }
  exists s, i. split; [exact Hr|]. split; [exact Hi|].
  destruct (pool_refines_connections insertion_sort 10000 0 ["10.0.0.1:8021"; "10.0.0.1:8022"] _ s 0 i Hr Hi)
    as (_ & _ & _ & _ & _ & H).
  apply H. repeat constructor.
Defined.

(** Servers that are online are recognised.  In a run in which no server, by
    reporting its SIP address, takes its configured address away from another
    one that uses it, every server that is online counts as an application
    server under the SIP address it has reported: the INVITEs it sends are
    terminations. *)
Theorem online_is_appserver (sort : (Z -> Z -> bool) -> list Z -> list Z) (ms garbage : Z) (addresses : list string)
    (es : list pool_event) (s : PoolState) (k : nat) (i : FsInstance) :
  runs (honest_step sort ms) (pool_start (reset garbage addresses new_FsMonitor)) es s ->
  m_servers (ps_monitor s) !! k = Some i -> isOnline i = true ->
  isAppserver (m_strSipAddress i) (ps_monitor s) = true.
Proof.
  intros Hr Hk Hon. apply bool_decide_eq_true_2. revert k i Hk Hon. fold (known_online (ps_monitor s)).
  eapply (runs_invariant _ (fun s => known_online (ps_monitor s))); [|exact Hr|].
  - intros s1 e s2 H [Hs Hn]. by eapply known_step.
  - intros k i Hk Hon. simpl in Hk.
    destruct (reset_fresh (fun i => isOnline i = false) garbage addresses new_FsMonitor) as [_ Hf]; [done|].
    pose proof (Forall_lookup_1 _ _ _ _ Hf Hk) as H. simpl in H. congruence.
Qed.

Lemma online_is_appserver_witness :
  exists s i, m_servers (ps_monitor s) !! 0%nat = Some i /\ isOnline i = true /\ isAppserver (m_strSipAddress i) (ps_monitor s) = true.
Proof.
  assert (exists s, runs (honest_step insertion_sort 10000) (pool_start one_host) (brings_up 0 "10.0.0.1:8021" "10.0.0.1") s /\
    exists i, m_servers (ps_monitor s) !! 0%nat = Some i /\ isOnline i = true) as (s & Hr & i & Hi & Hon).
  { eexists. split.
    - do 5 honest_go. apply runs_nil.
    - eexists. split; vm_compute; reflexivity. }
  exists s, i. split; [exact Hi|]. split; [exact Hon|].
  exact (online_is_appserver insertion_sort 10000 0 ["10.0.0.1:8021"; "10.0.0.1:8022"] _ s 0 i Hr Hi Hon).
Defined.

(** A server can hide another.  Two servers are configured on one host; the
    first reports the address of the host as its SIP address, and then the
    second reports another one.  The first goes on being online and is offered
    calls, but it no longer counts as an application server. *)
Theorem clash_hides_server :
  exists s i, runs (pool_step insertion_sort 10000) (pool_start one_host)
    (brings_up 0 "10.0.0.1:8021" "10.0.0.1" ++ brings_up 1 "10.0.0.1:8022" "10.0.0.2") s /\
    m_servers (ps_monitor s) !! 0%nat = Some i /\ isAvailable i = true /\ m_strSipAddress i = "10.0.0.1" /\
    isAppserver "10.0.0.1" (ps_monitor s) = false.
Proof.
  eexists _, _. split; [do 10 pool_go; apply runs_nil|]. repeat split; vm_compute; reflexivity.
Qed.
