(* ===== verification/PropertyTree.v ===== *)
(** * PropertyTree: the tree the configuration file is read into

    The queries of [boost::property_tree::ptree] that [ssp-config.cpp] uses
    ([deps/boost_1_55_0/boost/property_tree]): walking a dotted path, and
    reading a value at the end of one, with or without a default. *)

From S2P Require Import Prelude Text.

(** A node: its data, and its children in order, each under a key.  The XML
    reader puts the attributes of an element under a child [<xmlattr>]. *)
Inductive ptree := PT (data : string) (children : list (string * ptree)).

Definition data (t : ptree) : string := match t with PT d _ => d end.
Definition children (t : ptree) : list (string * ptree) := match t with PT _ c => c end.

(** [find]: the first child with the key. *)
Fixpoint find_child (key : string) (l : list (string * ptree)) : option ptree :=
  match l with
  | [] => None
  | (k, t) :: l => if String.eqb k key then Some t else find_child key l
  end.

(** [string_path]: the fragments between the dots. *)
Fixpoint fragments (cur s : string) : list string :=
  match s with
  | EmptyString => [cur]
  | String c s => if Ascii.eqb c "." then cur :: fragments EmptyString s
                  else fragments (cur +:+ String c EmptyString) s
  end.

Definition path (s : string) : list string := fragments EmptyString s.

(** [walk_path]. *)
Fixpoint walk_path (p : list string) (t : ptree) : option ptree :=
  match p with
  | [] => Some t
  | key :: p => match find_child key (children t) with None => None | Some t => walk_path p t end
  end.

Definition get_child_optional (p : string) (t : ptree) : option ptree := walk_path (path p) t.

(** [get_optional<T>( path )], [tr] the translator of [T]. *)
Definition get_optional {T} (tr : string -> option T) (p : string) (t : ptree) : option T :=
  t ← get_child_optional p t; tr (data t).

(** [get<T>( path, default_value )]. *)
Definition get_or {T} (tr : string -> option T) (p : string) (d : T) (t : ptree) : T :=
  default d (get_optional tr p t).

Definition get_string (p d : string) (t : ptree) : string := get_or Some p d t.
Definition get_u32 (p : string) (d : Z) (t : ptree) : Z := get_or stream_u32 p d t.
Definition get_u64 (p : string) (d : Z) (t : ptree) : Z := get_or stream_u64 p d t.
Definition get_i32 (p : string) (d : Z) (t : ptree) : Z := get_or stream_i32 p d t.

(** ** Lemmas *)

Lemma read_digits_nonneg acc s : 0 <= acc -> 0 <= fst (read_digits acc s).
Proof.
  revert acc. induction s as [|c s IH]; intros acc H; simpl; [done|].
  destruct (isdigit c) eqn:E; [|done]. apply IH. unfold isdigit in E. unfold digit_value.
  apply andb_true_iff in E as [E _]. apply Z.leb_le in E. lia.
Qed.

Lemma stream_int_range hi s v :
  0 <= hi -> stream_int 0 hi s = Some v -> 0 <= v <= hi.
Proof.
  intros Hh. unfold stream_int.
  destruct (match skip_space s with String "-" s' => (true, s') | String "+" s' => (false, s')
            | _ => (false, skip_space s) end) as [neg s0].
  destruct s0 as [|c s0]; [done|]. destruct (isdigit c); [|done]. simpl negb. cbv iota.
  pose proof (read_digits_nonneg 0 (String c s0) ltac:(lia)) as Hn.
  destruct (read_digits 0 (String c s0)) as [n rest]. simpl in Hn.
  destruct (empty_ _); [|done]. simpl. destruct neg.
  - destruct (n <=? hi); [|done]. intros [= <-]. pose proof (Z.mod_pos_bound (-n) (hi + 1)). lia.
  - destruct (Z.leb_spec n hi); [|done]. intros [= <-]. lia.
Qed.

Lemma get_or_ind {T} (P : T -> Prop) (tr : string -> option T) p d t :
  P d -> (forall s v, tr s = Some v -> P v) -> P (get_or tr p d t).
Proof.
  intros Hd Htr. unfold get_or, get_optional. destruct (get_child_optional p t); [|done]. simpl.
  destruct (tr (data p0)) eqn:E; [|done]. by eapply Htr.
Qed.

(** Numbers read as [unsigned int] are in range. *)
Lemma get_u32_range p d t : is_u32 d -> is_u32 (get_u32 p d t).
Proof.
  intros Hd. apply (get_or_ind is_u32 stream_u32); [done|]. intros s v H. apply stream_int_range in H; unfold is_u32; lia.
Qed.

#[export] Hint Resolve get_u32_range : ssp.
