(* ===== verification/Routing.v ===== *)
(** * Routing: numbers, address spaces and trunk rotation

    The helper classes of [ssp-config.cpp] (lines 27-240): the number ranges
    customers are provisioned with, the addresses of carriers, and the weighted
    rotation over the trunks of a carrier. *)

From S2P Require Import Prelude Text.

(** ** [Dnis_t]: a telephone number, or a block of consecutive ones *)

Record Dnis_t := mkDnis { m_npa : Z; m_nxx : Z; m_xxxx : Z; m_count : Z }.

#[export] Instance Dnis_rebuild : Rebuild Dnis_t := fun d =>
  mkDnis (m_npa d) (m_nxx d) (m_xxxx d) (m_count d).

#[export] Instance Dnis_eq_dec : EqDecision Dnis_t.
Proof. solve_decision. Defined.

(** [Dnis_t::init]: the three assignments stop at the first [substr] that
    throws ([len - 4] wraps for a short number and is then out of range). *)
Definition Dnis_init (dnis : string) (d : Dnis_t) : Dnis_t :=
  let len := length_ dnis in
  let '(xxxx, nxx, npa) :=
    match substr_from dnis (wrap64 (len - 4)) with
    | None => (EmptyString, EmptyString, EmptyString)
    | Some xxxx =>
        match substr dnis (wrap64 (len - 7)) 3 with
        | None => (xxxx, EmptyString, EmptyString)
        | Some nxx =>
            match substr dnis (wrap64 (len - 10)) 3 with
            | None => (xxxx, nxx, EmptyString)
            | Some npa => (xxxx, nxx, npa)
            end
        end
    end in
  let d := if 0 <? length_ npa then d <| m_npa := atoi_u32 npa |> else d in
  let d := if 0 <? length_ nxx then d <| m_nxx := atoi_u32 nxx |> else d in
  if 0 <? length_ xxxx then d <| m_xxxx := atoi_u32 xxxx |> else d.

(** [Dnis_t( dnis )]. *)
Definition new_Dnis (dnis : string) : Dnis_t := Dnis_init dnis (mkDnis 0 0 0 1).

(** [Dnis_t( firstDnis, lastDnis )]. *)
Definition new_Dnis_block (firstDnis lastDnis : string) : Dnis_t :=
  let d := Dnis_init firstDnis (mkDnis 0 0 0 1) in
  let last := new_Dnis lastDnis in
  if m_xxxx d <? m_xxxx last then d <| m_count := wrap32 (m_xxxx last - m_xxxx d + 1) |> else d.

(** [operator==], by which the sets of numbers tell elements apart. *)
Definition Dnis_eqb (d other : Dnis_t) : bool :=
  (m_npa d =? m_npa other) && (m_nxx d =? m_nxx other) && (m_xxxx d =? m_xxxx other).

Definition Dnis_matchesOrContains (d other : Dnis_t) : bool :=
  if (m_npa d =? m_npa other) && (m_nxx d =? m_nxx other) then
    (m_xxxx d =? m_xxxx other)
    || ((m_xxxx d <? m_xxxx other) && (m_xxxx other <? wrap32 (m_xxxx d + m_count d)))
  else false.

(** [boost::unordered_set<Dnis_t>::insert]: an equal element stays. *)
Definition set_insert {A} (eqb : A -> A -> bool) (x : A) (s : list A) : list A :=
  if existsb (eqb x) s then s else s ++ [x].

(** ** [CarrierAddressSpace_t] *)

Record CarrierAddressSpace_t := mkCarrierAddressSpace {
  m_carrier : string;
  m_address : string;
  m_netmask : string;
  m_port : Z;
  m_qty : Z;
  m_selectCount : Z
}.

#[export] Instance CarrierAddressSpace_rebuild : Rebuild CarrierAddressSpace_t := fun c =>
  mkCarrierAddressSpace (m_carrier c) (m_address c) (m_netmask c) (m_port c) (m_qty c) (m_selectCount c).

Definition new_CarrierAddressSpace (carrier address : string) (port : Z) (netmask : string) (qty : Z) :=
  mkCarrierAddressSpace carrier address netmask port qty 0.

(** [haveAdvancedToEnd]. *)
Definition haveAdvancedToEnd (c : CarrierAddressSpace_t) : bool * CarrierAddressSpace_t :=
  if m_selectCount c =? m_qty c then (true, c <| m_selectCount := 0 |>)
  else (false, c <| m_selectCount ::= fun n => wrap32 (n + 1) |>).

(** ** [TerminationRoute_t]: the trunks of one carrier *)

Record TerminationRoute_t := mkTerminationRoute {
  m_vecTrunks : list CarrierAddressSpace_t;
  m_currentTrunk : Z;
  m_chargeNumber : string
}.

#[export] Instance TerminationRoute_rebuild : Rebuild TerminationRoute_t := fun r =>
  mkTerminationRoute (m_vecTrunks r) (m_currentTrunk r) (m_chargeNumber r).

Definition new_TerminationRoute (v : list CarrierAddressSpace_t) (chargeNumber : string) :=
  mkTerminationRoute v 0 chargeNumber.

Definition advanceTrunk (r : TerminationRoute_t) : TerminationRoute_t :=
  let n := wrap32 (m_currentTrunk r + 1) in
  r <| m_currentTrunk := if Z.of_nat (length (m_vecTrunks r)) <=? n then 0 else n |>.

(** [s << c.getAddress() ; if( 5060 != c.getPort() ) s << ":" << c.getPort()]. *)
Definition trunk_text (c : CarrierAddressSpace_t) : string :=
  m_address c +:+ (if negb (5060 =? m_port c) then ":" +:+ dec (m_port c) else EmptyString).

(** [m_vecTrunks.at( m_currentTrunk )] with [haveAdvancedToEnd] called on the
    element in place; [at] throws [std::out_of_range]. *)
Definition select_current (r : TerminationRoute_t)
  : outcome (bool * CarrierAddressSpace_t * TerminationRoute_t) :=
  let k := Z.to_nat (m_currentTrunk r) in
  match m_vecTrunks r !! k with
  | None => Fault Uncaught
  | Some c =>
      let '(b, c') := haveAdvancedToEnd c in
      Ok (b, c', r <| m_vecTrunks ::= <[ k := c' ]> |>)
  end.

(** [getNextTrunk]: the trunk and the charge number. *)
Definition getNextTrunk (r : TerminationRoute_t) : outcome (string * string * TerminationRoute_t) :=
  '(b, c, r) ← select_current r;
  if b : bool then
    '(_, d, r) ← select_current (advanceTrunk r);
    mret (trunk_text d, m_chargeNumber r, r)
  else mret (trunk_text c, m_chargeNumber r, r).

Definition getCountOfTrunks (r : TerminationRoute_t) : Z := wrap32 (Z.of_nat (length (m_vecTrunks r))).

(** ** [Appserver_t] and [AppserverGroup_t] *)

Record Appserver_t := mkAppserver { as_address : string; m_eventSocketPort : Z }.

Definition Appserver_eqb (a b : Appserver_t) : bool :=
  String.eqb (as_address a) (as_address b) && (m_eventSocketPort a =? m_eventSocketPort b).

Record AppserverGroup_t := mkAppserverGroup { m_name : string; m_setAppserver : list Appserver_t }.

(** ** Reference: the weighted schedule of a carrier's trunks *)

Definition weight (c : CarrierAddressSpace_t) : nat := Z.to_nat (Z.max 1 (m_qty c)).

(** One round: every trunk as often as its [qty] says (a [qty] of 0 counts as
    1), in order. *)
Definition schedule (v : list CarrierAddressSpace_t) : list string :=
  concat (map (fun c => replicate (weight c) (trunk_text c)) v).

(** Successive calls of [getNextTrunk]. *)
Fixpoint next_trunks (n : nat) (r : TerminationRoute_t) : outcome (list string * TerminationRoute_t) :=
  match n with
  | O => mret ([], r)
  | S n =>
      '(t, _, r) ← getNextTrunk r;
      '(ts, r) ← next_trunks n r;
      mret (t :: ts, r)
  end.

(** How many selections of the current round are spent on the trunks up to the
    current one. *)
Definition spent (r : TerminationRoute_t) : nat :=
  let k := Z.to_nat (m_currentTrunk r) in
  (length (schedule (take k (m_vecTrunks r))) +
   match m_vecTrunks r !! k with
   | Some c => if (m_qty c =? 0)%Z then 1 else Z.to_nat (m_selectCount c)
   | None => 0
   end)%nat.

(** Only the current trunk is being counted, within its bound. *)
Definition route_ok (r : TerminationRoute_t) : Prop :=
  0 <= m_currentTrunk r < Z.of_nat (length (m_vecTrunks r)) /\
  Z.of_nat (length (m_vecTrunks r)) < 2^32 /\
  forall k c, m_vecTrunks r !! k = Some c ->
    is_u32 (m_qty c) /\ 0 <= m_selectCount c <= m_qty c /\
    (Z.of_nat k <> m_currentTrunk r -> m_selectCount c = 0).

(** A telephone number of ten digits. *)
Definition phone (npa nxx xxxx : Z) : string := digits 3 npa +:+ digits 3 nxx +:+ digits 4 xxxx.

Definition phone_ok (npa nxx xxxx : Z) : Prop :=
  0 <= npa < 1000 /\ 0 <= nxx < 1000 /\ 0 <= xxxx < 10000.

Definition key (c : CarrierAddressSpace_t) : nat * string := (weight c, trunk_text c).

(** A trunk whose turn it is, counted from 0, is selected once. *)
Definition count_spent (c : CarrierAddressSpace_t) : nat :=
  if (m_qty c =? 0)%Z then 1%nat else Z.to_nat (m_selectCount c).

(** ** Lemmas *)

Lemma substr_from_app p s pos :
  pos = length_ p -> length_ (p +:+ s) < 2^64 -> substr_from (p +:+ s) pos = Some s.
Proof.
  intros -> _. unfold substr_from, length_. rewrite length_str_app.
  destruct (Z.ltb_spec (Z.of_nat (String.length p + String.length s)) (Z.of_nat (String.length p))); [lia|].
  by rewrite drop_str_app_length by lia.
Qed.

Lemma substr_app p m s pos len :
  pos = length_ p -> len = length_ m -> length_ (p +:+ m +:+ s) < 2^64 ->
  substr (p +:+ m +:+ s) pos len = Some m.
Proof.
  intros Hp -> Hl. unfold substr. rewrite substr_from_app by done. simpl.
  unfold length_. by rewrite Nat2Z.id, take_str_app_length.
Qed.

Lemma length__digits w n : length_ (digits w n) = Z.of_nat w.
Proof. unfold length_. by rewrite length_digits. Qed.

(** The last ten digits of a number are what counts. *)
Lemma Dnis_init_phone pre npa nxx xxxx d :
  phone_ok npa nxx xxxx -> length_ pre < 2^63 ->
  Dnis_init (pre +:+ phone npa nxx xxxx) d = mkDnis npa nxx xxxx (m_count d).
Proof.
  intros (Ha & Hb & Hc) Hp. unfold Dnis_init, phone.
  assert (forall a b, length_ (a +:+ b) = length_ a + length_ b) as Hl
    by (intros; unfold length_; rewrite length_str_app; lia).
  assert (0 <= length_ pre) by (unfold length_; lia).
  rewrite !Hl, !length__digits.
  rewrite !wrap64_small by (unfold is_u64; lia).
  assert (substr_from (pre +:+ digits 3 npa +:+ digits 3 nxx +:+ digits 4 xxxx)
    (length_ pre + (Z.of_nat 3 + (Z.of_nat 3 + Z.of_nat 4)) - 4) = Some (digits 4 xxxx)) as ->.
  { rewrite <- !app_str_assoc. apply substr_from_app; rewrite !Hl, !length__digits; lia. }
  assert (substr (pre +:+ digits 3 npa +:+ digits 3 nxx +:+ digits 4 xxxx)
    (length_ pre + (Z.of_nat 3 + (Z.of_nat 3 + Z.of_nat 4)) - 7) 3 = Some (digits 3 nxx)) as ->.
  { rewrite <- (app_str_assoc pre). apply substr_app; rewrite ?Hl, !length__digits; lia. }
  rewrite substr_app; [|rewrite ?length__digits; lia..|rewrite !Hl, !length__digits; lia].
  rewrite !length__digits. cbn -[atoi_u32 digits].
  rewrite !atoi_u32_digits by (simpl; lia). by destruct d.
Qed.

(** *** Trunk rotation *)

Lemma schedule_key v : schedule v = concat (map (fun k => replicate (fst k) (snd k)) (map key v)).
Proof. unfold schedule. by rewrite map_map. Qed.

Lemma schedule_same v v' n : map key v' = map key v -> schedule (take n v') = schedule (take n v).
Proof.
  intros E. rewrite !schedule_key. f_equal. f_equal. rewrite <- !firstn_map. by rewrite E.
Qed.

Lemma schedule_same_all v v' : map key v' = map key v -> schedule v' = schedule v.
Proof. intros E. rewrite !schedule_key. by rewrite E. Qed.

Lemma schedule_app u v : schedule (u ++ v) = schedule u ++ schedule v.
Proof. unfold schedule. by rewrite map_app, concat_app. Qed.

Lemma weight_pos c : (1 <= weight c)%nat.
Proof. unfold weight. lia. Qed.

(** The schedule around trunk [k]. *)
Lemma schedule_at v k c :
  v !! k = Some c ->
  schedule v = schedule (take k v) ++ replicate (weight c) (trunk_text c) ++ schedule (drop (S k) v) /\
  length (schedule (take (S k) v)) = (length (schedule (take k v)) + weight c)%nat.
Proof.
  intros H. split.
  - rewrite <- (take_drop_middle v k c H) at 1. rewrite schedule_app. f_equal.
  - rewrite (take_S_r v k c H), schedule_app, length_app. f_equal. unfold schedule. simpl.
    by rewrite app_nil_r, length_replicate.
Qed.

Lemma schedule_lookup v k c j :
  v !! k = Some c -> (j < weight c)%nat ->
  schedule v !! (length (schedule (take k v)) + j)%nat = Some (trunk_text c).
Proof.
  intros H Hj. destruct (schedule_at v k c H) as [-> _].
  rewrite lookup_app_r by lia. rewrite lookup_app_l by (rewrite length_replicate; lia).
  apply lookup_replicate. split; [done|lia].
Qed.

Lemma schedule_prefix_le v k : (length (schedule (take k v)) <= length (schedule v))%nat.
Proof. rewrite <- (take_drop k v) at 2. rewrite schedule_app, length_app. lia. Qed.

Lemma map_key_insert v k c c' : v !! k = Some c -> key c' = key c -> map key (<[ k := c' ]> v) = map key v.
Proof.
  intros H E. change (key <$> <[k:=c']> v = key <$> v). rewrite list_fmap_insert, E.
  apply list_insert_id. by rewrite list_lookup_fmap, H.
Qed.

Lemma haveAdvancedToEnd_key c : key (snd (haveAdvancedToEnd c)) = key c.
Proof. unfold haveAdvancedToEnd. by destruct (_ =? _). Qed.

Lemma haveAdvancedToEnd_goes_on c :
  is_u32 (m_qty c) -> 0 <= m_selectCount c < m_qty c ->
  haveAdvancedToEnd c = (false, c <| m_selectCount := m_selectCount c + 1 |>).
Proof.
  unfold is_u32, haveAdvancedToEnd. intros Hq Hs. destruct (Z.eqb_spec (m_selectCount c) (m_qty c)); [lia|].
  cbn. by rewrite wrap32_small by (unfold is_u32; lia).
Qed.

Lemma haveAdvancedToEnd_fresh c c' b :
  is_u32 (m_qty c) -> m_selectCount c = 0 -> haveAdvancedToEnd c = (b, c') ->
  count_spent c' = 1%nat /\ m_qty c' = m_qty c /\ 0 <= m_selectCount c' <= m_qty c'.
Proof.
  unfold is_u32. intros Hq Hs. destruct (decide (m_qty c = 0)) as [E|].
  - unfold haveAdvancedToEnd. rewrite Hs, E. simpl. intros [= <- <-]. unfold count_spent. simpl. rewrite E. simpl. lia.
  - rewrite haveAdvancedToEnd_goes_on by (unfold is_u32; lia). intros [= <- <-]. unfold count_spent. simpl.
    destruct (Z.eqb_spec (m_qty c) 0); [lia|]. rewrite Hs. lia.
Qed.

Lemma select_current_at r c :
  m_vecTrunks r !! Z.to_nat (m_currentTrunk r) = Some c ->
  select_current r = Ok (fst (haveAdvancedToEnd c), snd (haveAdvancedToEnd c),
    r <| m_vecTrunks ::= <[ Z.to_nat (m_currentTrunk r) := snd (haveAdvancedToEnd c) ]> |>).
Proof. intros H. unfold select_current. rewrite H. by destruct (haveAdvancedToEnd c). Qed.

(** Selecting the trunk [k] afresh, at the beginning of its turn. *)
Lemma select_fresh v k cn c :
  v !! k = Some c -> Z.of_nat (length v) < 2^32 ->
  (forall j d, v !! j = Some d -> is_u32 (m_qty d) /\ m_selectCount d = 0) ->
  let c' := snd (haveAdvancedToEnd c) in
  let r' := mkTerminationRoute (<[ k := c' ]> v) (Z.of_nat k) cn in
  select_current (mkTerminationRoute v (Z.of_nat k) cn) = Ok (fst (haveAdvancedToEnd c), c', r') /\
  route_ok r' /\ map key (m_vecTrunks r') = map key v /\
  spent r' = S (length (schedule (take k v))) /\
  schedule v !! length (schedule (take k v)) = Some (trunk_text c').
Proof.
  intros H Hl Hv c' r'. pose proof (lookup_lt_Some _ _ _ H) as Hk.
  destruct (Hv k c H) as [Hq Hz].
  destruct (haveAdvancedToEnd_fresh c c' (fst (haveAdvancedToEnd c)) Hq Hz) as (Hsp & Hq' & Hc');
    [unfold c'; by destruct (haveAdvancedToEnd c)|].
  assert (map key (<[k:=c']> v) = map key v) as Hkey
    by (by apply (map_key_insert v k c); [|apply haveAdvancedToEnd_key]).
  split; [rewrite (select_current_at _ c); simpl; rewrite Nat2Z.id; done|].
  split.
  { split; [simpl; rewrite length_insert; lia|]. split; [simpl; by rewrite length_insert|].
    simpl. intros j d Hj. apply list_lookup_insert_Some in Hj as [(-> & <- & _)|[Hne Hj]].
    - rewrite Hq'. split; [done|]. rewrite Hq' in Hc'. split; [done|]. intros []. done.
    - destruct (Hv j d Hj) as [Hd Hd0]. split; [done|]. rewrite Hd0. split; [unfold is_u32 in Hd; lia|done]. }
  split; [done|]. split.
  - unfold spent. simpl. rewrite Nat2Z.id, list_lookup_insert_eq by done.
    rewrite (schedule_same v) by done. unfold count_spent in Hsp. lia.
  - rewrite <- (Nat.add_0_r (length _)). rewrite (schedule_lookup v k c 0 H (weight_pos c)).
    unfold c'. pose proof (haveAdvancedToEnd_key c) as E. unfold key in E. by injection E as _ ->.
Qed.

Lemma next_index_spent v k :
  (k < length v)%nat ->
  length (schedule (take (if decide (S k < length v)%nat then S k else 0%nat) v)) =
  (length (schedule (take (S k) v)) `mod` length (schedule v))%nat.
Proof.
  intros Hk. destruct (decide _) as [Hs|Hs].
  - destruct (lookup_lt_is_Some_2 v (S k) Hs) as [d Hd].
    destruct (schedule_at v (S k) d Hd) as [E _]. rewrite Nat.mod_small; [done|].
    rewrite E, !length_app, length_replicate. pose proof (weight_pos d). lia.
  - rewrite (take_ge v (S k)) by lia. simpl.
    destruct v as [|d v]; [simpl in Hk; lia|].
    destruct (schedule_at (d :: v) 0 d eq_refl) as [E _]. rewrite Nat.Div0.mod_same. done.
Qed.

(** One selection takes the next place of the schedule. *)
Lemma getNextTrunk_step r :
  route_ok r ->
  exists t r', getNextTrunk r = Ok (t, m_chargeNumber r, r') /\ route_ok r' /\
    m_chargeNumber r' = m_chargeNumber r /\
    map key (m_vecTrunks r') = map key (m_vecTrunks r) /\
    schedule (m_vecTrunks r) !! (spent r `mod` length (schedule (m_vecTrunks r)))%nat = Some t /\
    spent r' = S (spent r `mod` length (schedule (m_vecTrunks r))).
Proof.
  intros (Hk & Hl & Hv). destruct r as [v k cn]. simpl in *.
  destruct (lookup_lt_is_Some_2 v (Z.to_nat k)) as [c Hc]; [lia|].
  destruct (Hv _ _ Hc) as (Hq & Hs & _).
  unfold getNextTrunk. rewrite (select_current_at _ c) by done.
  unfold spent. simpl. rewrite Hc.
  destruct (schedule_at v _ c Hc) as [E1 E2].
  destruct (decide (m_selectCount c = m_qty c)) as [Hend|Hend].
  - (* the turn of [c] is over *)
    set (c0 := c <| m_selectCount := 0 |>).
    assert (haveAdvancedToEnd c = (true, c0)) as ->.
    { unfold haveAdvancedToEnd. by rewrite Hend, Z.eqb_refl. }
    cbn [mbind outcome_bind fst snd].
    set (v0 := <[Z.to_nat k:=c0]> v).
    assert (map key v0 = map key v) as Hkey by by apply (map_key_insert v _ c).
    set (k' := if decide (S (Z.to_nat k) < length v)%nat then S (Z.to_nat k) else 0%nat).
    assert (advanceTrunk (mkTerminationRoute v0 k cn) = mkTerminationRoute v0 (Z.of_nat k') cn) as Hadv.
    { unfold advanceTrunk. cbn. unfold v0. rewrite length_insert, wrap32_small by (unfold is_u32; lia).
      f_equal. unfold k'. destruct (Z.leb_spec (Z.of_nat (length v)) (k + 1)); destruct (decide _); lia. }
    simpl in Hadv. rewrite Hadv. clear Hadv.
    assert (exists d, v0 !! k' = Some d) as [d Hd].
    { apply lookup_lt_is_Some_2. unfold v0. rewrite length_insert. unfold k'. destruct (decide _); lia. }
    destruct (select_fresh v0 k' cn d Hd) as (-> & Hok & Hkey' & Hsp & Hlook).
    { unfold v0. by rewrite length_insert. }
    { intros j e Hj. unfold v0 in Hj. apply list_lookup_insert_Some in Hj as [(_ & <- & _)|[Hne Hj]]; [done|].
      destruct (Hv j e Hj) as (He & _ & Hz). split; [done|]. apply Hz. lia. }
    cbn [mbind outcome_bind]. eexists _, _. split; [reflexivity|]. split; [done|]. split; [done|].
    split; [by etransitivity|].
    assert (length (schedule (take k' v)) =
      ((length (schedule (take (Z.to_nat k) v)) + count_spent c) `mod` length (schedule v))%nat) as Hpos.
    { unfold k'. rewrite next_index_spent by lia. rewrite E2. f_equal. f_equal.
      unfold count_spent, weight, is_u32 in *. rewrite Hend. destruct (Z.eqb_spec (m_qty c) 0); lia. }
    rewrite (schedule_same v v0) in Hsp, Hlook by done. rewrite (schedule_same_all v v0) in Hlook by done.
    unfold count_spent in Hpos. rewrite Hpos in Hsp, Hlook. split; [done|]. done.
  - (* [c] is selected again *)
    rewrite haveAdvancedToEnd_goes_on by (done || lia). cbn [mbind outcome_bind fst snd].
    eexists _, _. split; [reflexivity|].
    set (c' := c <| m_selectCount := m_selectCount c + 1 |>).
    assert (map key (<[Z.to_nat k:=c']> v) = map key v) as Hkey by by apply (map_key_insert v _ c).
    assert (Z.to_nat (m_selectCount c) < weight c)%nat as Hlt by (unfold weight; lia).
    assert (m_qty c <> 0) as Hne by lia.
    split.
    { split; [simpl; rewrite length_insert; lia|]. split; [simpl; by rewrite length_insert|].
      simpl. intros j d Hj. apply list_lookup_insert_Some in Hj as [(Ej & <- & _)|[Hj' Hj]]; [|by apply Hv].
      simpl. split; [done|]. split; [lia|]. intros []. lia. }
    split; [done|]. split; [done|].
    destruct (Z.eqb_spec (m_qty c) 0); [done|].
    assert (length (schedule (take (Z.to_nat k) v)) + Z.to_nat (m_selectCount c) < length (schedule v))%nat.
    { apply (f_equal length) in E1. rewrite !length_app, length_replicate in E1. lia. }
    rewrite Nat.mod_small by done.
    split; [by rewrite (schedule_lookup v _ c)|].
    simpl. rewrite list_lookup_insert_eq by lia. simpl.
    destruct (Z.eqb_spec (m_qty c) 0); [done|]. rewrite (schedule_same v) by done. lia.
Qed.

(** ** Properties *)

(** A block of numbers matches a number iff it is in the block: the last
    ten digits count, whatever precedes them; the area code and exchange must be
    those of the block's first number (its last number's are not looked at),
    and a block whose end is not after its start is its first number alone. *)
Theorem Dnis_block_matches (p1 p2 p3 : string) (npa nxx first npa2 nxx2 last npa3 nxx3 x : Z) :
  length_ p1 < 2^63 -> length_ p2 < 2^63 -> length_ p3 < 2^63 ->
  phone_ok npa nxx first -> phone_ok npa2 nxx2 last -> phone_ok npa3 nxx3 x ->
  Dnis_matchesOrContains (new_Dnis_block (p1 +:+ phone npa nxx first) (p2 +:+ phone npa2 nxx2 last))
    (new_Dnis (p3 +:+ phone npa3 nxx3 x)) = true <->
  npa = npa3 /\ nxx = nxx3 /\ first <= x <= Z.max first last.
Proof.
  intros H1 H2 H3 Ha Hb Hc. unfold new_Dnis_block, new_Dnis. rewrite !Dnis_init_phone by done.
  destruct Ha as (Ha1 & Ha2 & Ha3), Hb as (_ & _ & Hb3), Hc as (Hc1 & Hc2 & Hc3).
  unfold Dnis_matchesOrContains. simpl.
  destruct (Z.ltb_spec first last); simpl.
  - rewrite (wrap32_small (last - first + 1)), (wrap32_small (first + _)) by (unfold is_u32; lia).
    destruct (Z.eqb_spec npa npa3), (Z.eqb_spec nxx nxx3); simpl; [|split; [done|lia]..].
    rewrite orb_true_iff, andb_true_iff, Z.eqb_eq, !Z.ltb_lt. lia.
  - rewrite (wrap32_small (first + 1)) by (unfold is_u32; lia).
    destruct (Z.eqb_spec npa npa3), (Z.eqb_spec nxx nxx3); simpl; [|split; [done|lia]..].
    rewrite orb_true_iff, andb_true_iff, Z.eqb_eq, !Z.ltb_lt. lia.
Qed.

Lemma Dnis_block_matches_witness :
  Dnis_matchesOrContains (new_Dnis_block "6175551200" "6175551299") (new_Dnis "+16175551234") = true.
Proof.
  change "6175551200" with ("" +:+ phone 617 555 1200).
  change "6175551299" with ("" +:+ phone 617 555 1299).
  change "+16175551234" with ("+1" +:+ phone 617 555 1234).
  apply Dnis_block_matches; unfold phone_ok; try lia; vm_compute; reflexivity.
Defined.


Lemma new_TerminationRoute_ok v cn :
  (0 < length v)%nat -> Z.of_nat (length v) < 2^32 ->
  Forall (fun c => is_u32 (m_qty c) /\ m_selectCount c = 0) v ->
  route_ok (new_TerminationRoute v cn).
Proof.
  intros Hl Hl' Hv. split; [simpl; lia|]. split; [done|]. simpl. intros k c Hc.
  rewrite Forall_lookup in Hv. destruct (Hv k c Hc) as [Hq Hz]. rewrite Hz. unfold is_u32 in *.
  split; [done|]. split; [lia|done].
Qed.

