(* ===== verification/SspConfig.v ===== *)
(** * SspConfig: the configuration and the routing decisions taken from it

    [SspConfig::Impl] of [ssp-config.cpp] (lines 245-653): the constructor, which
    reads the file into the members, and the operations the controller calls.
    The XML parser and the file system are parameters; an [unordered_map] is a
    [gmap] whose iteration order is a parameter; the [std::map] of the carriers
    is a list sorted by name. *)

From S2P Require Import Prelude Text Ssp PropertyTree Routing.

(** ** Data *)

Record Impl := mkImpl {
  m_bIsValid : bool;
  m_bIsActive : bool;
  m_syslogAddress : string;
  m_sysLogPort : Z;
  m_syslogFacility : string;
  m_sipUrl : string;
  m_mapCustomerDnis : gmap string (list Dnis_t);
  m_mapInboundCarrier : gmap string CarrierAddressSpace_t;
  m_mapTerminationCarrierByName : list (string * TerminationRoute_t);
  m_vecTerminationCarrier : list string;
  m_nCurrentTerminationCarrier : Z;
  m_mapAppserver : gmap string Appserver_t;
  m_mapAppserverGroup : gmap string AppserverGroup_t;
  m_agent_mode : agent_mode;
  m_nSofiaLogLevel : Z;
  m_nMaxRoundRobins : Z;
  m_nMaxTerminationAttempts : Z;
  m_nOriginationSessionTimer : Z;
  m_nFSTimerMsecs : Z;
  m_loglevel : severity_levels;
  m_statsAddress : string;
  m_statsPort : Z;
  m_cdrUser : string;
  m_cdrPassword : string;
  m_cdrHost : string;
  m_cdrPort : string;
  m_cdrSchema : string;
  m_strAnonymousCallRoutingCarrier : string
}.

#[export] Instance Impl_rebuild : Rebuild Impl := fun i =>
  mkImpl (m_bIsValid i) (m_bIsActive i) (m_syslogAddress i) (m_sysLogPort i) (m_syslogFacility i)
    (m_sipUrl i) (m_mapCustomerDnis i) (m_mapInboundCarrier i) (m_mapTerminationCarrierByName i)
    (m_vecTerminationCarrier i) (m_nCurrentTerminationCarrier i) (m_mapAppserver i)
    (m_mapAppserverGroup i) (m_agent_mode i) (m_nSofiaLogLevel i) (m_nMaxRoundRobins i)
    (m_nMaxTerminationAttempts i) (m_nOriginationSessionTimer i) (m_nFSTimerMsecs i) (m_loglevel i)
    (m_statsAddress i) (m_statsPort i) (m_cdrUser i) (m_cdrPassword i) (m_cdrHost i) (m_cdrPort i)
    (m_cdrSchema i) (m_strAnonymousCallRoutingCarrier i).

(** ** The constructor as a computation

    A statement of the constructor goes on, [return]s from the constructor, or
    throws: [ptree_bad_path] is the exception the inner [catch] clauses name. *)

Inductive control (A : Type) := Next (a : A) | Return | Throw.
Arguments Next {A} a.
Arguments Return {A}.
Arguments Throw {A}.

Definition C (A : Type) : Type := Impl -> Impl * control A.

#[export] Instance C_ret : MRet C := fun A a i => (i, Next a).
#[export] Instance C_bind : MBind C := fun A B f m i =>
  match m i with
  | (i, Next a) => f a i
  | (i, Return) => (i, Return)
  | (i, Throw) => (i, Throw)
  end.

Definition set_ (f : Impl -> Impl) : C unit := fun i => (f i, Next tt).
Definition read_ {A} (f : Impl -> A) : C A := fun i => (i, Next (f i)).
Definition return_ {A} : C A := fun i => (i, Return).
Definition throw_ {A} : C A := fun i => (i, Throw).

(** [try m catch( ptree_bad_path& e ) {}]. *)
Definition try_ (m : C unit) : C unit := fun i =>
  match m i with (i, Throw) => (i, Next tt) | r => r end.

(** [BOOST_FOREACH( v, l ) body]. *)
Fixpoint foreach {A} (l : list A) (body : A -> C unit) : C unit :=
  match l with
  | [] => mret tt
  | a :: l => body a;; foreach l body
  end.

(** [pt.get_child( p )] and [pt.get<string>( p )], which throw. *)
Definition get_child (p : string) (t : ptree) : C ptree :=
  match get_child_optional p t with Some t => mret t | None => throw_ end.
Definition get_string_ (p : string) (t : ptree) : C string := t ← get_child p t; mret (data t).

(** [getXmlAttribute]: [None] is the result false. *)
Definition getXmlAttribute (v : ptree) (attrName : string) : option string :=
  match get_optional Some ("<xmlattr>." +:+ attrName) v with
  | None => None
  | Some value => if empty_ value then None else Some value
  end.

(** [if( !getXmlAttribute( v, name, value ) ) return]. *)
Definition attribute_or_return (v : ptree) (attrName : string) : C string :=
  match getXmlAttribute v attrName with Some s => mret s | None => return_ end.

(** ** The maps *)

(** [TerminationCarrierMap_t::insert]: a key that is there stays. *)
Fixpoint map_insert {V} (k : string) (v : V) (l : list (string * V)) : list (string * V) :=
  match l with
  | [] => [(k, v)]
  | (k', v') :: l' =>
      if String.eqb k k' then l
      else if string_ltb k k' then (k, v) :: l
      else (k', v') :: map_insert k v l'
  end.

(** A route changed in place, through its [shared_ptr]. *)
Fixpoint map_set {V} (k : string) (v : V) (l : list (string * V)) : list (string * V) :=
  match l with
  | [] => []
  | (k', v') :: l => if String.eqb k k' then (k', v) :: l else (k', v') :: map_set k v l
  end.

(** [insert] into an [unordered_map], when the key must be new: the caller
    returns otherwise. *)
Definition insert_new {V} (field : Impl -> gmap string V) `{!Updater field} (k : string) (v : V) : C unit :=
  m ← read_ field;
  match m !! k with
  | Some _ => return_
  | None => set_ (fun i => i <| field := <[ k := v ]> m |>)
  end.

(** ** Sections of the file *)

Definition loglevel_of (s : string) : severity_levels :=
  if String.eqb s "notice" then log_notice
  else if String.eqb s "error" then log_error
  else if String.eqb s "warning" then log_warning
  else if String.eqb s "info" then log_info
  else if String.eqb s "debug" then log_debug
  else log_info.

(** Lines 259-312: the members with scalar values. *)
Definition read_scalars (pt : ptree) : C unit :=
  try_ (get_child "ssp.stats" pt;;
        set_ (fun i => i <| m_statsPort := get_u32 "ssp.stats.<xmlattr>.port" 8022 pt |>);;
        a ← get_string_ "ssp.stats" pt;
        set_ (fun i => i <| m_statsAddress := a |>));;
  set_ (fun i => i
    <| m_syslogAddress := get_string "ssp.logging.syslog.address" "localhost" pt |>
    <| m_sysLogPort := get_u32 "ssp.logging.syslog.address" 516 pt |>
    <| m_syslogFacility := get_string "ssp.logging.syslog.facility" "local7" pt |>
    <| m_nSofiaLogLevel := get_u32 "ssp.logging.sofia-loglevel" 1 pt |>
    <| m_loglevel := loglevel_of (get_string "ssp.logging.loglevel" "info" pt) |>
    <| m_cdrUser := get_string "ssp.cdr.user" EmptyString pt |>
    <| m_cdrPassword := get_string "ssp.cdr.password" EmptyString pt |>
    <| m_cdrHost := get_string "ssp.cdr.host" EmptyString pt |>
    <| m_cdrPort := get_string "ssp.cdr.port" "3306" pt |>
    <| m_cdrSchema := get_string "ssp.cdr.schema" "ssp" pt |>
    <| m_sipUrl := get_string "ssp.sip.contact" "sip:*" pt |>);;
  (if String.eqb (get_string "ssp.sip.agent-mode" "stateful" pt) "stateful"
   then set_ (fun i => i <| m_agent_mode := agent_mode_stateful |>) else mret tt);;
  (if String.eqb (get_string "ssp.sip.<xmlattr>.status" "active" pt) "inactive"
   then set_ (fun i => i <| m_bIsActive := false |>) else mret tt);;
  set_ (fun i => i
    <| m_nOriginationSessionTimer := get_u64 "ssp.inbound.session-timer" 0 pt |>
    <| m_nMaxRoundRobins := get_u32 "ssp.inbound.max-round-robins" 0 pt |>
    <| m_nMaxTerminationAttempts := get_u32 "ssp.outbound.max-termination-attempts" 1 pt |>
    <| m_strAnonymousCallRoutingCarrier := get_string "ssp.outbound.anonymous-call-routing" EmptyString pt |>
    <| m_nFSTimerMsecs := get_u64 "ssp.inbound.freeswitch-health-check-interval" 5000 pt |>).

(** An [appserver] element. *)
Definition read_appserver (v : ptree) : C unit :=
  let address := data v in
  let appserverName := default address (getXmlAttribute v "name") in
  insert_new m_mapAppserver appserverName
    (mkAppserver (data v) (wrap32 (get_i32 "event-socket-port" 8021 v))).

(** The members of an [appserver-group], which must be defined before it. *)
Fixpoint group_members (l : list (string * ptree)) (set : list Appserver_t) : C (list Appserver_t) :=
  match l with
  | [] => mret set
  | (k, v2) :: l =>
      if String.eqb k "appserver" then
        m ← read_ m_mapAppserver;
        match m !! data v2 with
        | None => return_
        | Some a => group_members l (set_insert Appserver_eqb a set)
        end
      else group_members l set
  end.

Definition read_appserver_group (v : ptree) : C unit :=
  appserverGroupName ← attribute_or_return v "name";
  setAppserver ← group_members (children v) [];
  insert_new m_mapAppserverGroup appserverGroupName (mkAppserverGroup appserverGroupName setAppserver).

(** Lines 314-359: the children of [ssp.inbound]. *)
Definition read_inbound (v : string * ptree) : C unit :=
  if String.eqb (fst v) "appserver" then read_appserver (snd v)
  else if String.eqb (fst v) "appserver-group" then read_appserver_group (snd v)
  else mret tt.

(** The numbers of a [dnis-list]. *)
Fixpoint read_dnis (l : list (string * ptree)) (set : list Dnis_t) : C (list Dnis_t) :=
  match l with
  | [] => mret set
  | (k, v2) :: l =>
      if String.eqb k "dnis" then read_dnis l (set_insert Dnis_eqb (new_Dnis (data v2)) set)
      else if String.eqb k "dnis-block" then
        first ← get_string_ "first" v2;
        last ← get_string_ "last" v2;
        read_dnis l (set_insert Dnis_eqb (new_Dnis_block first last) set)
      else read_dnis l set
  end.

Definition read_dnis_list (v : ptree) : C unit :=
  customerName ← attribute_or_return v "name";
  setDnis ← read_dnis (children v) [];
  insert_new m_mapCustomerDnis customerName setDnis.

(** An [address] a carrier sends calls from. *)
Definition read_inbound_address (carrierName : string) (v2 : string * ptree) : C unit :=
  if String.eqb (fst v2) "address" then
    let c := new_CarrierAddressSpace carrierName (data (snd v2))
               (wrap32 (get_i32 "<xmlattr>.port" 5060 (snd v2)))
               (get_string "<xmlattr>.netmask" "255.255.255.255" (snd v2)) 1 in
    insert_new m_mapInboundCarrier (m_address c) c
  else mret tt.

(** The trunks a carrier takes calls on. *)
Fixpoint outbound_trunks (carrierName : string) (l : list (string * ptree)) : list CarrierAddressSpace_t :=
  match l with
  | [] => []
  | (k, v2) :: l =>
      if String.eqb k "address" then
        if String.eqb (get_string "<xmlattr>.status" "active" v2) "inactive" then outbound_trunks carrierName l
        else new_CarrierAddressSpace carrierName (data v2)
               (wrap32 (get_i32 "<xmlattr>.port" 5060 v2)) "255.255.255.255"
               (get_u32 "<xmlattr>.qty" 1 v2) :: outbound_trunks carrierName l
      else outbound_trunks carrierName l
  end.

(** Lines 419-435: the route of a carrier with at least one trunk. *)
Definition read_outbound (carrierName : string) (qty : Z) (chargeNumber : string) (v : ptree) : C unit :=
  outbound ← get_child "outbound" v;
  let vecTrunks := outbound_trunks carrierName (children outbound) in
  if negb (length vecTrunks =? 0)%nat then
    set_ (fun i => i <| m_mapTerminationCarrierByName ::=
                      map_insert carrierName (new_TerminationRoute vecTrunks chargeNumber) |>
                     <| m_vecTerminationCarrier ::=
                      fun l => l ++ replicate (Z.to_nat qty) carrierName |>)
  else mret tt.

(** Lines 391-437: a [carrier] element. *)
Definition read_carrier (v : ptree) : C unit :=
  carrierName ← attribute_or_return v "name";
  try_ (inbound ← get_child "inbound" v;
        foreach (children inbound) (read_inbound_address carrierName));;
  let status := get_string "outbound.<xmlattr>.status" "active" v in
  if String.eqb status "active" then
    let qty := get_u32 "outbound.<xmlattr>.qty" 1 v in
    let chargeNumber := get_string "outbound.<xmlattr>.charge-number" EmptyString v in
    try_ (read_outbound carrierName qty chargeNumber v)
  else mret tt.

(** Lines 360-438: the children of [ssp]. *)
Definition read_element (v : string * ptree) : C unit :=
  if String.eqb (fst v) "dnis-list" then read_dnis_list (snd v)
  else if String.eqb (fst v) "carrier" then read_carrier (snd v)
  else mret tt.

(** The body of the constructor after [read_xml]: reading the tree, lines
    259-438, and the final checks. *)
Definition read_tree (pt : ptree) : C unit :=
  read_scalars pt;;
  inbound ← get_child "ssp.inbound" pt;
  foreach (children inbound) read_inbound;;
  ssp ← get_child "ssp" pt;
  foreach (children ssp) read_element.

Definition read_config (pt : ptree) : C unit :=
  read_tree pt;;
  n ← read_ (fun i => length (m_vecTerminationCarrier i));
  (if (0 =? n)%nat then return_ else mret tt);;
  apps ← read_ m_mapAppserver;
  (if decide (apps = ∅) then return_ else mret tt);;
  set_ (fun i => i <| m_bIsValid := true |>).

(** The initialised members; [junk] has the values the others happen to hold. *)
Definition initial (junk : Impl) : Impl :=
  junk <| m_bIsValid := false |> <| m_bIsActive := true |> <| m_agent_mode := agent_mode_stateless |>
    <| m_nCurrentTerminationCarrier := 0 |> <| m_statsPort := 0 |>
    <| m_syslogAddress := EmptyString |> <| m_syslogFacility := EmptyString |>
    <| m_sipUrl := EmptyString |> <| m_mapCustomerDnis := ∅ |> <| m_mapInboundCarrier := ∅ |>
    <| m_mapTerminationCarrierByName := [] |> <| m_vecTerminationCarrier := [] |>
    <| m_mapAppserver := ∅ |> <| m_mapAppserverGroup := ∅ |> <| m_statsAddress := EmptyString |>
    <| m_cdrUser := EmptyString |> <| m_cdrPassword := EmptyString |> <| m_cdrHost := EmptyString |>
    <| m_cdrPort := EmptyString |> <| m_cdrSchema := EmptyString |>
    <| m_strAnonymousCallRoutingCarrier := EmptyString |>.

Section Construct.
(** [fb.open( szFilename )] and what the stream then holds; the parser, which
    throws on a text that is not XML. *)
Context (open_file : string -> option string) (read_xml : string -> option ptree).

(** [SspConfig::Impl::Impl]: whatever is thrown is caught at the end. *)
Definition new_Impl (junk : Impl) (szFilename : string) : Impl :=
  let i := initial junk in
  match open_file szFilename with
  | None => i
  | Some text =>
      match read_xml text with
      | None => i
      | Some pt => fst (read_config pt i)
      end
  end.
End Construct.

(** ** Operations *)

(** [route->getNextTrunk(...)] on the route stored under a carrier's name. *)
Definition use_route (carrier : string) (route : TerminationRoute_t) : M Impl (string * string * string) :=
  fun i =>
    match getNextTrunk route with
    | Fault f => Fault f
    | Ok (destAddress, chargeNumber, route) =>
        Ok (destAddress, carrier, chargeNumber,
            i <| m_mapTerminationCarrierByName ::= map_set carrier route |>)
    end.

(** [getTerminationRoute]: the destination, carrier and charge number, or the
    result false. *)
Definition getTerminationRoute : M Impl (option (string * string * string)) :=
  vec ← gets m_vecTerminationCarrier;
  if (length vec =? 0)%nat then mret None
  else
    current ← gets m_nCurrentTerminationCarrier;
    match vec !! Z.to_nat current with
    | None => fail Uncaught
    | Some carrier =>
        byName ← gets m_mapTerminationCarrierByName;
        match find_key carrier byName with
        | None => fail AssertFailed
        | Some route =>
            r ← use_route carrier route;
            modify (fun i => i <| m_nCurrentTerminationCarrier ::= fun n =>
              let n := wrap32 (n + 1) in if Z.of_nat (length vec) <=? n then 0 else n |>);;
            mret (Some r)
        end
    end.

Fixpoint find_other (failedCarrier : string) (l : list (string * TerminationRoute_t))
  : option (string * TerminationRoute_t) :=
  match l with
  | [] => None
  | (carrier, route) :: l =>
      if negb (String.eqb carrier failedCarrier) then Some (carrier, route) else find_other failedCarrier l
  end.

Definition getTerminationRouteForAltCarrier (failedCarrier : string)
  : M Impl (option (string * string * string)) :=
  byName ← gets m_mapTerminationCarrierByName;
  match find_other failedCarrier byName with
  | Some (carrier, route) => r ← use_route carrier route; mret (Some r)
  | None => getTerminationRoute
  end.

Definition getTerminationRouteForCarrier (carrier : string) : M Impl (option (string * string * string)) :=
  byName ← gets m_mapTerminationCarrierByName;
  match find_key carrier byName with
  | None => mret None
  | Some route => r ← use_route carrier route; mret (Some r)
  end.

(** The sum is an [int], returned as [unsigned int]. *)
Definition getCountOfOutboundTrunks (i : Impl) : Z :=
  wrap32 (foldl (fun count nr => to_int32 (wrap32 (count + getCountOfTrunks (snd nr)))) 0
            (m_mapTerminationCarrierByName i)).

Definition getCarrier (sourceAddress : string) (i : Impl) : option string :=
  m_carrier <$> m_mapInboundCarrier i !! sourceAddress.

Definition getSyslogFacility (i : Impl) : option Z :=
  find_key (m_syslogFacility i)
    [("local0", 0); ("local1", 1); ("local2", 2); ("local3", 3); ("local4", 4); ("local5", 5);
     ("local6", 6); ("local7", 7)].

Definition getSyslogTarget (i : Impl) : string * Z := (m_syslogAddress i, m_sysLogPort i).

Definition getStatsPort (i : Impl) : string * Z := (m_statsAddress i, m_statsPort i).

Definition getCdrConnectInfo (i : Impl) : option (string * string * string * string) :=
  if empty_ (m_cdrHost i) || empty_ (m_cdrUser i) || empty_ (m_cdrPassword i) || empty_ (m_cdrSchema i)
  then None
  else Some (m_cdrUser i, m_cdrPassword i, "tcp://" +:+ m_cdrHost i +:+ ":" +:+ m_cdrPort i, m_cdrSchema i).

Definition getAnonymousCallRouting (i : Impl) : option string :=
  if empty_ (m_strAnonymousCallRoutingCarrier i) then None else Some (m_strAnonymousCallRoutingCarrier i).

Definition getAppserverGroup (name : string) (i : Impl) : option AppserverGroup_t :=
  m_mapAppserverGroup i !! name.

Section Iteration.
(** The order in which an [unordered_map] is iterated. *)
Context (iteration : forall V, gmap string V -> list (string * V)).

Definition getCustomer (dnis : string) (i : Impl) : option string :=
  fst <$> List.find (fun it => existsb (fun d => Dnis_matchesOrContains d (new_Dnis dnis)) (snd it))
            (iteration _ (m_mapCustomerDnis i)).

(** [getAppservers] on an empty [servers]. *)
Definition getAppservers (i : Impl) : list string :=
  map (fun it => as_address (snd it) +:+ ":" +:+ dec (m_eventSocketPort (snd it)))
    (iteration _ (m_mapAppserver i)).
End Iteration.

(** ** Reference definitions *)

(** Every node has fewer than 2^32 children. *)
Fixpoint small (t : ptree) : Prop :=
  match t with
  | PT _ c =>
      Z.of_nat (length c) < 2^32 /\
      (fix go (l : list (string * ptree)) : Prop :=
         match l with [] => True | (_, t) :: l => small t /\ go l end) c
  end.

(** The invariant of the routing tables. *)
Definition config_ok (i : Impl) : Prop :=
  Forall (fun nr => route_ok (snd nr)) (m_mapTerminationCarrierByName i) /\
  StronglySorted (fun a b => string_ltb a b = true) (map fst (m_mapTerminationCarrierByName i)) /\
  Forall (fun n => n ∈ map fst (m_mapTerminationCarrierByName i)) (m_vecTerminationCarrier i) /\
  0 <= m_nCurrentTerminationCarrier i <= Z.of_nat (length (m_vecTerminationCarrier i)) /\
  (m_vecTerminationCarrier i <> [] ->
   m_nCurrentTerminationCarrier i < Z.of_nat (length (m_vecTerminationCarrier i))).

(** The calls of [getTerminationRoute] that a run of the proxy makes. *)
Fixpoint routes (n : nat) : M Impl (list (option (string * string * string))) :=
  match n with
  | O => mret []
  | S n => r ← getTerminationRoute; rs ← routes n; mret (r :: rs)
  end.

Definition carrier_of (r : option (string * string * string)) : option string :=
  '(_, carrier, _) ← r; Some carrier.

(** The elements of the distributed [ssp.conf.xml] that the constructor looks
    at, as the parser delivers them. *)
Definition leaf (d : string) : ptree := PT d [].
Definition attrs (l : list (string * string)) : string * ptree :=
  ("<xmlattr>", PT EmptyString (map (fun kv => (fst kv, leaf (snd kv))) l)).

Definition example_inbound : ptree := PT EmptyString
  [("max-round-robins", leaf "3"); ("session-timer", leaf "1800");
   ("freeswitch-health-check-interval", leaf "5000");
   ("appserver", PT "localhost" [attrs [("event-socket-port", "8021")]])].

Definition example_carriers : list (string * ptree) :=
  [("carrier", PT EmptyString
     [attrs [("name", "level3")];
      ("inbound", PT EmptyString
         [("address", leaf "192.168.1.54"); ("address", PT "192.168.1.59" [attrs [("port", "5061")]])]);
      ("outbound", PT EmptyString
         [attrs [("qty", "2")]; ("address", leaf "172.21.3.96");
          ("address", PT "172.21.3.97" [attrs [("port", "5061")]])])]);
   ("carrier", PT EmptyString
     [attrs [("name", "intermetro")];
      ("outbound", PT EmptyString
         [attrs [("qty", "3"); ("charge-number", "6172375089")];
          ("address", PT "10.10.10.1" [attrs [("qty", "2")]]); ("address", leaf "10.10.10.2");
          ("address", leaf "10.10.10.3"); ("address", PT "10.10.10.4" [attrs [("status", "inactive")]])])])].

Definition example_pt (carriers : list (string * ptree)) : ptree := PT EmptyString
  [("ssp", PT EmptyString
     ([("stats", PT "localhost" [attrs [("port", "8022")]]);
       ("sip", PT EmptyString [attrs [("status", "active")]; ("contact", leaf "sip:209.251.49.135");
                               ("agent-mode", leaf "stateful")]);
       ("cdr", PT EmptyString [("user", leaf "ssp"); ("password", leaf "ssp"); ("host", leaf "util02");
                               ("schema", leaf "ssp"); ("port", leaf "3306")]);
       ("logging", PT EmptyString
          [("syslog", PT EmptyString [("address", leaf "localhost"); ("port", leaf "514");
                                      ("facility", leaf "local6")]);
           ("sofia-loglevel", leaf "7"); ("loglevel", leaf "debug")]);
       ("inbound", example_inbound);
       ("outbound", PT EmptyString [("max-termination-attempts", leaf "3");
                                    ("anonymous-call-routing", leaf "intermetro")])] ++ carriers))].

(** Members that no initialiser sets, at 0. *)
Definition junk0 : Impl :=
  mkImpl false false EmptyString 0 EmptyString EmptyString ∅ ∅ [] [] 0 ∅ ∅ agent_mode_stateless 0 0 0 0 0
    log_notice EmptyString 0 EmptyString EmptyString EmptyString EmptyString EmptyString EmptyString.

Definition load (pt : ptree) : Impl :=
  new_Impl (fun _ => Some EmptyString) (fun _ => Some pt) junk0 "ssp.conf.xml".

Definition ckeeps {A} (I : Impl -> Prop) (m : C A) : Prop := forall i, I i -> I (fst (m i)).

(** While the file is read, the tables are well-formed and nothing has been
    handed out. *)
Definition reading (i : Impl) : Prop :=
  config_ok i /\ m_nCurrentTerminationCarrier i = 0 /\ m_bIsValid i = false.

(** The scalars the controller asks for, as the file gives them. *)
Definition scalars_of (pt : ptree) (i : Impl) : Prop :=
  m_sipUrl i = get_string "ssp.sip.contact" "sip:*" pt /\
  m_agent_mode i = (if String.eqb (get_string "ssp.sip.agent-mode" "stateful" pt) "stateful"
                    then agent_mode_stateful else agent_mode_stateless) /\
  m_bIsActive i = negb (String.eqb (get_string "ssp.sip.<xmlattr>.status" "active" pt) "inactive") /\
  m_nMaxRoundRobins i = get_u32 "ssp.inbound.max-round-robins" 0 pt /\
  m_nMaxTerminationAttempts i = get_u32 "ssp.outbound.max-termination-attempts" 1 pt /\
  m_nOriginationSessionTimer i = get_u64 "ssp.inbound.session-timer" 0 pt /\
  m_nFSTimerMsecs i = get_u64 "ssp.inbound.freeswitch-health-check-interval" 5000 pt /\
  m_strAnonymousCallRoutingCarrier i = get_string "ssp.outbound.anonymous-call-routing" EmptyString pt /\
  m_loglevel i = loglevel_of (get_string "ssp.logging.loglevel" "info" pt) /\
  m_syslogAddress i = get_string "ssp.logging.syslog.address" "localhost" pt /\
  m_sysLogPort i = get_u32 "ssp.logging.syslog.address" 516 pt /\
  m_cdrHost i = get_string "ssp.cdr.host" EmptyString pt /\
  m_cdrUser i = get_string "ssp.cdr.user" EmptyString pt.

(** ** Lemmas *)

Lemma find_key_in {K V} `{EqDecision K} (k : K) (l : list (K * V)) v :
  find_key k l = Some v -> (k, v) ∈ l.
Proof.
  induction l as [|[k' v'] l IH]; simpl; [done|]. destruct (decide (k = k')) as [->|].
  - intros [= ->]. left.
  - intros H. right. auto.
Qed.

Lemma find_key_is_Some {K V} `{EqDecision K} (k : K) (l : list (K * V)) :
  k ∈ map fst l -> exists v, find_key k l = Some v.
Proof.
  induction l as [|[k' v'] l IH]; simpl; [by intros ?%elem_of_nil|].
  rewrite elem_of_cons. destruct (decide (k = k')); [eauto|]. intros [?|?]; [done|auto].
Qed.

Lemma find_other_spec failed l :
  match find_other failed l with
  | Some (n, r) => n <> failed /\ (n, r) ∈ l /\
      (StronglySorted (fun a b => string_ltb a b = true) (map fst l) ->
       forall n', n' ∈ map fst l -> n' <> failed -> n' = n \/ string_ltb n n' = true)
  | None => Forall (fun nr => fst nr = failed) l
  end.
Proof.
  induction l as [|[n r] l IH]; simpl; [constructor|].
  destruct (String.eqb_spec n failed) as [->|Hne]; simpl.
  - destruct (find_other failed l) as [[n r']|]; [|by constructor].
    destruct IH as (H1 & H2 & H3). split; [done|]. split; [by right|].
    intros [Hs _]%StronglySorted_inv n' [->|Hn]%elem_of_cons Hf; [done|]. eauto.
  - split; [done|]. split; [left|]. intros [_ Hf]%StronglySorted_inv n' [->|Hn]%elem_of_cons _; [by left|].
    right. rewrite List.Forall_forall in Hf. apply Hf. by apply list_elem_of_In.
Qed.

Lemma map_insert_keys {V} k (v : V) l : forall x,
  x ∈ map fst (map_insert k v l) <-> x = k \/ x ∈ map fst l.
Proof.
  intros x. induction l as [|[k' v'] l IH]; simpl; [by rewrite !elem_of_cons|].
  destruct (String.eqb_spec k k') as [->|]; simpl.
  { rewrite elem_of_cons. tauto. }
  destruct (string_ltb k k'); simpl; rewrite !elem_of_cons; [done|]. rewrite IH. tauto.
Qed.

Lemma map_insert_sorted {V} k (v : V) l :
  StronglySorted (fun a b => string_ltb a b = true) (map fst l) ->
  StronglySorted (fun a b => string_ltb a b = true) (map fst (map_insert k v l)).
Proof.
  induction l as [|[k' v'] l IH]; simpl; [by repeat constructor|]. intros [Hs Hf]%StronglySorted_inv.
  destruct (String.eqb_spec k k') as [->|Hne]; simpl; [by constructor|].
  destruct (string_ltb k k') eqn:E; simpl.
  - constructor; [by constructor|]. constructor; [done|].
    eapply List.Forall_impl; [|exact Hf]. intros a. by apply string_ltb_trans.
  - constructor; [by apply IH|]. apply List.Forall_forall. intros x Hx%list_elem_of_In.
    apply map_insert_keys in Hx as [->|Hx]; [by apply string_ltb_total|].
    rewrite List.Forall_forall in Hf. by apply Hf, list_elem_of_In.
Qed.

Lemma map_insert_Forall {V} (P : string * V -> Prop) k v l :
  P (k, v) -> Forall P l -> Forall P (map_insert k v l).
Proof.
  intros Hv Hl. induction Hl as [|[k' v'] l Hk Hl IH]; simpl; [by repeat constructor|].
  destruct (String.eqb k k'); [by constructor|]. destruct (string_ltb k k'); by repeat constructor.
Qed.

Lemma map_set_keys {V} k (v : V) l : map fst (map_set k v l) = map fst l.
Proof.
  induction l as [|[k' v'] l IH]; simpl; [done|].
  destruct (String.eqb k k'); simpl; [done|]. by rewrite IH.
Qed.

Lemma map_set_Forall {V} (P : V -> Prop) k v (l : list (string * V)) :
  P v -> Forall (fun nr => P (snd nr)) l -> Forall (fun nr => P (snd nr)) (map_set k v l).
Proof.
  intros Hv Hl. induction Hl as [|[k' v'] l Hk Hl IH]; simpl; [constructor|].
  destruct (String.eqb k k'); by constructor.
Qed.

(** A carrier's route is used: the tables stay well-formed. *)
Lemma use_route_ok carrier route i :
  config_ok i -> (carrier, route) ∈ m_mapTerminationCarrierByName i ->
  exists t i', use_route carrier route i = Ok (t, carrier, m_chargeNumber route, i') /\ config_ok i' /\
    t ∈ schedule (m_vecTrunks route) /\
    m_vecTerminationCarrier i' = m_vecTerminationCarrier i /\
    m_nCurrentTerminationCarrier i' = m_nCurrentTerminationCarrier i /\
    map fst (m_mapTerminationCarrierByName i') = map fst (m_mapTerminationCarrierByName i).
Proof.
  intros (Hr & Hs & Hn & Hc) Hin.
  assert (route_ok route) as Hrok by (rewrite Forall_forall in Hr; by apply (Hr _ Hin)).
  destruct (getNextTrunk_step route Hrok) as (t & r' & E & Hok & _ & _ & Ht & _).
  unfold use_route. rewrite E. eexists t, _. split; [reflexivity|].
  split.
  { split; [by apply (map_set_Forall route_ok)|]. cbn. rewrite map_set_keys. done. }
  split; [by eapply list_elem_of_lookup_2|]. split; [done|]. split; [done|]. apply map_set_keys.
Qed.

Lemma getTerminationRoute_step i :
  config_ok i -> m_vecTerminationCarrier i <> [] ->
  Z.of_nat (length (m_vecTerminationCarrier i)) < 2^32 ->
  exists t carrier charge i',
    getTerminationRoute i = Ok (Some (t, carrier, charge), i') /\ config_ok i' /\
    m_vecTerminationCarrier i' = m_vecTerminationCarrier i /\
    m_vecTerminationCarrier i !! Z.to_nat (m_nCurrentTerminationCarrier i) = Some carrier /\
    m_nCurrentTerminationCarrier i' =
      (m_nCurrentTerminationCarrier i + 1) `mod` Z.of_nat (length (m_vecTerminationCarrier i)).
Proof.
  intros Hok Hne Hl. pose proof Hok as (Hr & Hs & Hn & Hc & Hlt). specialize (Hlt Hne).
  unfold getTerminationRoute, mbind, M_bind, gets, modify, mret, M_ret, fail. simpl.
  destruct (length (m_vecTerminationCarrier i)) as [|len] eqn:El; [by apply nil_length_inv in El|]. simpl.
  destruct (lookup_lt_is_Some_2 (m_vecTerminationCarrier i) (Z.to_nat (m_nCurrentTerminationCarrier i)))
    as [carrier Hcar]; [rewrite El; lia|]. rewrite Hcar.
  rewrite Forall_lookup in Hn. destruct (find_key_is_Some _ _ (Hn _ _ Hcar)) as [route Hroute].
  rewrite Hroute. destruct (use_route_ok carrier route i Hok (find_key_in _ _ _ Hroute))
    as (t & i' & -> & Hok' & _ & Hv & Hcur & Hkeys).
  eexists t, carrier, _, _. split; [reflexivity|].
  assert (wrap32 (m_nCurrentTerminationCarrier i + 1) = m_nCurrentTerminationCarrier i + 1) as Hw
    by (apply wrap32_small; unfold is_u32; lia).
  destruct Hok' as (H1 & H2 & H3 & H4 & H5). cbn. rewrite Hv, Hcur, Hw in *.
  change (Z.pos (Pos.of_succ_nat len)) with (Z.of_nat (S len)).
  split; [|split; [done|split; [done|]]].
  - split; [done|]. split; [done|]. cbn. split; [done|]. rewrite El in *.
    destruct (Z.leb_spec (Z.of_nat (S len)) (m_nCurrentTerminationCarrier i + 1)); lia.
  - destruct (Z.leb_spec (Z.of_nat (S len)) (m_nCurrentTerminationCarrier i + 1)) as [H|H].
    + replace (m_nCurrentTerminationCarrier i + 1) with (Z.of_nat (S len)) by lia. by rewrite Z.mod_same by lia.
    + by rewrite Z.mod_small by lia.
Qed.

(** *** The constructor keeps an invariant *)

Section CKeeps.
Context (I : Impl -> Prop).

Lemma ckeeps_ret {A} (a : A) : ckeeps I (mret a).
Proof. by intros i. Qed.

Lemma ckeeps_bind {A B} (m : C A) (f : A -> C B) :
  ckeeps I m -> (forall a, ckeeps I (f a)) -> ckeeps I (m ≫= f).
Proof.
  intros Hm Hf i Hi. unfold mbind, C_bind. specialize (Hm i Hi).
  destruct (m i) as [i' [a| |]]; [by apply Hf|done|done].
Qed.

Lemma ckeeps_read {A} (f : Impl -> A) : ckeeps I (read_ f).
Proof. by intros i. Qed.
Lemma ckeeps_return {A} : ckeeps I (return_ (A := A)).
Proof. by intros i. Qed.
Lemma ckeeps_throw {A} : ckeeps I (throw_ (A := A)).
Proof. by intros i. Qed.

Lemma ckeeps_try m : ckeeps I m -> ckeeps I (try_ m).
Proof. intros Hm i Hi. unfold try_. specialize (Hm i Hi). by destruct (m i) as [i' [| |]]. Qed.

Lemma ckeeps_foreach {A} (l : list A) (body : A -> C unit) :
  (forall a, a ∈ l -> ckeeps I (body a)) -> ckeeps I (foreach l body).
Proof.
  induction l as [|a l IH]; intros H; simpl; [apply ckeeps_ret|].
  apply ckeeps_bind; [apply H; left|]. intros _. apply IH. intros b Hb. apply H. by right.
Qed.

Lemma ckeeps_get_child p t : ckeeps I (get_child p t).
Proof. unfold get_child. destruct (get_child_optional p t); [apply ckeeps_ret|apply ckeeps_throw]. Qed.

Lemma ckeeps_with_child {A} p v (f : ptree -> C A) :
  (forall t, get_child_optional p v = Some t -> ckeeps I (f t)) -> ckeeps I (get_child p v ≫= f).
Proof.
  intros H i Hi. unfold get_child. destruct (get_child_optional p v) eqn:E; [by apply H|done].
Qed.

Lemma ckeeps_get_string p t : ckeeps I (get_string_ p t).
Proof. apply ckeeps_bind; [apply ckeeps_get_child|]. intros. apply ckeeps_ret. Qed.

Lemma ckeeps_attribute v n : ckeeps I (attribute_or_return v n).
Proof. unfold attribute_or_return. destruct (getXmlAttribute v n); [apply ckeeps_ret|apply ckeeps_return]. Qed.

Lemma ckeeps_if {A} (b : bool) (m n : C A) : ckeeps I m -> ckeeps I n -> ckeeps I (if b then m else n).
Proof. by destruct b. Qed.

Lemma ckeeps_insert_new {V} (field : Impl -> gmap string V) `{!Updater field} k (v : V) :
  (forall i m, I i -> I (i <| field := m |>)) -> ckeeps I (insert_new field k v).
Proof.
  intros H. unfold insert_new. apply ckeeps_bind; [apply ckeeps_read|]. intros m.
  destruct (m !! k); [apply ckeeps_return|]. intros i Hi. by apply H.
Qed.
End CKeeps.

(** A child has what holds of the tree at every depth. *)
Lemma small_children d c : small (PT d c) <-> Z.of_nat (length c) < 2^32 /\ Forall (fun v => small (snd v)) c.
Proof.
  simpl. apply and_iff_compat_l. induction c as [|[k t] c IH]; [by split|].
  rewrite IH. rewrite Forall_cons. done.
Qed.

Lemma small_find key l t : Forall (fun v => small (snd v)) l -> find_child key l = Some t -> small t.
Proof.
  induction 1 as [|[k t'] l H _ IH]; simpl; [done|]. destruct (String.eqb k key); [by intros [= <-]|done].
Qed.

Lemma small_walk p : forall t t', small t -> walk_path p t = Some t' -> small t'.
Proof.
  induction p as [|k p IH]; intros t t' Ht; simpl; [by intros [= <-]|]. destruct t as [d c].
  apply small_children in Ht as [_ Ht]. simpl. destruct (find_child k c) eqn:E; [|done].
  apply IH. by eapply small_find.
Qed.

Lemma small_child_in p t t' v :
  small t -> get_child_optional p t = Some t' -> v ∈ children t' -> small (snd v).
Proof.
  intros Ht H Hv. apply small_walk in H; [|done]. destruct t' as [d c].
  apply small_children in H as [_ H]. rewrite Forall_forall in H. by apply H.
Qed.

Lemma outbound_trunks_ok n l :
  Forall (fun c => is_u32 (m_qty c) /\ m_selectCount c = 0) (outbound_trunks n l) /\
  (length (outbound_trunks n l) <= length l)%nat.
Proof.
  induction l as [|[k v] l [IH1 IH2]]; [split; [constructor|done]|]. simpl.
  destruct (String.eqb k "address"); [|split; [done|lia]].
  destruct (String.eqb _ "inactive"); [split; [done|lia]|].
  split; [|simpl; lia]. constructor; [|done]. split; [|done]. simpl. apply get_u32_range. done.
Qed.

Lemma config_ok_insert i n r qty :
  config_ok i -> m_nCurrentTerminationCarrier i = 0 -> route_ok r ->
  config_ok (i <| m_mapTerminationCarrierByName ::= map_insert n r |>
               <| m_vecTerminationCarrier ::= fun l => l ++ replicate qty n |>).
Proof.
  intros (Hr & Hs & Hn & Hc & Hlt) H0 Hok. split; [by apply map_insert_Forall|].
  split; [by apply map_insert_sorted|]. cbn. split; [|split].
  - apply Forall_app. split.
    + eapply Forall_impl; [exact Hn|]. intros x Hx. apply map_insert_keys. by right.
    + apply Forall_forall. intros x [-> _]%elem_of_replicate. apply map_insert_keys. by left.
  - rewrite H0. lia.
  - rewrite H0. intros Hne. destruct (_ ++ _); [done|simpl; lia].
Qed.

Lemma reading_set f :
  (forall i, m_mapTerminationCarrierByName (f i) = m_mapTerminationCarrierByName i /\
             m_vecTerminationCarrier (f i) = m_vecTerminationCarrier i /\
             m_nCurrentTerminationCarrier (f i) = m_nCurrentTerminationCarrier i /\
             m_bIsValid (f i) = m_bIsValid i) ->
  ckeeps reading (set_ f).
Proof.
  intros H i (Hi & H0 & Hf). simpl. destruct (H i) as (H1 & H2 & H3 & H4).
  unfold reading, config_ok in *. by rewrite H1, H2, H3, H4.
Qed.

(** Walks a computation of the constructor, down to its loops and its changes
    of the tables. *)
Ltac ckeeps := repeat lazymatch goal with
  | |- forall _, _ => intro
  | |- ckeeps _ (_ ≫= _) => apply ckeeps_bind
  | |- ckeeps _ (mret _) => apply ckeeps_ret
  | |- ckeeps _ (read_ _) => apply ckeeps_read
  | |- ckeeps _ return_ => apply ckeeps_return
  | |- ckeeps _ throw_ => apply ckeeps_throw
  | |- ckeeps _ (try_ _) => apply ckeeps_try
  | |- ckeeps _ (get_child _ _) => apply ckeeps_get_child
  | |- ckeeps _ (get_string_ _ _) => apply ckeeps_get_string
  | |- ckeeps _ (attribute_or_return _ _) => apply ckeeps_attribute
  | |- ckeeps _ (if _ then _ else _) => first [apply ckeeps_if | case_match]
  | |- ckeeps _ (insert_new _ _ _) => apply ckeeps_insert_new; by intros i m ?
  | |- ckeeps _ (set_ _) => first [apply reading_set; done | by intros i ?]
  end.

Lemma reading_scalars pt : ckeeps reading (read_scalars pt).
Proof. unfold read_scalars. ckeeps. Qed.

Lemma reading_group l : forall s, ckeeps reading (group_members l s).
Proof.
  induction l as [|[k v] l IH]; intros s; simpl; ckeeps; [|apply IH].
  destruct (_ !! _); [apply IH|ckeeps].
Qed.

Lemma reading_inbound v : ckeeps reading (read_inbound v).
Proof.
  unfold read_inbound, read_appserver, read_appserver_group. ckeeps. apply reading_group.
Qed.

Lemma reading_dnis l : forall s, ckeeps reading (read_dnis l s).
Proof. induction l as [|[k v] l IH]; intros s; simpl; ckeeps; apply IH. Qed.

Lemma reading_outbound n qty charge v : small v -> ckeeps reading (read_outbound n qty charge v).
Proof.
  intros Hv. unfold read_outbound. apply ckeeps_with_child. intros t E.
  assert (Z.of_nat (length (children t)) < 2^32) as Hc.
  { apply small_walk in E; [|done]. destruct t. by apply small_children in E as [? _]. }
  destruct (outbound_trunks_ok n (children t)) as [Hq Hl].
  intros i (Hi & H0 & Hf). unfold mbind, C_bind, mret, C_ret. cbv beta iota zeta.
  destruct (length (outbound_trunks n (children t))) as [|k] eqn:El; [by split_and!|].
  split; [|by split]. apply config_ok_insert; [done|done|].
  apply new_TerminationRoute_ok; [lia|lia|done].
Qed.

Lemma reading_carrier v : small v -> ckeeps reading (read_carrier v).
Proof.
  intros Hv. unfold read_carrier. ckeeps.
  - apply ckeeps_foreach. intros v2 _. unfold read_inbound_address. ckeeps.
  - by apply reading_outbound.
Qed.

Lemma reading_tree pt : small pt -> ckeeps reading (read_tree pt).
Proof.
  intros Hs. unfold read_tree. apply ckeeps_bind; [apply reading_scalars|]. intros _.
  apply ckeeps_bind; [apply ckeeps_get_child|]. intros inbound.
  apply ckeeps_bind; [apply ckeeps_foreach; intros; apply reading_inbound|]. intros _.
  apply ckeeps_with_child. intros t E.
  apply ckeeps_foreach. intros v Hv.
  unfold read_element. ckeeps; [|apply reading_carrier; by eapply small_child_in].
  unfold read_dnis_list. ckeeps. apply reading_dnis.
Qed.

Lemma read_config_result pt i :
  small pt -> reading i ->
  let i' := fst (read_config pt i) in
  config_ok i' /\ m_nCurrentTerminationCarrier i' = 0 /\
  (m_bIsValid i' = true -> m_vecTerminationCarrier i' <> [] /\ m_mapAppserver i' <> ∅).
Proof.
  intros Hs Hi. pose proof (reading_tree pt Hs i Hi) as H.
  unfold read_config, mbind, C_bind. destruct (read_tree pt i) as [i1 [[]| |]]; simpl in H;
    destruct H as (Hok & H0 & Hf);
    [|simpl; split; [done|]; split; [done|]; rewrite Hf; done..].
  unfold read_, return_, mret, C_ret, set_. simpl.
  destruct (length (m_vecTerminationCarrier i1)) eqn:El; simpl.
  { split; [done|]. split; [done|]. by rewrite Hf. }
  destruct (decide (m_mapAppserver i1 = ∅)); simpl.
  { split; [done|]. split; [done|]. by rewrite Hf. }
  split; [done|]. split; [done|]. intros _. split; [|done]. by intros E; rewrite E in El.
Qed.

Lemma reading_initial junk : reading (initial junk).
Proof. repeat split; simpl; try constructor; lia || done. Qed.

Lemma new_Impl_result (open_file : string -> option string) (read_xml : string -> option ptree)
    (junk : Impl) (szFilename : string) :
  (forall text pt, read_xml text = Some pt -> small pt) ->
  let i := new_Impl open_file read_xml junk szFilename in
  config_ok i /\ m_nCurrentTerminationCarrier i = 0 /\
  (m_bIsValid i = true -> m_vecTerminationCarrier i <> [] /\ m_mapAppserver i <> ∅).
Proof.
  intros Hsmall i. unfold i, new_Impl. pose proof (reading_initial junk) as Hi.
  assert (config_ok (initial junk) /\ m_nCurrentTerminationCarrier (initial junk) = 0 /\
    (m_bIsValid (initial junk) = true -> m_vecTerminationCarrier (initial junk) <> [] /\
     m_mapAppserver (initial junk) <> ∅)) as H by (split; [apply Hi|by split]).
  destruct (open_file szFilename) as [text|]; [|done].
  destruct (read_xml text) as [pt|] eqn:E; [|done].
  apply read_config_result; [by eapply Hsmall|done].
Qed.

(** ** Properties *)


Lemma small_example : small (example_pt example_carriers).
Proof. vm_compute. repeat split; discriminate || reflexivity. Qed.


(** C20: The carriers are used in turn.  From any state the tables can be in,
    n calls of [getTerminationRoute] neither throw nor fail an assertion, all
    succeed, and name the next n carriers of the sequence (each carrier
    [qty] times), cyclically. *)
Theorem carriers_in_turn (n : nat) (i : Impl) :
  config_ok i -> m_vecTerminationCarrier i <> [] ->
  Z.of_nat (length (m_vecTerminationCarrier i)) < 2^32 ->
  exists rs i', routes n i = Ok (rs, i') /\ config_ok i' /\
    map carrier_of rs =
    map (fun k => m_vecTerminationCarrier i !!
          Z.to_nat ((m_nCurrentTerminationCarrier i + k) `mod` Z.of_nat (length (m_vecTerminationCarrier i))))
      (seqZ 0 (Z.of_nat n)).
Proof.
  revert i. induction n as [|n IH]; intros i Hok Hne Hl; [by exists [], i|].
  destruct (getTerminationRoute_step i Hok Hne Hl) as (t & c & g & i1 & E & Hok1 & Hv & Hc & Hcur).
  destruct (IH i1) as (rs & i2 & E2 & Hok2 & Hrs); [done|by rewrite Hv..|].
  exists (Some (t, c, g) :: rs), i2. simpl routes. unfold mbind, M_bind. rewrite E, E2.
  split; [done|]. split; [done|].
  destruct Hok as (_ & _ & _ & Hrange & Hlt). specialize (Hlt Hne).
  rewrite seqZ_cons by lia. simpl. f_equal.
  { by rewrite Z.add_0_r, Z.mod_small, Hc by lia. }
  etransitivity; [exact Hrs|]. rewrite Hv, Hcur. replace (Z.pred (Z.of_nat (S n))) with (Z.of_nat n) by lia.
  replace (Z.succ 0) with (1 + 0) by lia. rewrite <- (fmap_add_seqZ 1 0 (Z.of_nat n)).
  rewrite map_map. apply map_ext. intros k. f_equal. f_equal.
  rewrite Z.add_mod_idemp_l by lia. f_equal. lia.
Qed.

Lemma load_ok : config_ok (load (example_pt example_carriers)).
Proof.
  pose proof (reading_initial junk0) as Hi.
  exact (proj1 (read_config_result (example_pt example_carriers) _ small_example Hi)).
Qed.

Lemma carriers_in_turn_witness :
  exists rs i', routes 6 (load (example_pt example_carriers)) = Ok (rs, i') /\
    map carrier_of rs = map Some ["level3"; "level3"; "intermetro"; "intermetro"; "intermetro"; "level3"].
Proof.
  destruct (carriers_in_turn 6 (load (example_pt example_carriers))) as (rs & i' & H1 & _ & H2).
  - exact load_ok.
  - vm_compute. discriminate.
  - vm_compute. reflexivity.
  - exists rs, i'. split; [exact H1|]. rewrite H2. vm_compute. reflexivity.
Defined.

(** C22: Retrying with another carrier.  When some carrier with trunks has
    another name than the failed one, the retry gets a trunk of the first such
    carrier in name order: never the failed carrier's, and of three or more
    carriers only the first two in name order can ever be chosen.  Otherwise it
    gets what [getTerminationRoute] would give.  The tables stay
    well-formed. *)
Theorem alt_carrier (i : Impl) (failedCarrier : string) :
  config_ok i ->
  if decide (Exists (fun n => n <> failedCarrier) (map fst (m_mapTerminationCarrierByName i))) then
    exists t carrier charge i',
      getTerminationRouteForAltCarrier failedCarrier i = Ok (Some (t, carrier, charge), i') /\
      config_ok i' /\ carrier <> failedCarrier /\
      (forall n, n ∈ map fst (m_mapTerminationCarrierByName i) -> n <> failedCarrier ->
                 n = carrier \/ string_ltb carrier n = true) /\
      exists route, (carrier, route) ∈ m_mapTerminationCarrierByName i /\ t ∈ schedule (m_vecTrunks route)
  else getTerminationRouteForAltCarrier failedCarrier i = getTerminationRoute i.
Proof.
  intros Hok. unfold getTerminationRouteForAltCarrier, mbind, M_bind, gets.
  pose proof (find_other_spec failedCarrier (m_mapTerminationCarrierByName i)) as H.
  destruct (find_other failedCarrier _) as [[n r]|].
  - destruct H as (Hne & Hin & Hmin). destruct (decide _) as [_|Hno].
    2:{ exfalso. apply Hno. apply Exists_exists. exists n. split; [|done].
        apply list_elem_of_In, in_map_iff. exists (n, r). split; [done|]. by apply list_elem_of_In. }
    destruct (use_route_ok n r i Hok Hin) as (t & i' & -> & Hok' & Ht & _).
    exists t, n, (m_chargeNumber r), i'. split; [done|]. split; [done|]. split; [done|].
    split; [by apply Hmin, Hok|eauto].
  - destruct (decide _) as [He|_]; [|done]. exfalso. apply Exists_exists in He as (n & Hn & Hne).
    apply list_elem_of_In, in_map_iff in Hn as ([n' r] & <- & Hin%list_elem_of_In).
    rewrite Forall_forall in H. by apply Hne, (H _ Hin).
Qed.

Lemma alt_carrier_witness :
  exists t charge i', getTerminationRouteForAltCarrier "intermetro" (load (example_pt example_carriers))
    = Ok (Some (t, "level3", charge), i').
Proof.
  pose proof (alt_carrier (load (example_pt example_carriers)) "intermetro" load_ok) as H.
  destruct (decide _) as [_|Hno].
  - destruct H as (t & c & g & i' & H & _ & Hne & Hmin & _).
    exists t, g, i'. rewrite H. repeat f_equal. destruct (Hmin "level3") as [E|E].
    + vm_compute. right. left.
    + discriminate.
    + symmetry. exact E.
    + exfalso. vm_compute in H. injection H as _ <- _ _. discriminate.
  - exfalso. apply Hno. vm_compute. right. left. discriminate.
Defined.

(** *** What the scalar members are *)

Lemma read_scalars_spec pt i :
  m_agent_mode i = agent_mode_stateless -> m_bIsActive i = true ->
  exists i', read_scalars pt i = (i', Next tt) /\ scalars_of pt i'.
Proof.
  intros Ha Hb. unfold read_scalars, mbind, C_bind, try_, get_string_, get_child, read_, set_, mret, C_ret, throw_.
  unfold mbind, C_bind, scalars_of, mret, C_ret, throw_.
  destruct (get_child_optional "ssp.stats" pt); destruct (String.eqb (get_string "ssp.sip.agent-mode" _ _) _);
    destruct (String.eqb (get_string "ssp.sip.<xmlattr>.status" _ _) _);
    (eexists; split; [reflexivity|]); simpl; by rewrite ?Ha, ?Hb.
Qed.

Lemma scalars_group pt l : forall s, ckeeps (scalars_of pt) (group_members l s).
Proof.
  induction l as [|[k v] l IH]; intros s; simpl; ckeeps; [|apply IH].
  destruct (_ !! _); [apply IH|ckeeps].
Qed.

Lemma scalars_dnis pt l : forall s, ckeeps (scalars_of pt) (read_dnis l s).
Proof. induction l as [|[k v] l IH]; intros s; simpl; ckeeps; apply IH. Qed.

Lemma scalars_element pt v : ckeeps (scalars_of pt) (read_element v).
Proof.
  unfold read_element, read_dnis_list, read_carrier, read_outbound. ckeeps; [apply scalars_dnis|].
  apply ckeeps_foreach. intros v2 _. unfold read_inbound_address. ckeeps.
Qed.

Lemma scalars_inbound pt v : ckeeps (scalars_of pt) (read_inbound v).
Proof. unfold read_inbound, read_appserver, read_appserver_group. ckeeps. apply scalars_group. Qed.

Lemma scalars_config pt : ckeeps (scalars_of pt) (
  inbound ← get_child "ssp.inbound" pt;
  foreach (children inbound) read_inbound;;
  ssp ← get_child "ssp" pt;
  foreach (children ssp) read_element).
Proof.
  ckeeps; apply ckeeps_foreach; intros; [apply scalars_inbound|apply scalars_element].
Qed.

(** The scalar settings.  Whatever else the file holds, valid or not, each
    of them is the text at its path, or its default; among them the port of
    the syslog server, which is read from the element with the server's
    ADDRESS, so that it is 516 unless the address happens to be a number. *)
Theorem scalars_read (open_file : string -> option string) (read_xml : string -> option ptree)
    (junk : Impl) (szFilename text : string) (pt : ptree) :
  open_file szFilename = Some text -> read_xml text = Some pt ->
  let i := new_Impl open_file read_xml junk szFilename in
  scalars_of pt i /\
  (stream_u32 (get_string "ssp.logging.syslog.address" "localhost" pt) = None -> m_sysLogPort i = 516).
Proof.
  intros Ho Hx i. unfold i, new_Impl. rewrite Ho, Hx.
  assert (scalars_of pt (fst (read_config pt (initial junk)))) as H.
  { unfold read_config, read_tree. destruct (read_scalars_spec pt (initial junk)) as (i1 & E & H1); [done..|].
    pose proof (scalars_config pt i1 H1) as H2.
    unfold mbind, C_bind in *. rewrite E.
    destruct ((let '(i, c) := get_child "ssp.inbound" pt i1 in _) : Impl * control unit) as [i2 [[]| |]];
      [|done..]. simpl in H2.
    unfold read_, return_, mret, C_ret, set_. simpl.
    destruct (length _); [done|]. simpl. destruct (decide _); done. }
  split; [done|]. destruct H as (_ & _ & _ & _ & _ & _ & _ & _ & _ & _ & H & _). rewrite H.
  unfold get_string, get_u32, get_or, get_optional. destruct (get_child_optional _ pt); [|done].
  simpl. by intros ->.
Qed.

Lemma scalars_read_witness :
  m_sysLogPort (load (example_pt example_carriers)) = 516.
Proof.
  apply (scalars_read (fun _ => Some EmptyString) (fun _ => Some (example_pt example_carriers)) junk0
           "ssp.conf.xml" EmptyString (example_pt example_carriers)); vm_compute; reflexivity.
Defined.

(** *** Customers and application servers *)

Section IterationProperties.
Context (iteration : forall V, gmap string V -> list (string * V)).
Context (iteration_law : forall V (m : gmap string V), Permutation (iteration V m) (map_to_list m)).

Lemma elem_of_iteration V (m : gmap string V) k v : (k, v) ∈ iteration V m <-> m !! k = Some v.
Proof. rewrite <- elem_of_map_to_list. by rewrite (iteration_law V m). Qed.

Lemma getCustomer_sound dnis i c :
  getCustomer iteration dnis i = Some c ->
  exists s d, m_mapCustomerDnis i !! c = Some s /\ d ∈ s /\ Dnis_matchesOrContains d (new_Dnis dnis) = true.
Proof.
  unfold getCustomer. destruct (List.find _ _) as [[c' s]|] eqn:E; [|done]. intros [= <-].
  apply List.find_some in E as [Hin (d & Hd & Hm)%existsb_exists].
  apply list_elem_of_In, elem_of_iteration in Hin. exists s, d. by rewrite list_elem_of_In.
Qed.

Lemma getCustomer_none dnis i :
  getCustomer iteration dnis i = None ->
  forall c s d, m_mapCustomerDnis i !! c = Some s -> d ∈ s -> Dnis_matchesOrContains d (new_Dnis dnis) = false.
Proof.
  unfold getCustomer. destruct (List.find _ _) as [[c' s']|] eqn:E; [done|]. intros _ c s d Hc Hd.
  apply not_true_iff_false. intros Hm.
  assert (existsb (fun d => Dnis_matchesOrContains d (new_Dnis dnis)) s = true) as Hs.
  { apply existsb_exists. exists d. by rewrite <- list_elem_of_In. }
  pose proof (List.find_none _ _ E (c, s)) as Hno. simpl in Hno. rewrite Hno in Hs; [done|].
  apply list_elem_of_In. by apply elem_of_iteration.
Qed.
End IterationProperties.

(** The customer of a number.  A customer is found iff one has a number or
    block that matches; the one found has; and when only one customer has, it
    is the one found, in whatever order the hash map is iterated. *)
Theorem getCustomer_spec (iteration : forall V, gmap string V -> list (string * V)) (dnis : string) (i : Impl) :
  (forall V (m : gmap string V), Permutation (iteration V m) (map_to_list m)) ->
  let has c := exists s d, m_mapCustomerDnis i !! c = Some s /\ d ∈ s /\
                           Dnis_matchesOrContains d (new_Dnis dnis) = true in
  (getCustomer iteration dnis i = None <-> forall c, ~ has c) /\
  (forall c, getCustomer iteration dnis i = Some c -> has c) /\
  (forall c, has c -> (forall c', has c' -> c' = c) -> getCustomer iteration dnis i = Some c).
Proof.
  intros Hlaw has.
  assert (forall c, getCustomer iteration dnis i = Some c -> has c) as Hs
    by (intros c; by apply getCustomer_sound).
  assert (getCustomer iteration dnis i = None <-> forall c, ~ has c) as Hn.
  { split.
    - intros E c (s & d & H1 & H2 & H3). rewrite (getCustomer_none iteration Hlaw dnis i E c s d) in H3; done.
    - intros H. destruct (getCustomer iteration dnis i) as [c|] eqn:E; [|done]. by destruct (H c (Hs c eq_refl)). }
  split; [done|]. split; [done|]. intros c Hc Huniq.
  destruct (getCustomer iteration dnis i) as [c'|] eqn:E; [by rewrite (Huniq c' (Hs c' eq_refl))|].
  by destruct (proj1 Hn eq_refl c).
Qed.

Lemma getCustomer_spec_witness :
  getCustomer (fun V m => map_to_list m) "6175551234"
    (junk0 <| m_mapCustomerDnis := {[ "acme" := [new_Dnis_block "6175551200" "6175551299"] ]} |>) = Some "acme".
Proof.
  refine (proj2 (proj2 (getCustomer_spec (fun V m => map_to_list m) "6175551234"
    (junk0 <| m_mapCustomerDnis := {[ "acme" := [new_Dnis_block "6175551200" "6175551299"] ]} |>)
    (fun V m => Permutation_refl _))) "acme" _ _).
  - exists [new_Dnis_block "6175551200" "6175551299"], (new_Dnis_block "6175551200" "6175551299").
    split; [reflexivity|]. split; [left|vm_compute; reflexivity].
  - intros c (s & d & H & _).
    assert (({[ "acme" := [new_Dnis_block "6175551200" "6175551299"] ]} : gmap string (list Dnis_t)) !! c
            = Some s) as H' by exact H.
    apply lookup_singleton_Some in H' as [H' _]. symmetry. exact H'.
Defined.
