(* ===== verification/Routes.v ===== *)
(** * Routes: what the call handling relies on from the configuration

    The operations of [SspConfig] that [SipLbController] calls while it handles
    calls, as a type class with their contract, and the instance that the model
    of [ssp-config.cpp] gives. *)

From S2P Require Import Prelude Text Sip Ssp PropertyTree Routing SspConfig.

(** ** The interface

    A route is the address of a trunk, the name of its carrier and the charge
    number.  In a well-formed configuration asking for a route returns, leaves
    the configuration well-formed, and an address is of a bounded length. *)

Definition route : Type := string * string * string.

Definition gives_route {C} (ok : C -> Prop) (m : M C (option route)) : Prop :=
  forall c, ok c -> exists r c', m c = Ok (r, c') /\ ok c' /\
    match r with Some (address, _, _) => length_ address <= ADDRESS_MAX | None => True end.

Class CallRoutes (C : Type) := {
  routes_getCarrier : string -> C -> option string;
  routes_isActive : C -> bool;
  routes_sessionTimer : C -> Z;
  routes_anonymous : C -> option string;
  routes_next : M C (option route);
  routes_alt : string -> M C (option route);
  routes_for : string -> M C (option route);
  routes_ok : C -> Prop;
  routes_next_ok : gives_route routes_ok routes_next;
  routes_alt_ok : forall failed, gives_route routes_ok (routes_alt failed);
  routes_for_ok : forall carrier, gives_route routes_ok (routes_for carrier)
}.

(** ** The instance *)

Definition short_route (r : TerminationRoute_t) : Prop :=
  Forall (fun t => length_ t <= ADDRESS_MAX) (schedule (m_vecTrunks r)).

Definition impl_ok (i : Impl) : Prop :=
  config_ok i /\ Z.of_nat (length (m_vecTerminationCarrier i)) < 2^32 /\
  Forall (fun nr => short_route (snd nr)) (m_mapTerminationCarrierByName i).

(** ** Lemmas *)

Lemma use_route_impl carrier r i :
  impl_ok i -> (carrier, r) ∈ m_mapTerminationCarrierByName i ->
  exists t i', use_route carrier r i = Ok (t, carrier, m_chargeNumber r, i') /\ impl_ok i' /\
    length_ t <= ADDRESS_MAX /\
    m_vecTerminationCarrier i' = m_vecTerminationCarrier i /\
    m_nCurrentTerminationCarrier i' = m_nCurrentTerminationCarrier i.
Proof.
  intros (Hok & Hl & Hs) Hin.
  assert (route_ok r) as Hr by (destruct Hok as [Hr _]; rewrite Forall_forall in Hr; by apply (Hr _ Hin)).
  assert (short_route r) as Hsr by (rewrite Forall_forall in Hs; by apply (Hs _ Hin)).
  destruct (use_route_ok carrier r i Hok Hin) as (t & i' & E & Hok' & Ht & Hv & Hc & _).
  exists t, i'. split; [done|]. split; [|split; [|done]].
  - split; [done|]. rewrite Hv. split; [done|].
    unfold use_route in E. destruct (getNextTrunk_step r Hr) as (t' & r' & E' & _ & _ & Hkey & _).
    rewrite E' in E. injection E as <- <-. apply (map_set_Forall short_route); [|done].
    unfold short_route. by rewrite (schedule_same_all _ _ Hkey).
  - unfold short_route in Hsr. rewrite Forall_forall in Hsr. by apply Hsr.
Qed.

Lemma next_impl : gives_route impl_ok getTerminationRoute.
Proof.
  intros i Hi. pose proof Hi as (Hok & Hl & Hs).
  destruct (decide (m_vecTerminationCarrier i = [])) as [Hnil|Hne].
  { exists None, i. split; [|done]. unfold getTerminationRoute, mbind, M_bind, gets. by rewrite Hnil. }
  destruct (getTerminationRoute_step i Hok Hne Hl) as (t & n & ch & i' & E & Hok' & Hv & Hn & _).
  exists (Some (t, n, ch)), i'. split; [done|].
  unfold getTerminationRoute, mbind, M_bind, gets in E.
  destruct (length (m_vecTerminationCarrier i) =? 0)%nat; [done|]. rewrite Hn in E.
  destruct (find_key n _) as [r|] eqn:Er; [|done].
  destruct (use_route_impl n r i Hi (find_key_in _ _ _ Er)) as (t' & i1 & E1 & (Hok1 & Hl1 & Hs1) & Ht & _).
  rewrite E1 in E. injection E as <- <- <-. split; [|done].
  split; [done|]. by split.
Qed.

Lemma for_impl carrier : gives_route impl_ok (getTerminationRouteForCarrier carrier).
Proof.
  intros i Hi. unfold getTerminationRouteForCarrier, mbind, M_bind, gets.
  destruct (find_key carrier _) as [r|] eqn:Er; [|by exists None, i].
  destruct (use_route_impl carrier r i Hi (find_key_in _ _ _ Er)) as (t & i1 & -> & Hi1 & Ht & _).
  by eexists _, _.
Qed.

Lemma alt_impl failed : gives_route impl_ok (getTerminationRouteForAltCarrier failed).
Proof.
  intros i Hi. unfold getTerminationRouteForAltCarrier, mbind, M_bind, gets.
  pose proof (find_other_spec failed (m_mapTerminationCarrierByName i)) as H.
  destruct (find_other failed _) as [[n r]|]; [|by apply next_impl].
  destruct H as (_ & Hin & _). destruct (use_route_impl n r i Hi Hin) as (t & i1 & -> & Hi1 & Ht & _).
  by eexists _, _.
Qed.

#[export] Instance config_routes : CallRoutes Impl := {|
  routes_getCarrier := getCarrier;
  routes_isActive := m_bIsActive;
  routes_sessionTimer := m_nOriginationSessionTimer;
  routes_anonymous := getAnonymousCallRouting;
  routes_next := getTerminationRoute;
  routes_alt := getTerminationRouteForAltCarrier;
  routes_for := getTerminationRouteForCarrier;
  routes_ok := impl_ok;
  routes_next_ok := next_impl;
  routes_alt_ok := alt_impl;
  routes_for_ok := for_impl
|}.
