(* ===== verification/Stateless.v ===== *)
(** * Stateless: the proxy in stateless mode

    [SipInboundCall] ([sip-inbound-call.h], [.cpp]), [statelessCallback],
    [setCompleted] and the stateless half of [processWatchdogTimer]
    ([ssp-controller.cpp]).  A message is what these functions look at in it;
    the results of [nta_msg_tsend] and the time of day are inputs; the pool of
    servers is used through its interface.  [message_ok] is what is expected of
    a message: the callback then returns and keeps its tables well-formed. *)

From S2P Require Import Prelude Text Sip FsMessage FsInstance FsMonitor.

(** ** Data *)

(** A message: a request with its method, or a response with its status; the
    call id; the user part of the To header, which may be missing; the method
    of the CSeq header. *)
Inductive start_line := Request (rq_method : sip_method) | Response (st_status : Z).

Record sip_msg := mkSip {
  sip_start : start_line;
  i_id : string;
  to_user : option string;
  cs_method : sip_method
}.

Definition MAX_RETRANSMISSION_WAIT : Z := 8.

(** [time_t] values are assumed not to overflow. *)
Record SipInboundCall := mkCall {
  m_strCallId : string;
  m_strDestUrl : string;
  m_latestStatus : Z;
  m_bComplete : bool;
  m_expireTime : Z
}.

#[export] Instance SipInboundCall_rebuild : Rebuild SipInboundCall := fun c =>
  mkCall (m_strCallId c) (m_strDestUrl c) (m_latestStatus c) (m_bComplete c) (m_expireTime c).

Definition new_SipInboundCall (strCallId szDestUrl : string) : SipInboundCall :=
  mkCall strCallId szDestUrl 0 false 0.

Definition updateExpireTime (now : Z) (c : SipInboundCall) : SipInboundCall :=
  c <| m_expireTime := now + MAX_RETRANSMISSION_WAIT |>.

(** [SipInboundCall::setCompleted]. *)
Definition call_setCompleted (now : Z) (c : SipInboundCall) : SipInboundCall :=
  updateExpireTime now (c <| m_bComplete := true |>).

Definition setLatestStatus (status : Z) (c : SipInboundCall) : SipInboundCall :=
  c <| m_latestStatus := status |>.

(** What the callback has the SIP stack do with the message. *)
Inductive sip_action :=
| Forward (url : string)
| Treply (status : Z)
| Discard
| SendResponse.

Record St (P : Type) := mkSt {
  m_mapInvitesInProgress : gmap string SipInboundCall;
  m_deqCompletedCallIds : list string;
  m_nIterationCount : Z;
  m_active : bool;
  m_fsMonitor : P;
  m_sent : list sip_action;
  m_counter : Z;
  m_running : bool
}.
Arguments mkSt {P}.
Arguments m_mapInvitesInProgress {P}.
Arguments m_deqCompletedCallIds {P}.
Arguments m_nIterationCount {P}.
Arguments m_active {P}.
Arguments m_fsMonitor {P}.
Arguments m_sent {P}.
Arguments m_counter {P}.
Arguments m_running {P}.

#[export] Instance St_rebuild {P} : Rebuild (St P) := fun s =>
  mkSt (m_mapInvitesInProgress s) (m_deqCompletedCallIds s) (m_nIterationCount s) (m_active s)
    (m_fsMonitor s) (m_sent s) (m_counter s) (m_running s).

Section Controller.
Context {P : Type} {pool : ServerPool P}.
#[local] Abbreviation Ctl := (M (St P)).

Definition emit (a : sip_action) : Ctl unit := modify (fun s => s <| m_sent ::= fun l => l ++ [a] |>).

(** The call stored under an id, changed through its [shared_ptr]. *)
Definition update_call (id : string) (f : SipInboundCall -> SipInboundCall) : Ctl unit :=
  modify (fun s => s <| m_mapInvitesInProgress ::= alter f id |>).

(** [setCompleted( it )]: the iterator is dereferenced without a test. *)
Definition setCompleted (now : Z) (it : option SipInboundCall) : Ctl unit :=
  match it with
  | None => fail PastTheEnd
  | Some iip =>
      if m_bComplete iip then mret tt
      else
        update_call (m_strCallId iip) (call_setCompleted now);;
        modify (fun s => s <| m_deqCompletedCallIds ::= fun l => l ++ [m_strCallId iip] |>)
  end.

(** The request URI of a new call; inserting a null [url_user] puts the
    stream into a failed state, and nothing more is inserted. *)
Definition invite_url (user : option string) (server : FsInstance) : string :=
  match user with
  | None => "sip:"
  | Some user => "sip:" +:+ user +:+ "@" +:+ m_strSipAddress server +:+ ":" +:+ dec (m_nSipPort server)
  end.

(** The [case sip_method_invite] of a new request. *)
Definition new_invite (sip : sip_msg) (rv : Z) : Ctl Z :=
  active ← gets m_active;
  if negb active then emit Discard;; mret 0
  else
    n ← gets m_nIterationCount;
    if n =? 0 then emit Discard;; mret 0
    else
      servers ← (fun s => match pool_get (m_fsMonitor s) with
                          | Ok (r, p) => Ok (r, s <| m_fsMonitor := p |>)
                          | Fault f => Fault f
                          end);
      match servers with
      | None => mret 486
      | Some [] => fail PastTheEnd
      | Some (server :: _) =>
          let url := invite_url (to_user sip) server in
          fits_url url;;
          emit (Forward url);;
          if negb (rv =? 0) then mret rv
          else
            modify (fun s => s <| m_mapInvitesInProgress ::= fun m =>
              match m !! i_id sip with
              | Some _ => m
              | None => <[ i_id sip := new_SipInboundCall (i_id sip) url ]> m
              end |>);;
            when (0 <? n) (modify (fun s => s <| m_nIterationCount := n - 1 |>));;
            mret 0
      end.

(** [SipLbController::statelessCallback]: [rv] is what [nta_msg_tsend]
    returns. *)
Definition statelessCallback (now : Z) (rv : Z) (sip : sip_msg) : Ctl Z :=
  it ← gets (fun s => m_mapInvitesInProgress s !! i_id sip);
  match sip_start sip with
  | Request rq_method =>
      match it with
      | Some iip =>
          update_call (i_id sip) (updateExpireTime now);;
          fits_url (m_strDestUrl iip);;
          emit (Forward (m_strDestUrl iip));;
          mret 0
      | None =>
          match rq_method with
          | sip_method_options =>
              active ← gets m_active;
              emit (if (active : bool) then Treply 200 else Discard);;
              mret 0
          | sip_method_invite => new_invite sip rv
          | sip_method_ack => setCompleted now it;; emit Discard;; mret 0
          | _ => emit Discard;; mret 0
          end
      end
  | Response status =>
      match it with
      | Some _ =>
          when (bool_decide (cs_method sip = sip_method_invite))
            (update_call (i_id sip) (setLatestStatus status);;
             it ← gets (fun s => m_mapInvitesInProgress s !! i_id sip);
             when (status =? 200) (setCompleted now it))
      | None => mret tt
      end;;
      emit SendResponse;;
      mret 0
  end.

(** The loop over the completed calls. *)
Fixpoint expire (now : Z) (deq : list string) (calls : gmap string SipInboundCall)
  : outcome (list string * gmap string SipInboundCall) :=
  match deq with
  | [] => mret ([], calls)
  | it :: deq' =>
      match calls !! it with
      | None => Fault AssertFailed
      | Some pCall =>
          if now <? m_expireTime pCall then mret (deq, calls)
          else expire now deq' (delete it calls)
      end
  end.

(** The stateless branch of [processWatchdogTimer]. *)
Definition watchdog (now : Z) : Ctl unit :=
  s ← get;
  r ← lift (expire now (m_deqCompletedCallIds s) (m_mapInvitesInProgress s));
  modify (fun s => s <| m_deqCompletedCallIds := fst r |> <| m_mapInvitesInProgress := snd r |>);;
  s ← get;
  when ((m_nIterationCount s =? 0) && (length (m_deqCompletedCallIds s) =? 0)%nat
        && bool_decide (m_mapInvitesInProgress s = ∅))
    (modify (fun s => s <| m_counter ::= fun c => c - 1 |>);;
     c ← gets m_counter;
     when (c =? 0) (modify (fun s => s <| m_running := false |>))).

(** ** Steps *)

Inductive event := EMessage (now rv : Z) (sip : sip_msg) | EWatchdog (now : Z).

Definition handle (e : event) : Ctl Z :=
  match e with
  | EMessage now rv sip => statelessCallback now rv sip
  | EWatchdog now => watchdog now;; mret 0
  end.

Definition step (s : St P) (e : event) (s' : St P) : Prop := exists r, handle e s = Ok (r, s').

(** ** Invariant: what is listed as completed is a completed call, once. *)

Definition call_ok (id : string) (c : SipInboundCall) : Prop := m_strCallId c = id.

Definition calls_ok (s : St P) : Prop :=
  map_Forall call_ok (m_mapInvitesInProgress s) /\ NoDup (m_deqCompletedCallIds s) /\
  forall id, id ∈ m_deqCompletedCallIds s <->
    exists c, m_mapInvitesInProgress s !! id = Some c /\ m_bComplete c = true.

(** A call id is bound to a destination. *)
Definition routed (id dest : string) (s : St P) : Prop :=
  exists c, m_mapInvitesInProgress s !! id = Some c /\ m_strDestUrl c = dest.

(** What makes the next message safe: the destinations in the table were
    copied into the URL buffer once, the pool is well-formed; the user part of
    a new INVITE leaves room for an address; and an ACK belongs to a call (the
    code does not look). *)
Definition url_fits (id : string) (c : SipInboundCall) : Prop := length_ (m_strDestUrl c) < URL_MAXLEN.

Definition proxy_ok (s : St P) : Prop :=
  calls_ok s /\ map_Forall url_fits (m_mapInvitesInProgress s) /\ pool_ok (m_fsMonitor s).

Definition message_ok (s : St P) (sip : sip_msg) : Prop :=
  match sip_start sip with
  | Request sip_method_ack => is_Some (m_mapInvitesInProgress s !! i_id sip)
  | Request sip_method_invite => length_ (default EmptyString (to_user sip)) + 16 + ADDRESS_MAX < URL_MAXLEN
  | _ => True
  end.

(** The start of a run. *)
Definition initial_state (p : P) (active : bool) (n : Z) : St P :=
  mkSt ∅ [] n active p [] 5 true.
End Controller.

(** ** Lemmas *)

Section Lemmas.
Context {P : Type} {pool : ServerPool P}.
#[local] Abbreviation St := (St P).

Implicit Types s : St.

(** A change of a call that keeps its id and whether it is completed. *)
Lemma calls_ok_alter id f s calls :
  calls = alter f id (m_mapInvitesInProgress s) ->
  (forall c, m_strCallId (f c) = m_strCallId c /\ m_bComplete (f c) = m_bComplete c) ->
  calls_ok s -> calls_ok (s <| m_mapInvitesInProgress := calls |>).
Proof.
  intros -> Hf (Hid & Hnd & Hc). unfold calls_ok. simpl.
  assert (forall k c, alter f id (m_mapInvitesInProgress s) !! k = Some c ->
    exists c0, m_mapInvitesInProgress s !! k = Some c0 /\ m_strCallId c = m_strCallId c0 /\
               m_bComplete c = m_bComplete c0) as Hlook.
  { intros k c H. destruct (decide (id = k)) as [->|Hne].
    - rewrite lookup_alter_eq in H. destruct (_ !! k) as [c0|]; [|done]. injection H as <-.
      exists c0. by destruct (Hf c0).
    - rewrite lookup_alter_ne in H by done. eauto. }
  split; [|split; [done|]].
  - intros k c H. destruct (Hlook k c H) as (c0 & H0 & E & _). unfold call_ok. rewrite E. by apply (Hid k).
  - intros k. rewrite Hc. split; intros (c & H & Hb).
    + destruct (decide (id = k)) as [->|Hne].
      * exists (f c). rewrite lookup_alter_eq, H. split; [done|]. by rewrite (proj2 (Hf c)).
      * exists c. by rewrite lookup_alter_ne.
    + destruct (Hlook k c H) as (c0 & H0 & _ & E). exists c0. by rewrite <- E.
Qed.

Lemma calls_ok_same s s' :
  m_mapInvitesInProgress s' = m_mapInvitesInProgress s ->
  m_deqCompletedCallIds s' = m_deqCompletedCallIds s -> calls_ok s -> calls_ok s'.
Proof. unfold calls_ok. by intros -> ->. Qed.

Lemma keeps_emit a : keeps calls_ok (emit (P := P) a).
Proof. apply keeps_modify. intros s. by apply calls_ok_same. Qed.

Lemma keeps_update id f :
  (forall c, m_strCallId (f c) = m_strCallId c /\ m_bComplete (f c) = m_bComplete c) ->
  keeps calls_ok (update_call (P := P) id f).
Proof. intros Hf. apply keeps_modify. intros s Hs. by apply (calls_ok_alter id f s). Qed.

Lemma keeps_fits url : keeps (calls_ok (P := P)) (fits_url url).
Proof. unfold fits_url. destruct (_ <? _); [apply keeps_ret|apply keeps_fail]. Qed.

Lemma keeps_update_expire now id : keeps calls_ok (update_call (P := P) id (updateExpireTime now)).
Proof. by apply keeps_update. Qed.

#[local] Hint Resolve keeps_emit keeps_fits keeps_update_expire : keeps.

(** Completing a call found in the table lists it. *)
Lemma setCompleted_ok now id s r s' :
  calls_ok s -> setCompleted now (m_mapInvitesInProgress s !! id) s = Ok (r, s') -> calls_ok s'.
Proof.
  intros Hs H. unfold setCompleted in H.
  destruct (m_mapInvitesInProgress s !! id) as [c|] eqn:E; [|done].
  destruct (m_bComplete c) eqn:Eb; [by injection H as <- <-|].
  injection H as <- <-. destruct Hs as (Hid & Hnd & Hc).
  assert (m_strCallId c = id) as Hcid by by apply (Hid id).
  rewrite Hcid. unfold calls_ok. simpl.
  assert (id ∉ m_deqCompletedCallIds s) as Hnew.
  { rewrite Hc. intros (c' & H & Hb). rewrite E in H. congruence. }
  split; [|split].
  - intros k c' H. destruct (decide (id = k)) as [->|Hne].
    + rewrite lookup_alter_eq, E in H. injection H as <-. done.
    + rewrite lookup_alter_ne in H by done. by apply (Hid k).
  - apply NoDup_app. split; [done|]. split; [|apply NoDup_singleton].
    intros x Hx ->%list_elem_of_singleton. done.
  - intros k. rewrite elem_of_app, list_elem_of_singleton, Hc.
    destruct (decide (id = k)) as [->|Hne].
    + rewrite lookup_alter_eq, E. split; [eauto|]. by right.
    + rewrite lookup_alter_ne by done. split; [by intros [?| -> ]|by left].
Qed.

Lemma new_invite_ok sip rv s r s' : m_mapInvitesInProgress s !! i_id sip = None ->
  calls_ok s -> new_invite sip rv s = Ok (r, s') -> calls_ok s'.
Proof.
  intros Hnone Hs H. unfold new_invite, mbind, M_bind, gets, emit, modify, mret, M_ret, when in H.
  destruct (m_active s); [|injection H as <- <-; by apply (calls_ok_same s)]. simpl in H.
  destruct (m_nIterationCount s =? 0); [injection H as <- <-; by apply (calls_ok_same s)|].
  destruct (pool_get (m_fsMonitor s)) as [[[[ | server l] | ] p] | ];
    [done| |injection H as <- <-; by apply (calls_ok_same s)|done].
  unfold fits_url in H. destruct (_ <? URL_MAXLEN); [|done]. simpl in H.
  destruct (rv =? 0); simpl in H; [|injection H as <- <-; by apply (calls_ok_same s)].
  rewrite Hnone in H.
  assert (calls_ok (s <| m_mapInvitesInProgress ::=
    <[ i_id sip := new_SipInboundCall (i_id sip) (invite_url (to_user sip) server) ]> |>)) as Hok.
  { destruct Hs as (Hid & Hnd & Hc). unfold calls_ok. simpl. split; [|split; [done|]].
    - by apply map_Forall_insert_2.
    - intros k. rewrite Hc. destruct (decide (i_id sip = k)) as [<-|Hne].
      + rewrite lookup_insert_eq, Hnone. split; [by intros (? & ? & _)|by intros (? & [= <-] & ?)].
      + by rewrite lookup_insert_ne. }
  destruct (0 <? m_nIterationCount s); injection H as <- <-; eapply calls_ok_same; [..|exact Hok]; done.
Qed.

Lemma statelessCallback_ok now rv sip : keeps calls_ok (statelessCallback now rv sip).
Proof.
  intros s r s' Hs H. unfold statelessCallback in H. apply M_bind_ok in H as (it & s0 & [= <- <-] & H).
  destruct (sip_start sip) as [m|status].
  - destruct (m_mapInvitesInProgress s !! i_id sip) as [c|] eqn:E; [|destruct m; try done; try (by eapply new_invite_ok)];
      (eapply keeps_elim; [|exact Hs|exact H]); eauto 10 with keeps.
  - apply M_bind_ok in H as (u & s1 & H1 & H).
    eapply keeps_elim; [| |exact H]; [eauto 10 with keeps|].
    destruct (m_mapInvitesInProgress s !! i_id sip) as [c|] eqn:E; [|by injection H1 as _ <-].
    unfold when in H1. destruct (bool_decide _); [|by injection H1 as _ <-].
    apply M_bind_ok in H1 as (u1 & s2 & H2 & H1). apply M_bind_ok in H1 as (it & s3 & [= <- <-] & H1).
    assert (calls_ok s2) as Hs2 by (by eapply keeps_update; [..|exact H2]).
    destruct (status =? 200); [by eapply setCompleted_ok|by injection H1 as _ <-].
Qed.

(** The loop removes a prefix of the list, and exactly its calls. *)
Lemma expire_spec now deq : forall calls,
  NoDup deq -> (forall id, id ∈ deq -> is_Some (calls !! id)) ->
  exists gone left, deq = gone ++ left /\
    expire now deq calls = Ok (left, foldr delete calls gone) /\
    Forall (fun id => exists c, calls !! id = Some c /\ m_expireTime c <= now) gone /\
    match left with
    | [] => True
    | id :: _ => exists c, calls !! id = Some c /\ now < m_expireTime c
    end.
Proof.
  induction deq as [|id deq IH]; intros calls Hnd Hin; [by exists [], []|]. simpl.
  apply NoDup_cons in Hnd as [Hid Hnd]. destruct (Hin id) as [c Hc]; [left|]. rewrite Hc.
  destruct (Z.ltb_spec now (m_expireTime c)).
  { exists [], (id :: deq). split; [done|]. split; [done|]. split; [constructor|eauto]. }
  destruct (IH (delete id calls)) as (gone & left & -> & E & Hg & Hl); [done| |].
  { intros k Hk. rewrite lookup_delete_ne by (intros ->; done). apply Hin. by right. }
  assert (forall k, k ∈ gone ++ left -> k <> id) as Hne by (intros k Hk ->; done).
  exists (id :: gone), left. split; [done|]. split; [rewrite E; simpl|].
  { f_equal. f_equal. clear - Hne. induction gone as [|k gone IHg]; simpl; [done|].
    rewrite IHg; [|intros j Hj; apply Hne; by right]. apply delete_delete. }
  split.
  - constructor; [eauto|]. apply Forall_forall. intros k Hk. rewrite Forall_forall in Hg.
    destruct (Hg k Hk) as (c' & H' & ?). rewrite lookup_delete_ne in H'; [eauto|].
    intros <-. apply (Hne id); [apply elem_of_app; by left|done].
  - destruct left as [|k left]; [done|]. destruct Hl as (c' & H' & ?).
    rewrite lookup_delete_ne in H'; [eauto|]. intros <-. apply (Hne id); [apply elem_of_app; right; left|done].
Qed.

Lemma lookup_foldr_delete (gone : list string) (calls : gmap string SipInboundCall) id :
  foldr delete calls gone !! id = if decide (id ∈ gone) then None else calls !! id.
Proof.
  induction gone as [|k gone IH]; [done|]. cbn [foldr].
  destruct (decide (k = id)) as [->|Hne].
  - rewrite lookup_delete_eq. destruct (decide (id ∈ id :: gone)) as [_|H]; [done|destruct H; left].
  - rewrite lookup_delete_ne, IH by done. destruct (decide (id ∈ gone)), (decide (id ∈ k :: gone)) as [H|H];
      try done; [by destruct H; right|]. by apply elem_of_cons in H as [ -> |H].
Qed.

(** What the watchdog does to a well-formed table. *)
Lemma watchdog_spec now s :
  calls_ok s ->
  exists gone left s', m_deqCompletedCallIds s = gone ++ left /\ watchdog now s = Ok (tt, s') /\
    m_deqCompletedCallIds s' = left /\
    m_mapInvitesInProgress s' = foldr delete (m_mapInvitesInProgress s) gone /\
    Forall (fun id => exists c, m_mapInvitesInProgress s !! id = Some c /\ m_expireTime c <= now) gone /\
    match left with
    | [] => True
    | id :: _ => exists c, m_mapInvitesInProgress s !! id = Some c /\ now < m_expireTime c
    end.
Proof.
  intros (Hid & Hnd & Hc).
  destruct (expire_spec now (m_deqCompletedCallIds s) (m_mapInvitesInProgress s) Hnd) as (gone & left & E & Ex & Hg & Hl).
  { intros id (c & H & _)%Hc. eauto. }
  exists gone, left. unfold watchdog, mbind, M_bind, get, lift, modify, gets, when, mret, M_ret.
  rewrite Ex. simpl. destruct (_ && _); [destruct (_ =? 0)|]; eexists; (split; [done|]); (split; [reflexivity|]); done.
Qed.

Lemma watchdog_ok now s r s' : calls_ok s -> watchdog now s = Ok (r, s') -> calls_ok s'.
Proof.
  intros Hs H. destruct (watchdog_spec now s Hs) as (gone & left & s1 & E & E1 & Hd & Hm & _).
  rewrite E1 in H. injection H as <- <-. destruct Hs as (Hid & Hnd & Hc).
  unfold calls_ok. rewrite Hd, Hm. rewrite E in *. apply NoDup_app in Hnd as (Hn1 & Hdis & Hn2).
  split; [|split; [done|]].
  - intros k c Hk. rewrite lookup_foldr_delete in Hk. case_decide; [done|]. by apply (Hid k).
  - intros k. rewrite lookup_foldr_delete. specialize (Hc k). rewrite elem_of_app in Hc.
    destruct (decide (k ∈ gone)) as [Hk|Hk]; [|tauto].
    split; [by intros ?%(Hdis k Hk)|by intros (? & ? & _)].
Qed.

Lemma step_ok s e s' : calls_ok s -> step s e s' -> calls_ok s'.
Proof.
  intros Hs [r H]. destruct e as [now rv sip|now]; simpl in H; [by eapply statelessCallback_ok|].
  apply M_bind_ok in H as ([] & s1 & H1 & [= _ <-]). by eapply watchdog_ok.
Qed.

(** No message changes the destination of a call that is in the table. *)
Lemma routed_update id dest k f :
  (forall c, m_strDestUrl (f c) = m_strDestUrl c) -> keeps (routed id dest) (update_call (P := P) k f).
Proof.
  intros Hf. apply keeps_modify. intros s (c & H & <-). unfold routed. simpl.
  destruct (decide (k = id)) as [->|Hne].
  - exists (f c). by rewrite lookup_alter_eq, H.
  - exists c. by rewrite lookup_alter_ne.
Qed.

Lemma routed_emit id dest a : keeps (routed id dest) (emit (P := P) a).
Proof. by apply keeps_modify. Qed.

Lemma routed_fits id dest url : keeps (routed (P := P) id dest) (fits_url url).
Proof. unfold fits_url. destruct (_ <? _); [apply keeps_ret|apply keeps_fail]. Qed.

Lemma routed_setCompleted id dest now it : keeps (routed id dest) (setCompleted (P := P) now it).
Proof.
  destruct it as [c|]; [|apply keeps_fail]. simpl. destruct (m_bComplete c); [apply keeps_ret|].
  apply keeps_bind; [by apply routed_update|]. intros _. by apply keeps_modify.
Qed.

Lemma routed_new_invite id dest sip rv : keeps (routed id dest) (new_invite sip rv).
Proof.
  intros s r s' (c & Hc & Hd) H.
  unfold new_invite, mbind, M_bind, gets, emit, modify, mret, M_ret, when in H.
  destruct (m_active s); [|injection H as <- <-; by exists c]. simpl in H.
  destruct (m_nIterationCount s =? 0); [injection H as <- <-; by exists c|].
  destruct (pool_get (m_fsMonitor s)) as [[[[ | server l] | ] p] | ];
    [done| |injection H as <- <-; by exists c|done].
  unfold fits_url in H. destruct (_ <? URL_MAXLEN); [|done]. simpl in H.
  destruct (rv =? 0); simpl in H; [|injection H as <- <-; by exists c].
  destruct (0 <? m_nIterationCount s); injection H as <- <-; exists c; (split; [|done]); simpl;
    (destruct (_ !! i_id sip) eqn:E; [done|]); rewrite lookup_insert_ne; [done| |done|];
    intros Heq; rewrite Heq in E; congruence.
Qed.

#[local] Hint Resolve routed_emit routed_fits routed_setCompleted routed_new_invite : keeps.

Lemma routed_callback id dest now rv sip : keeps (routed id dest) (statelessCallback now rv sip).
Proof.
  unfold statelessCallback. apply keeps_bind; [apply keeps_gets|]. intros it.
  assert (forall k, keeps (routed id dest) (update_call (P := P) k (updateExpireTime now))) as H1
    by (intros; by apply routed_update).
  assert (forall k st, keeps (routed id dest) (update_call (P := P) k (setLatestStatus st))) as H2
    by (intros; by apply routed_update).
  destruct (sip_start sip) as [[]|st], it as [c|]; eauto 10 with keeps.
Qed.

(** *** Every message that is expected returns *)

Lemma invite_url_fits user server :
  length_ (default EmptyString user) + 16 + ADDRESS_MAX < URL_MAXLEN -> short_address server ->
  length_ (invite_url user server) < URL_MAXLEN.
Proof.
  unfold short_address, invite_url, length_. destruct user as [u|]; simpl; [|intros _ _; by vm_compute].
  rewrite !length_str_app. simpl. rewrite !length_str_app. simpl. lia.
Qed.

Lemma urls_fit_alter id f (calls : gmap string SipInboundCall) :
  (forall c, m_strDestUrl (f c) = m_strDestUrl c) -> map_Forall url_fits calls -> map_Forall url_fits (alter f id calls).
Proof.
  intros Hf H k c Hk. destruct (decide (id = k)) as [->|Hne].
  - rewrite lookup_alter_eq in Hk. destruct (calls !! k) as [c0|] eqn:E; [|done]. injection Hk as <-.
    unfold url_fits. rewrite Hf. by apply (H k).
  - rewrite lookup_alter_ne in Hk by done. by apply (H k).
Qed.

(** The parts of [proxy_ok] that the next lemmas are about; [calls_ok] is
    kept by [statelessCallback_ok].  The event loop and its counter are left
    alone. *)
Definition rest_ok (s0 s : St) : Prop :=
  map_Forall url_fits (m_mapInvitesInProgress s) /\ pool_ok (m_fsMonitor s) /\
  m_counter s = m_counter s0 /\ m_running s = m_running s0.

Lemma rest_refl s : proxy_ok s -> rest_ok s s.
Proof. by intros (_ & H1 & H2). Qed.

Lemma rest_update s0 id f s :
  (forall c, m_strDestUrl (f c) = m_strDestUrl c) -> rest_ok s0 s ->
  returns (update_call (P := P) id f) (fun _ s' => rest_ok s0 s' /\ m_mapInvitesInProgress s' = alter f id (m_mapInvitesInProgress s)) s.
Proof. intros Hf (H1 & H2 & H3). split; [|done]. split; [by apply urls_fit_alter|done]. Qed.

Lemma rest_emit s0 a s (Q : unit -> St -> Prop) :
  rest_ok s0 s -> (forall s', rest_ok s0 s' -> Q tt s') -> returns (emit (P := P) a) Q s.
Proof. intros (H1 & H2 & H3) HQ. by apply HQ. Qed.

Lemma rest_setCompleted s0 now c s : rest_ok s0 s -> returns (setCompleted (P := P) now (Some c)) (fun _ s' => rest_ok s0 s') s.
Proof.
  intros H. simpl. destruct (m_bComplete c); run; [done|]. eapply returns_mono; [by apply rest_update|].
  intros _ s1 [(H1 & H2 & H3) _]. by run.
Qed.

Lemma new_invite_returns sip rv s :
  proxy_ok s -> length_ (default EmptyString (to_user sip)) + 16 + ADDRESS_MAX < URL_MAXLEN ->
  returns (new_invite sip rv) (fun _ s' => rest_ok s s') s.
Proof.
  intros Hs Hlen. pose proof (rest_refl s Hs) as H0. unfold new_invite. run.
  destruct (m_active s); cbn [negb]; run; [|apply (rest_emit s); [done|]; intros s1 H1; by run].
  destruct (m_nIterationCount s =? 0); run; [apply (rest_emit s); [done|]; intros s1 H1; by run|].
  destruct (pool_get_ok (m_fsMonitor s)) as (r & p & E & Hp & Hsh); [apply Hs|].
  unfold returns at 1. rewrite E.
  destruct H0 as (H1 & H2 & H3). destruct r as [[|server l]|]; [by apply pool_get_nonempty in E| |by run].
  apply Forall_cons in Hsh as [Hsh _].
  pose proof (invite_url_fits (to_user sip) server Hlen Hsh) as Hu. cbv zeta. run. apply fits_returns; [done|].
  run. apply (rest_emit s); [done|]. intros s1 (H1' & H2' & H3').
  destruct (rv =? 0); cbn [negb]; run; [|done].
  assert (rest_ok s (s1 <| m_mapInvitesInProgress ::= fun m =>
      match m !! i_id sip with
      | Some _ => m
      | None => <[ i_id sip := new_SipInboundCall (i_id sip) (invite_url (to_user sip) server) ]> m
      end |>)) as H4.
  { split; [|done]. simpl. destruct (_ !! i_id sip); [done|]. by apply map_Forall_insert_2. }
  destruct (0 <? m_nIterationCount s); run; exact H4.
Qed.

Lemma callback_rest now rv sip s :
  proxy_ok s -> message_ok s sip -> returns (statelessCallback now rv sip) (fun _ s' => rest_ok s s') s.
Proof.
  intros Hs Hm. pose proof (rest_refl s Hs) as H0. unfold statelessCallback, message_ok in *. run.
  assert (forall c, m_mapInvitesInProgress s !! i_id sip = Some c -> length_ (m_strDestUrl c) < URL_MAXLEN) as Hc
    by (intros c E; by apply (proj1 (proj2 Hs) _ _ E)).
  destruct (sip_start sip) as [m|st].
  - destruct (m_mapInvitesInProgress s !! i_id sip) as [c|] eqn:E.
    + apply returns_bind. eapply returns_mono; [by apply (rest_update s)|]. intros _ s1 [H1 _]. run.
      apply fits_returns; [by apply Hc|]. run. apply (rest_emit s); [done|]. intros s2 H2. by run.
    + destruct m; try (by destruct Hm); try (by apply new_invite_returns);
        run; apply (rest_emit s); try done; intros s1 H1; by run.
  - apply returns_bind. apply returns_mono with (Q := fun _ s' => rest_ok s s').
    + destruct (m_mapInvitesInProgress s !! i_id sip) as [c|] eqn:E; run; [|done].
      destruct (bool_decide _); run; [|done]. eapply returns_mono; [by apply (rest_update s)|].
      intros _ s1 [H1 Em]. run. destruct (st =? 200); run; [|done].
      rewrite Em, lookup_alter_eq, E. by apply rest_setCompleted.
    + intros _ s1 H1. run. apply (rest_emit s); [done|]. intros s2 H2. by run.
Qed.

Lemma callback_returns now rv sip s :
  proxy_ok s -> message_ok s sip ->
  returns (statelessCallback now rv sip) (fun _ s' => proxy_ok s' /\ m_running s' = m_running s) s.
Proof.
  intros Hs Hm. eapply returns_mono.
  - apply (returns_keeps calls_ok); [apply statelessCallback_ok|apply Hs|by apply callback_rest].
  - by intros r s' [(H1 & H2 & _ & H3) H].
Qed.

Lemma watchdog_returns now s : proxy_ok s -> returns (watchdog (P := P) now) (fun _ s' => proxy_ok s') s.
Proof.
  intros (H1 & H2 & H3). destruct (watchdog_spec now s H1) as (gone & left & s' & _ & E & _ & Hm & _).
  assert (m_fsMonitor s' = m_fsMonitor s) as Hp.
  { revert E. unfold watchdog, mbind, M_bind, get, lift, modify, gets, when, mret, M_ret.
    destruct (expire _ _ _) as [[d c]|]; [|done]. simpl. destruct (_ && _); [destruct (_ =? 0)|]; by intros [= <-]. }
  unfold returns. rewrite E. split; [by eapply watchdog_ok|]. rewrite Hm, Hp. split; [|done].
  intros id c Hc. rewrite lookup_foldr_delete in Hc. case_decide; [done|]. by apply (H2 id).
Qed.

(** What asking the pool for servers keeps of it, a message does. *)
Lemma callback_pool (R : P -> Prop) now rv sip :
  (forall p r p', R p -> pool_get p = Ok (r, p') -> R p') -> keeps (fun s => R (m_fsMonitor s)) (statelessCallback now rv sip).
Proof.
  intros HR.
  assert (forall f : St -> St, (forall s, m_fsMonitor (f s) = m_fsMonitor s) -> keeps (fun s => R (m_fsMonitor s)) (modify f)) as Hm.
  { intros f Hf. apply keeps_modify. intros s. by rewrite Hf. }
  assert (keeps (fun s => R (m_fsMonitor s)) (fun s : St =>
    match pool_get (m_fsMonitor s) with Ok (r, p) => Ok (r, s <| m_fsMonitor := p |>) | Fault f => Fault f end)) as Hg.
  { intros s r s' Hs E. destruct (pool_get (m_fsMonitor s)) as [[r0 p]|] eqn:Ep; [|done]. injection E as <- <-. by eapply HR. }
  unfold statelessCallback, new_invite, setCompleted, update_call, emit, fits_url.
  repeat (cbv zeta; lazymatch goal with
  | |- forall _, _ => intros ?
  | |- keeps _ (mbind _ _) => apply keeps_bind
  | |- keeps _ (modify _) => by apply Hm
  | |- keeps _ (when _ _) => apply keeps_when
  | |- keeps _ (match ?x with _ => _ end) => destruct x
  | |- keeps _ _ => solve [exact Hg|eauto 4 with keeps]
  end).
Qed.

Lemma watchdog_pool (R : P -> Prop) now : keeps (fun s => R (m_fsMonitor s)) (watchdog (P := P) now).
Proof.
  unfold watchdog. repeat (apply keeps_bind; [auto with keeps|intros ?]). apply keeps_when.
  apply keeps_bind; [by apply keeps_modify|]. intros _. apply keeps_bind; [auto with keeps|]. intros c.
  apply keeps_when. by apply keeps_modify.
Qed.

Lemma initial_ok (p : P) active n : calls_ok (initial_state p active n).
Proof.
  split; [apply map_Forall_empty|]. split; [constructor|]. simpl. intros id.
  rewrite lookup_empty. split; [by intros ?%elem_of_nil|by intros (? & ? & _)].
Qed.

Lemma initial_proxy_ok s :
  (m_mapInvitesInProgress s, m_deqCompletedCallIds s) = (∅, []) -> pool_ok (m_fsMonitor s) -> proxy_ok s.
Proof.
  intros [= Hm Hd] Hp. split; [|split; [rewrite Hm; apply map_Forall_empty|exact Hp]].
  by apply (calls_ok_same (initial_state (m_fsMonitor s) true 0)); [..|apply initial_ok].
Qed.
End Lemmas.

(** A pool of one server, always available. *)
Definition one_server : FsInstance :=
  (new_FsInstance "10.10.2.35" 8021) <| m_state := querying_status |>
    <| m_nMaxSessions := 100 |> <| m_strSipAddress := "10.10.2.35" |> <| m_nSipPort := 5080 |>.

#[local] Obligation Tactic := idtac.
Program Definition one_server_pool : ServerPool unit :=
  {| pool_get := mret (Some [one_server]); pool_isAppserver := fun _ _ => false; pool_ok := fun _ => True |}.
Next Obligation. intros p l p' [= <- _]. done. Qed.
Next Obligation. intros p l p' [= <- _]. by repeat constructor. Qed.
Next Obligation. intros p _. exists (Some [one_server]), p. repeat constructor. vm_compute. discriminate. Qed.

Definition invite_msg : sip_msg := mkSip (Request sip_method_invite) "id1" (Some "6175551234") sip_method_invite.
Definition ack_msg : sip_msg := mkSip (Request sip_method_ack) "id1" (Some "6175551234") sip_method_ack.
Definition ok_msg : sip_msg := mkSip (Response 200) "id1" None sip_method_invite.

(** ** Properties *)

(** C27: The watchdog's assertion never fails.  In every state a run of the
    proxy can reach, whatever messages arrive, the ids listed as completed are
    exactly those of the completed calls in the table, each listed once; and
    so the watchdog, which asserts that every listed id is in the table, goes
    through. *)
Theorem watchdog_never_asserts {P} {pool : ServerPool P} (p : P) (active : bool) (n : Z)
    (evs : list event) (s : St P) (now : Z) :
  runs step (initial_state p active n) evs s ->
  calls_ok s /\ exists s', watchdog now s = Ok (tt, s') /\ calls_ok s'.
Proof.
  intros Hr.
  assert (calls_ok s) as Hs.
  { eapply runs_invariant; [|exact Hr|apply initial_ok]. intros; by eapply step_ok. }
  split; [done|]. destruct (watchdog_spec now s Hs) as (gone & left & s' & _ & E & _).
  exists s'. split; [done|]. by eapply watchdog_ok.
Qed.

Lemma watchdog_never_asserts_witness :
  exists s s', runs (step (pool := one_server_pool)) (initial_state tt true (-1))
    [EMessage 100 0 invite_msg; EMessage 101 0 ok_msg] s /\ watchdog 110 s = Ok (tt, s').
Proof.
  destruct (handle (pool := one_server_pool) (EMessage 100 0 invite_msg) (initial_state tt true (-1)))
    as [[r1 s1]|f] eqn:E1; [|discriminate].
  destruct (handle (pool := one_server_pool) (EMessage 101 0 ok_msg) s1) as [[r2 s2]|f] eqn:E2.
  2:{ exfalso. vm_compute in E1. injection E1 as _ <-. vm_compute in E2. discriminate. }
  assert (runs (step (pool := one_server_pool)) (initial_state tt true (-1))
    [EMessage 100 0 invite_msg; EMessage 101 0 ok_msg] s2) as Hr.
  { econstructor; [exists r1; exact E1|]. econstructor; [exists r2; exact E2|]. constructor. }
  destruct (proj2 (watchdog_never_asserts (pool := one_server_pool) tt true (-1) _ s2 110 Hr)) as (s' & H & _).
  exists s2, s'. split; [exact Hr|exact H].
Defined.

(** An ACK out of the blue is fatal.  An ACK whose call id is not in the
    table makes [setCompleted] dereference the end iterator, in any state. *)
Theorem unknown_ack_crashes {P} {pool : ServerPool P} (now rv : Z) (sip : sip_msg) (s : St P) :
  m_mapInvitesInProgress s !! i_id sip = None -> sip_start sip = Request sip_method_ack ->
  statelessCallback now rv sip s = Fault PastTheEnd.
Proof.
  intros Hn Ha. unfold statelessCallback, mbind, M_bind, gets. by rewrite Ha, Hn.
Qed.

Lemma unknown_ack_crashes_witness :
  statelessCallback (pool := one_server_pool) 0 0 ack_msg (initial_state tt true (-1)) = Fault PastTheEnd.
Proof. apply unknown_ack_crashes; reflexivity. Defined.

(** C28: A call stays with its server.  Once a call id is bound to a
    destination, and as long as the watchdog does not run, it stays bound to
    it whatever messages arrive, and every request with that id is forwarded
    there and nowhere else. *)
Theorem call_sticks {P} {pool : ServerPool P} (id dest : string) (s s' : St P) (evs : list event) :
  routed id dest s -> Forall (fun e => match e with EMessage _ _ _ => True | _ => False end) evs ->
  runs step s evs s' -> length_ dest < URL_MAXLEN ->
  routed id dest s' /\
  forall now rv sip m, i_id sip = id -> sip_start sip = Request m ->
    exists s'', statelessCallback now rv sip s' = Ok (0, s'') /\
                m_sent s'' = m_sent s' ++ [Forward dest] /\ routed id dest s''.
Proof.
  intros Hs Hev Hr Hl. assert (routed id dest s') as Hs'.
  { induction Hr as [|s e s1 es s2 [r H] _ IH]; [done|]. apply Forall_cons in Hev as [He Hev].
    apply IH; [|done]. destruct e as [now rv sip|now]; [|done]. by eapply routed_callback. }
  split; [done|]. intros now rv sip m Hid Hm.
  destruct (statelessCallback now rv sip s') as [[r s'']|f] eqn:E.
  - pose proof (routed_callback id dest now rv sip s' r s'' Hs' E) as Hs''.
    destruct Hs' as (c & Hc & <-). revert E.
    unfold statelessCallback, mbind, M_bind, gets, emit, modify, mret, M_ret, fits_url. simpl.
    rewrite Hm, Hid, Hc. destruct (Z.ltb_spec (length_ (m_strDestUrl c)) URL_MAXLEN); [|lia].
    intros [= <- <-]. eexists. split; [reflexivity|]. by split.
  - exfalso. destruct Hs' as (c & Hc & <-). revert E.
    unfold statelessCallback, mbind, M_bind, gets, emit, modify, mret, M_ret, fits_url. simpl.
    rewrite Hm, Hid, Hc. destruct (Z.ltb_spec (length_ (m_strDestUrl c)) URL_MAXLEN); [done|lia].
Qed.

Lemma call_sticks_witness :
  exists s, m_sent (P := unit) s = [Forward "sip:10.10.2.35"].
Proof.
  set (s0 := mkSt {[ "id1" := new_SipInboundCall "id1" "sip:10.10.2.35" ]} [] (-1) true tt [] 5 true).
  destruct (call_sticks (pool := one_server_pool) "id1" "sip:10.10.2.35" s0 s0 []) as [_ H].
  - exists (new_SipInboundCall "id1" "sip:10.10.2.35"). split; vm_compute; reflexivity.
  - constructor.
  - constructor.
  - vm_compute. reflexivity.
  - destruct (H 0 0 ack_msg sip_method_ack eq_refl eq_refl) as (s'' & _ & Hs & _). exists s''. exact Hs.
Defined.

(** What the watchdog forgets.  Only completed calls whose time is over
    are removed; a call that is not completed is never removed, however old;
    and one completed call at the head of the list whose time is not over
    keeps every later one, expired or not. *)
Theorem watchdog_forgets {P} {pool : ServerPool P} (now : Z) (s s' : St P) :
  calls_ok s -> watchdog now s = Ok (tt, s') ->
  (forall id, m_mapInvitesInProgress s' !! id = m_mapInvitesInProgress s !! id \/
     m_mapInvitesInProgress s' !! id = None /\
     exists c, m_mapInvitesInProgress s !! id = Some c /\ m_bComplete c = true /\ m_expireTime c <= now) /\
  (forall id c, head (m_deqCompletedCallIds s) = Some id -> m_mapInvitesInProgress s !! id = Some c ->
     now < m_expireTime c -> m_mapInvitesInProgress s' = m_mapInvitesInProgress s).
Proof.
  intros Hs E. destruct (watchdog_spec now s Hs) as (gone & left & s1 & Hd & E1 & _ & Hm & Hg & _).
  rewrite E1 in E. injection E as <-. rewrite Hm. split.
  - intros id. rewrite lookup_foldr_delete. destruct (decide (id ∈ gone)) as [Hin|]; [right|by left].
    split; [done|]. rewrite Forall_forall in Hg. destruct (Hg id Hin) as (c & Hc & Ht).
    exists c. split; [done|]. split; [|done]. destruct Hs as (_ & _ & Hcomp).
    assert (id ∈ m_deqCompletedCallIds s) as Hi by (rewrite Hd; apply elem_of_app; by left).
    apply Hcomp in Hi as (c' & Hc' & Hb). rewrite Hc in Hc'. congruence.
  - intros id c Hh Hc Ht. destruct gone as [|k gone]; [done|]. rewrite Hd in Hh. injection Hh as ->.
    apply Forall_cons in Hg as [(c' & Hc' & Hle) _]. rewrite Hc in Hc'. injection Hc' as <-. lia.
Qed.

Lemma watchdog_forgets_witness :
  exists s', watchdog (P := unit) 0
    (mkSt {[ "id1" := mkCall "id1" "sip:10.10.2.35" 200 true 8 ]} ["id1"] (-1) true tt [] 5 true) = Ok (tt, s') /\
    m_mapInvitesInProgress s' = {[ "id1" := mkCall "id1" "sip:10.10.2.35" 200 true 8 ]}.
Proof.
  set (s := mkSt {[ "id1" := mkCall "id1" "sip:10.10.2.35" 200 true 8 ]} ["id1"] (-1) true tt [] 5 true).
  assert (calls_ok s) as Hs.
  { split; [by apply map_Forall_singleton|]. split; [apply NoDup_singleton|]. intros id. simpl.
    rewrite list_elem_of_singleton. split.
    - intros ->. eexists. rewrite lookup_singleton_eq. by split.
    - intros (c & H & _). by apply lookup_singleton_Some in H as [<- _]. }
  destruct (watchdog 0 s) as [[[] s']|f] eqn:E; [|vm_compute in E; discriminate].
  exists s'. split; [reflexivity|].
  refine (proj2 (watchdog_forgets (pool := one_server_pool) 0 s s' Hs E) "id1"
            (mkCall "id1" "sip:10.10.2.35" 200 true 8) _ _ _); vm_compute; reflexivity.
Defined.
