(* ===== verification/Cdr.v ===== *)
(** * Cdr: call detail records

    [CdrInfo] of [cdr-writer.h] and [cdr-writer.cpp] (lines 8-155): the record,
    its chained setters, and the formatting of its times. *)

From S2P Require Import Prelude Text.

(** ** Data *)

Inductive CdrEvent_t :=
| origination_request
| origination_final_response
| origination_cancel
| termination_attempt
| call_cleared.

Inductive ReleaseCause_t :=
| unknown_release_cause
| calling_party_release
| called_party_release
| call_canceled
| call_rejected_due_to_termination_carriers
| call_rejected_due_to_system_error
| call_rejected_due_to_unauthorized_peer
| call_rejected_due_to_being_offline.

#[export] Instance CdrEvent_eq_dec : EqDecision CdrEvent_t.
Proof. solve_decision. Defined.
#[export] Instance ReleaseCause_eq_dec : EqDecision ReleaseCause_t.
Proof. solve_decision. Defined.

(** [(int32_t) cause]. *)
Definition cause_code (c : ReleaseCause_t) : Z :=
  match c with
  | unknown_release_cause => 0
  | calling_party_release => 1
  | called_party_release => 2
  | call_canceled => 3
  | call_rejected_due_to_termination_carriers => 4
  | call_rejected_due_to_system_error => 5
  | call_rejected_due_to_unauthorized_peer => 6
  | call_rejected_due_to_being_offline => 7
  end.

Record CdrInfo := mkCdr {
  m_cdrType : CdrEvent_t;
  m_uuid : string;
  m_sipStatus : Z;
  m_originatingCarrier : string;
  m_terminatingCarrier : string;
  m_originatingCarrierAddress : string;
  m_terminatingCarrierAddress : string;
  m_originatingEdgeServerAddress : string;
  m_terminatingEdgeServerAddress : string;
  m_fsAddress : string;
  m_callingPartyNumber : string;
  m_calledPartyNumberIn : string;
  m_calledPartyNumberOut : string;
  m_customerName : string;
  m_avokeCallId : string;
  m_alegCallId : string;
  m_blegCallId : string;
  m_clegCallId : string;
  m_dlegCallId : string;
  m_releaseCause : ReleaseCause_t;
  m_tmStart : Z;
  m_tmConnect : Z;
  m_tmEnd : Z;
  m_strSipHdrFrom : string;
  m_strSipHdrPAssertedIdentity : string;
  m_strSipHdrRemotePartyId : string
}.

#[export] Instance CdrInfo_rebuild : Rebuild CdrInfo := fun c =>
  mkCdr (m_cdrType c) (m_uuid c) (m_sipStatus c) (m_originatingCarrier c) (m_terminatingCarrier c)
    (m_originatingCarrierAddress c) (m_terminatingCarrierAddress c)
    (m_originatingEdgeServerAddress c) (m_terminatingEdgeServerAddress c) (m_fsAddress c)
    (m_callingPartyNumber c) (m_calledPartyNumberIn c) (m_calledPartyNumberOut c) (m_customerName c)
    (m_avokeCallId c) (m_alegCallId c) (m_blegCallId c) (m_clegCallId c) (m_dlegCallId c)
    (m_releaseCause c) (m_tmStart c) (m_tmConnect c) (m_tmEnd c) (m_strSipHdrFrom c)
    (m_strSipHdrPAssertedIdentity c) (m_strSipHdrRemotePartyId c).

(** ** Setters *)

Definition setCdrType (cdrType : CdrEvent_t) (c : CdrInfo) : CdrInfo := c <| m_cdrType := cdrType |>.
Definition setUuid (uuid : string) (c : CdrInfo) : CdrInfo := c <| m_uuid := uuid |>.
Definition setOriginatingCarrier (s : string) (c : CdrInfo) : CdrInfo := c <| m_originatingCarrier := s |>.
Definition setTerminatingCarrier (s : string) (c : CdrInfo) : CdrInfo := c <| m_terminatingCarrier := s |>.
Definition setOriginatingEdgeServerAddress (s : string) (c : CdrInfo) : CdrInfo :=
  c <| m_originatingEdgeServerAddress := s |>.
Definition setTerminatingEdgeServerAddress (s : string) (c : CdrInfo) : CdrInfo :=
  c <| m_terminatingEdgeServerAddress := s |>.
Definition setFsAddress (s : string) (c : CdrInfo) : CdrInfo := c <| m_fsAddress := s |>.
Definition setOriginatingCarrierAddress (s : string) (c : CdrInfo) : CdrInfo :=
  c <| m_originatingCarrierAddress := s |>.
Definition setTerminatingCarrierAddress (s : string) (c : CdrInfo) : CdrInfo :=
  c <| m_terminatingCarrierAddress := s |>.
Definition setCallingPartyNumber (s : string) (c : CdrInfo) : CdrInfo := c <| m_callingPartyNumber := s |>.
Definition setCalledPartyNumberIn (s : string) (c : CdrInfo) : CdrInfo := c <| m_calledPartyNumberIn := s |>.
Definition setCalledPartyNumberOut (s : string) (c : CdrInfo) : CdrInfo := c <| m_calledPartyNumberOut := s |>.
Definition setCustomerName (s : string) (c : CdrInfo) : CdrInfo := c <| m_customerName := s |>.
Definition setAvokeCallId (s : string) (c : CdrInfo) : CdrInfo := c <| m_avokeCallId := s |>.
Definition setALegCallId (s : string) (c : CdrInfo) : CdrInfo := c <| m_alegCallId := s |>.
Definition setBLegCallId (s : string) (c : CdrInfo) : CdrInfo := c <| m_blegCallId := s |>.
Definition setCLegCallId (s : string) (c : CdrInfo) : CdrInfo := c <| m_clegCallId := s |>.
Definition setDLegCallId (s : string) (c : CdrInfo) : CdrInfo := c <| m_dlegCallId := s |>.
Definition setReleaseCause (cause : ReleaseCause_t) (c : CdrInfo) : CdrInfo := c <| m_releaseCause := cause |>.
Definition setSipStatus (nStatus : Z) (c : CdrInfo) : CdrInfo := c <| m_sipStatus := nStatus |>.
Definition setTimeStart (time : Z) (c : CdrInfo) : CdrInfo := c <| m_tmStart := time |>.
Definition setTimeConnect (time : Z) (c : CdrInfo) : CdrInfo := c <| m_tmConnect := time |>.
Definition setTimeEnd (time : Z) (c : CdrInfo) : CdrInfo := c <| m_tmEnd := time |>.
Definition setSipHdrFrom (s : string) (c : CdrInfo) : CdrInfo := c <| m_strSipHdrFrom := s |>.
Definition setSipHdrPAssertedIdentity (s : string) (c : CdrInfo) : CdrInfo :=
  c <| m_strSipHdrPAssertedIdentity := s |>.
Definition setSipHdrRemotePartyId (s : string) (c : CdrInfo) : CdrInfo := c <| m_strSipHdrRemotePartyId := s |>.

(** The constructor. *)
Definition new_CdrInfo (cdrType : CdrEvent_t) : CdrInfo :=
  setTimeEnd 0 (setTimeConnect 0 (setTimeStart 0
    (mkCdr cdrType EmptyString 0 EmptyString EmptyString EmptyString EmptyString EmptyString EmptyString
       EmptyString EmptyString EmptyString EmptyString EmptyString EmptyString EmptyString EmptyString
       EmptyString EmptyString unknown_release_cause 0 0 0 EmptyString EmptyString EmptyString))).

(** ** Times

    [gmtime] and [strftime( "%F %T" )] of the C library, for the times of a
    proleptic Gregorian calendar: the day number is split into eras of 400
    years that start on a 1 March. *)

Record civil := mkCivil { year : Z; month : Z; day : Z }.

Definition civil_of_days (z : Z) : civil :=
  let z := z + 719468 in
  let era := z `div` 146097 in
  let doe := z `mod` 146097 in
  let yoe := (doe - doe `div` 1460 + doe `div` 36524 - doe `div` 146096) `div` 365 in
  let doy := doe - (365 * yoe + yoe `div` 4 - yoe `div` 100) in
  let mp := (5 * doy + 2) `div` 153 in
  let m := if mp <? 10 then mp + 3 else mp - 9 in
  mkCivil (yoe + era * 400 + (if m <=? 2 then 1 else 0)) m (doy - (153 * mp + 2) `div` 5 + 1).

(** The day number of a date, for reference. *)
Definition days_of_civil (c : civil) : Z :=
  let y := if month c <=? 2 then year c - 1 else year c in
  let era := y `div` 400 in
  let yoe := y `mod` 400 in
  let mp := if 2 <? month c then month c - 3 else month c + 9 in
  let doy := (153 * mp + 2) `div` 5 + day c - 1 in
  let doe := yoe * 365 + yoe `div` 4 - yoe `div` 100 + doy in
  era * 146097 + doe - 719468.

(** [%F] prints the year with at least four digits. *)
Definition format_time (t : Z) : string :=
  let c := civil_of_days (t `div` 86400) in
  let s := t `mod` 86400 in
  (if year c <? 10000 then digits 4 (year c) else dec (year c)) +:+ "-" +:+
  digits 2 (month c) +:+ "-" +:+ digits 2 (day c) +:+ " " +:+
  digits 2 (s `div` 3600) +:+ ":" +:+ digits 2 ((s `div` 60) `mod` 60) +:+ ":" +:+ digits 2 (s `mod` 60).

(** [getTime...Formatted( str )] on an empty [str]: nothing is assigned for a
    time of 0. *)
Definition formatted (t : Z) : string := if 0 =? t then EmptyString else format_time t.

Definition getTimeStartFormatted (c : CdrInfo) : string := formatted (m_tmStart c).
Definition getTimeConnectFormatted (c : CdrInfo) : string := formatted (m_tmConnect c).
Definition getTimeEndFormatted (c : CdrInfo) : string := formatted (m_tmEnd c).

(** ** Checks of the calendar *)

Example epoch : format_time 0 = "1970-01-01 00:00:00".
Proof. vm_compute. reflexivity. Qed.
Example leap_day : format_time 1330519845 = "2012-02-29 12:50:45".
Proof. vm_compute. reflexivity. Qed.
Example new_year : format_time 1388534399 = "2013-12-31 23:59:59".
Proof. vm_compute. reflexivity. Qed.

(** ** Lemmas *)

(** Every day of an era falls in one of its 400 years, at a day of that year. *)
Lemma era_day doe y :
  0 <= doe < 146097 -> y = (doe - doe `div` 1460 + doe `div` 36524 - doe `div` 146096) `div` 365 ->
  0 <= y < 400 /\ 0 <= doe - (365 * y + y `div` 4 - y `div` 100) <= 365.
Proof.
  intros Hdoe Hy.
  pose proof (Z.div_mod doe 1460 ltac:(lia)). pose proof (Z.mod_pos_bound doe 1460 ltac:(lia)).
  pose proof (Z.div_mod doe 36524 ltac:(lia)). pose proof (Z.mod_pos_bound doe 36524 ltac:(lia)).
  pose proof (Z.div_mod doe 146096 ltac:(lia)). pose proof (Z.mod_pos_bound doe 146096 ltac:(lia)).
  pose proof (Z.div_mod y 4 ltac:(lia)). pose proof (Z.mod_pos_bound y 4 ltac:(lia)).
  pose proof (Z.div_mod y 100 ltac:(lia)). pose proof (Z.mod_pos_bound y 100 ltac:(lia)).
  set (a := doe `div` 1460) in *. set (b := doe `div` 36524) in *. set (c := doe `div` 146096) in *.
  pose proof (Z.div_mod (doe - a + b - c) 365 ltac:(lia)).
  pose proof (Z.mod_pos_bound (doe - a + b - c) 365 ltac:(lia)). rewrite <- Hy in *.
  set (p := y `div` 4) in *. set (q := y `div` 100) in *. clearbody a b c p q.
  assert (0 <= a <= 100) by lia. assert (0 <= b <= 4) by lia. assert (0 <= c <= 1) by lia.
  assert (0 <= y < 400) by lia. split; [done|]. assert (0 <= q <= 3) by lia.
  assert (b = 0 \/ b = 1 \/ b = 2 \/ b = 3 \/ b = 4) as Hb by lia.
  assert (c = 0 \/ c = 1) as Hc by lia.
  assert (q = 0 \/ q = 1 \/ q = 2 \/ q = 3) as Hq by lia.
  destruct_or! Hb; destruct_or! Hc; destruct_or! Hq; subst b c q; lia.
Qed.

Lemma month_day doy :
  0 <= doy <= 365 -> let mp := (5 * doy + 2) `div` 153 in
  0 <= mp <= 11 /\ 1 <= doy - (153 * mp + 2) `div` 5 + 1 <= 31.
Proof.
  intros H. cbv zeta. pose proof (Z.div_mod (5 * doy + 2) 153 ltac:(lia)).
  pose proof (Z.mod_pos_bound (5 * doy + 2) 153 ltac:(lia)).
  set (mp := (5 * doy + 2) `div` 153) in *. clearbody mp.
  assert (0 <= mp <= 11) as Hmp by lia. split; [done|].
  pose proof (Z.div_mod (153 * mp + 2) 5 ltac:(lia)).
  pose proof (Z.mod_pos_bound (153 * mp + 2) 5 ltac:(lia)). lia.
Qed.

(** The date of a day determines the day. *)
Lemma days_of_civil_of_days z :
  days_of_civil (civil_of_days z) = z /\ 1 <= month (civil_of_days z) <= 12 /\ 1 <= day (civil_of_days z) <= 31.
Proof.
  unfold civil_of_days, days_of_civil. simpl.
  set (n := z + 719468). set (era := n `div` 146097). set (doe := n `mod` 146097).
  assert (0 <= doe < 146097) as Hdoe by (apply Z.mod_pos_bound; lia).
  assert (n = 146097 * era + doe) as Hn by (apply Z.div_mod; lia).
  destruct (era_day doe _ Hdoe eq_refl) as [Hyoe Hdoy].
  set (yoe := (doe - doe `div` 1460 + doe `div` 36524 - doe `div` 146096) `div` 365) in *.
  set (doy := doe - (365 * yoe + yoe `div` 4 - yoe `div` 100)) in *.
  pose proof (month_day doy Hdoy) as Hmd. cbv zeta in Hmd.
  set (mp := (5 * doy + 2) `div` 153) in *. clearbody mp. destruct Hmd as [Hmp Hday].
  set (q := (153 * mp + 2) `div` 5) in *.
  assert (forall m, m = (if mp <? 10 then mp + 3 else mp - 9) ->
    1 <= m <= 12 /\ (if 2 <? m then m - 3 else m + 9) = mp) as Hm.
  { intros m ->. destruct (Z.ltb_spec mp 10).
    - destruct (Z.ltb_spec 2 (mp + 3)); lia.
    - destruct (Z.ltb_spec 2 (mp - 9)); lia. }
  set (m := if mp <? 10 then mp + 3 else mp - 9) in *. destruct (Hm m eq_refl) as [Hm1 Hm2].
  rewrite Hm2.
  assert ((if m <=? 2 then yoe + era * 400 + (if m <=? 2 then 1 else 0) - 1
           else yoe + era * 400 + (if m <=? 2 then 1 else 0)) = yoe + era * 400) as ->
    by (destruct (m <=? 2); lia).
  rewrite Z.div_add, Z.mod_add, (Z.div_small yoe), (Z.mod_small yoe) by lia. fold q.
  unfold doy, n in *. split; [lia|]. split; [done|lia].
Qed.

Lemma digits_inj w n m :
  0 <= n < 10 ^ Z.of_nat w -> 0 <= m < 10 ^ Z.of_nat w -> digits w n = digits w m -> n = m.
Proof.
  intros Hn Hm E. pose proof (read_digits_fixed w n 0 EmptyString Hn) as H1.
  pose proof (read_digits_fixed w m 0 EmptyString Hm) as H2. rewrite E, H2 in H1. simpl in H1.
  injection H1. lia.
Qed.

Lemma app_str_inj a b c d : String.length a = String.length b -> a +:+ c = b +:+ d -> a = b /\ c = d.
Proof.
  revert b. induction a as [|x a IH]; intros [|y b]; simpl; intros Hl E; try done.
  injection Hl as Hl. injection E as -> E. by destruct (IH b Hl E) as [-> ->].
Qed.

(** A field of fixed width in front of a text. *)
Lemma digits_app_inj w n m s t :
  0 <= n < 10 ^ Z.of_nat w -> 0 <= m < 10 ^ Z.of_nat w ->
  digits w n +:+ s = digits w m +:+ t -> n = m /\ s = t.
Proof.
  intros Hn Hm E. apply app_str_inj in E as [E1 E2]; [|by rewrite !length_digits].
  split; [by eapply digits_inj|done].
Qed.

(** What is printed determines the time of day. *)
Lemma seconds_inj s t :
  s `div` 3600 = t `div` 3600 -> (s `div` 60) `mod` 60 = (t `div` 60) `mod` 60 -> s `mod` 60 = t `mod` 60 -> s = t.
Proof.
  intros Hh Hm Hs. rewrite (Z.div_mod s 60), (Z.div_mod t 60), Hs by lia. f_equal. f_equal.
  rewrite (Z.div_mod (s `div` 60) 60), (Z.div_mod (t `div` 60) 60), Hm by lia.
  rewrite !Z.div_div by lia. change (60 * 60) with 3600. by rewrite Hh.
Qed.

Lemma clock_range s :
  0 <= s < 86400 -> 0 <= s `div` 3600 < 100 /\ 0 <= (s `div` 60) `mod` 60 < 100 /\ 0 <= s `mod` 60 < 100.
Proof.
  intros Hs. pose proof (Z.mod_pos_bound (s `div` 60) 60 ltac:(lia)). pose proof (Z.mod_pos_bound s 60 ltac:(lia)).
  pose proof (Z.div_mod s 3600 ltac:(lia)). pose proof (Z.mod_pos_bound s 3600 ltac:(lia)).
  set (h := s `div` 3600) in *. clearbody h. split; [lia|]. split; lia.
Qed.

(** ** Properties *)

(** A formatted time can be read back: two times in the years 0 to 9999
    that are printed alike are equal, so that what the database is told of a
    call's times loses nothing. *)
Theorem format_time_inj (t u : Z) :
  0 <= year (civil_of_days (t `div` 86400)) < 10000 -> 0 <= year (civil_of_days (u `div` 86400)) < 10000 ->
  format_time t = format_time u -> t = u.
Proof.
  intros Ht Hu. unfold format_time.
  destruct (days_of_civil_of_days (t `div` 86400)) as (Et & Hmt & Hdt).
  destruct (days_of_civil_of_days (u `div` 86400)) as (Eu & Hmu & Hdu).
  set (ct := civil_of_days (t `div` 86400)) in *. set (cu := civil_of_days (u `div` 86400)) in *.
  destruct (Z.ltb_spec (year ct) 10000); [|lia]. destruct (Z.ltb_spec (year cu) 10000); [|lia].
  pose proof (Z.mod_pos_bound t 86400 ltac:(lia)) as Hst. pose proof (Z.mod_pos_bound u 86400 ltac:(lia)) as Hsu.
  apply clock_range in Hst as (Ht1 & Ht2 & Ht3). apply clock_range in Hsu as (Hu1 & Hu2 & Hu3).
  intros E.
  apply digits_app_inj in E as [Hy E]; [|change (10 ^ Z.of_nat 2) with 100 || change (10 ^ Z.of_nat 4) with 10000; lia..]. apply app_str_inj_l in E.
  apply digits_app_inj in E as [Hm E]; [|change (10 ^ Z.of_nat 2) with 100 || change (10 ^ Z.of_nat 4) with 10000; lia..]. apply app_str_inj_l in E.
  apply digits_app_inj in E as [Hd E]; [|change (10 ^ Z.of_nat 2) with 100 || change (10 ^ Z.of_nat 4) with 10000; lia..]. apply app_str_inj_l in E.
  apply digits_app_inj in E as [Hh E]; [|change (10 ^ Z.of_nat 2) with 100 || change (10 ^ Z.of_nat 4) with 10000; lia..]. apply app_str_inj_l in E.
  apply digits_app_inj in E as [Hmin E]; [|change (10 ^ Z.of_nat 2) with 100 || change (10 ^ Z.of_nat 4) with 10000; lia..]. apply app_str_inj_l in E.
  apply digits_inj in E; [|change (10 ^ Z.of_nat 2) with 100; lia..].
  assert (t `div` 86400 = u `div` 86400) as Hdays.
  { rewrite <- Et, <- Eu. destruct ct as [y m d], cu as [y' m' d']. simpl in *. by subst. }
  assert (t `mod` 86400 = u `mod` 86400) as Hsecs by by apply seconds_inj.
  rewrite (Z.div_mod t 86400), (Z.div_mod u 86400) by lia. by rewrite Hdays, Hsecs.
Qed.

Lemma format_time_inj_witness : 1330519845 = 1330519845.
Proof.
  apply format_time_inj; [vm_compute; split; [discriminate|reflexivity]..|reflexivity].
Defined.
