(* ===== verification/CdrWriter.v ===== *)
(** * CdrWriter: writing call detail records to the database

    [CdrWriter] of [cdr-writer.cpp] (lines 158-595): one worker thread takes
    records from a queue and writes each with prepared statements on a pooled
    connection.  The MySQL driver is outside: every call of it that can throw
    takes its outcome from a list of answers (an exhausted list answers that all
    is well).  What reaches the database is the list of executed statements. *)

From S2P Require Import Prelude Text Cdr.

(** ** Data *)

(** The outcome of one call of the driver: success, a null result (of
    [connect]), an [sql::SQLException] with its error code, or another
    [std::runtime_error]. *)
Inductive answer := ans_ok | ans_null | ans_sql (code : Z) | ans_runtime.

Inductive db_exn := SQLException (code : Z) | runtime_error.

Inductive param := PString (s : string) | PInt (z : Z) | PNull | PDateTime (s : string).

Inductive stmt_name := Orig | Final | Cancel | Term1 | Term2 | Bye1 | Bye2.

(** The text of each statement. *)
Definition sql (n : stmt_name) : string :=
  match n with
  | Orig => "INSERT INTO cdr_session (session_uuid,start_time,originating_carrier,originating_carrier_ip_address,originating_edge_server_ip_address,fs_ip_address,calling_party_number,called_party_number_in,a_leg_sip_call_id,b_leg_sip_call_id,final_sip_status,release_cause,end_time) VALUES (?,?,?,?,?,?,?,?,?,?,?,?,?)"
  | Final => "UPDATE cdr_session SET final_sip_status=?,connect_time=?,end_time=?,release_cause=? WHERE session_uuid=?"
  | Cancel => "UPDATE cdr_session SET final_sip_status=487,end_time=?,release_cause=? WHERE session_uuid=?"
  | Term1 => "INSERT into termination_attempt(cdr_session_uuid,start_time,connect_time,end_time,final_sip_status,sip_call_id,terminating_carrier,terminating_carrier_ip_address) VALUES(?,?,?,?,?,?,?,?)"
  | Term2 => "UPDATE cdr_session SET terminating_edge_server_ip_address=?,terminating_carrier=?,terminating_carrier_ip_address=?,c_leg_sip_call_id=?,d_leg_sip_call_id=?,fs_assigned_customer=?,fs_assigned_call_id=?,called_party_number_out=?  WHERE session_uuid=?"
  | Bye1 => "UPDATE cdr_session SET end_time=?,release_cause=? WHERE session_uuid=?"
  | Bye2 => "UPDATE termination_attempt SET end_time=? WHERE cdr_session_uuid=? and final_sip_status = 200"
  end.

(** A prepared statement: the connection it was prepared on and the parameters
    set since they were last cleared. *)
Record Statement := mkStatement { st_conn : Z; st_params : list (Z * param) }.

#[export] Instance Statement_rebuild : Rebuild Statement := fun s => mkStatement (st_conn s) (st_params s).

(** An executed statement. *)
Record row := mkRow { r_stmt : stmt_name; r_conn : Z; r_params : list (Z * param) }.

Record CdrWriter := mkWriter {
  m_vecConnection : list Z;
  m_stmtOrig : option Statement;
  m_stmtFinal : option Statement;
  m_stmtCancel : option Statement;
  m_stmtTerm1 : option Statement;
  m_stmtTerm2 : option Statement;
  m_stmtBye1 : option Statement;
  m_stmtBye2 : option Statement;
  m_timerSqlTest : bool;
  next_connection : Z;
  answers : list answer;
  executed : list row
}.

#[export] Instance CdrWriter_rebuild : Rebuild CdrWriter := fun w =>
  mkWriter (m_vecConnection w) (m_stmtOrig w) (m_stmtFinal w) (m_stmtCancel w) (m_stmtTerm1 w)
    (m_stmtTerm2 w) (m_stmtBye1 w) (m_stmtBye2 w) (m_timerSqlTest w) (next_connection w) (answers w)
    (executed w).

(** The constructor; [threadInit] and the first [startSqlTimer] of
    [worker_thread] have succeeded. *)
Definition new_CdrWriter (ans : list answer) : CdrWriter :=
  mkWriter [] None None None None None None None true 0 ans [].

(** ** Computations that can throw *)

Definition W (A : Type) : Type := CdrWriter -> CdrWriter * (A + db_exn).

#[export] Instance W_ret : MRet W := fun A a w => (w, inl a).
#[export] Instance W_bind : MBind W := fun A B f m w =>
  match m w with
  | (w, inl a) => f a w
  | (w, inr e) => (w, inr e)
  end.

Definition wset (f : CdrWriter -> CdrWriter) : W unit := fun w => (f w, inl tt).
Definition wget {A} (f : CdrWriter -> A) : W A := fun w => (w, inl (f w)).

(** A call of the driver: false for a null result. *)
Definition drive : W bool := fun w =>
  match answers w with
  | [] => (w, inl true)
  | a :: rest =>
      let w := w <| answers := rest |> in
      match a with
      | ans_ok => (w, inl true)
      | ans_null => (w, inl false)
      | ans_sql code => (w, inr (SQLException code))
      | ans_runtime => (w, inr runtime_error)
      end
  end.

(** [catch( sql::SQLException& e )]. *)
Definition catch_sql {A} (m : W A) (h : Z -> W A) : W A := fun w =>
  match m w with
  | (w, inr (SQLException code)) => h code w
  | r => r
  end.

(** The errors that mean the connection is gone. *)
Definition lost (code : Z) : bool := (2013 =? code) || (2006 =? code).

(** ** Connections *)

(** [m_pDriver->connect(...)]. *)
Definition connect : W (option Z) :=
  ok ← drive;
  if negb ok then mret None
  else c ← wget next_connection; wset (fun w => w <| next_connection := c + 1 |>);; mret (Some c).

(** [getConnection]: [conn] keeps its value when a later call of the driver
    throws. *)
Definition getConnection : W (option Z) :=
  pool ← wget m_vecConnection;
  match pool with
  | conn :: pool => wset (fun w => w <| m_vecConnection := pool |>);; mret (Some conn)
  | [] =>
      conn ← catch_sql connect (fun _ => mret None);
      match conn with
      | None => mret None
      | Some conn =>
          catch_sql (drive;; drive;; mret tt) (fun _ => mret tt);;
          mret (Some conn)
      end
  end.

Definition releaseConnection (conn : Z) : W unit :=
  wset (fun w => w <| m_vecConnection ::= fun l => l ++ [conn] |>).

(** ** Prepared statements *)

Section Statements.
Context (field : CdrWriter -> option Statement) `{!Updater field} (name : stmt_name).

(** [if( !m_stmt ) m_stmt.reset( conn->prepareStatement(...) )]. *)
Definition prepare (conn : Z) : W unit :=
  s ← wget field;
  match s with
  | Some _ => mret tt
  | None => drive;; wset (fun w => w <| field := Some (mkStatement conn []) |>)
  end.

Definition on_stmt (f : Statement -> Statement) : W unit :=
  drive;; wset (fun w => w <| field ::= fmap f |>).

Definition clearParameters : W unit := on_stmt (fun s => s <| st_params := [] |>).
Definition set_param (i : Z) (p : param) : W unit := on_stmt (fun s => s <| st_params ::= fun l => l ++ [(i, p)] |>).

(** [m_stmt->setXxx(...)] for a list of parameters in turn. *)
Fixpoint set_params (l : list (Z * param)) : W unit :=
  match l with
  | [] => mret tt
  | (i, p) :: l => set_param i p;; set_params l
  end.

Definition executeUpdate : W unit :=
  drive;;
  s ← wget field;
  match s with
  | Some s => wset (fun w => w <| executed ::= fun l => l ++ [mkRow name (st_conn s) (st_params s)] |>)
  | None => mret tt
  end.

Definition run_stmt (conn : Z) (params : list (Z * param)) : W unit :=
  prepare conn;; clearParameters;; set_params params;; executeUpdate.
End Statements.

(** ** The parameters of each statement *)

Definition string_or_null (s : string) : param := if 0 <? length_ s then PString s else PNull.
Definition status_or_null (status : Z) : param := if 0 <? status then PInt (to_int32 status) else PNull.
Definition time_or_null (s : string) : param := if 0 <? length_ s then PDateTime s else PNull.

Definition params_Orig (c : CdrInfo) : list (Z * param) :=
  [(1, PString (m_uuid c)); (2, PDateTime (getTimeStartFormatted c)); (3, PString (m_originatingCarrier c));
   (4, PString (m_originatingCarrierAddress c)); (5, PString (m_originatingEdgeServerAddress c));
   (6, PString (m_fsAddress c)); (7, PString (m_callingPartyNumber c)); (8, PString (m_calledPartyNumberIn c));
   (9, PString (m_alegCallId c)); (10, string_or_null (m_blegCallId c)); (11, status_or_null (m_sipStatus c));
   (12, PInt (cause_code (m_releaseCause c))); (13, time_or_null (getTimeEndFormatted c))].

Definition params_Final (c : CdrInfo) : list (Z * param) :=
  (1, PInt (to_int32 (m_sipStatus c))) ::
  (if 200 =? m_sipStatus c
   then [(2, PDateTime (getTimeConnectFormatted c)); (3, PNull); (4, PInt 0)]
   else [(2, PNull); (3, PDateTime (getTimeEndFormatted c));
         (4, PInt (cause_code call_rejected_due_to_termination_carriers))]) ++
  [(5, PString (m_uuid c))].

Definition params_Cancel (c : CdrInfo) : list (Z * param) :=
  [(1, PDateTime (getTimeEndFormatted c)); (2, PInt (cause_code call_canceled)); (3, PString (m_uuid c))].

Definition params_Term1 (c : CdrInfo) : list (Z * param) :=
  [(1, PString (m_uuid c)); (2, PDateTime (getTimeStartFormatted c))] ++
  (if 200 =? m_sipStatus c
   then [(3, PDateTime (getTimeConnectFormatted c)); (4, PNull)]
   else [(3, PNull); (4, PDateTime (getTimeEndFormatted c))]) ++
  [(5, PInt (to_int32 (m_sipStatus c))); (6, PString (m_dlegCallId c)); (7, PString (m_terminatingCarrier c));
   (8, PString (m_terminatingCarrierAddress c))].

Definition params_Term2 (c : CdrInfo) : list (Z * param) :=
  [(1, PString (m_terminatingEdgeServerAddress c)); (2, PString (m_terminatingCarrier c));
   (3, PString (m_terminatingCarrierAddress c)); (4, PString (m_clegCallId c)); (5, PString (m_dlegCallId c));
   (6, if empty_ (m_customerName c) then PNull else PString (m_customerName c));
   (7, if empty_ (m_avokeCallId c) then PNull else PString (m_avokeCallId c));
   (8, PString (m_calledPartyNumberOut c)); (9, PString (m_uuid c))].

Definition params_Bye1 (c : CdrInfo) : list (Z * param) :=
  [(1, PDateTime (getTimeEndFormatted c)); (2, PInt (cause_code (m_releaseCause c))); (3, PString (m_uuid c))].

Definition params_Bye2 (c : CdrInfo) : list (Z * param) :=
  [(1, PDateTime (getTimeEndFormatted c)); (2, PString (m_uuid c))].

(** ** Writing a record *)

(** The [catch] clauses of the [write...Cdr] functions: the statements are
    reset, and the exception thrown on, when the connection is gone; any other
    exception ends here. *)
Definition guarded (reset : CdrWriter -> CdrWriter) (body : W unit) : W unit := fun w =>
  match body w with
  | (w, inr (SQLException code)) =>
      if lost code then (reset w, inr (SQLException code)) else (w, inl tt)
  | (w, inr runtime_error) => (w, inl tt)
  | r => r
  end.

Definition writeOriginationRequestCdr (c : CdrInfo) (conn : Z) : W unit :=
  guarded (fun w => w <| m_stmtOrig := None |>) (run_stmt m_stmtOrig Orig conn (params_Orig c)).

Definition writeOriginationFinalResponseCdr (c : CdrInfo) (conn : Z) : W unit :=
  guarded (fun w => w <| m_stmtFinal := None |>) (run_stmt m_stmtFinal Final conn (params_Final c)).

Definition writeOriginationCancelCdr (c : CdrInfo) (conn : Z) : W unit :=
  guarded (fun w => w <| m_stmtCancel := None |>) (run_stmt m_stmtCancel Cancel conn (params_Cancel c)).

Definition writeTerminationAttemptCdr (c : CdrInfo) (conn : Z) : W unit :=
  guarded (fun w => w <| m_stmtTerm1 := None |> <| m_stmtTerm2 := None |>)
    (run_stmt m_stmtTerm1 Term1 conn (params_Term1 c);; run_stmt m_stmtTerm2 Term2 conn (params_Term2 c)).

Definition writeByeCdr (c : CdrInfo) (conn : Z) : W unit :=
  guarded (fun w => w <| m_stmtBye1 := None |> <| m_stmtBye2 := None |>)
    (run_stmt m_stmtBye1 Bye1 conn (params_Bye1 c);; run_stmt m_stmtBye2 Bye2 conn (params_Bye2 c)).

Definition write_by_type (c : CdrInfo) (conn : Z) : W unit :=
  match m_cdrType c with
  | origination_request => writeOriginationRequestCdr c conn
  | origination_final_response => writeOriginationFinalResponseCdr c conn
  | origination_cancel => writeOriginationCancelCdr c conn
  | termination_attempt => writeTerminationAttemptCdr c conn
  | call_cleared => writeByeCdr c conn
  end.

(** The [catch] clauses of [writeCdr] and [timer_handler]. *)
Definition handle_errors (m : W unit) (w : CdrWriter) : CdrWriter :=
  match m w with
  | (w, inl tt) => w
  | (w, inr (SQLException code)) => if lost code then w <| m_vecConnection := [] |> else w
  | (w, inr runtime_error) => w
  end.

(** A connection is taken, used and, when nothing was thrown, given back. *)
Definition with_connection (body : Z -> W unit) : W unit :=
  conn ← getConnection;
  match conn with
  | None => mret tt
  | Some conn => body conn;; releaseConnection conn
  end.

Definition writeCdr (c : CdrInfo) (w : CdrWriter) : CdrWriter :=
  handle_errors (with_connection (write_by_type c)) w.

(** [timer_handler] without an error: [createStatement] and [execute] (the
    result set is only logged). *)
Definition timer_handler (w : CdrWriter) : CdrWriter :=
  (handle_errors (with_connection (fun _ => drive;; drive;; mret tt)) w) <| m_timerSqlTest := true |>.

(** ** The queue

    [postCdr] binds the shared pointer of a record; the record is read when the
    worker gets to it.  [store] is the heap of records, by pointer. *)

Record Queue := mkQueue { store : gmap Z CdrInfo; posted : list Z; writer : CdrWriter }.

#[export] Instance Queue_rebuild : Rebuild Queue := fun q => mkQueue (store q) (posted q) (writer q).

Inductive queue_event :=
| QNew (p : Z) (c : CdrInfo)
| QChange (p : Z) (f : CdrInfo -> CdrInfo)
| QPost (p : Z)
| QWork.

Definition queue_step (e : queue_event) (q : Queue) : Queue :=
  match e with
  | QNew p c => q <| store ::= <[ p := c ]> |>
  | QChange p f => q <| store ::= alter f p |>
  | QPost p => q <| posted ::= fun l => l ++ [p] |>
  | QWork =>
      match posted q with
      | [] => q
      | p :: l =>
          match store q !! p with
          | None => q <| posted := l |>
          | Some c => q <| posted := l |> <| writer ::= writeCdr c |>
          end
      end
  end.

Definition queue_run (es : list queue_event) (q : Queue) : Queue := foldl (fun q e => queue_step e q) q es.

(** ** Reference: the rows a record stands for *)

Definition rows_of (c : CdrInfo) (conn : Z) : list row :=
  match m_cdrType c with
  | origination_request => [mkRow Orig conn (params_Orig c)]
  | origination_final_response => [mkRow Final conn (params_Final c)]
  | origination_cancel => [mkRow Cancel conn (params_Cancel c)]
  | termination_attempt => [mkRow Term1 conn (params_Term1 c); mkRow Term2 conn (params_Term2 c)]
  | call_cleared => [mkRow Bye1 conn (params_Bye1 c); mkRow Bye2 conn (params_Bye2 c)]
  end.

Definition stmts (w : CdrWriter) : list (option Statement) :=
  [m_stmtOrig w; m_stmtFinal w; m_stmtCancel w; m_stmtTerm1 w; m_stmtTerm2 w; m_stmtBye1 w; m_stmtBye2 w].

Definition prepared_on (conn : Z) (o : option Statement) : Prop :=
  match o with Some s => st_conn s = conn | None => True end.

(** The connection a statement runs on when the one at hand is [conn]. *)
Definition stmt_conn (conn : Z) (o : option Statement) : Z :=
  match o with Some s => st_conn s | None => conn end.

(** No error so far: at most one connection was opened, it is in the pool, and
    every statement was prepared on it. *)
Definition healthy (w : CdrWriter) : Prop :=
  (next_connection w = 0 /\ m_vecConnection w = [] /\ Forall (fun o => o = None) (stmts w)) \/
  (next_connection w = 1 /\ m_vecConnection w = [0] /\ Forall (prepared_on 0) (stmts w)).

(** While all goes well every statement is prepared on the pool's one
    connection; this is what a write leaves behind. *)
Definition wrote (conn : Z) (rows : list row) (w w' : CdrWriter) : Prop :=
  answers w' = [] /\ next_connection w' = next_connection w /\ m_vecConnection w' = m_vecConnection w /\
  executed w' = executed w ++ rows /\ Forall (prepared_on conn) (stmts w').

Definition same_pool {A} (m : W A) : Prop := forall w, m_vecConnection (fst (m w)) = m_vecConnection w.

(** What the members for the statements have in common. *)
Class StatementField (field : CdrWriter -> option Statement) `{!Updater field} : Prop := {
  field_get : forall f w, field (w <| field ::= f |>) = f (field w);
  field_set : forall f g w, (w <| field ::= f |>) <| field ::= g |> = w <| field ::= fun x => g (f x) |>;
  field_same : forall w, (w <| field ::= fun _ => field w |>) = w;
  field_answers : forall f w, answers (w <| field ::= f |>) = answers w
}.

(** ** Lemmas *)

Lemma W_bind_inl {A B} (m : W A) (f : A -> W B) w w' a : m w = (w', inl a) -> (m ≫= f) w = f a w'.
Proof. intros H. unfold mbind, W_bind. by rewrite H. Qed.

Lemma drive_ok w : answers w = [] -> drive w = (w, inl true).
Proof. intros H. unfold drive. by rewrite H. Qed.

#[export] Instance Orig_field : StatementField m_stmtOrig. Proof. split; try done; by intros []. Qed.
#[export] Instance Final_field : StatementField m_stmtFinal. Proof. split; try done; by intros []. Qed.
#[export] Instance Cancel_field : StatementField m_stmtCancel. Proof. split; try done; by intros []. Qed.
#[export] Instance Term1_field : StatementField m_stmtTerm1. Proof. split; try done; by intros []. Qed.
#[export] Instance Term2_field : StatementField m_stmtTerm2. Proof. split; try done; by intros []. Qed.
#[export] Instance Bye1_field : StatementField m_stmtBye1. Proof. split; try done; by intros []. Qed.
#[export] Instance Bye2_field : StatementField m_stmtBye2. Proof. split; try done; by intros []. Qed.

Section RunStmt.
Context (field : CdrWriter -> option Statement) `{!Updater field} `{!StatementField field}.

(** Writing down that the statement is [s]. *)
#[local] Abbreviation with_ w s := (w <| field ::= fun _ => Some s |>).

Lemma on_stmt_ok f w s :
  answers w = [] -> on_stmt field f (with_ w s) = (with_ w (f s), inl tt).
Proof.
  intros H. unfold on_stmt. rewrite (W_bind_inl _ _ _ (with_ w s) true)
    by (by rewrite drive_ok by (by rewrite field_answers)).
  unfold wset. rewrite field_set. done.
Qed.

Lemma set_params_ok l : forall w s,
  answers w = [] ->
  set_params field l (with_ w s) = (with_ w (s <| st_params ::= fun l0 => l0 ++ l |>), inl tt).
Proof.
  induction l as [|[i p] l IH]; intros w s H; simpl.
  { destruct s. simpl. by rewrite app_nil_r. }
  unfold set_param. rewrite (W_bind_inl _ _ _ _ tt (on_stmt_ok _ w s H)), IH by done. simpl. by rewrite <- app_assoc.
Qed.

Lemma run_stmt_ok name conn params w c :
  answers w = [] -> stmt_conn conn (field w) = c ->
  run_stmt field name conn params w =
    ((with_ w (mkStatement c params)) <| executed ::= fun l => l ++ [mkRow name c params] |>, inl tt).
Proof.
  intros H Hp. unfold run_stmt.
  assert (exists s, st_conn s = c /\ prepare field conn w = (with_ w s, inl tt)) as (s & Hs & E).
  { unfold prepare, wget, mbind, W_bind, mret, W_ret. destruct (field w) as [s|] eqn:Ef.
    - exists s. split; [done|]. by rewrite <- Ef, field_same.
    - rewrite drive_ok by done. exists (mkStatement conn []). by split. }
  rewrite (W_bind_inl _ _ _ _ tt E).
  unfold clearParameters. rewrite (W_bind_inl _ _ _ _ tt (on_stmt_ok _ w s H)).
  rewrite (W_bind_inl _ _ _ _ tt (set_params_ok _ w _ H)).
  unfold executeUpdate. rewrite (W_bind_inl _ _ _ _ true (drive_ok _ ltac:(by rewrite field_answers))).
  unfold mbind, W_bind, wget, wset. rewrite field_get. simpl. by rewrite Hs.
Qed.
End RunStmt.

Lemma prepared_stmt_conn conn o : prepared_on conn o -> stmt_conn conn o = conn.
Proof. by destruct o. Qed.

Ltac finish_write := eexists; (split; [reflexivity|]); simpl; rewrite <- ?app_assoc;
  repeat (split; [done|]); unfold stmts; simpl; repeat constructor; done.

Lemma write_by_type_ok c conn w :
  answers w = [] -> Forall (prepared_on conn) (stmts w) ->
  exists w', write_by_type c conn w = (w', inl tt) /\ wrote conn (rows_of c conn) w w'.
Proof.
  intros Ha Hs. unfold stmts in Hs.
  repeat match goal with H : Forall _ (_ :: _) |- _ => apply Forall_cons in H as [? H] end.
  unfold write_by_type, rows_of, writeOriginationRequestCdr, writeOriginationFinalResponseCdr,
    writeOriginationCancelCdr, writeTerminationAttemptCdr, writeByeCdr, guarded, wrote.
  destruct (m_cdrType c).
  - rewrite (run_stmt_ok m_stmtOrig Orig conn _ _ conn) by (done || by apply prepared_stmt_conn). finish_write.
  - rewrite (run_stmt_ok m_stmtFinal Final conn _ _ conn) by (done || by apply prepared_stmt_conn). finish_write.
  - rewrite (run_stmt_ok m_stmtCancel Cancel conn _ _ conn) by (done || by apply prepared_stmt_conn). finish_write.
  - rewrite (W_bind_inl _ _ _ _ tt (run_stmt_ok m_stmtTerm1 Term1 conn (params_Term1 c) w conn Ha ltac:(by apply prepared_stmt_conn))).
    rewrite (run_stmt_ok m_stmtTerm2 Term2 conn _ _ conn) by (done || by apply prepared_stmt_conn). finish_write.
  - rewrite (W_bind_inl _ _ _ _ tt (run_stmt_ok m_stmtBye1 Bye1 conn (params_Bye1 c) w conn Ha ltac:(by apply prepared_stmt_conn))).
    rewrite (run_stmt_ok m_stmtBye2 Bye2 conn _ _ conn) by (done || by apply prepared_stmt_conn). finish_write.
Qed.

Lemma getConnection_ok w :
  answers w = [] -> healthy w ->
  exists w', getConnection w = (w', inl (Some 0)) /\ answers w' = [] /\ next_connection w' = 1 /\
    m_vecConnection w' = [] /\ executed w' = executed w /\ Forall (prepared_on 0) (stmts w').
Proof.
  intros Ha Hh. unfold getConnection, connect, catch_sql, wget, wset, mbind, W_bind, mret, W_ret.
  destruct Hh as [(Hn & Hp & Hs)|(Hn & Hp & Hs)]; rewrite Hp.
  - cbv beta. rewrite (drive_ok w) by done. cbv beta iota. simpl. rewrite Hn. unfold drive. simpl. rewrite Ha. simpl.
    eexists. split; [reflexivity|]. simpl. repeat (split; [done|]).
    change (Forall (prepared_on 0) (stmts w)). eapply Forall_impl; [exact Hs|]. by intros o ->.
  - eexists. split; [reflexivity|]. by repeat (split; [done|]).
Qed.

Lemma writeCdr_ok c w :
  answers w = [] -> healthy w ->
  answers (writeCdr c w) = [] /\ healthy (writeCdr c w) /\ executed (writeCdr c w) = executed w ++ rows_of c 0.
Proof.
  intros Ha Hh. destruct (getConnection_ok w Ha Hh) as (w1 & E1 & Ha1 & Hn1 & Hp1 & He1 & Hs1).
  destruct (write_by_type_ok c 0 w1 Ha1 Hs1) as (w2 & E2 & Ha2 & Hn2 & Hp2 & He2 & Hs2).
  unfold writeCdr, handle_errors, with_connection. rewrite (W_bind_inl _ _ _ _ (Some 0) E1).
  rewrite (W_bind_inl _ _ _ _ tt E2). unfold releaseConnection, wset. simpl.
  split; [done|]. split; [|by rewrite He2, He1].
  right. simpl. split; [by rewrite Hn2|]. split; [by rewrite Hp2, Hp1|done].
Qed.

Lemma writes_ok cs : forall w, answers w = [] -> healthy w ->
  executed (foldl (fun w c => writeCdr c w) w cs) = executed w ++ concat (map (fun c => rows_of c 0) cs) /\
  healthy (foldl (fun w c => writeCdr c w) w cs).
Proof.
  induction cs as [|c cs IH]; intros w Ha Hh; simpl; [by rewrite app_nil_r|].
  destruct (writeCdr_ok c w Ha Hh) as (Ha' & Hh' & He').
  destruct (IH _ Ha' Hh') as [-> ?]. split; [|done]. by rewrite He', app_assoc.
Qed.

(** What the worker takes from the queue: the pointer, and the record as it is
    then. *)
Definition taken_now (e : queue_event) (q : Queue) : list (Z * option CdrInfo) :=
  match e, posted q with QWork, p :: _ => [(p, store q !! p)] | _, _ => [] end.

Fixpoint taken (es : list queue_event) (q : Queue) : list (Z * option CdrInfo) :=
  match es with [] => [] | e :: es => taken_now e q ++ taken es (queue_step e q) end.

(** What is posted. *)
Definition posts (es : list queue_event) : list Z := omap (fun e => match e with QPost p => Some p | _ => None end) es.

Lemma queue_order es : forall q, posted q ++ posts es = map fst (taken es q) ++ posted (queue_run es q).
Proof.
  induction es as [|e es IH]; intros q; [by rewrite app_nil_r|].
  change (queue_run (e :: es) q) with (queue_run es (queue_step e q)). simpl taken. rewrite map_app, <- app_assoc, <- IH.
  destruct e as [p c|p f|p|].
  - reflexivity.
  - reflexivity.
  - change (posted (queue_step (QPost p) q)) with (posted q ++ [p]). by rewrite <- app_assoc.
  - unfold taken_now, queue_step. destruct (posted q) as [|p l] eqn:E; [by rewrite E|]. by destruct (store q !! p).
Qed.

Lemma queue_writes es : forall q,
  writer (queue_run es q) = foldl (fun w c => writeCdr c w) (writer q) (omap snd (taken es q)).
Proof.
  induction es as [|e es IH]; intros q; [done|].
  change (queue_run (e :: es) q) with (queue_run es (queue_step e q)). simpl taken. rewrite IH, omap_app, foldl_app. f_equal.
  destruct e as [p c|p f|p|]; unfold taken_now, queue_step; simpl; try done.
  destruct (posted q) as [|p l]; [done|]. simpl. by destruct (store q !! p).
Qed.

Lemma queue_drains n : forall q, (length (posted q) <= n)%nat -> posted (queue_run (replicate n QWork) q) = [].
Proof.
  induction n as [|n IH]; intros q Hn.
  { apply nil_length_inv. change (length (posted q) = 0%nat). lia. }
  change (queue_run (replicate (S n) QWork) q) with (queue_run (replicate n QWork) (queue_step QWork q)). apply IH.
  unfold queue_step. destruct (posted q) as [|p l] eqn:E; [rewrite E; simpl; lia|]. simpl in Hn.
  destruct (store q !! p); simpl; lia.
Qed.

(** ** Properties *)

(** C33: Every record that is posted reaches the database once, and in order.
    Whatever the controller does with its records meanwhile, what was posted is
    what the worker has taken, in that order, followed by what still waits;
    while the database answers without error, the statements executed are
    those of the records taken, each as it was when it was taken, all on one
    connection; and the worker gets through what waits. *)
Theorem posted_records_are_written (es : list queue_event) (q : Queue) :
  answers (writer q) = [] -> healthy (writer q) ->
  let q' := queue_run es q in
  posted q ++ posts es = map fst (taken es q) ++ posted q' /\
  executed (writer q') = executed (writer q) ++ concat (map (fun c => rows_of c 0) (omap snd (taken es q))) /\
  forall n, (length (posted q') <= n)%nat -> posted (queue_run (replicate n QWork) q') = [].
Proof.
  intros Ha Hh q'. split; [apply queue_order|]. split; [|intros n; apply queue_drains].
  unfold q'. rewrite queue_writes. by apply writes_ok.
Qed.

Lemma posted_records_are_written_witness :
  map r_stmt (executed (writer (queue_run
    [QNew 1 (new_CdrInfo origination_request); QPost 1; QWork; QChange 1 (setCdrType origination_cancel); QPost 1; QWork]
    (mkQueue ∅ [] (new_CdrWriter []))))) = [Orig; Cancel].
Proof.
  destruct (posted_records_are_written
    [QNew 1 (new_CdrInfo origination_request); QPost 1; QWork; QChange 1 (setCdrType origination_cancel); QPost 1; QWork]
    (mkQueue ∅ [] (new_CdrWriter []))) as (_ & H & _).
  - reflexivity.
  - left. split; [reflexivity|]. split; [reflexivity|]. repeat constructor.
  - rewrite H. reflexivity.
Defined.

(** Every record becomes its rows.  While the database answers without
    error, writing any sequence of records executes, in the order of the
    records, exactly the statements each record's type calls for, with its
    parameters, all on one and the same connection. *)
Theorem writeCdr_rows (cs : list CdrInfo) (w : CdrWriter) :
  answers w = [] -> healthy w ->
  executed (foldl (fun w c => writeCdr c w) w cs) = executed w ++ concat (map (fun c => rows_of c 0) cs) /\
  healthy (foldl (fun w c => writeCdr c w) w cs).
Proof. apply writes_ok. Qed.

Lemma writeCdr_rows_witness :
  map r_stmt (executed (foldl (fun w c => writeCdr c w) (new_CdrWriter [])
    [new_CdrInfo origination_request; new_CdrInfo termination_attempt])) = [Orig; Term1; Term2].
Proof.
  destruct (writeCdr_rows [new_CdrInfo origination_request; new_CdrInfo termination_attempt] (new_CdrWriter []))
    as [H _].
  - reflexivity.
  - left. split; [reflexivity|]. split; [reflexivity|]. repeat constructor.
  - rewrite H. reflexivity.
Defined.

(** *** Errors *)

Lemma getConnection_pool w w' r :
  getConnection w = (w', r) -> (length (m_vecConnection w) <= 1)%nat -> (length (m_vecConnection w') = 0)%nat.
Proof.
  unfold getConnection, connect, catch_sql, drive, wget, wset, mbind, W_bind, mret, W_ret. intros H Hl.
  destruct (m_vecConnection w) as [|conn [|]] eqn:Ep; simpl in Hl; [| |lia].
  2:{ by injection H as <- <-. }
  cbv beta in H.
  destruct (answers w) as [|[| |code|] [|[| |code1|] [|[| |code2|] ans]]] eqn:Ea; simpl in H;
    rewrite ?Ea in H; simpl in H; injection H as <- <-; simpl; by rewrite ?Ep.
Qed.

Lemma same_pool_bind {A B} (m : W A) (f : A -> W B) :
  same_pool m -> (forall a, same_pool (f a)) -> same_pool (m ≫= f).
Proof.
  intros Hm Hf w. unfold mbind, W_bind. specialize (Hm w). destruct (m w) as [w1 [a|e]]; [|done].
  by rewrite Hf.
Qed.

Lemma same_pool_drive : same_pool drive.
Proof. intros w. unfold drive. by destruct (answers w) as [|[] ?]. Qed.

Lemma same_pool_wset f : (forall w, m_vecConnection (f w) = m_vecConnection w) -> same_pool (wset f).
Proof. intros H w. apply H. Qed.

Lemma same_pool_wget {A} (f : CdrWriter -> A) : same_pool (wget f).
Proof. done. Qed.

Lemma same_pool_ret {A} (a : A) : same_pool (mret a).
Proof. done. Qed.

Lemma same_pool_guarded reset m :
  (forall w, m_vecConnection (reset w) = m_vecConnection w) -> same_pool m -> same_pool (guarded reset m).
Proof.
  intros Hr Hm w. unfold guarded. specialize (Hm w).
  destruct (m w) as [w1 [u|[code|]]]; simpl in *; [done| |done]. destruct (lost code); simpl; [by rewrite Hr|done].
Qed.

Section SamePool.
Context (field : CdrWriter -> option Statement) `{!Updater field}.
Context (Hfield : forall f w, m_vecConnection (w <| field ::= f |>) = m_vecConnection w).

Lemma same_pool_on_stmt f : same_pool (on_stmt field f).
Proof. apply same_pool_bind; [apply same_pool_drive|]. intros _. by apply same_pool_wset. Qed.

Lemma same_pool_set_params l : same_pool (set_params field l).
Proof.
  induction l as [|[i p] l IH]; simpl; [apply same_pool_ret|].
  apply same_pool_bind; [apply same_pool_on_stmt|]. done.
Qed.

Lemma same_pool_run_stmt name conn l : same_pool (run_stmt field name conn l).
Proof.
  unfold run_stmt. apply same_pool_bind.
  { unfold prepare. apply same_pool_bind; [apply same_pool_wget|]. intros [s|]; [apply same_pool_ret|].
    apply same_pool_bind; [apply same_pool_drive|]. intros _. by apply same_pool_wset. }
  intros _. apply same_pool_bind; [apply same_pool_on_stmt|]. intros _.
  apply same_pool_bind; [apply same_pool_set_params|]. intros _.
  unfold executeUpdate. apply same_pool_bind; [apply same_pool_drive|]. intros _.
  apply same_pool_bind; [apply same_pool_wget|]. intros [s|]; [by apply same_pool_wset|apply same_pool_ret].
Qed.
End SamePool.

Lemma same_pool_write c conn : same_pool (write_by_type c conn).
Proof.
  unfold write_by_type. destruct (m_cdrType c); apply same_pool_guarded; try done;
    repeat first [by apply same_pool_run_stmt | apply same_pool_bind; [|intros _]].
Qed.

Lemma handle_errors_pool body w :
  (forall conn, same_pool (body conn)) -> (length (m_vecConnection w) <= 1)%nat ->
  (length (m_vecConnection (handle_errors (with_connection body) w)) <= 1)%nat.
Proof.
  intros Hbody Hl. unfold handle_errors, with_connection, mbind, W_bind.
  destruct (getConnection w) as [w1 [[conn|]|e]] eqn:E; apply getConnection_pool in E; try done.
  - specialize (Hbody conn w1). destruct (body conn w1) as [w2 [[]|[code|]]]; simpl in *.
    + rewrite Hbody, length_app. simpl. lia.
    + destruct (lost code); simpl; [lia|]. rewrite Hbody. lia.
    + rewrite Hbody. lia.
  - simpl. lia.
  - destruct e as [code|]; [destruct (lost code)|]; simpl; lia.
Qed.

(** The pool never grows.  Whatever the database answers, writing a record
    and testing the connection let no exception out and leave at most one
    connection in the pool, and the test is scheduled again. *)
Theorem pool_at_most_one (c : CdrInfo) (w : CdrWriter) :
  (length (m_vecConnection w) <= 1)%nat ->
  (length (m_vecConnection (writeCdr c w)) <= 1)%nat /\
  (length (m_vecConnection (timer_handler w)) <= 1)%nat /\ m_timerSqlTest (timer_handler w) = true.
Proof.
  intros Hl. split; [apply handle_errors_pool; [apply same_pool_write|done]|]. split; [|done].
  apply (handle_errors_pool (fun _ => drive;; drive;; mret tt)); [|done]. intros conn.
  repeat (apply same_pool_bind; [apply same_pool_drive|]; intros ?). apply same_pool_ret.
Qed.

Lemma pool_at_most_one_witness :
  (length (m_vecConnection (writeCdr (new_CdrInfo call_cleared) (new_CdrWriter [ans_ok; ans_sql 1045]))) <= 1)%nat.
Proof. apply pool_at_most_one. simpl. lia. Defined.

(** After the connection is lost.  When the database answers the first
    call for a record with a lost-connection error, nothing is executed for
    it and it is not tried again; the pool is emptied, but only the statements
    of that record's type are reset.  The next record opens a new connection,
    and if it is of another type whose statement was already prepared, that
    statement is still the one of the lost connection. *)
Theorem lost_connection_keeps_statements (c d : CdrInfo) (w : CdrWriter) (code : Z) (s : Statement) :
  answers w = [ans_sql code] -> lost code = true -> m_vecConnection w = [0] -> next_connection w = 1 ->
  Forall (prepared_on 0) (stmts w) ->
  m_cdrType c = origination_request -> m_cdrType d = origination_cancel ->
  m_stmtOrig w = Some (mkStatement 0 []) -> m_stmtCancel w = Some s ->
  let w1 := writeCdr c w in
  m_vecConnection w1 = [] /\ executed w1 = executed w /\ m_stmtOrig w1 = None /\ m_stmtCancel w1 = Some s /\
  let w2 := writeCdr d w1 in
  m_vecConnection w2 = [1] /\ executed w2 = executed w ++ [mkRow Cancel 0 (params_Cancel d)].
Proof.
  intros Ha Hlost Hp Hn Hs Hc Hd Ho Hcan w1.
  assert (w1 = w <| answers := [] |> <| m_vecConnection := [] |> <| m_stmtOrig := None |>) as E.
  { unfold w1, writeCdr, handle_errors, with_connection, getConnection, wget, wset, mbind, W_bind, mret, W_ret.
    rewrite Hp. simpl. unfold write_by_type. rewrite Hc.
    unfold writeOriginationRequestCdr, guarded, run_stmt, prepare, clearParameters, on_stmt, wget, wset,
      mbind, W_bind, mret, W_ret. simpl. rewrite Ho. unfold drive. simpl. rewrite Ha. simpl. rewrite Hlost. simpl. by rewrite Hlost. }
  rewrite E. do 4 (split; [done|]). cbv zeta.
  assert (st_conn s = 0) as Hst.
  { rewrite Forall_forall in Hs. apply (Hs (Some s)). rewrite <- Hcan. do 2 right. left. }
  unfold writeCdr, handle_errors, with_connection, getConnection, connect, catch_sql, drive, wget, wset,
    mbind, W_bind, mret, W_ret. simpl. rewrite Hn. unfold write_by_type. rewrite Hd. simpl.
  unfold writeOriginationCancelCdr, guarded.
  rewrite (run_stmt_ok m_stmtCancel Cancel _ _ _ 0); [by split|done|by simpl; rewrite Hcan].
Qed.

Lemma lost_connection_keeps_statements_witness :
  executed (writeCdr (new_CdrInfo origination_cancel) (writeCdr (new_CdrInfo origination_request)
    (mkWriter [0] (Some (mkStatement 0 [])) None (Some (mkStatement 0 [])) None None None None true 1
       [ans_sql 2006] []))) = [mkRow Cancel 0 (params_Cancel (new_CdrInfo origination_cancel))].
Proof.
  refine (proj2 (proj2 (proj2 (proj2 (proj2 (lost_connection_keeps_statements
    (new_CdrInfo origination_request) (new_CdrInfo origination_cancel)
    (mkWriter [0] (Some (mkStatement 0 [])) None (Some (mkStatement 0 [])) None None None None true 1
       [ans_sql 2006] []) 2006 (mkStatement 0 []) _ _ _ _ _ _ _ _ _))))));
    try reflexivity. repeat constructor.
Defined.

(** *** The queue shares its records *)

(** A record posted twice before the worker runs.  The queue holds
    pointers: when a record is posted for the start of a call, then changed and
    posted again for its end before the worker gets to it, the row of the start
    is never inserted; the worker updates it twice instead.  When the worker
    runs in between, both are written. *)
Theorem posted_record_is_shared (p : Z) (c : CdrInfo) (f : CdrInfo -> CdrInfo) (q : Queue) :
  posted q = [] -> answers (writer q) = [] -> healthy (writer q) ->
  m_cdrType c = origination_request -> m_cdrType (f c) = origination_cancel ->
  executed (writer (queue_run [QNew p c; QPost p; QChange p f; QPost p; QWork; QWork] q)) =
    executed (writer q) ++ [mkRow Cancel 0 (params_Cancel (f c)); mkRow Cancel 0 (params_Cancel (f c))] /\
  executed (writer (queue_run [QNew p c; QPost p; QWork; QChange p f; QPost p; QWork] q)) =
    executed (writer q) ++ [mkRow Orig 0 (params_Orig c); mkRow Cancel 0 (params_Cancel (f c))].
Proof.
  intros Hp Ha Hh Hc Hf. unfold queue_run. simpl. rewrite Hp. simpl.
  rewrite !lookup_alter_eq, !lookup_insert_eq. simpl. rewrite !lookup_alter_eq, !lookup_insert_eq. simpl.
  assert (forall c1 c2, executed (writeCdr c2 (writeCdr c1 (writer q))) =
    executed (writer q) ++ rows_of c1 0 ++ rows_of c2 0) as E.
  { intros c1 c2. destruct (writeCdr_ok c1 (writer q) Ha Hh) as (Ha1 & Hh1 & He1).
    destruct (writeCdr_ok c2 _ Ha1 Hh1) as (_ & _ & ->). by rewrite He1, <- app_assoc. }
  rewrite !E. unfold rows_of. by rewrite Hc, Hf.
Qed.

Lemma posted_record_is_shared_witness :
  map r_stmt (executed (writer (queue_run
    [QNew 1 (new_CdrInfo origination_request); QPost 1; QChange 1 (setCdrType origination_cancel); QPost 1; QWork; QWork]
    (mkQueue ∅ [] (new_CdrWriter []))))) = [Cancel; Cancel].
Proof.
  destruct (posted_record_is_shared 1 (new_CdrInfo origination_request) (setCdrType origination_cancel)
    (mkQueue ∅ [] (new_CdrWriter []))) as [H _]; [reflexivity|reflexivity| |reflexivity|reflexivity|].
  - left. split; [reflexivity|]. split; [reflexivity|]. repeat constructor.
  - rewrite H. reflexivity.
Defined.
