(* ===== verification/TrunkStats.v ===== *)
(** * TrunkStats: attempts and failures of an outbound trunk

    [TrunkStats] of [ssp-controller.h] (lines 109-163): a counter of attempts
    and an array of failure counters indexed by SIP status, all of 64 bits. *)

From S2P Require Import Prelude Text.

(** ** Data *)

Record TrunkStats := mkTrunkStats {
  m_strAddress : string;
  m_strCarrier : string;
  m_attempts : Z;
  m_fails : list Z
}.

#[export] Instance TrunkStats_rebuild : Rebuild TrunkStats := fun t =>
  mkTrunkStats (m_strAddress t) (m_strCarrier t) (m_attempts t) (m_fails t).

Definition MAX_STATUS : Z := 700.

Definition no_fails : list Z := replicate 700 0.

Definition new_TrunkStats (strAddress strCarrier : string) : TrunkStats :=
  mkTrunkStats strAddress strCarrier 0 no_fails.

(** ** Operations *)

(** When the counter of attempts wraps around, the failures are cleared too. *)
Definition incrementAttemptCount (t : TrunkStats) : TrunkStats :=
  let t := t <| m_attempts ::= fun n => wrap64 (n + 1) |> in
  if 0 =? m_attempts t then t <| m_fails := no_fails |> else t.

(** [status] is converted to [unsigned int] by the caller. *)
Definition incrementFailureCount (status : Z) (t : TrunkStats) : outcome TrunkStats :=
  if negb (status <? MAX_STATUS) then Fault AssertFailed
  else Ok (t <| m_fails ::= alter (fun n => wrap64 (n + 1)) (Z.to_nat status) |>).

Definition getAttemptCount (t : TrunkStats) : Z := m_attempts t.

(** [getFailureCount()] and [getFailureCount( status )]. *)
Definition getFailureCount (t : TrunkStats) : Z := foldl (fun total n => wrap64 (total + n)) 0 (m_fails t).
Definition getFailureCount_of (status : Z) (t : TrunkStats) : Z :=
  if MAX_STATUS <=? status then wrap64 (-1) else default 0 (m_fails t !! Z.to_nat status).

Definition reset (t : TrunkStats) : TrunkStats := t <| m_attempts := 0 |> <| m_fails := no_fails |>.

(** What the controller does with a trunk: an attempt, or the failure of one. *)
Inductive trunk_event := TAttempt | TFailure (status : Z).

Fixpoint record_events (es : list trunk_event) (t : TrunkStats) : outcome TrunkStats :=
  match es with
  | [] => mret t
  | TAttempt :: es => record_events es (incrementAttemptCount t)
  | TFailure status :: es => t ← incrementFailureCount status t; record_events es t
  end.

Definition failures (es : list trunk_event) : list Z :=
  omap (fun e => match e with TFailure s => Some s | _ => None end) es.
Definition attempts (es : list trunk_event) : Z :=
  Z.of_nat (length (List.filter (fun e => match e with TAttempt => true | _ => false end) es)).

Definition count_of (status : Z) (l : list Z) : Z := Z.of_nat (length (List.filter (Z.eqb status) l)).

(** The exact sum of the counters. *)
Definition sum (l : list Z) : Z := foldr Z.add 0 l.

(** ** Lemmas *)

Lemma foldl_sum l : forall acc, 0 <= acc -> Forall (fun n => 0 <= n) l -> acc + sum l < 2^64 ->
  foldl (fun total n => wrap64 (total + n)) acc l = acc + sum l.
Proof.
  induction l as [|n l IH]; intros acc Ha Hl Hs; simpl in *; [lia|]. apply Forall_cons in Hl as [Hn Hl].
  assert (0 <= sum l) by (clear - Hl; induction Hl; simpl; lia).
  rewrite wrap64_small by (unfold is_u64; lia). rewrite IH by (done || lia). lia.
Qed.

Lemma sum_alter l k n : l !! k = Some n -> sum (alter (fun n => n + 1) k l) = sum l + 1.
Proof.
  revert k. induction l as [|m l IH]; intros [|k]; simpl; try done; [intros [= ->]; lia|].
  intros H. unfold alter in IH. rewrite IH by done. lia.
Qed.

Lemma count_of_cons s x l : count_of s (x :: l) = (if s =? x then 1 else 0) + count_of s l.
Proof. unfold count_of. simpl. destruct (s =? x); simpl; lia. Qed.

Lemma attempts_cons e es : attempts (e :: es) = (match e with TAttempt => 1 | _ => 0 end) + attempts es.
Proof. unfold attempts. destruct e; simpl; lia. Qed.

(** Counters that stay below 2^64: what a run of events adds to them. *)
Lemma record_events_spec es : forall t,
  length (m_fails t) = 700%nat -> Forall (fun n => 0 <= n) (m_fails t) -> 0 <= m_attempts t ->
  m_attempts t + attempts es < 2^64 -> sum (m_fails t) + Z.of_nat (length (failures es)) < 2^64 ->
  Forall (fun s => 0 <= s < MAX_STATUS) (failures es) ->
  exists t', record_events es t = Ok t' /\ m_attempts t' = m_attempts t + attempts es /\
    getFailureCount t' = sum (m_fails t) + Z.of_nat (length (failures es)) /\
    forall s, 0 <= s < MAX_STATUS ->
      getFailureCount_of s t' = getFailureCount_of s t + count_of s (failures es).
Proof.
  induction es as [|e es IH]; intros t Hl Hp Ha Hat Hf Hs.
  { exists t. split; [done|]. unfold attempts, count_of. simpl in *. split; [lia|].
    split; [|intros; lia]. unfold getFailureCount. rewrite (foldl_sum _ 0); first [lia|assumption|idtac]. }
  rewrite attempts_cons in *. destruct e as [|st]; simpl record_events.
  - assert (incrementAttemptCount t = t <| m_attempts := m_attempts t + 1 |>) as ->.
    { unfold incrementAttemptCount. simpl.
      assert (0 <= attempts es) by (unfold attempts; lia).
      rewrite wrap64_small by (unfold is_u64; lia). destruct (m_attempts t + 1) eqn:?; [lia|done|lia]. }
    destruct (IH (t <| m_attempts := m_attempts t + 1 |>)) as (t' & E & H1 & H2 & H3); try done; simpl; try lia.
    exists t'. split; [done|]. simpl in *. split; [lia|]. by split.
  - simpl in Hs, Hf. apply Forall_cons in Hs as [Hst Hs]. unfold MAX_STATUS in Hst.
    unfold incrementFailureCount. destruct (Z.ltb_spec st MAX_STATUS); [|unfold MAX_STATUS in *; lia].
    destruct (lookup_lt_is_Some_2 (m_fails t) (Z.to_nat st)) as [n Hn]; [lia|].
    assert (0 <= n) as Hn0 by (rewrite Forall_lookup in Hp; by eapply Hp).
    assert (n <= sum (m_fails t)) as Hns.
    { clear - Hn Hp. revert Hn. generalize (Z.to_nat st). induction Hp as [|m l Hm Hl IH]; intros k; [done|].
      assert (0 <= sum l) by (clear - Hl; induction Hl; simpl; lia).
      destruct k; simpl; [intros [= ->]; lia|]. intros H'%IH. lia. }
    set (fails := alter (fun n => n + 1) (Z.to_nat st) (m_fails t)).
    assert (alter (fun n => wrap64 (n + 1)) (Z.to_nat st) (m_fails t) = fails) as E.
    { unfold fails. apply list_eq. intros k. destruct (decide (k = Z.to_nat st)) as [->|].
      - rewrite !list_lookup_alter_eq, Hn. simpl. f_equal. apply wrap64_small. unfold is_u64. lia.
      - by rewrite !list_lookup_alter_ne by done. }
    simpl. rewrite E. unfold mbind, outcome_bind. simpl.
    assert (sum fails = sum (m_fails t) + 1) as Hsum by (by eapply sum_alter).
    destruct (IH (t <| m_fails := fails |>)) as (t' & E' & H1 & H2 & H3); simpl; try done; try lia.
    { unfold fails. by rewrite length_alter. }
    { unfold fails. apply Forall_lookup. intros k x Hk. rewrite Forall_lookup in Hp.
      destruct (decide (k = Z.to_nat st)) as [->|].
      - rewrite list_lookup_alter_eq, Hn in Hk. injection Hk as <-. lia.
      - rewrite list_lookup_alter_ne in Hk by done. by eapply Hp. }
    exists t'. split; [done|]. simpl in *. split; [lia|]. split; [lia|].
    intros s Hs'. rewrite H3 by done. rewrite count_of_cons. unfold getFailureCount_of. simpl.
    destruct (Z.leb_spec MAX_STATUS s); [lia|]. unfold fails.
    destruct (Z.eqb_spec s st) as [->|Hne].
    + rewrite list_lookup_alter_eq, Hn. simpl. lia.
    + rewrite list_lookup_alter_ne by lia. lia.
Qed.

Lemma new_trunk_statistics (address carrier : string) (es : list trunk_event) :
  attempts es < 2^64 -> Z.of_nat (length (failures es)) < 2^64 ->
  Forall (fun s => 0 <= s < MAX_STATUS) (failures es) ->
  exists t, record_events es (new_TrunkStats address carrier) = Ok t /\
    getAttemptCount t = attempts es /\ getFailureCount t = Z.of_nat (length (failures es)) /\
    forall s, 0 <= s < MAX_STATUS -> getFailureCount_of s t = count_of s (failures es).
Proof.
  intros Ha Hf Hs.
  assert (sum no_fails = 0) as H0 by (vm_compute; done).
  assert (Forall (fun n => 0 <= n) no_fails) as H1 by (apply Forall_replicate; lia).
  destruct (record_events_spec es (new_TrunkStats address carrier)) as (t & E & H2 & H3 & H4).
  { done. }
  { exact H1. }
  { done. }
  { exact Ha. }
  { cbn [m_fails new_TrunkStats]. rewrite H0. lia. }
  { exact Hs. }
  exists t. split; [done|]. unfold getAttemptCount. cbn [m_fails m_attempts new_TrunkStats] in *.
  rewrite H0 in H3. split; [lia|]. split; [lia|].
  intros s Hs'. rewrite H4 by done. unfold getFailureCount_of. cbn [m_fails new_TrunkStats].
  destruct (Z.leb_spec MAX_STATUS s); [lia|]. unfold no_fails, MAX_STATUS in *.
  rewrite lookup_replicate_2 by lia. simpl. lia.
Qed.

Lemma record_events_names es : forall t t',
  record_events es t = Ok t' -> m_strAddress t' = m_strAddress t /\ m_strCarrier t' = m_strCarrier t.
Proof.
  induction es as [|[|status] es IH]; intros t t'; simpl; [by intros [= <-]|..].
  - intros [-> ->]%IH. unfold incrementAttemptCount. by destruct (0 =? _).
  - unfold mbind, outcome_bind. destruct (incrementFailureCount status t) as [t1|] eqn:E; [|done].
    intros [-> ->]%IH. unfold incrementFailureCount in E. destruct (negb _); [done|]. by injection E as <-.
Qed.

(** ** Properties *)

(** C34: The statistics are right.  For fewer than 2^64 attempts and failures,
    all with a status below 700, the counters are, after any sequence of
    events since the start, the number of attempts, the number of failures in
    all and the number of failures with each status; no assertion fails. *)
Theorem trunk_statistics (address carrier : string) (es : list trunk_event) :
  attempts es < 2^64 -> Z.of_nat (length (failures es)) < 2^64 ->
  Forall (fun s => 0 <= s < MAX_STATUS) (failures es) ->
  exists t, record_events es (new_TrunkStats address carrier) = Ok t /\
    getAttemptCount t = attempts es /\ getFailureCount t = Z.of_nat (length (failures es)) /\
    forall s, 0 <= s < MAX_STATUS -> getFailureCount_of s t = count_of s (failures es).
Proof. exact (new_trunk_statistics address carrier es). Qed.

Lemma trunk_statistics_witness :
  exists t, record_events [TAttempt; TFailure 503; TAttempt; TFailure 503; TAttempt] (new_TrunkStats "10.10.10.1" "im") = Ok t /\
    getAttemptCount t = 3 /\ getFailureCount t = 2.
Proof.
  destruct (trunk_statistics "10.10.10.1" "im" [TAttempt; TFailure 503; TAttempt; TFailure 503; TAttempt])
    as (t & H1 & H2 & H3 & _).
  - vm_compute. reflexivity.
  - vm_compute. reflexivity.
  - repeat constructor; vm_compute; congruence.
  - exists t. split; [exact H1|]. split; [exact H2|exact H3].
Defined.
