(* ===== verification/CallControl.v ===== *)
(** * CallControl: the proxy in stateful mode

    [SipLbController] of [ssp-controller.h] and [ssp-controller.cpp] (lines
    859-1947): the tables of transactions, dialogs, termination attempts and
    trunks, and the callbacks that the SIP stack runs.  The calls made to the
    stack are recorded in order; the handles and leg lookups it answers with,
    the time of day and the random UUID come with each event.  A null handle is
    0.  The configuration and the pool of servers are used through their
    interfaces; call detail records live in the queue of [CdrWriter]. *)

From S2P Require Import Prelude Text Sip Bimap Ssp FsInstance FsMonitor Routes Cdr CdrWriter TrunkStats.

(** ** SIP messages *)

Record url_t := mkUrl {
  url_user : option string;
  url_host : option string;
  url_port : option string
}.

(** A From, To or Contact header. *)
Record addr_t := mkAddr {
  a_display : option string;
  a_url : url_t;
  a_tag : option string
}.

(** A request or a response; a field is [None] when the pointer is null.
    [i_id] is null when the header or its value is. *)
Record sip_t := mkSipT {
  sip_request : option sip_method;
  sip_status : option Z;
  i_id : option string;
  sip_from : option addr_t;
  sip_to : option addr_t;
  sip_contact : option addr_t;
  sip_cseq : option sip_method;
  sip_payload : option string;
  sip_session_expires : option Z;
  sip_min_se : option Z;
  sip_p_asserted_identity : option url_t;
  sip_remote_party_id : option url_t;
  sip_unknown : list (string * string)
}.

(** ** The SIP stack *)

Inductive callback := response_to_invite | response_to_request_inside_dialog.

#[export] Instance callback_eq_dec : EqDecision callback.
Proof. solve_decision. Defined.

(** Where a request goes: a URI, the URI of a Contact, or the remote target of
    its leg (a null URI). *)
Inductive target := ToText (s : string) | ToContact (u : url_t) | ToRemote.

(** The calls made to the stack.  A new leg has the dialog of an incoming
    request ([None]), or a From and a To header of its own.  Of the headers of a
    message those that the proxy writes itself are listed; the ones it copies
    unchanged from the message it passes on are left out. *)
Inductive nta_call :=
| leg_tcreate (leg : Z) (from_to : option (string * string))
| leg_server_route (leg : Z)
| leg_tag (leg : Z) (irq : option Z)
| leg_rtag (leg : Z) (tag : option string)
| leg_client_reroute (leg : Z)
| leg_destroy (leg : Z)
| incoming_bind (irq : Z)
| incoming_treply (irq status : Z) (body : option string) (session_expires : option string)
    (headers : list string)
| incoming_destroy (irq : Z)
| outgoing_tcreate (orq leg : Z) (method : sip_method) (to : target) (cb : option callback)
    (contact : string) (body : option string) (headers : list string)
| outgoing_cancel (orq : Z)
| outgoing_destroy (orq : Z)
| timer_set (timer leg ms : Z)
| timer_destroy (timer : Z).

(** What the stack and the system answer while one callback runs: the handles
    of the A leg, the B leg and the request that are created, the Call-ID of
    that request, the handle of an ACK or BYE, the legs that
    [nta_leg_by_dialog] (for the response, or for the outgoing request) and
    [getLegFromTransaction( irq )] find, a timer, the time and a UUID. *)
Record answers := mkAnswers {
  an_a_leg : Z;
  an_b_leg : Z;
  an_orq : Z;
  an_call_id : string;
  an_ack : Z;
  an_out_leg : Z;
  an_irq_leg : Z;
  an_timer : Z;
  an_now : Z;
  an_uuid : string
}.

(** ** The tables *)

Record TerminationAttempt := mkAttempt {
  m_nAttemptCount : Z;
  m_sip : sip_t;
  m_from : string;
  m_to : string;
  m_contact : string;
  m_p_charge_info_header : string;
  m_url : string;
  m_carrier : string;
  m_sipTrunk : string;
  m_pCdr : option Z
}.

#[export] Instance TerminationAttempt_rebuild : Rebuild TerminationAttempt := fun t =>
  mkAttempt (m_nAttemptCount t) (m_sip t) (m_from t) (m_to t) (m_contact t) (m_p_charge_info_header t)
    (m_url t) (m_carrier t) (m_sipTrunk t) (m_pCdr t).

Record SipDialogInfo := mkDialogInfo {
  m_leg : Z;
  m_bOrigination : bool;
  m_nSessionTimer : Z;
  m_timerSessionRefresh : Z;
  m_localSdp : string;
  di_pCdr : option Z
}.

#[export] Instance SipDialogInfo_rebuild : Rebuild SipDialogInfo := fun d =>
  mkDialogInfo (m_leg d) (m_bOrigination d) (m_nSessionTimer d) (m_timerSessionRefresh d)
    (m_localSdp d) (di_pCdr d).

Definition new_SipDialogInfo (leg : Z) (bOrigination : bool) (nSessionTimer : Z) : SipDialogInfo :=
  mkDialogInfo leg bOrigination nSessionTimer 0 EmptyString None.

(** The return type is [unsigned int]. *)
Definition getSessionTimerSecs (d : SipDialogInfo) : Z := wrap32 (m_nSessionTimer d).

(** The members of the controller that the callbacks use. *)
Record Ctl (P C : Type) := mkCtl {
  m_Config : C;
  m_fsMonitor : P;
  m_cdrWriter : bool;
  m_cdrs : Queue;
  m_nextCdr : Z;
  m_nIterationCount : Z;
  m_nTerminationRetries : Z;
  m_my_contact : url_t;
  m_my_user_agent : string;
  m_transactions : bimap;
  m_dialogs : bimap;
  m_mapTerminationAttempts : gmap Z TerminationAttempt;
  m_mapDialogInfo : gmap Z SipDialogInfo;
  m_mapTrunkStats : gmap string TrunkStats;
  m_calls : list nta_call
}.
Arguments mkCtl {P C}.
Arguments m_Config {P C}.
Arguments m_fsMonitor {P C}.
Arguments m_cdrWriter {P C}.
Arguments m_cdrs {P C}.
Arguments m_nextCdr {P C}.
Arguments m_nIterationCount {P C}.
Arguments m_nTerminationRetries {P C}.
Arguments m_my_contact {P C}.
Arguments m_my_user_agent {P C}.
Arguments m_transactions {P C}.
Arguments m_dialogs {P C}.
Arguments m_mapTerminationAttempts {P C}.
Arguments m_mapDialogInfo {P C}.
Arguments m_mapTrunkStats {P C}.
Arguments m_calls {P C}.

#[export] Instance Ctl_rebuild {P C} : Rebuild (Ctl P C) := fun s =>
  mkCtl (m_Config s) (m_fsMonitor s) (m_cdrWriter s) (m_cdrs s) (m_nextCdr s) (m_nIterationCount s)
    (m_nTerminationRetries s) (m_my_contact s) (m_my_user_agent s) (m_transactions s) (m_dialogs s)
    (m_mapTerminationAttempts s) (m_mapDialogInfo s) (m_mapTrunkStats s) (m_calls s).

(** ** Texts *)

(** A [char*] inserted into a stream: a null pointer puts the stream into a
    failed state, and nothing more is inserted. *)
Definition stream (parts : list (option string)) : string :=
  (fix go (l : list (option string)) : string :=
     match l with
     | Some s :: l => s +:+ go l
     | _ => EmptyString
     end) parts.

(** [if( p && *p )]. *)
Definition non_empty (p : option string) : option string :=
  match p with
  | Some s => if empty_ s then None else Some s
  | None => None
  end.

(** [generateOutgoingFrom], [generateOutgoingTo], [generateOutgoingContact]: the
    same text, of each of the three headers, at this proxy's own address. *)
Definition generateOutgoing (own : url_t) (incoming : addr_t) : string :=
  stream (
    match non_empty (a_display incoming) with Some d => [Some d] | None => [] end ++
    [Some "<sip:"] ++
    match url_user (a_url incoming) with Some u => [Some u; Some "@"] | None => [] end ++
    [url_host own] ++
    match non_empty (url_port own) with Some p => [Some ":"; Some p] | None => [] end ++
    [Some ">"]).

Definition X_SESSION_UUID : string := "X-Session-uuid".
Definition X_AVOKE_BROWSER : string := "X-Avoke-Browser".
Definition X_AVOKE_CALL_ID : string := "X-Avoke-Call-ID".

(** [findCustomHeaderValue]. *)
Definition findCustomHeaderValue (sip : sip_t) (szHeaderName : string) : option string :=
  snd <$> List.find (fun hdr => String.eqb szHeaderName (fst hdr)) (sip_unknown sip).

(** [user.find_first_not_of("+0123456789") == npos] for a non-empty user. *)
Definition phone_user (u : option string) : bool :=
  match non_empty u with
  | Some user => only_chars_of "+0123456789" user
  | None => false
  end.

(** [isAnonymousCall]. *)
Definition isAnonymousCall (sip : sip_t) : bool :=
  if phone_user (u ← sip_p_asserted_identity sip; url_user u) then false
  else if phone_user (u ← sip_remote_party_id sip; url_user u) then false
  else if phone_user (f ← sip_from sip; url_user (a_url f)) then false
  else true.

(** [unordered_map::insert]: nothing happens when the key is present. *)
Definition map_add {K V} `{Countable K} (k : K) (v : V) (m : gmap K V) : gmap K V :=
  match m !! k with Some _ => m | None => <[ k := v ]> m end.

(** ** [TerminationAttempt] *)

(** Without its records: [m_pCdr] is null at first. *)
Definition new_TerminationAttempt (url : string) (sip : sip_t) (from to contact charge carrier sipTrunk : string)
  : TerminationAttempt :=
  mkAttempt 0 sip from to contact charge url carrier sipTrunk None.

(** The two members [crankback], without what the first does to the record. *)
Definition crankback (url carrier sipTrunk chargeNumber : string) (t : TerminationAttempt) : TerminationAttempt :=
  t <| m_url := url |> <| m_carrier := carrier |> <| m_sipTrunk := sipTrunk |>
    <| m_p_charge_info_header := chargeNumber |> <| m_nAttemptCount ::= fun n => wrap32 (n + 1) |>.
Definition crankback_url (url : string) (t : TerminationAttempt) : TerminationAttempt :=
  t <| m_url := url |>.

(** ** Filling in call detail records *)

Definition populateFinalResponseCdr (now status : Z) (c : CdrInfo) : CdrInfo :=
  let c := setSipStatus status (setCdrType origination_final_response c) in
  if 200 =? status then setTimeConnect now c
  else setReleaseCause call_rejected_due_to_termination_carriers (setTimeEnd now c).

Definition populateCancelCdr (now : Z) (c : CdrInfo) : CdrInfo :=
  setReleaseCause call_canceled (setTimeEnd now (setCdrType origination_cancel c)).

Definition populateByeCdr (now : Z) (callingPartyRelease : bool) (c : CdrInfo) : CdrInfo :=
  setTimeEnd now (setReleaseCause (if callingPartyRelease then calling_party_release else called_party_release)
    (setCdrType call_cleared c)).

(** The text behind a [char*], if there is one, is handed to a setter. *)
Definition set_if (p : option string) (f : string -> CdrInfo -> CdrInfo) (c : CdrInfo) : CdrInfo :=
  match p with Some s => f s c | None => c end.

Section Controller.
Context {P C : Type} {pool : ServerPool P} {routes : CallRoutes C}.
#[local] Abbreviation K := (M (Ctl P C)).

(** A call to the SIP stack. *)
Definition nta (c : nta_call) : K unit := modify (fun s => s <| m_calls ::= fun l => l ++ [c] |>).

(** A [const char*] made into a [string]: constructing one from a null
    pointer throws. *)
Definition to_string (p : option string) : K string :=
  match p with Some s => mret s | None => fail Uncaught end.

(** *** Records *)

(** [make_shared<CdrInfo>] filled with the given contents. *)
Definition new_cdr (c : CdrInfo) : K Z :=
  p ← gets m_nextCdr;
  modify (fun s => s <| m_nextCdr := p + 1 |> <| m_cdrs ::= queue_step (QNew p c) |>);;
  mret p.

Definition cdr_at (p : Z) : K CdrInfo :=
  q ← gets m_cdrs;
  deref (store q !! p).

Definition change_cdr (p : Z) (f : CdrInfo -> CdrInfo) : K unit :=
  modify (fun s => s <| m_cdrs ::= queue_step (QChange p f) |>).

(** [if( m_cdrWriter ) m_cdrWriter->postCdr( pCdr )]. *)
Definition postCdr (p : Z) : K unit :=
  w ← gets m_cdrWriter;
  when w (modify (fun s => s <| m_cdrs ::= queue_step (QPost p) |>)).

(** [pCdr->setSipStatus( status ) ; pCdr->setReleaseCause( cause ) ; post ; return status]. *)
Definition reject (p status : Z) (cause : ReleaseCause_t) : K Z :=
  change_cdr p (fun c => setReleaseCause cause (setSipStatus status c));;
  postCdr p;;
  mret status.

Definition populateOriginationCdr (an : answers) (p : Z) (sip : sip_t) (carrier : string) : K unit :=
  contact ← deref (sip_contact sip);
  own ← gets m_my_contact;
  to ← deref (sip_to sip);
  from ← deref (sip_from sip);
  edge ← to_string (url_host own);
  change_cdr p (fun c =>
    let c := setTimeStart (an_now an) (setCdrType origination_request (setUuid (an_uuid an) c)) in
    let c := setOriginatingCarrier carrier c in
    let c := set_if (url_host (a_url contact)) setOriginatingCarrierAddress c in
    let c := set_if (i_id sip) setALegCallId c in
    let c := setOriginatingEdgeServerAddress edge c in
    let c := set_if (url_user (a_url to)) setCalledPartyNumberIn c in
    let c := set_if (url_user (a_url from)) setCallingPartyNumber c in
    if negb (0 =? m_sipStatus c) then setReleaseCause call_rejected_due_to_system_error c else c).

Definition populateTerminationCdr (an : answers) (p : Z) (sip : sip_t)
    (carrier carrierAddress avokeBrowser avokeCallId uuid : string) : K unit :=
  call_id ← to_string (i_id sip);
  own ← gets m_my_contact;
  edge ← to_string (url_host own);
  to ← deref (sip_to sip);
  user ← to_string (url_user (a_url to));
  change_cdr p (fun c =>
    let c := setTimeStart (an_now an) (setCdrType termination_attempt (setUuid uuid c)) in
    let c := setTerminatingCarrierAddress carrierAddress (setTerminatingCarrier carrier c) in
    let c := setTerminatingEdgeServerAddress edge (setCLegCallId call_id c) in
    let c := setCalledPartyNumberOut user c in
    let c := if negb (empty_ avokeBrowser) then setCustomerName avokeBrowser c else c in
    if negb (empty_ avokeCallId) then setAvokeCallId avokeCallId c else c).

(** *** Transactions and dialogs *)

Definition getAssociatedTransaction_orq (orq : Z) : K (option Z) := gets (fun s => right_find orq (m_transactions s)).
Definition getAssociatedTransaction_irq (irq : Z) : K (option Z) := gets (fun s => left_find irq (m_transactions s)).

(** [clearTransaction( nta_outgoing_t* )]; a null [irq] is let be. *)
Definition clearTransaction (orq : Z) : K unit :=
  irq ← getAssociatedTransaction_orq orq;
  modify (fun s => s <| m_transactions ::= right_erase orq |>);;
  nta (incoming_destroy (default 0 irq));;
  nta (outgoing_destroy orq).

Definition addTransactions (irq orq : Z) : K unit :=
  modify (fun s => s <| m_transactions ::= bimap_insert irq orq |>).

Definition updateOutgoingTransaction (irq orq newOrq : Z) : K unit :=
  modify (fun s => s <| m_transactions ::= right_erase orq |>);;
  nta (outgoing_destroy orq);;
  addTransactions irq newOrq.

Definition addDialogs (a_leg b_leg : Z) : K unit :=
  modify (fun s => s <| m_dialogs ::= bimap_insert a_leg b_leg |>).

(** When the leg is in neither view, the end iterator is dereferenced. *)
Definition getAssociatedDialog (leg : Z) : K Z :=
  d ← gets m_dialogs;
  match left_find leg d with
  | Some b => mret b
  | None => match right_find leg d with Some a => mret a | None => fail PastTheEnd end
  end.

(** [m_mapDialogInfo.erase( leg )]: with the last reference the destructor
    destroys the timer. *)
Definition erase_info (leg : Z) : K unit :=
  it ← gets (fun s => m_mapDialogInfo s !! leg);
  match it with
  | None => mret tt
  | Some d =>
      modify (fun s => s <| m_mapDialogInfo ::= delete leg |>);;
      when (negb (m_timerSessionRefresh d =? 0)) (nta (timer_destroy (m_timerSessionRefresh d)))
  end.

Definition clearDialog (leg : Z) : K unit :=
  other ← getAssociatedDialog leg;
  nta (leg_destroy leg);;
  modify (fun s => s <| m_dialogs ::= fun d => right_erase leg (left_erase leg d) |>);;
  erase_info leg;;
  assert_ (negb (other =? 0));;
  nta (leg_destroy other);;
  erase_info other.

Definition updateDialog (oldBLeg newBLeg : Z) : K unit :=
  assert_ (negb (oldBLeg =? 0) && negb (newBLeg =? 0));;
  a_leg ← getAssociatedDialog oldBLeg;
  modify (fun s => s <| m_dialogs ::= right_erase oldBLeg |>);;
  addDialogs a_leg newBLeg;;
  nta (leg_destroy oldBLeg);;
  it ← gets (fun s => m_mapDialogInfo s !! oldBLeg);
  match it with
  | None => fail AssertFailed
  | Some p =>
      modify (fun s => s <| m_mapDialogInfo ::= fun m =>
        delete oldBLeg (map_add newBLeg (p <| m_leg := newBLeg |>) m) |>)
  end.

(** *** New calls *)

(** 0, or the status of the rejection. *)
Definition validateSipMessage (sip : sip_t) : K Z :=
  m ← deref (sip_request sip);
  let invite := bool_decide (m = sip_method_invite) in
  let absent {A} (h : option A) := match h with None => true | _ => false end in
  if invite && absent (c ← sip_contact sip; url_host (a_url c)) then mret 400
  else if absent (i_id sip) then mret 400
  else if invite && absent (t ← sip_to sip; url_user (a_url t)) then mret 400
  else if invite && absent (f ← sip_from sip; a_tag f) then mret 400
  else mret 0.

(** The type of a call, and the carrier: empty unless it is an origination. *)
Definition determineCallType (sip : sip_t) : K (call_type_t * string) :=
  contact ← deref (sip_contact sip);
  host ← to_string (url_host (a_url contact));
  cfg ← gets m_Config;
  p ← gets m_fsMonitor;
  match routes_getCarrier host cfg with
  | Some carrier => mret (origination_call_type, carrier)
  | None => mret (if pool_isAppserver host p then termination_call_type else unknown_call_type, EmptyString)
  end.

Definition getAvailableServers : K (option (list FsInstance)) := fun s =>
  match pool_get (m_fsMonitor s) with
  | Ok (r, p) => Ok (r, s <| m_fsMonitor := p |>)
  | Fault f => Fault f
  end.

(** An operation of the configuration. *)
Definition config {A} (m : M C A) : K A := fun s =>
  match m (m_Config s) with
  | Ok (r, c) => Ok (r, s <| m_Config := c |>)
  | Fault f => Fault f
  end.

(** The URI of an INVITE: a null [url_user] ends the text. *)
Definition invite_url (user : option string) (address : string) : string :=
  stream [Some "sip:"; user; Some "@"; Some address].

(** The session timer of an origination, when the caller supports one. *)
Definition session_timer (cfg : C) (sip : sip_t) : Z :=
  match sip_session_expires sip with
  | Some _ =>
      if 0 <? routes_sessionTimer cfg then Z.max (default 0 (sip_min_se sip)) (routes_sessionTimer cfg) else 0
  | None => 0
  end.

Definition processOriginationRequest (an : answers) (irq : Z) (sip : sip_t) (carrier : string) : K Z :=
  pCdr ← new_cdr (new_CdrInfo origination_request);
  populateOriginationCdr an pCdr sip carrier;;
  servers ← getAvailableServers;
  match servers with
  | None => reject pCdr 486 call_rejected_due_to_system_error
  | Some [] => fail PastTheEnd
  | Some (server :: _) =>
      contact ← deref (sip_contact sip);
      to ← deref (sip_to sip);
      from ← deref (sip_from sip);
      own ← gets m_my_contact;
      let url := invite_url (url_user (a_url to))
                   (m_strSipAddress server +:+ ":" +:+ dec (m_nSipPort server)) in
      fits_url url;;
      let a_leg := an_a_leg an in
      nta (leg_tcreate a_leg None);;
      if a_leg =? 0 then reject pCdr 503 call_rejected_due_to_system_error
      else
        nta (leg_server_route a_leg);;
        nta (leg_tag a_leg (Some irq));;
        nta (incoming_bind irq);;
        let b_leg := an_b_leg an in
        nta (leg_tcreate b_leg (Some (generateOutgoing own from, generateOutgoing own to)));;
        if b_leg =? 0 then
          nta (leg_destroy a_leg);;
          reject pCdr 503 call_rejected_due_to_system_error
        else
          nta (leg_tag b_leg None);;
          c ← cdr_at pCdr;
          let orq := an_orq an in
          nta (outgoing_tcreate orq b_leg sip_method_invite (ToText url) (Some response_to_invite)
                 (generateOutgoing own contact) (sip_payload sip)
                 [stream [Some "X-Originating-Carrier: "; Some (if empty_ carrier then "unknown" else carrier)];
                  stream [Some "X-Originating-Carrier-IP: "; url_host (a_url contact)];
                  stream [Some X_SESSION_UUID; Some ": "; Some (m_uuid c)]]);;
          if orq =? 0 then
            nta (leg_destroy a_leg);;
            nta (leg_destroy b_leg);;
            reject pCdr 503 call_rejected_due_to_system_error
          else
            change_cdr pCdr (setBLegCallId (an_call_id an));;
            change_cdr pCdr (setFsAddress (m_strSipAddress server));;
            cfg ← gets m_Config;
            let p := (new_SipDialogInfo a_leg true (session_timer cfg sip)) <| di_pCdr := Some pCdr |> in
            modify (fun s => s <| m_mapDialogInfo ::= map_add a_leg p |>);;
            addTransactions irq orq;;
            addDialogs a_leg b_leg;;
            postCdr pCdr;;
            mret 0
  end.

(** [generateTerminationRequest]: the new request and its leg, or the result
    false. *)
Definition generateTerminationRequest (an : answers) (t : TerminationAttempt) : K (option (Z * Z)) :=
  let b_leg := an_b_leg an in
  nta (leg_tcreate b_leg (Some (m_from t, m_to t)));;
  if b_leg =? 0 then mret None
  else
    nta (leg_tag b_leg None);;
    fits_url (m_url t);;
    agent ← gets m_my_user_agent;
    let orq := an_orq an in
    nta (outgoing_tcreate orq b_leg sip_method_invite (ToText (m_url t)) (Some response_to_invite)
           (m_contact t) (sip_payload (m_sip t)) [agent; m_p_charge_info_header t]);;
    if orq =? 0 then nta (leg_destroy b_leg);; mret None
    else
      pCdr ← deref (m_pCdr t);
      change_cdr pCdr (setDLegCallId (an_call_id an));;
      stats ← gets m_mapTrunkStats;
      let tr := match stats !! m_sipTrunk t with
                | Some tr => tr
                | None => new_TrunkStats (m_sipTrunk t) (m_carrier t)
                end in
      modify (fun s => s <| m_mapTrunkStats ::= <[ m_sipTrunk t := incrementAttemptCount tr ]> |>);;
      mret (Some (orq, b_leg)).

(** The header of a charge number. *)
Definition charge_header (chargeNumber address : string) : string :=
  "P-Charge-Info: <sip:" +:+ chargeNumber +:+ "@" +:+ address +:+ ">".

(** The route of a termination: the address, the carrier, the charge number. *)
Definition choose_route (sip : sip_t) : K (option route) :=
  cfg ← gets m_Config;
  r ← match routes_anonymous cfg with
      | Some carrier => if isAnonymousCall sip then config (routes_for carrier) else mret None
      | None => mret None
      end;
  match r with
  | Some r => mret (Some r)
  | None => config routes_next
  end.

Definition processTerminationRequest (an : answers) (irq : Z) (sip : sip_t) : K Z :=
  pCdr ← new_cdr (new_CdrInfo termination_attempt);
  r ← choose_route sip;
  match r with
  | None => mret 480
  | Some (terminationSipAddress, carrier, chargeNumber) =>
      let header h := default EmptyString (findCustomHeaderValue sip h) in
      populateTerminationCdr an pCdr sip carrier terminationSipAddress (header X_AVOKE_BROWSER)
        (header X_AVOKE_CALL_ID) (header X_SESSION_UUID);;
      to ← deref (sip_to sip);
      from ← deref (sip_from sip);
      contact ← deref (sip_contact sip);
      own ← gets m_my_contact;
      let url := invite_url (url_user (a_url to)) terminationSipAddress in
      fits_url url;;
      let a_leg := an_a_leg an in
      nta (leg_tcreate a_leg None);;
      nta (leg_server_route a_leg);;
      nta (leg_tag a_leg (Some irq));;
      nta (incoming_bind irq);;
      let chargeInfo := if empty_ chargeNumber then EmptyString
                        else charge_header chargeNumber terminationSipAddress in
      let t := (new_TerminationAttempt url sip (generateOutgoing own from) (generateOutgoing own to)
                  (generateOutgoing own contact) chargeInfo carrier terminationSipAddress)
                 <| m_pCdr := Some pCdr |> in
      g ← generateTerminationRequest an t;
      match g with
      | None => nta (leg_destroy a_leg);; mret 503
      | Some (orq, b_leg) =>
          modify (fun s => s <| m_mapTerminationAttempts ::= map_add orq t |>);;
          sdp ← deref (sip_payload sip);
          let p := (new_SipDialogInfo b_leg false 0) <| m_localSdp := sdp |> in
          modify (fun s => s <| m_mapDialogInfo ::= map_add b_leg p |>);;
          addTransactions irq orq;;
          addDialogs a_leg b_leg;;
          mret 0
      end
  end.

(** A rejected INVITE that is only recorded. *)
Definition reject_call (an : answers) (sip : sip_t) (carrier : string) (status : Z) (cause : ReleaseCause_t) : K Z :=
  pCdr ← new_cdr (new_CdrInfo origination_request);
  populateOriginationCdr an pCdr sip carrier;;
  reject pCdr status cause.

Definition processRequestOutsideDialog (an : answers) (irq : Z) (sip : sip_t) : K Z :=
  rc ← validateSipMessage sip;
  if negb (rc =? 0) then mret rc
  else
    m ← deref (sip_request sip);
    match m with
    | sip_method_options =>
        cfg ← gets m_Config;
        if negb (routes_isActive cfg) then nta (incoming_destroy irq);; mret 0
        else
          t ← determineCallType sip;
          match fst t with origination_call_type => mret 200 | _ => mret 403 end
    | sip_method_ack => nta (incoming_destroy irq);; mret 0
    | sip_method_invite =>
        t ← determineCallType sip;
        nta (incoming_treply irq 100 None None []);;
        cfg ← gets m_Config;
        n ← gets m_nIterationCount;
        let go_on (m : K Z) : K Z :=
          rc ← m;
          modify (fun s => s <| m_nIterationCount ::= fun n => if 0 <? n then n - 1 else n |>);;
          mret rc in
        let carrier := snd t in
        match fst t with
        | origination_call_type =>
            if negb (routes_isActive cfg) || (0 =? n)
            then reject_call an sip carrier 503 call_rejected_due_to_being_offline
            else go_on (processOriginationRequest an irq sip carrier)
        | termination_call_type => go_on (processTerminationRequest an irq sip)
        | unknown_call_type => reject_call an sip carrier 403 call_rejected_due_to_unauthorized_peer
        end
    | sip_method_bye => mret 481
    | _ => mret 501
    end.

(** *** Responses to an INVITE *)

(** The ACK of a success response. *)
Definition send_ack (an : answers) (leg : Z) (sip : sip_t) : K unit :=
  contact ← deref (sip_contact sip);
  nta (outgoing_tcreate (an_ack an) leg sip_method_ack (ToContact (a_url contact)) None EmptyString None []);;
  nta (outgoing_destroy (an_ack an)).

(** Changes of the attempt or the dialog information behind a [shared_ptr]
    that the map holds. *)
Definition change_attempt (orq : Z) (f : TerminationAttempt -> TerminationAttempt) : K unit :=
  modify (fun s => s <| m_mapTerminationAttempts ::= alter f orq |>).
Definition change_info (leg : Z) (f : SipDialogInfo -> SipDialogInfo) : K unit :=
  modify (fun s => s <| m_mapDialogInfo ::= alter f leg |>).

(** A copy of a record, changed, and posted in its own right. *)
Definition post_copy (pCdr : Z) (f : CdrInfo -> CdrInfo) : K unit :=
  c ← cdr_at pCdr;
  p ← new_cdr c;
  change_cdr p f;;
  postCdr p.

(** A failure response of a trunk is counted. *)
Definition count_failure (t : TerminationAttempt) (status : Z) : K unit :=
  stats ← gets m_mapTrunkStats;
  match stats !! m_sipTrunk t with
  | Some tr =>
      tr ← lift (incrementFailureCount status tr);
      modify (fun s => s <| m_mapTrunkStats ::= <[ m_sipTrunk t := tr ]> |>)
  | None => mret tt
  end.

(** The session timer of an answered origination: the value of its
    Session-Expires header. *)
Definition start_session_timer (an : answers) (a_leg : Z) (d : SipDialogInfo) : K (option string) :=
  if 0 <? getSessionTimerSecs d then
    if an_timer an =? 0 then mret (Some EmptyString)
    else
      change_info a_leg (fun d => d <| m_timerSessionRefresh := an_timer an |>);;
      nta (timer_set (an_timer an) a_leg (wrap32 (getSessionTimerSecs d * 1000)));;
      mret (Some (dec (getSessionTimerSecs d)))
  else mret None.

(** [status == 200]: the ACK, and the session timer of an origination. *)
Definition invite_accepted (an : answers) (out_leg a_leg : Z) (dialog : option SipDialogInfo) (sip : sip_t)
  : K (option string) :=
  to ← deref (sip_to sip);
  nta (leg_rtag out_leg (a_tag to));;
  nta (leg_client_reroute out_leg);;
  send_ack an out_leg sip;;
  match dialog with
  | None => mret None
  | Some d =>
      sdp ← deref (sip_payload sip);
      change_info a_leg (fun d => d <| m_localSdp := sdp |>);;
      start_session_timer an a_leg d
  end.

(** The next request of a termination attempt replaces the failed one: the
    result tells whether there is one. *)
Definition retry (an : answers) (irq orq out_leg : Z) : K bool :=
  ts ← gets m_mapTerminationAttempts;
  t ← deref (ts !! orq);
  g ← generateTerminationRequest an t;
  match g with
  | None => mret false
  | Some (orqNew, b_legNew) =>
      updateOutgoingTransaction irq orq orqNew;;
      modify (fun s => s <| m_mapTerminationAttempts ::= fun m => map_add orqNew t (delete orq m) |>);;
      updateDialog out_leg b_legNew;;
      mret true
  end.

(** [300 <= status <= 399]: on to the address of the Contact header. *)
Definition redirect (an : answers) (irq orq out_leg : Z) (sip : sip_t) : K bool :=
  contact ← deref (sip_contact sip);
  let u := a_url contact in
  let dest := stream ([Some "sip:"; url_user u; Some "@"; url_host u] ++
                      match url_port u with Some p => [Some ":"; Some p] | None => [] end) in
  change_attempt orq (crankback_url dest);;
  retry an irq orq out_leg.

(** [status] 503 or 480: on to another carrier's trunk, while attempts are
    left.  [m_nTerminationRetries - 1] is computed in [unsigned int]. *)
Definition next_carrier (an : answers) (irq orq out_leg pCdr status : Z) (t : TerminationAttempt) (sip : sip_t)
  : K bool :=
  retries ← gets m_nTerminationRetries;
  if m_nAttemptCount t <? wrap32 (retries - 1) then
    r ← config (routes_alt (m_carrier t));
    match r with
    | None => mret false
    | Some (terminationSipAddress, carrier, chargeNumber) =>
        post_copy pCdr (fun c => setCdrType termination_attempt (populateFinalResponseCdr (an_now an) status c));;
        to ← deref (sip_to sip);
        let dest := invite_url (url_user (a_url to)) terminationSipAddress in
        change_attempt orq
          (crankback dest carrier terminationSipAddress (charge_header chargeNumber terminationSipAddress));;
        change_cdr pCdr (fun c => setTerminatingCarrierAddress terminationSipAddress (setTerminatingCarrier carrier c));;
        retry an irq orq out_leg
    end
  else mret false.

(** Whether the call goes on with another request, after a final response. *)
Definition crank (an : answers) (irq orq out_leg pCdr status : Z) (sip : sip_t) : K bool :=
  ts ← gets m_mapTerminationAttempts;
  match ts !! orq with
  | None => mret false
  | Some t =>
      if (300 <=? status) && (status <=? 399) then redirect an irq orq out_leg sip
      else if (503 =? status) || (480 =? status) then next_carrier an irq orq out_leg pCdr status t sip
      else mret false
  end.

(** The response is passed back to the caller; a final response of a trunk
    ends its attempt. *)
Definition proxy_response (irq orq status : Z) (timer : option string) (sip : sip_t) : K unit :=
  ts ← gets m_mapTerminationAttempts;
  headers ←
    (if 200 <=? status then
       match ts !! orq with
       | Some t =>
           modify (fun s => s <| m_mapTerminationAttempts ::= delete orq |>);;
           mret ["X-Terminating-Carrier: " +:+ m_carrier t; "X-Terminating-Carrier-IP: " +:+ m_sipTrunk t]
       | None => mret []
       end
     else mret []);
  nta (incoming_treply irq status (sip_payload sip)
         (match timer with Some v => Some v | None => dec <$> sip_session_expires sip end) headers).

(** The record of a call's INVITE, with the information on its origination
    dialog if it is one. *)
Definition record_of_call (orq a_leg : Z) : K (Z * option SipDialogInfo) :=
  ts ← gets m_mapTerminationAttempts;
  infos ← gets m_mapDialogInfo;
  match ts !! orq with
  | Some t => match m_pCdr t with Some p => mret (p, None) | None => fail AssertFailed end
  | None =>
      match infos !! a_leg with
      | Some d => match di_pCdr d with Some p => mret (p, Some d) | None => fail AssertFailed end
      | None => fail AssertFailed
      end
  end.

(** The flags that the response is passed back, that the transaction is over, and
    that the legs go. *)
Definition finish_response (bProxyResponse bClearTransaction bDestroyLegs : bool) (irq orq out_leg status : Z)
    (timer : option string) (sip : sip_t) : K unit :=
  when bProxyResponse (proxy_response irq orq status timer sip);;
  when bClearTransaction (clearTransaction orq);;
  when bDestroyLegs (clearDialog out_leg).

Definition processInviteResponseInsideDialog (an : answers) (orq : Z) (sip : sip_t) : K Z :=
  o ← getAssociatedTransaction_orq orq;
  irq ← (match o with Some irq => mret irq | None => fail AssertFailed end);
  assert_ (negb (irq =? 0));;
  let out_leg := an_out_leg an in
  assert_ (negb (out_leg =? 0));;
  let a_leg := an_irq_leg an in
  assert_ (negb (a_leg =? 0));;
  status ← deref (sip_status sip);
  ts ← gets m_mapTerminationAttempts;
  let termination := ts !! orq in
  r ← record_of_call orq a_leg;
  let '(pCdr, dialog) := r in
  let final := 200 <=? status in
  match termination with
  | Some t => when ((400 <=? status) && (status <=? 700)) (count_failure t status)
  | None => mret tt
  end;;
  timer ← (if status =? 200 then invite_accepted an out_leg a_leg dialog sip else mret None);
  cranked ← (if final && negb (status =? 200) then crank an irq orq out_leg pCdr status sip else mret false);
  let proxied := negb (100 =? status) && negb cranked in
  finish_response proxied (final && negb cranked) (final && negb (status =? 200) && negb cranked)
    irq orq out_leg status timer sip;;
  match termination with
  | None => when final (post_copy pCdr (fun c =>
      populateFinalResponseCdr (an_now an) status (setCdrType origination_final_response c)))
  | Some _ => when (final && proxied) (post_copy pCdr (fun c =>
      setCdrType termination_attempt (populateFinalResponseCdr (an_now an) status c)))
  end;;
  mret 0.

(** *** CANCEL and ACK of an INVITE *)

Definition processAckOrCancel (an : answers) (irq : Z) (sip : sip_t) : K Z :=
  m ← deref (sip_request sip);
  match m with
  | sip_method_cancel =>
      o ← getAssociatedTransaction_irq irq;
      let leg := an_irq_leg an in
      match (if decide (o = Some 0) then None else o) with
      | None => when (negb (leg =? 0)) (clearDialog leg);; mret 0
      | Some orq =>
          if leg =? 0 then mret 481
          else
            infos ← gets m_mapDialogInfo;
            ts ← gets m_mapTerminationAttempts;
            match infos !! leg, ts !! orq with
            | Some d, _ =>
                pCdr ← deref (di_pCdr d);
                change_cdr pCdr (populateCancelCdr (an_now an));;
                postCdr pCdr
            | None, Some t =>
                pCdr ← deref (m_pCdr t);
                post_copy pCdr (fun c => setCdrType termination_attempt (populateFinalResponseCdr (an_now an) 487 c))
            | None, None => mret tt
            end;;
            nta (outgoing_cancel orq);;
            nta (outgoing_destroy orq);;
            clearTransaction orq;;
            clearDialog leg;;
            modify (fun s => s <| m_mapTerminationAttempts ::= delete orq |>);;
            mret 0
      end
  | _ => mret 0
  end.

(** *** Requests and responses inside a dialog *)

(** The origination record of the call that a BYE on [leg] ends, if there is
    one, and whether the caller sent it. *)
Definition origination_info (infos : gmap Z SipDialogInfo) (leg other : Z) : option (SipDialogInfo * bool) :=
  match infos !! leg with
  | Some d =>
      if m_bOrigination d then Some (d, true)
      else match infos !! other with
           | Some d => if m_bOrigination d then Some (d, false) else None
           | None => None
           end
  | None =>
      match infos !! other with
      | Some d => if m_bOrigination d then Some (d, false) else None
      | None => None
      end
  end.

Definition processRequestInsideDialog (an : answers) (leg irq : Z) (sip : sip_t) : K Z :=
  other ← getAssociatedDialog leg;
  assert_ (negb (other =? 0));;
  m ← deref (sip_request sip);
  match m with
  | sip_method_bye =>
      nta (outgoing_tcreate (an_ack an) other sip_method_bye ToRemote None EmptyString None []);;
      nta (outgoing_destroy (an_ack an));;
      infos ← gets m_mapDialogInfo;
      match origination_info infos leg other with
      | Some (d, callingPartyRelease) =>
          pCdr ← deref (di_pCdr d);
          change_cdr pCdr (populateByeCdr (an_now an) callingPartyRelease);;
          postCdr pCdr
      | None => mret tt
      end;;
      clearDialog leg;;
      nta (incoming_destroy irq);;
      mret 200
  | sip_method_ack => nta (incoming_destroy irq);; mret 0
  | _ =>
      nta (outgoing_tcreate (an_orq an) other m ToRemote (Some response_to_request_inside_dialog) EmptyString
             (sip_payload sip) []);;
      addTransactions irq (an_orq an);;
      mret 0
  end.

Definition processResponseInsideDialog (an : answers) (orq : Z) (sip : sip_t) : K Z :=
  o ← getAssociatedTransaction_orq orq;
  irq ← (match o with Some irq => mret irq | None => fail AssertFailed end);
  assert_ (negb (irq =? 0));;
  status ← deref (sip_status sip);
  nta (incoming_treply irq status (sip_payload sip) (dec <$> sip_session_expires sip) []);;
  m ← deref (sip_cseq sip);
  when (bool_decide (m = sip_method_invite) && (status =? 200))
    (assert_ (negb (an_out_leg an =? 0));; send_ack an (an_out_leg an) sip);;
  when (200 <=? status) (clearTransaction orq);;
  mret 0.

(** *** The session timer, and stray responses *)

(** [terminateLeg] does nothing. *)
Definition processSessionRefreshTimer (leg : Z) : K Z :=
  infos ← gets m_mapDialogInfo;
  match infos !! leg with
  | None => mret 0
  | Some p =>
      when (negb (m_timerSessionRefresh p =? 0))
        (nta (timer_destroy (m_timerSessionRefresh p));;
         change_info leg (fun d => d <| m_timerSessionRefresh := 0 |>));;
      other ← getAssociatedDialog leg;
      assert_ (negb (other =? 0));;
      clearDialog leg;;
      mret 0
  end.

(** [an_out_leg]: what [nta_leg_by_call_id] finds. *)
Definition processRetransmittedResponse (an : answers) (sip : sip_t) : K Z :=
  if bool_decide (sip_status sip = Some 200) && bool_decide (sip_cseq sip = Some sip_method_invite) then
    call_id ← deref (i_id sip);
    when (negb (an_out_leg an =? 0)) (send_ack an (an_out_leg an) sip);;
    mret 0
  else mret 0.

(** *** The callbacks as events *)

(** [EPool]: the monitor's threads changed the servers; [EWork]: the thread of
    the [CdrWriter] took a record. *)
Inductive event :=
| EOutside (an : answers) (irq : Z) (sip : sip_t)
| EInviteResponse (an : answers) (orq : Z) (sip : sip_t)
| EAckOrCancel (an : answers) (irq : Z) (sip : sip_t)
| EInside (an : answers) (leg irq : Z) (sip : sip_t)
| EInsideResponse (an : answers) (orq : Z) (sip : sip_t)
| ERefresh (leg : Z)
| EStray (an : answers) (sip : sip_t)
| EPool (p : P)
| EWork.

(** The stack itself answers a request with the final status that the callback
    of its leg returns. *)
Definition respond (irq : Z) (callback : K Z) : K Z :=
  r ← callback;
  when (200 <=? r) (nta (incoming_treply irq r None None []));;
  mret r.

Definition handle (e : event) : K Z :=
  match e with
  | EOutside an irq sip => respond irq (processRequestOutsideDialog an irq sip)
  | EInviteResponse an orq sip => processInviteResponseInsideDialog an orq sip
  | EAckOrCancel an irq sip => processAckOrCancel an irq sip
  | EInside an leg irq sip => respond irq (processRequestInsideDialog an leg irq sip)
  | EInsideResponse an orq sip => processResponseInsideDialog an orq sip
  | ERefresh leg => processSessionRefreshTimer leg
  | EStray an sip => processRetransmittedResponse an sip
  | EPool p => modify (fun s => s <| m_fsMonitor := p |>);; mret 0
  | EWork => modify (fun s => s <| m_cdrs ::= queue_step QWork |>);; mret 0
  end.
End Controller.

(** [getOutboundTrunkStats] and [resetOutboundTrunkStats]. *)
Definition getOutboundTrunkStats {P C} (s : Ctl P C) : gmap string TrunkStats := m_mapTrunkStats s.
Definition resetOutboundTrunkStats {P C} (s : Ctl P C) : Ctl P C :=
  s <| m_mapTrunkStats ::= fmap TrunkStats.reset |>.
Definition getCountOfDialogs {P C} (s : Ctl P C) : Z := wrap32 (Z.of_nat (length (m_dialogs s))).
