(* ===== verification/CallTables.v ===== *)
(** * CallTables: the invariant of the call tables

    What the SIP stack keeps track of, as a function of the calls made to it;
    the controller's tables next to it; the moves the handlers make on them; and
    the invariant [tables_ok], with a preservation lemma for each move. *)

From S2P Require Import Prelude Text Sip Bimap CallControl.

(** ** The stack

    The legs that exist; for each outgoing request that will be reported back,
    its leg, its callback and its method; and for each incoming INVITE whose
    callback is bound, the leg that carries its tag.  A handle is live until it
    is destroyed; a final response ends an incoming request. *)

Record Stack := mkStack {
  legs : gset Z;
  orqs : gmap Z (Z * callback * sip_method);
  irqs : gmap Z Z
}.

Definition nta_step (k : Stack) (c : nta_call) : Stack :=
  match c with
  | leg_tcreate leg _ => if leg =? 0 then k else mkStack ({[ leg ]} ∪ legs k) (orqs k) (irqs k)
  | leg_destroy leg => mkStack (legs k ∖ {[ leg ]}) (orqs k) (irqs k)
  | leg_tag leg (Some irq) => mkStack (legs k) (orqs k) (<[ irq := leg ]> (irqs k))
  | incoming_treply irq status _ _ _ =>
      if 200 <=? status then mkStack (legs k) (orqs k) (delete irq (irqs k)) else k
  | incoming_destroy irq => mkStack (legs k) (orqs k) (delete irq (irqs k))
  | outgoing_tcreate orq leg method _ (Some cb) _ _ _ =>
      if orq =? 0 then k else mkStack (legs k) (<[ orq := (leg, cb, method) ]> (orqs k)) (irqs k)
  | outgoing_destroy orq => mkStack (legs k) (delete orq (orqs k)) (irqs k)
  | _ => k
  end.

Definition stack_of (calls : list nta_call) : Stack := foldl nta_step (mkStack ∅ ∅ ∅) calls.

(** ** The tables *)

(** Of an attempt its record; of a dialog's information, whether it is an
    origination, and its record. *)
Record tables := mkTables {
  t_trans : bimap;
  t_dialogs : bimap;
  t_attempts : gmap Z (option Z);
  t_infos : gmap Z (bool * option Z);
  t_stack : Stack
}.

Definition tables_of {P C} (s : Ctl P C) : tables :=
  mkTables (m_transactions s) (m_dialogs s) (m_pCdr <$> m_mapTerminationAttempts s)
    ((fun d => (m_bOrigination d, di_pCdr d)) <$> m_mapDialogInfo s) (stack_of (m_calls s)).

(** A new call, on legs [a] and [b], with record [p]. *)
Definition add_call (origination : bool) (irq orq a b p : Z) (t : tables) : tables :=
  mkTables ((irq, orq) :: t_trans t) ((a, b) :: t_dialogs t)
    (if origination then t_attempts t else <[ orq := Some p ]> (t_attempts t))
    (if origination then <[ a := (true, Some p) ]> (t_infos t) else <[ b := (false, None) ]> (t_infos t))
    (mkStack ({[ b ]} ∪ ({[ a ]} ∪ legs (t_stack t)))
       (<[ orq := (b, response_to_invite, sip_method_invite) ]> (orqs (t_stack t)))
       (<[ irq := a ]> (irqs (t_stack t)))).

(** A request, of a call or inside a dialog, has had its final response. *)
Definition end_request (irq orq : Z) (t : tables) : tables :=
  mkTables (right_erase orq (t_trans t)) (t_dialogs t) (delete orq (t_attempts t)) (t_infos t)
    (mkStack (legs (t_stack t)) (delete orq (orqs (t_stack t))) (delete irq (irqs (t_stack t)))).

(** A dialog ends: the legs on both sides go. *)
Definition end_dialog (a b : Z) (t : tables) : tables :=
  mkTables (t_trans t) (right_erase b (left_erase a (t_dialogs t))) (t_attempts t)
    (delete b (delete a (t_infos t)))
    (mkStack (legs (t_stack t) ∖ {[ a; b ]}) (orqs (t_stack t)) (irqs (t_stack t))).

(** A termination attempt goes on with another request, on another B leg. *)
Definition replace_request (irq orq orq' a b b' p : Z) (x : bool * option Z) (t : tables) : tables :=
  mkTables ((irq, orq') :: right_erase orq (t_trans t)) ((a, b') :: right_erase b (t_dialogs t))
    (<[ orq' := Some p ]> (delete orq (t_attempts t)))
    (delete b (<[ b' := x ]> (t_infos t)))
    (mkStack (({[ b' ]} ∪ legs (t_stack t)) ∖ {[ b ]})
       (delete orq (<[ orq' := (b', response_to_invite, sip_method_invite) ]> (orqs (t_stack t))))
       (irqs (t_stack t))).

(** A request is passed on inside a dialog. *)
Definition add_inside (irq orq leg : Z) (method : sip_method) (t : tables) : tables :=
  mkTables ((irq, orq) :: t_trans t) (t_dialogs t) (t_attempts t) (t_infos t)
    (mkStack (legs (t_stack t)) (<[ orq := (leg, response_to_request_inside_dialog, method) ]> (orqs (t_stack t)))
       (irqs (t_stack t))).

(** What a callback can do to the calls: nothing, or one of them begins, is
    answered, fails before it is answered, or ends after that. *)
Inductive move_kind := Idle | Begins | Answered | Fails | Ends.

(** ** The invariant *)

(** An INVITE of the call with B leg [leg], or a re-INVITE on [leg], has no
    final response yet. *)
Definition inviting (t : tables) (leg : Z) : Prop :=
  exists orq cb, orqs (t_stack t) !! orq = Some (leg, cb, sip_method_invite).

(** The moves.  An attempt that is replaced, and a request inside a dialog,
    leave the calls as they are. *)
Inductive call_move (t : tables) : move_kind -> tables -> Prop :=
| move_same : call_move t Idle t
| move_begin o irq orq a b p :
    irq ∉ map fst (t_trans t) -> a ∉ legs (t_stack t) -> b ∉ legs (t_stack t) -> a <> b ->
    call_move t Begins (add_call o irq orq a b p t)
| move_answer irq orq b :
    (irq, orq) ∈ t_trans t -> orqs (t_stack t) !! orq = Some (b, response_to_invite, sip_method_invite) ->
    call_move t Answered (end_request irq orq t)
| move_fail irq orq a b :
    (irq, orq) ∈ t_trans t -> (a, b) ∈ t_dialogs t ->
    orqs (t_stack t) !! orq = Some (b, response_to_invite, sip_method_invite) ->
    call_move t Fails (end_dialog a b (end_request irq orq t))
| move_end a b :
    (a, b) ∈ t_dialogs t -> ~ inviting t b -> call_move t Ends (end_dialog a b t)
| move_retry irq orq orq' a b b' p x :
    (a, b) ∈ t_dialogs t -> b' ∉ legs (t_stack t) -> call_move t Idle (replace_request irq orq orq' a b b' p x t)
| move_pass irq orq leg m : call_move t Idle (add_inside irq orq leg m t)
| move_passed irq orq leg m :
    (irq, orq) ∈ t_trans t -> orqs (t_stack t) !! orq = Some (leg, response_to_request_inside_dialog, m) ->
    call_move t Idle (end_request irq orq t).

(** One of the moves [ks]. *)
Definition moved (ks : list move_kind) (t t' : tables) : Prop := exists k, k ∈ ks /\ call_move t k t'.

Section Invariant.
(** The records that exist. *)
Context (known : Z -> Prop).

Record tables_ok (t : tables) : Prop := {
  ok_trans : bimap_ok (t_trans t);
  ok_dialogs : bimap_ok (t_dialogs t);
  ok_handles : forall i o, (i, o) ∈ t_trans t -> i <> 0 /\ o <> 0;
  ok_sides : forall a b a' b', (a, b) ∈ t_dialogs t -> (a', b') ∈ t_dialogs t -> a <> b' /\ a <> 0 /\ b <> 0;
  (** Nothing leaks, nothing dangles: the legs are those of the dialogs. *)
  ok_legs : forall l, l ∈ legs (t_stack t) <-> l ∈ map fst (t_dialogs t) \/ l ∈ map snd (t_dialogs t);
  ok_infos : forall l o p, t_infos t !! l = Some (o, p) ->
    if o : bool then l ∈ map fst (t_dialogs t) /\ exists q, p = Some q /\ known q
    else l ∈ map snd (t_dialogs t);
  (** A dialog is an origination or a termination, with its information on
      the A or on the B side. *)
  ok_kinds : forall a b, (a, b) ∈ t_dialogs t ->
    is_Some (t_infos t !! a) /\ t_infos t !! b = None \/ t_infos t !! a = None /\ is_Some (t_infos t !! b);
  ok_orqs : forall o, o ∈ map snd (t_trans t) <-> is_Some (orqs (t_stack t) !! o);
  (** A call in progress has both its legs, and its record. *)
  ok_calls : forall i o b m, (i, o) ∈ t_trans t -> orqs (t_stack t) !! o = Some (b, response_to_invite, m) ->
    m = sip_method_invite /\ exists a, irqs (t_stack t) !! i = Some a /\ (a, b) ∈ t_dialogs t /\
      (is_Some (t_infos t !! a) <-> t_attempts t !! o = None);
  ok_inside : forall o l, orqs (t_stack t) !! o = Some (l, response_to_request_inside_dialog, sip_method_invite) ->
    l ∈ legs (t_stack t);
  ok_attempts : forall o p, t_attempts t !! o = Some p ->
    (exists b m, orqs (t_stack t) !! o = Some (b, response_to_invite, m)) /\ exists q, p = Some q /\ known q;
  ok_irqs : forall i a, irqs (t_stack t) !! i = Some a ->
    exists o b m, (i, o) ∈ t_trans t /\ orqs (t_stack t) !! o = Some (b, response_to_invite, m) /\
      (a, b) ∈ t_dialogs t
}.
End Invariant.

(** ** Lemmas *)

Lemma moved_eq k ks t t' t1 : t1 = t' -> call_move t k t' -> k ∈ ks -> moved ks t t1.
Proof. intros -> Hm Hk. by exists k. Qed.

Lemma stack_of_snoc l c : stack_of (l ++ [c]) = nta_step (stack_of l) c.
Proof. unfold stack_of. by rewrite foldl_app. Qed.

Lemma stack_eta k : mkStack (legs k) (orqs k) (irqs k) = k.
Proof. by destruct k. Qed.

Lemma fmap_alter_same {A B} (f : A -> B) (g : A -> A) (k : Z) (m : gmap Z A) :
  (forall x, f (g x) = f x) -> f <$> alter g k m = f <$> m.
Proof.
  intros H. apply map_eq. intros i. rewrite !lookup_fmap. destruct (decide (k = i)) as [->|].
  - rewrite lookup_alter_eq. destruct (m !! i); simpl; [by rewrite H|done].
  - by rewrite lookup_alter_ne.
Qed.

Lemma tables_ok_mono (known known' : Z -> Prop) t :
  (forall p, known p -> known' p) -> tables_ok known t -> tables_ok known' t.
Proof.
  intros Hk []. constructor; try done.
  - intros l o p Hl. specialize (ok_infos0 l o p Hl). destruct o; naive_solver.
  - intros o p Ho. specialize (ok_attempts0 o p Ho). naive_solver.
Qed.

Lemma tables_ok_eq known t t' : t' = t -> tables_ok known t -> tables_ok known t'.
Proof. by intros ->. Qed.

Section Moves.
Context (known : Z -> Prop) (t : tables) (Hok : tables_ok known t).

Lemma dialog_legs a b : (a, b) ∈ t_dialogs t -> a ∈ legs (t_stack t) /\ b ∈ legs (t_stack t) /\ a <> b.
Proof.
  intros H. destruct (elem_of_keys _ _ _ H). rewrite !(ok_legs _ _ Hok).
  destruct (ok_sides _ _ Hok a b a b H H). tauto.
Qed.

Lemma no_leg_no_info l : l ∉ legs (t_stack t) -> t_infos t !! l = None.
Proof.
  intros Hl. destruct (t_infos t !! l) as [[o p]|] eqn:E; [|done].
  apply (ok_infos _ _ Hok) in E. rewrite (ok_legs _ _ Hok) in Hl. destruct o; tauto.
Qed.

Lemma no_orq_no_trans o : orqs (t_stack t) !! o = None -> o ∉ map snd (t_trans t).
Proof. intros H Hin. apply (ok_orqs _ _ Hok) in Hin. rewrite H in Hin. by destruct Hin. Qed.

Lemma no_orq_no_attempt o : orqs (t_stack t) !! o = None -> t_attempts t !! o = None.
Proof.
  intros H. destruct (t_attempts t !! o) as [p|] eqn:E; [|done].
  apply (ok_attempts _ _ Hok) in E as [(b & m & E) _]. congruence.
Qed.

Lemma no_trans_no_irq i : i ∉ map fst (t_trans t) -> irqs (t_stack t) !! i = None.
Proof.
  intros H. destruct (irqs (t_stack t) !! i) as [a|] eqn:E; [|done].
  apply (ok_irqs _ _ Hok) in E as (o & b & m & Hin & _). destruct H. by apply (elem_of_keys _ _ _ Hin).
Qed.

Lemma infos_side l o p : t_infos t !! l = Some (o, p) ->
  forall a b, (a, b) ∈ t_dialogs t -> (l = a -> o = true) /\ (l = b -> o = false).
Proof.
  intros E a b Hin. pose proof (ok_infos _ _ Hok l o p E) as H.
  split; intros ->; destruct o; try done.
  - apply elem_of_snd in H as [a' H]. by destruct (ok_sides _ _ Hok a b a' a Hin H).
  - destruct H as [H _]. apply elem_of_fst in H as [b' H]. by destruct (ok_sides _ _ Hok b b' a b H Hin).
Qed.

Lemma add_call_ok origination irq orq a b p :
  irq <> 0 -> orq <> 0 -> a <> 0 -> b <> 0 -> a <> b -> known p ->
  irq ∉ map fst (t_trans t) -> orqs (t_stack t) !! orq = None ->
  a ∉ legs (t_stack t) -> b ∉ legs (t_stack t) ->
  tables_ok known (add_call origination irq orq a b p t).
Proof using Hok.
  intros Hirq Horq Ha Hb Hab Hp Hi Ho Hla Hlb.
  pose proof (no_leg_no_info a Hla) as Hia. pose proof (no_leg_no_info b Hlb) as Hib.
  pose proof (no_orq_no_attempt orq Ho) as Hat. pose proof (no_orq_no_trans orq Ho) as Hno.
  pose proof Hla as Hla'. rewrite (ok_legs _ _ Hok) in Hla'.
  pose proof Hlb as Hlb'. rewrite (ok_legs _ _ Hok) in Hlb'.
  constructor; simpl.
  - apply bimap_ok_cons; [done|done|apply Hok].
  - apply bimap_ok_cons; [tauto|tauto|apply Hok].
  - intros i o [[= -> ->]|H]%elem_of_cons; [done|]. by apply (ok_handles _ _ Hok).
  - intros x y x' y' H H'. apply elem_of_cons in H as [H|H], H' as [H'|H']; simplify_eq; [done|..].
    + pose proof (elem_of_keys _ _ _ H'). naive_solver.
    + pose proof (elem_of_keys _ _ _ H). destruct (ok_sides _ _ Hok x y x y H H). naive_solver.
    + by apply (ok_sides _ _ Hok x y x' y').
  - intros l. rewrite !elem_of_cons, !elem_of_union, !elem_of_singleton, (ok_legs _ _ Hok). tauto.
  - intros l o q H.
    assert (t_infos t !! l = Some (o, q) -> if o then l ∈ a :: map fst (t_dialogs t) /\ exists r, q = Some r /\ known r
      else l ∈ b :: map snd (t_dialogs t)) as Hold.
    { intros E%(ok_infos _ _ Hok). destruct o; rewrite elem_of_cons; tauto. }
    destruct origination; (apply lookup_insert_Some in H as [[<- [= <- <-]]|[_ H]]; [|by apply Hold]);
      [split; [|eauto]|]; apply elem_of_cons; by left.
  - intros x y [[= -> ->]|H]%elem_of_cons.
    { destruct origination; rewrite lookup_insert_eq, lookup_insert_ne by done; [left|right]; naive_solver. }
    destruct (dialog_legs x y H) as (Hx & Hy & _).
    destruct origination; rewrite !lookup_insert_ne by (intros ->; done); by apply (ok_kinds _ _ Hok).
  - intros o. rewrite elem_of_cons, lookup_insert_is_Some', (ok_orqs _ _ Hok). naive_solver.
  - intros i o b' m [[= -> ->]|H]%elem_of_cons.
    + rewrite lookup_insert_eq. intros [= <- <-]. split; [done|]. exists a. rewrite lookup_insert_eq.
      split; [done|]. split; [by left|]. destruct origination; rewrite ?lookup_insert_eq, ?Hia, ?Hat.
      * naive_solver.
      * rewrite lookup_insert_ne by done. rewrite Hia. split; [by intros []|done].
    + destruct (elem_of_keys _ _ _ H) as [Hi1 Ho1]. rewrite lookup_insert_ne by congruence. intros E.
      destruct (ok_calls _ _ Hok i o b' m H E) as (-> & a' & H1 & H2 & H3). split; [done|]. exists a'.
      rewrite lookup_insert_ne by congruence. split; [done|]. split; [by right|].
      destruct (dialog_legs _ _ H2) as (Hx & Hy & _).
      destruct origination; rewrite ?lookup_insert_ne by congruence; done.
  - intros o l H. apply lookup_insert_Some in H as [[_ [=]]|[_ H]].
    rewrite !elem_of_union. right; right. by eapply (ok_inside _ _ Hok).
  - intros o q H.
    assert (t_attempts t !! o = Some q -> (exists b' m, <[orq:=(b, response_to_invite, sip_method_invite)]>
      (orqs (t_stack t)) !! o = Some (b', response_to_invite, m)) /\ exists r, q = Some r /\ known r) as Hold.
    { intros E%(ok_attempts _ _ Hok). destruct E as [(b' & m & E) Hq]. split; [|done]. exists b', m.
      rewrite lookup_insert_ne by congruence. done. }
    destruct origination; [by apply Hold|]. apply lookup_insert_Some in H as [[<- <-]|[_ H]]; [|by apply Hold].
    split; [|eauto]. exists b, sip_method_invite. by rewrite lookup_insert_eq.
  - intros i l H. apply lookup_insert_Some in H as [[<- <-]|[_ H]].
    { exists orq, b, sip_method_invite. rewrite lookup_insert_eq. split; [by left|]. split; [done|by left]. }
    destruct (ok_irqs _ _ Hok i l H) as (o & b' & m & H1 & H2 & H3). exists o, b', m.
    rewrite lookup_insert_ne by congruence. split; [by right|]. split; [done|by right].
Qed.

Lemma end_request_ok irq orq : (irq, orq) ∈ t_trans t -> tables_ok known (end_request irq orq t).
Proof using Hok.
  intros Hin. destruct (ok_trans _ _ Hok) as [Hf Hs].
  assert (forall i o, (i, o) ∈ t_trans t -> o <> orq -> i <> irq) as Hother.
  { intros i o H Hne ->. apply Hne. by eapply fst_inj. }
  constructor; simpl; try apply Hok.
  - apply bimap_ok_right_erase, Hok.
  - intros i o [H _]%elem_of_right_erase. by apply (ok_handles _ _ Hok).
  - intros o. rewrite elem_of_snd, lookup_delete_is_Some, <- (ok_orqs _ _ Hok), elem_of_snd.
    setoid_rewrite elem_of_right_erase. naive_solver.
  - intros i o b m [H Hne]%elem_of_right_erase. simpl in Hne. rewrite lookup_delete_ne by done. intros E.
    destruct (ok_calls _ _ Hok i o b m H E) as (-> & a & H1 & H2 & H3). split; [done|]. exists a.
    rewrite !lookup_delete_ne by (symmetry; eauto). done.
  - intros o l [_ H]%lookup_delete_Some. by eapply (ok_inside _ _ Hok).
  - intros o q [Hne H]%lookup_delete_Some. rewrite lookup_delete_ne by done. by apply (ok_attempts _ _ Hok).
  - intros i l [Hne H]%lookup_delete_Some. destruct (ok_irqs _ _ Hok i l H) as (o & b & m & H1 & H2 & H3).
    assert (o <> orq) as Ho by (intros ->; apply Hne; by eapply snd_inj).
    exists o, b, m. rewrite lookup_delete_ne by done. split; [by apply elem_of_right_erase|done].
Qed.

Lemma end_dialog_ok a b :
  (a, b) ∈ t_dialogs t -> ~ inviting t a -> ~ inviting t b -> tables_ok known (end_dialog a b t).
Proof using Hok.
  intros Hin Hqa Hqb. destruct (ok_dialogs _ _ Hok) as [Hf Hs].
  destruct (dialog_legs a b Hin) as (Hla & Hlb & Hab).
  assert (forall x y, (x, y) ∈ right_erase b (left_erase a (t_dialogs t)) <->
    (x, y) ∈ t_dialogs t /\ x <> a /\ y <> b) as Hrest.
  { intros x y. rewrite elem_of_right_erase, elem_of_left_erase. simpl. tauto. }
  assert (forall x y, (x, y) ∈ t_dialogs t -> (x <> a <-> y <> b)) as Hpair.
  { intros x y H. split; intros Hne ->; apply Hne; [by eapply snd_inj|by eapply fst_inj]. }
  assert (forall x y, (x, y) ∈ t_dialogs t -> x <> b /\ y <> a) as Hcross.
  { intros x y H. split; intros ->; [by destruct (ok_sides _ _ Hok b y a b H Hin)|].
    by destruct (ok_sides _ _ Hok a b x a Hin H). }
  constructor; simpl; try apply Hok.
  - apply bimap_ok_right_erase, bimap_ok_left_erase, Hok.
  - intros x y x' y' [H _]%Hrest [H' _]%Hrest. by apply (ok_sides _ _ Hok x y x' y').
  - intros l. rewrite elem_of_difference, elem_of_union, !elem_of_singleton, (ok_legs _ _ Hok), !elem_of_fst, !elem_of_snd.
    setoid_rewrite Hrest. split.
    + intros [[[y H]|[x H]] Hl]; [left; exists y|right; exists x];
        (split; [done|]); pose proof (Hpair _ _ H); tauto.
    + intros [(y & H & H1 & H2)|(x & H & H1 & H2)]; (split; [eauto|]); pose proof (Hcross _ _ H); tauto.
  - intros l o q [Hb1 [Ha1 H]%lookup_delete_Some]%lookup_delete_Some.
    apply (ok_infos _ _ Hok) in H. destruct o.
    + destruct H as [[y H]%elem_of_fst Hq]. split; [|done]. apply elem_of_fst. exists y. apply Hrest.
      pose proof (Hpair _ _ H). naive_solver.
    + apply elem_of_snd in H as [x H]. apply elem_of_snd. exists x. apply Hrest.
      pose proof (Hpair _ _ H). naive_solver.
  - intros x y (H & H1 & H2)%Hrest. pose proof (Hcross _ _ H) as [H3 H4].
    rewrite !lookup_delete_ne by congruence. by apply (ok_kinds _ _ Hok).
  - intros i o b' m H E. destruct (ok_calls _ _ Hok i o b' m H E) as (-> & x & H1 & H2 & H3).
    split; [done|]. exists x. assert (b' <> b) as Hb' by (intros ->; apply Hqb; by eexists _, _).
    pose proof (proj2 (Hpair _ _ H2) Hb') as Hx. pose proof (Hcross _ _ H2) as [H4 H5].
    rewrite !lookup_delete_ne by congruence. split; [done|]. split; [by apply Hrest|done].
  - intros o l H. pose proof (ok_inside _ _ Hok o l H) as Hl. rewrite elem_of_difference. split; [done|].
    rewrite elem_of_union, !elem_of_singleton. intros [->| ->]; [apply Hqa|apply Hqb]; by eexists _, _.
  - intros i l H. destruct (ok_irqs _ _ Hok i l H) as (o & b' & m & H1 & H2 & H3).
    exists o, b', m. split; [done|]. split; [done|].
    destruct (ok_calls _ _ Hok i o b' m H1 H2) as [-> _].
    assert (b' <> b) as Hb' by (intros ->; apply Hqb; by eexists _, _).
    apply Hrest. pose proof (Hpair _ _ H3). tauto.
Qed.

Lemma replace_request_ok irq orq orq' a b b' p x :
  (irq, orq) ∈ t_trans t -> orqs (t_stack t) !! orq = Some (b, response_to_invite, sip_method_invite) ->
  (a, b) ∈ t_dialogs t -> is_Some (t_attempts t !! orq) -> t_infos t !! b = Some x ->
  irqs (t_stack t) !! irq = Some a -> known p ->
  (forall o cb, orqs (t_stack t) !! o = Some (b, cb, sip_method_invite) -> o = orq) ->
  orq' <> 0 -> orqs (t_stack t) !! orq' = None -> b' <> 0 -> b' ∉ legs (t_stack t) ->
  tables_ok known (replace_request irq orq orq' a b b' p x t).
Proof using Hok.
  intros Htr Horq Hd Hat Hx Hirq Hp Hq Ho' Hno' Hb' Hlb'.
  destruct (ok_trans _ _ Hok) as [Htf Hts]. destruct (ok_dialogs _ _ Hok) as [Hf Hs].
  destruct (dialog_legs a b Hd) as (Hla & Hlb & Hab). destruct (ok_handles _ _ Hok _ _ Htr) as [Hi0 Ho0].
  pose proof (no_leg_no_info b' Hlb') as Hib. pose proof (no_orq_no_trans orq' Hno') as Hnt.
  pose proof (no_orq_no_attempt orq' Hno') as Hna.
  assert (orq <> orq') as Hoo by congruence. assert (b <> b') as Hbb by (by intros ->).
  assert (a <> b') as Hab' by (by intros ->).
  destruct x as [kind q0]. destruct (infos_side b kind q0 Hx a b Hd) as [_ Hk]. rewrite (Hk eq_refl) in *. clear Hk.
  assert (t_infos t !! a = None) as Hia.
  { destruct (ok_kinds _ _ Hok a b Hd) as [[_ Hn]|[Hn _]]; [congruence|done]. }
  pose proof Hlb' as Hlb1. rewrite (ok_legs _ _ Hok) in Hlb1.
  assert (forall y z, (y, z) ∈ right_erase b (t_dialogs t) <-> (y, z) ∈ t_dialogs t /\ z <> b) as Hrest.
  { intros y z. by rewrite elem_of_right_erase. }
  assert (forall y z, (y, z) ∈ t_dialogs t -> (y <> a <-> z <> b)) as Hpair.
  { intros y z H. split; intros Hne ->; apply Hne; [by eapply (snd_inj (t_dialogs t))|by eapply (fst_inj (t_dialogs t))]. }
  assert (forall y z, (y, z) ∈ t_dialogs t -> y <> b' /\ z <> b' /\ y <> b) as Hnew.
  { intros y z H. destruct (elem_of_keys _ _ _ H). split; [|split]; [naive_solver|naive_solver|].
    intros ->. by destruct (ok_sides _ _ Hok b z a b H Hd). }
  assert (forall i o, (i, o) ∈ t_trans t -> o <> orq -> i <> irq) as Hother.
  { intros i o H Hne ->. apply Hne. by eapply (fst_inj (t_trans t)). }
  assert (forall o v, o <> orq -> orqs (t_stack t) !! o = Some v ->
    delete orq (<[ orq' := (b', response_to_invite, sip_method_invite) ]> (orqs (t_stack t))) !! o = Some v) as Hkeep.
  { intros o v H E. rewrite lookup_delete_ne, lookup_insert_ne by congruence. done. }
  assert (delete orq (<[ orq' := (b', response_to_invite, sip_method_invite) ]> (orqs (t_stack t))) !! orq' =
    Some (b', response_to_invite, sip_method_invite)) as Hnewo.
  { rewrite lookup_delete_ne by done. by rewrite lookup_insert_eq. }
  constructor; simpl.
  - apply bimap_ok_cons; [| |apply bimap_ok_right_erase, Hok].
    + intros [o [H Hne]%elem_of_right_erase]%elem_of_fst. by apply (Hother irq o).
    + intros [i [H _]%elem_of_right_erase]%elem_of_snd. by destruct (elem_of_keys _ _ _ H).
  - apply bimap_ok_cons; [| |apply bimap_ok_right_erase, Hok].
    + intros [z [H Hne]%Hrest]%elem_of_fst. pose proof (Hpair _ _ H). tauto.
    + intros [y [H _]%Hrest]%elem_of_snd. pose proof (Hnew _ _ H). tauto.
  - intros i o [[= -> ->]|[H _]%elem_of_right_erase]%elem_of_cons; [done|]. by apply (ok_handles _ _ Hok).
  - assert (forall y z, (y, z) ∈ (a, b') :: right_erase b (t_dialogs t) ->
      y = a /\ z = b' \/ (y, z) ∈ t_dialogs t) as Hin.
    { intros y z [[= -> ->]|[H _]%Hrest]%elem_of_cons; tauto. }
    intros y z y' z' H H'. destruct (ok_sides _ _ Hok a b a b Hd Hd) as (_ & Ha0 & _).
    destruct (Hin _ _ H) as [[-> ->]|H1], (Hin _ _ H') as [[-> ->]|H1']; [done|..].
    + by destruct (ok_sides _ _ Hok a b y' z' Hd H1').
    + pose proof (Hnew _ _ H1). destruct (ok_sides _ _ Hok y z y z H1 H1). naive_solver.
    + by apply (ok_sides _ _ Hok y z y' z').
  - intros l. rewrite elem_of_difference, elem_of_union, !elem_of_singleton, !elem_of_cons, (ok_legs _ _ Hok).
    rewrite !elem_of_fst, !elem_of_snd. setoid_rewrite Hrest. split.
    + intros [[Heq|[[z H]|[y H]]] Hl]; [by right; left| |].
      * destruct (decide (l = a)) as [->|Hne]; [by left; left|]. left; right. exists z. split; [done|].
        by apply (Hpair _ _ H).
      * right; right. by exists y.
    + intros [[Heq|(z & H & Hz)]|[Heq|(y & H & Hy)]].
      * rewrite Heq. split; [|done]. right; left. by exists b.
      * pose proof (Hnew _ _ H). split; [|tauto]. right; left. by exists z.
      * rewrite Heq. split; [by left|done].
      * split; [|done]. right; right. by exists y.
  - intros l o q [Hlb2 H]%lookup_delete_Some. apply lookup_insert_Some in H as [[<- [= <- <-]]|[Hne H]].
    { by left. }
    apply (ok_infos _ _ Hok) in H. destruct o.
    + destruct H as [[z H]%elem_of_fst Hq']. split; [|done]. apply elem_of_cons.
      destruct (decide (l = a)) as [->|Hla2]; [by left|]. right. apply elem_of_fst. exists z. apply Hrest.
      split; [done|]. by apply (Hpair _ _ H).
    + apply elem_of_snd in H as [y H]. apply elem_of_cons. right. apply elem_of_snd. exists y. apply Hrest.
      split; [done|congruence].
  - intros y z [[= -> ->]|[H Hz]%Hrest]%elem_of_cons.
    { right. rewrite !lookup_delete_ne, lookup_insert_eq, lookup_insert_ne by congruence. by eauto. }
    pose proof (Hnew _ _ H) as (H1 & H2 & H3).
    rewrite !lookup_delete_ne, !lookup_insert_ne by congruence. by apply (ok_kinds _ _ Hok).
  - intros o. rewrite elem_of_cons, elem_of_snd, lookup_delete_is_Some, lookup_insert_is_Some', <- (ok_orqs _ _ Hok), elem_of_snd.
    setoid_rewrite elem_of_right_erase. simpl. naive_solver.
  - intros i o b1 m [[= -> ->]|[H Hne]%elem_of_right_erase]%elem_of_cons.
    + rewrite Hnewo. intros [= <- <-]. split; [done|]. exists a. split; [done|]. split; [by left|].
      rewrite lookup_delete_ne, lookup_insert_ne by done. rewrite Hia, lookup_insert_eq.
      split; [by intros []|done].
    + simpl in Hne. destruct (elem_of_keys _ _ _ H) as [_ Ho1].
      rewrite lookup_delete_ne, lookup_insert_ne by congruence. intros E.
      destruct (ok_calls _ _ Hok i o b1 m H E) as (-> & a1 & H1 & H2 & H3). split; [done|]. exists a1.
      split; [done|]. assert (b1 <> b) as Hb1 by (intros ->; by eapply Hne, Hq).
      split; [right; by apply Hrest|]. pose proof (Hnew _ _ H2) as (H4 & H5 & H6).
      rewrite lookup_delete_ne, lookup_insert_ne by congruence.
      rewrite lookup_insert_ne, lookup_delete_ne by congruence. done.
  - intros o l [Hne H]%lookup_delete_Some. apply lookup_insert_Some in H as [[_ [=]]|[_ H]].
    rewrite elem_of_difference, elem_of_union, !elem_of_singleton. split.
    + right. by eapply (ok_inside _ _ Hok).
    + intros ->. by apply Hne, eq_sym, (Hq o response_to_request_inside_dialog).
  - intros o q H. apply lookup_insert_Some in H as [[<- <-]|[_ [Hne H]%lookup_delete_Some]].
    { split; [|eauto]. by eexists _, _. }
    destruct (ok_attempts _ _ Hok o q H) as [(b1 & m & E) Hq']. split; [|done]. exists b1, m. by apply Hkeep.
  - intros i l H. destruct (ok_irqs _ _ Hok i l H) as (o & b1 & m & H1 & H2 & H3).
    destruct (decide (o = orq)) as [->|Hne].
    + assert (i = irq) as -> by (by eapply (snd_inj (t_trans t))). rewrite Hirq in H. injection H as <-.
      exists orq', b', sip_method_invite. split; [by left|]. split; [done|by left].
    + exists o, b1, m. split; [right; by apply elem_of_right_erase|]. split; [by apply Hkeep|].
      right. apply Hrest. split; [done|]. intros ->.
      destruct (ok_calls _ _ Hok i o b m H1 H2) as [-> _]. by eapply Hne, Hq.
Qed.

Lemma add_inside_ok irq orq leg method :
  irq <> 0 -> orq <> 0 -> irq ∉ map fst (t_trans t) -> orqs (t_stack t) !! orq = None ->
  leg ∈ legs (t_stack t) -> tables_ok known (add_inside irq orq leg method t).
Proof using Hok.
  intros Hi Ho Hni Hno Hl. pose proof (no_orq_no_trans orq Hno) as Hnt.
  constructor; simpl; try apply Hok.
  - apply bimap_ok_cons; [done|done|apply Hok].
  - intros i o [[= -> ->]|H]%elem_of_cons; [done|]. by apply (ok_handles _ _ Hok).
  - intros o. rewrite elem_of_cons, lookup_insert_is_Some', (ok_orqs _ _ Hok). naive_solver.
  - intros i o b m [[= -> ->]|H]%elem_of_cons; [by rewrite lookup_insert_eq; intros [=]|].
    destruct (elem_of_keys _ _ _ H). rewrite lookup_insert_ne by congruence. by apply (ok_calls _ _ Hok).
  - intros o l [[_ [= <- _]]|[_ H]]%lookup_insert_Some; [done|]. by eapply (ok_inside _ _ Hok).
  - intros o q H. destruct (ok_attempts _ _ Hok o q H) as [(b & m & E) Hq]. split; [|done].
    exists b, m. by rewrite lookup_insert_ne by congruence.
  - intros i l H. destruct (ok_irqs _ _ Hok i l H) as (o & b & m & H1 & H2 & H3). exists o, b, m.
    split; [by right|]. split; [|done]. by rewrite lookup_insert_ne by congruence.
Qed.
End Moves.
