(* ===== verification/CallSafety.v ===== *)
(** * CallSafety: the call handling never crashes

    The invariant of the controller in stateful mode, what is expected of the
    SIP stack ([event_ok]), and the proof that every callback then returns,
    keeps the invariant, and makes one of the moves it is allowed. *)

From S2P Require Import Prelude Text Sip Bimap Ssp FsInstance.
From S2P Require Import FsMonitor Routes Cdr CdrWriter TrunkStats CallControl CallTables.

(** ** The invariant *)

Section Invariant.
Context {P C : Type} {pool : ServerPool P} {routes : CallRoutes C}.
#[local] Abbreviation St := (Ctl P C).

(** The records that exist. *)
Definition known (s : St) (p : Z) : Prop := is_Some (store (m_cdrs s) !! p).

Definition env_ok (s : St) : Prop :=
  (forall p, known s p -> p < m_nextCdr s) /\ pool_ok (m_fsMonitor s) /\ routes_ok (m_Config s) /\
  is_Some (url_host (m_my_contact s)).

Definition ctl_ok (s : St) : Prop := env_ok s /\ tables_ok (known s) (tables_of s).
End Invariant.

(** ** What is expected of the SIP stack *)

Section Environment.
Context {P C : Type} {pool : ServerPool P} {routes : CallRoutes C}.
#[local] Abbreviation St := (Ctl P C).

(** A new handle: null when the allocation failed, else not in use. *)
Definition fresh_leg (s : St) (l : Z) : Prop := l = 0 \/ l ∉ legs (stack_of (m_calls s)).
Definition fresh_orq (s : St) (o : Z) : Prop := o = 0 \/ orqs (stack_of (m_calls s)) !! o = None.
Definition fresh_irq (s : St) (i : Z) : Prop := i <> 0 /\ i ∉ map fst (m_transactions s).

(** A lookup finds the leg as long as it exists. *)
Definition lookup_leg (s : St) (l : Z) : Z :=
  if decide (l ∈ legs (stack_of (m_calls s))) then l else 0.

Definition leg_of_irq (s : St) (irq : Z) : Z :=
  match irqs (stack_of (m_calls s)) !! irq with Some a => lookup_leg s a | None => 0 end.

(** No INVITE but [orq] is outstanding on either side of the dialog of
    [leg]. *)
Definition same_call (s : St) (l leg : Z) : Prop :=
  l = leg \/ (l, leg) ∈ m_dialogs s \/ (leg, l) ∈ m_dialogs s.
Definition quiet_but (s : St) (orq leg : Z) : Prop :=
  forall o l cb, orqs (stack_of (m_calls s)) !! o = Some (l, cb, sip_method_invite) -> o <> orq ->
    ~ same_call s l leg.

(** A URI made of parts of a message and a bounded address fits its buffer. *)
Definition fits (parts : list (option string)) : Prop :=
  foldr (fun p n => n + length_ (default EmptyString p)) 16 parts + ADDRESS_MAX < URL_MAXLEN.

Definition fits_user (h : option addr_t) : Prop :=
  exists to, h = Some to /\ fits [url_user (a_url to)].

(** A request outside a dialog: an INVITE has a From and a To header, and
    memory for the A leg of a termination is not lacking (the code does not
    look); the body of a termination's INVITE, and the Contact of an OPTIONS,
    are there (the code does not look). *)
Definition outside_ok (s : St) (an : answers) (irq : Z) (sip : sip_t) : Prop :=
  fresh_irq s irq /\
  match sip_request sip with
  | None => False
  | Some sip_method_invite =>
      is_Some (sip_from sip) /\ fits_user (sip_to sip) /\
      fresh_leg s (an_a_leg an) /\ fresh_leg s (an_b_leg an) /\ fresh_orq s (an_orq an) /\
      (an_a_leg an = 0 \/ an_a_leg an <> an_b_leg an) /\
      forall carrier s', determineCallType sip s = Ok ((termination_call_type, carrier), s') ->
        an_a_leg an <> 0 /\ is_Some (sip_payload sip)
  | Some sip_method_options => exists contact, sip_contact sip = Some contact /\ is_Some (url_host (a_url contact))
  | Some _ => True
  end.

(** A response to an INVITE is for a request that is outstanding; it has the
    headers its status calls for; and a final failure finds no other INVITE
    outstanding on the call. *)
Definition invite_response_ok (s : St) (an : answers) (orq : Z) (sip : sip_t) : Prop :=
  exists l m status,
    orqs (stack_of (m_calls s)) !! orq = Some (l, response_to_invite, m) /\
    an_out_leg an = lookup_leg s l /\
    (forall irq, (irq, orq) ∈ m_transactions s -> an_irq_leg an = leg_of_irq s irq) /\
    sip_status sip = Some status /\ 100 <= status < 700 /\
    fresh_leg s (an_b_leg an) /\ fresh_orq s (an_orq an) /\ fresh_orq s (an_ack an) /\
    (status = 200 -> is_Some (sip_to sip) /\ is_Some (sip_contact sip) /\ is_Some (sip_payload sip)) /\
    (300 <= status <= 399 -> exists c, sip_contact sip = Some c /\
       fits [url_user (a_url c); url_host (a_url c); url_port (a_url c)]) /\
    (status = 503 \/ status = 480 -> fits_user (sip_to sip)) /\
    (200 < status -> quiet_but s orq l).

(** The CANCEL, or the ACK of a failure, of a bound INVITE. *)
Definition ack_or_cancel_ok (s : St) (an : answers) (irq : Z) (sip : sip_t) : Prop :=
  is_Some (sip_request sip) /\ is_Some (irqs (stack_of (m_calls s)) !! irq) /\
  an_irq_leg an = leg_of_irq s irq /\
  forall orq, (irq, orq) ∈ m_transactions s -> quiet_but s orq (an_irq_leg an).

(** A request inside a dialog.  A BYE comes when no INVITE is outstanding;
    memory for passing on another request is not lacking (the code does not
    look). *)
Definition inside_ok (s : St) (an : answers) (leg irq : Z) (sip : sip_t) : Prop :=
  leg ∈ legs (stack_of (m_calls s)) /\ fresh_irq s irq /\
  match sip_request sip with
  | None => False
  | Some sip_method_bye => fresh_orq s (an_ack an) /\ quiet_but s 0 leg
  | Some sip_method_ack => True
  | Some _ => an_orq an <> 0 /\ fresh_orq s (an_orq an)
  end.

Definition inside_response_ok (s : St) (an : answers) (orq : Z) (sip : sip_t) : Prop :=
  exists l m,
    orqs (stack_of (m_calls s)) !! orq = Some (l, response_to_request_inside_dialog, m) /\
    an_out_leg an = lookup_leg s l /\ sip_cseq sip = Some m /\ is_Some (sip_status sip) /\
    fresh_orq s (an_ack an) /\
    (m = sip_method_invite -> sip_status sip = Some 200 -> is_Some (sip_contact sip)).

Definition event_ok (s : St) (e : event) : Prop :=
  match e with
  | EOutside an irq sip => outside_ok s an irq sip
  | EInviteResponse an orq sip => invite_response_ok s an orq sip
  | EAckOrCancel an irq sip => ack_or_cancel_ok s an irq sip
  | EInside an leg irq sip => inside_ok s an leg irq sip
  | EInsideResponse an orq sip => inside_response_ok s an orq sip
  | ERefresh leg => quiet_but s 0 leg
  | EStray an sip => is_Some (i_id sip) /\ is_Some (sip_contact sip) /\ fresh_orq s (an_ack an)
  | EPool p => pool_ok p
  | EWork => True
  end.
End Environment.

(** ** What each callback may do to the calls

    [r] is what the callback returns. *)
Definition outside_moves (sip : sip_t) (r : Z) : list move_kind :=
  if bool_decide (sip_request sip = Some sip_method_invite) && (r =? 0) then [Begins] else [Idle].

Definition response_moves (status : Z) : list move_kind :=
  if status <? 200 then [Idle] else if status =? 200 then [Answered] else [Fails; Idle].

Definition cancel_moves (sip : sip_t) : list move_kind :=
  if bool_decide (sip_request sip = Some sip_method_cancel) then [Fails] else [Idle].

Definition inside_moves (sip : sip_t) : list move_kind :=
  if bool_decide (sip_request sip = Some sip_method_bye) then [Ends] else [Idle].

Definition moves_of {P} (e : event (P := P)) (r : Z) : list move_kind :=
  match e with
  | EOutside _ _ sip => outside_moves sip r
  | EInviteResponse _ _ sip => response_moves (default 0 (sip_status sip))
  | EAckOrCancel _ _ sip => cancel_moves sip
  | EInside _ _ _ sip => inside_moves sip
  | ERefresh _ => [Ends; Idle]
  | _ => [Idle]
  end.

(** ** Lemmas *)

(** *** What every callback keeps

    [I] is kept by the steps that the callbacks are made of: changes of the
    calls, of the records, of the configuration and of the pool, each through
    its operations. *)

Record framed {P C : Type} {pool : ServerPool P} {routes : CallRoutes C} (I : Ctl P C -> Prop) : Prop := {
  framed_modify : forall f : Ctl P C -> Ctl P C,
    (forall s, m_Config (f s) = m_Config s) -> (forall s, m_fsMonitor (f s) = m_fsMonitor s) ->
    (forall s, m_my_contact (f s) = m_my_contact s) -> (forall s, m_cdrs (f s) = m_cdrs s) ->
    (forall s, m_nextCdr (f s) = m_nextCdr s) -> keeps I (modify f);
  framed_cdrs : forall f : Queue -> Queue,
    (forall q p, is_Some (store (f q) !! p) <-> is_Some (store q !! p)) ->
    keeps I (modify (fun s => s <| m_cdrs ::= f |>));
  framed_new_cdr : forall c, keeps I (new_cdr c);
  framed_config : forall m : M C (option route), gives_route routes_ok m -> keeps I (config m);
  framed_servers : keeps I getAvailableServers
}.

Section Keeps.
Context {P C : Type} {pool : ServerPool P} {routes : CallRoutes C}.
#[local] Abbreviation St := (Ctl P C).
Context (I : St -> Prop) (HI : framed I).

Lemma keeps_change_cdr p f : keeps I (change_cdr p f).
Proof using HI. apply (framed_cdrs I HI). intros q k. simpl. by rewrite lookup_alter_is_Some. Qed.

Lemma keeps_post p : keeps I (postCdr p).
Proof using HI. apply keeps_bind; [apply keeps_gets|]. intros w. apply keeps_when. by apply (framed_cdrs I HI). Qed.

Lemma keeps_work : keeps I (modify (fun s => s <| m_cdrs ::= queue_step QWork |>)).
Proof using HI. apply (framed_cdrs I HI). intros q p. simpl. by repeat case_match. Qed.
End Keeps.

#[export] Hint Resolve framed_new_cdr keeps_change_cdr keeps_post keeps_work framed_config framed_servers
  routes_next_ok routes_alt_ok routes_for_ok : keeps.
#[export] Hint Extern 3 (keeps _ (modify _)) =>
  lazymatch goal with H : framed _ |- _ => by apply (framed_modify _ H) end : keeps.

Section KeepsHandlers.
Context {P C : Type} {pool : ServerPool P} {routes : CallRoutes C}.
Context (I : Ctl P C -> Prop) (HI : framed I).

Lemma keeps_clearDialog leg : keeps I (clearDialog leg).
Proof using HI. unfold clearDialog, getAssociatedDialog, erase_info, nta. keeps_auto. Qed.

Lemma keeps_clearTransaction orq : keeps I (clearTransaction orq).
Proof using HI. unfold clearTransaction, getAssociatedTransaction_orq, nta. keeps_auto. Qed.

Lemma keeps_generate an t : keeps I (generateTerminationRequest an t).
Proof using HI. unfold generateTerminationRequest, nta, fits_url. keeps_auto. Qed.

Lemma keeps_updateDialog b b' : keeps I (updateDialog b b').
Proof using HI. unfold updateDialog, getAssociatedDialog, addDialogs, nta. keeps_auto. Qed.

Lemma keeps_retry an irq orq leg : keeps I (retry an irq orq leg).
Proof using HI.
  pose proof keeps_generate. pose proof keeps_updateDialog.
  unfold retry, updateOutgoingTransaction, addTransactions, nta. keeps_auto.
Qed.

Lemma keeps_post_copy p f : keeps I (post_copy p f).
Proof using HI. unfold post_copy, cdr_at. keeps_auto. Qed.

Lemma keeps_origination_cdr an p sip c : keeps I (populateOriginationCdr an p sip c).
Proof using HI. unfold populateOriginationCdr, to_string. keeps_auto. Qed.

Lemma keeps_reject p st cause : keeps I (reject p st cause).
Proof using HI. unfold reject. keeps_auto. Qed.

Lemma keeps_ack an leg sip : keeps I (send_ack an leg sip).
Proof using HI. unfold send_ack, nta. keeps_auto. Qed.
End KeepsHandlers.

#[export] Hint Resolve keeps_clearDialog keeps_clearTransaction keeps_generate keeps_retry keeps_post_copy
  keeps_origination_cdr keeps_reject keeps_ack : keeps.

(** Every callback keeps what these steps keep. *)
Lemma keeps_handle {P C : Type} {pool : ServerPool P} {routes : CallRoutes C} (I : Ctl P C -> Prop) (HI : framed I) (e : event) :
  (forall p, e = EPool p -> keeps I (modify (fun s => s <| m_fsMonitor := p |>))) -> keeps I (handle e).
Proof.
  intros Hpool. destruct e as [an irq sip|an orq sip|an irq sip|an leg irq sip|an orq sip|leg|an sip|p|]; simpl.
  - unfold respond, processRequestOutsideDialog, validateSipMessage, determineCallType, reject_call, processOriginationRequest,
      processTerminationRequest, choose_route, populateTerminationCdr, addTransactions, addDialogs, cdr_at, fits_url,
      to_string, nta. keeps_auto.
  - unfold processInviteResponseInsideDialog, finish_response, record_of_call, count_failure, invite_accepted, start_session_timer,
      crank, redirect, next_carrier, proxy_response, change_info, change_attempt, getAssociatedTransaction_orq, nta.
    keeps_auto.
  - unfold processAckOrCancel, getAssociatedTransaction_irq, nta. keeps_auto.
  - unfold respond, processRequestInsideDialog, getAssociatedDialog, addTransactions, nta. keeps_auto.
  - unfold processResponseInsideDialog, getAssociatedTransaction_orq, nta. keeps_auto.
  - unfold processSessionRefreshTimer, getAssociatedDialog, change_info, nta. keeps_auto.
  - unfold processRetransmittedResponse. keeps_auto.
  - apply keeps_bind; [by apply Hpool|keeps_auto].
  - keeps_auto.
Qed.

(** The environment stays well-formed, and no record is lost. *)
Section Env.
Context {P C : Type} {pool : ServerPool P} {routes : CallRoutes C}.
#[local] Abbreviation St := (Ctl P C).

Definition env (s0 s : St) : Prop := env_ok s /\ forall p, known s0 p -> known s p.

Lemma env_framed (s0 : St) : framed (env s0).
Proof.
  split.
  - intros f H1 H2 H3 H4 H5. apply keeps_modify. intros s [(Hc & Hp & Hr & Hh) Hk].
    unfold env, env_ok, known in *. by rewrite H1, H2, H3, H4, H5.
  - intros f H. apply keeps_modify. intros s [(Hc & Hp & Hr & Hh) Hk].
    unfold env, env_ok, known in *. simpl. setoid_rewrite H. done.
  - intros c s p s' [(Hc & Hp & Hr & Hh) Hk] [= <- <-]. unfold env, env_ok, known in *. simpl.
    setoid_rewrite lookup_insert_is_Some'. split; [|by eauto]. split; [|done].
    intros p [<-|H]; [lia|]. apply Hc in H. lia.
  - intros m H s r s' [(Hc & Hp & Hr & Hh) Hk] E. unfold config in E.
    destruct (H _ Hr) as (r0 & c & Em & Hok & _). rewrite Em in E. by injection E as <- <-.
  - intros s r s' [(Hc & Hp & Hr & Hh) Hk] E. unfold getAvailableServers in E.
    destruct (pool_get_ok _ Hp) as (r0 & p & Em & Hok & _). rewrite Em in E. by injection E as <- <-.
Qed.

Lemma env_handle (s0 : St) (e : event) : (forall p, e = EPool p -> pool_ok p) -> keeps (env s0) (handle e).
Proof.
  intros Hpool. apply keeps_handle; [apply env_framed|]. intros p ->. apply keeps_modify.
  intros s [(Hc & Hp & Hr & Hh) Hk]. split; [|done]. split; [done|]. split; [by apply Hpool|done].
Qed.
End Env.

Lemma returns_nta {P C} c (Q : unit -> Ctl P C -> Prop) s :
  Q tt (s <| m_calls ::= fun l => l ++ [c] |>) -> returns (nta c) Q s.
Proof. done. Qed.

(** Symbolic execution, through the calls to the stack too. *)
Ltac exec := repeat (progress run || lazymatch goal with |- returns (nta _) _ _ => apply returns_nta end).

(** *** What the parts of the callbacks do to the tables *)

Section Parts.
Context {P C : Type} {pool : ServerPool P} {routes : CallRoutes C}.
#[local] Abbreviation St := (Ctl P C).

Lemma getAssociatedDialog_a (s : St) a b Q :
  bimap_ok (m_dialogs s) -> (a, b) ∈ m_dialogs s -> Q b s -> returns (getAssociatedDialog a) Q s.
Proof.
  intros Hd Hin HQ. unfold getAssociatedDialog. run. rewrite (proj2 (left_find_Some _ a b Hd) Hin). by run.
Qed.

Lemma getAssociatedDialog_b (s : St) a b Q :
  bimap_ok (m_dialogs s) -> (a, b) ∈ m_dialogs s -> b ∉ map fst (m_dialogs s) -> Q a s ->
  returns (getAssociatedDialog b) Q s.
Proof.
  intros Hd Hin Hb HQ. unfold getAssociatedDialog. run. rewrite (proj2 (left_find_None _ b) Hb).
  rewrite (proj2 (right_find_Some _ a b Hd) Hin). by run.
Qed.

(** The information on a leg goes; the stack's tables do not change. *)
Lemma erase_info_tables (s : St) leg (Q : unit -> St -> Prop) :
  (forall s', m_dialogs s' = m_dialogs s -> m_transactions s' = m_transactions s ->
     m_mapTerminationAttempts s' = m_mapTerminationAttempts s ->
     m_mapDialogInfo s' = delete leg (m_mapDialogInfo s) ->
     stack_of (m_calls s') = stack_of (m_calls s) -> Q tt s') ->
  returns (erase_info leg) Q s.
Proof.
  intros HQ. unfold erase_info, nta. run. destruct (m_mapDialogInfo s !! leg) as [d|] eqn:E.
  - run. destruct (m_timerSessionRefresh d =? 0); simpl; run; apply HQ; simpl; try done.
    by rewrite stack_of_snoc.
  - run. apply HQ; try done. by rewrite delete_id.
Qed.

Definition sides_ok (d : bimap) : Prop :=
  bimap_ok d /\ forall a b a' b', (a, b) ∈ d -> (a', b') ∈ d -> a <> b' /\ a <> 0 /\ b <> 0.

Lemma tables_sides known (s : St) : tables_ok known (tables_of s) -> sides_ok (m_dialogs s).
Proof. intros Hok. split; [apply (ok_dialogs _ _ Hok)|apply (ok_sides _ _ Hok)]. Qed.

Lemma clearDialog_tables (s : St) a b leg :
  sides_ok (m_dialogs s) -> (a, b) ∈ m_dialogs s -> leg = a \/ leg = b ->
  returns (clearDialog leg) (fun _ s' => tables_of s' = end_dialog a b (tables_of s)) s.
Proof.
  intros [Hd Hsides] Hin Hleg. destruct (Hsides a b a b Hin Hin) as (Hab & Ha & Hb).
  assert (forall x y, (x, y) ∈ m_dialogs s -> x <> b /\ y <> a) as Hcross.
  { intros x y H. split; intros ->.
    - by destruct (Hsides b y a b H Hin).
    - by destruct (Hsides a b x a Hin H). }
  assert (b ∉ map fst (m_dialogs s)) as Hbf.
  { intros [y H]%elem_of_fst. pose proof (Hcross _ _ H). naive_solver. }
  assert (forall other, (leg = a /\ other = b) \/ (leg = b /\ other = a) ->
    returns (nta (leg_destroy leg);;
      modify (fun s => s <| m_dialogs ::= fun d => right_erase leg (left_erase leg d) |>);;
      erase_info leg;; assert_ (negb (other =? 0));; nta (leg_destroy other);; erase_info other)
      (fun _ s' => tables_of s' = end_dialog a b (tables_of s)) s) as Hgo.
  { intros other Ho. unfold nta. run. apply erase_info_tables. intros s1 H1 H2 H3 H4 H5. simpl in *.
    assert ((other =? 0) = false) as -> by (apply Z.eqb_neq; destruct Ho as [[_ ->]|[_ ->]]; done). simpl. run.
    apply erase_info_tables. intros s2 H6 H7 H8 H9 H10. simpl in *.
    unfold tables_of, end_dialog. simpl. rewrite H6, H7, H8, H9, H10, H1, H2, H3, H4, !stack_of_snoc, H5, stack_of_snoc.
    simpl. f_equal.
    - unfold right_erase, left_erase. rewrite !filter_filter_b. apply filter_ext_in_b. intros [x y] H.
      pose proof (Hcross _ _ H) as [Hx Hy].
      assert (x = a <-> y = b) as Hxy.
      { destruct Hd as [Hf Hs]. split; intros ->; [by eapply (fst_inj (m_dialogs s))|by eapply (snd_inj (m_dialogs s))]. }
      simpl. destruct (Z.eqb_spec x a), (Z.eqb_spec y b), (Z.eqb_spec x leg), (Z.eqb_spec y leg); simpl; naive_solver.
    - rewrite !fmap_delete. destruct Ho as [[-> ->]|[-> ->]]; [done|]. by rewrite delete_delete.
    - f_equal. set_solver. }
  unfold clearDialog. apply returns_bind. destruct Hleg as [->| ->].
  - eapply getAssociatedDialog_a; [done|done|]. apply Hgo. by left.
  - eapply getAssociatedDialog_b; [done|done|done|]. apply Hgo. by right.
Qed.

(** [s'] has the same tables but for the stack's. *)
Definition same_tables (s s' : St) : Prop :=
  m_transactions s' = m_transactions s /\ m_dialogs s' = m_dialogs s /\
  m_mapTerminationAttempts s' = m_mapTerminationAttempts s /\ m_mapDialogInfo s' = m_mapDialogInfo s.

Lemma generate_tables (an : answers) (t : TerminationAttempt) p (s : St) :
  fresh_leg s (an_b_leg an) -> fresh_orq s (an_orq an) -> length_ (m_url t) < URL_MAXLEN ->
  m_pCdr t = Some p ->
  returns (generateTerminationRequest an t) (fun r s' =>
    same_tables s s' /\ m_Config s' = m_Config s /\ (forall k, known s k -> known s' k) /\
    match r with
    | None => stack_of (m_calls s') = stack_of (m_calls s)
    | Some (o, b) =>
        o = an_orq an /\ b = an_b_leg an /\ o <> 0 /\ b <> 0 /\
        stack_of (m_calls s') = mkStack ({[ b ]} ∪ legs (stack_of (m_calls s)))
          (<[ o := (b, response_to_invite, sip_method_invite) ]> (orqs (stack_of (m_calls s))))
          (irqs (stack_of (m_calls s)))
    end) s.
Proof.
  intros Hb Ho Hu Hp. unfold generateTerminationRequest, nta, change_cdr. run.
  destruct (Z.eqb_spec (an_b_leg an) 0) as [E|Eb].
  { run. split; [done|]. split; [done|]. split; [done|]. simpl. rewrite stack_of_snoc. simpl. by rewrite E. }
  destruct Hb as [?|Hb]; [done|]. run. apply fits_returns; [done|]. run.
  destruct (Z.eqb_spec (an_orq an) 0) as [E|Eo].
  { run. split; [done|]. split; [done|]. split; [done|]. simpl. rewrite !stack_of_snoc. simpl. rewrite E.
    destruct (Z.eqb_spec (an_b_leg an) 0); [done|]. simpl. destruct (stack_of (m_calls s)); simpl in *.
    f_equal. set_solver. }
  rewrite Hp. run. split; [done|]. split; [done|].
  split; [by intros k; unfold known; simpl; rewrite lookup_alter_is_Some|]. do 4 (split; [done|]).
  simpl. rewrite !stack_of_snoc. simpl.
  destruct (Z.eqb_spec (an_b_leg an) 0); [done|]. by destruct (Z.eqb_spec (an_orq an) 0).
Qed.

(** Where a request is replaced, the handles of the new one are in no table. *)
Lemma retry_fresh (an : answers) irq orq a b (s : St) K :
  tables_ok K (tables_of s) -> (irq, orq) ∈ m_transactions s -> (a, b) ∈ m_dialogs s ->
  is_Some (orqs (stack_of (m_calls s)) !! orq) ->
  fresh_leg s (an_b_leg an) -> fresh_orq s (an_orq an) -> an_orq an <> 0 -> an_b_leg an <> 0 ->
  b <> 0 /\ an_orq an <> orq /\ b ∉ map fst (m_dialogs s) /\
  bimap_insert irq (an_orq an) (right_erase orq (m_transactions s)) = (irq, an_orq an) :: right_erase orq (m_transactions s) /\
  bimap_insert a (an_b_leg an) (right_erase b (m_dialogs s)) = (a, an_b_leg an) :: right_erase b (m_dialogs s) /\
  m_mapTerminationAttempts s !! an_orq an = None /\ m_mapDialogInfo s !! an_b_leg an = None.
Proof.
  intros Hok Htr Hd Horq [?|Hfb] [?|Hfo] Ho Hb'; try done.
  destruct (ok_sides _ _ Hok a b a b Hd Hd) as (_ & Ha & Hb).
  pose proof (ok_dialogs _ _ Hok) as Hdok. pose proof (ok_trans _ _ Hok) as Htok. simpl in Hdok, Htok.
  assert (an_orq an ∉ map snd (m_transactions s)) as Hnt by exact (no_orq_no_trans _ _ Hok _ Hfo).
  pose proof (ok_legs _ _ Hok (an_b_leg an)) as Hlegs. simpl in Hlegs.
  assert (an_b_leg an ∉ map snd (m_dialogs s)) as Hns by tauto.
  split; [done|]. split; [intros E; rewrite <- E, Hfo in Horq; by destruct Horq|].
  split; [intros [y H]%elem_of_fst; by destruct (ok_sides _ _ Hok b y a b H Hd)|].
  split; [apply bimap_insert_fresh|split; [apply bimap_insert_fresh|split]].
  - intros [o [H Hne]%elem_of_right_erase]%elem_of_fst. apply Hne. simpl. by eapply (fst_inj (m_transactions s)); [apply Htok|..].
  - intros [i [H _]%elem_of_right_erase]%elem_of_snd. by apply Hnt, (elem_of_keys _ _ _ H).
  - intros [z [H Hne]%elem_of_right_erase]%elem_of_fst. apply Hne. simpl. by eapply (fst_inj (m_dialogs s)); [apply Hdok|..].
  - intros [y [H _]%elem_of_right_erase]%elem_of_snd. by apply Hns, (elem_of_keys _ _ _ H).
  - pose proof (no_orq_no_attempt _ _ Hok _ Hfo) as H. simpl in H. rewrite lookup_fmap in H.
    by destruct (m_mapTerminationAttempts s !! an_orq an).
  - pose proof (no_leg_no_info _ _ Hok _ Hfb) as H. simpl in H. rewrite lookup_fmap in H.
    by destruct (m_mapDialogInfo s !! an_b_leg an).
Qed.

(** Another request for the attempt [t] of the request [orq]. *)
Lemma retry_tables (an : answers) (t : TerminationAttempt) p x irq orq a b (s : St) K :
  tables_ok K (tables_of s) -> (irq, orq) ∈ m_transactions s -> (a, b) ∈ m_dialogs s ->
  m_mapTerminationAttempts s !! orq = Some t -> m_pCdr t = Some p -> length_ (m_url t) < URL_MAXLEN ->
  fst <$> orqs (stack_of (m_calls s)) !! orq = Some (b, response_to_invite) ->
  t_infos (tables_of s) !! b = Some x ->
  fresh_leg s (an_b_leg an) -> fresh_orq s (an_orq an) ->
  returns (retry an irq orq b) (fun r s' =>
    if r : bool then
      an_orq an <> 0 /\ an_b_leg an <> 0 /\
      tables_of s' = replace_request irq orq (an_orq an) a b (an_b_leg an) p x (tables_of s)
    else same_tables s s' /\ m_Config s' = m_Config s /\ (forall k, known s k -> known s' k) /\
      stack_of (m_calls s') = stack_of (m_calls s)) s.
Proof.
  intros Hok Htr Hd Ht Hp Hu Horq Hx Hfb Hfo. unfold retry. run. rewrite Ht. run.
  eapply returns_mono; [by apply (generate_tables an t p)|].
  intros [[o b']|] s1 ((H1 & H2 & H3 & H4) & H0 & Hk & H5); [|by run].
  destruct H5 as (-> & -> & Ho & Hb' & H5).
  assert (is_Some (orqs (stack_of (m_calls s)) !! orq)) as Horq'.
  { destruct (orqs (stack_of (m_calls s)) !! orq); [by eexists|done]. }
  destruct (retry_fresh an irq orq a b s K Hok Htr Hd Horq' Hfb Hfo Ho Hb') as (Hb & Hoo & Hbf & Hbi & Hbi' & Hna & Hnb).
  unfold updateOutgoingTransaction, addTransactions, updateDialog, addDialogs, nta. run.
  destruct (Z.eqb_spec b 0); [done|]. destruct (Z.eqb_spec (an_b_leg an) 0); [done|]. run. apply returns_bind.
  eapply getAssociatedDialog_b; simpl; [rewrite H2; apply Hok|by rewrite H2|by rewrite H2|].
  run. simpl. rewrite H4.
  pose proof Hx as Hx'. simpl in Hx'. rewrite lookup_fmap in Hx'.
  destruct (m_mapDialogInfo s !! b) as [d|] eqn:Ed; [|done]. simpl in Hx'. injection Hx' as Hx'.
  run. split; [done|]. split; [done|].
  unfold tables_of, replace_request. simpl. rewrite !H1, !H2, !H3, ?H4, !stack_of_snoc, H5. simpl.
  rewrite Hbi, Hbi'. f_equal.
  - unfold map_add. rewrite lookup_delete_ne, Hna by done. rewrite fmap_insert, fmap_delete. by rewrite Hp.
  - unfold map_add. rewrite Hnb, fmap_delete, fmap_insert. simpl. by rewrite Hx'.
Qed.

(** Records are made, changed and posted: nothing else changes. *)
Definition cdr_only (s s' : St) : Prop :=
  (exists q n, s' = s <| m_cdrs := q |> <| m_nextCdr := n |>) /\ forall p, known s p -> known s' p.

Lemma cdr_only_refl s : cdr_only s s.
Proof. split; [|done]. exists (m_cdrs s), (m_nextCdr s). by destruct s. Qed.

Lemma cdr_only_trans s1 s2 s3 : cdr_only s1 s2 -> cdr_only s2 s3 -> cdr_only s1 s3.
Proof. intros [(q & n & ->) H1] [(q' & n' & ->) H2]. split; [by exists q', n'|auto]. Qed.

Lemma change_cdr_only p f s (Q : unit -> St -> Prop) :
  (forall s', cdr_only s s' -> Q tt s') -> returns (change_cdr p f) Q s.
Proof.
  intros HQ. apply HQ. split; [by eexists _, (m_nextCdr s)|].
  intros k. unfold known. simpl. by rewrite lookup_alter_is_Some.
Qed.

Lemma post_only p s (Q : unit -> St -> Prop) :
  (forall s', cdr_only s s' -> Q tt s') -> returns (postCdr p) Q s.
Proof.
  intros HQ. unfold postCdr. run. destruct (m_cdrWriter s); run; apply HQ.
  - split; [by eexists _, (m_nextCdr s)|done].
  - split; [|done]. exists (m_cdrs s), (m_nextCdr s). by destruct s.
Qed.

Lemma new_only c s (Q : Z -> St -> Prop) :
  (forall p s', cdr_only s s' -> known s' p -> Q p s') -> returns (new_cdr c) Q s.
Proof.
  intros HQ. unfold new_cdr. run. apply HQ; [split; [by eexists _, _|]|]; unfold known; simpl.
  - intros p Hp. apply lookup_insert_is_Some'. by right.
  - by rewrite lookup_insert_eq.
Qed.

Lemma post_copy_only p f s (Q : unit -> St -> Prop) :
  known s p -> (forall s', cdr_only s s' -> Q tt s') -> returns (post_copy p f) Q s.
Proof.
  intros [c Hc] HQ. unfold post_copy, cdr_at. run. rewrite Hc. run.
  apply new_only. intros p' s1 H1 _. run. apply change_cdr_only. intros s2 H2. apply post_only.
  intros s3 H3. apply HQ. eauto using cdr_only_trans.
Qed.

Lemma cdr_only_tables s s' : cdr_only s s' -> tables_of s' = tables_of s.
Proof. by intros [(q & n & ->) _]. Qed.

(** What is shown of every callback: its tables are well-formed, for records
    that exist before it or after it, and the calls have made one of the moves
    [ks]. *)
Definition step_ok (ks : list move_kind) (s s' : St) : Prop :=
  (exists K, tables_ok K (tables_of s') /\ forall p, K p -> known s p \/ known s' p) /\
  moved ks (tables_of s) (tables_of s').

Lemma step_ok_moved ks s s' :
  tables_ok (known s) (tables_of s') -> moved ks (tables_of s) (tables_of s') -> step_ok ks s s'.
Proof. intros H Hm. split; [|done]. exists (known s). split; [done|]. by left. Qed.

Lemma step_ok_eq k ks s s' t :
  tables_of s' = t -> tables_ok (known s) t -> call_move (tables_of s) k t -> k ∈ ks -> step_ok ks s s'.
Proof. intros <- H Hm Hk. apply step_ok_moved; [done|]. by exists k. Qed.

Lemma step_ok_same ks s s' :
  tables_of s' = tables_of s -> tables_ok (known s) (tables_of s) -> Idle ∈ ks -> step_ok ks s s'.
Proof. intros E H Hk. eapply step_ok_eq; [exact E|done|constructor|done]. Qed.
End Parts.

Section Handlers.
Context {P C : Type} {pool : ServerPool P} {routes : CallRoutes C}.
#[local] Abbreviation St := (Ctl P C).
Context (s : St) (Henv : env_ok s) (Hok : tables_ok (known s) (tables_of s)).

Lemma legs_nonzero l : l ∈ legs (stack_of (m_calls s)) -> l <> 0.
Proof.
  intros Hl. pose proof (proj1 (ok_legs _ _ Hok l) Hl) as [[b H]%elem_of_fst|[a H]%elem_of_snd].
  - by destruct (ok_sides _ _ Hok _ _ _ _ H H) as (_ & ? & _).
  - by destruct (ok_sides _ _ Hok _ _ _ _ H H) as (_ & _ & ?).
Qed.

Lemma legs_dialog l : l ∈ legs (stack_of (m_calls s)) ->
  exists a b, (a, b) ∈ m_dialogs s /\ (l = a \/ l = b).
Proof.
  intros Hl. pose proof (proj1 (ok_legs _ _ Hok l) Hl) as [[b H]%elem_of_fst|[a H]%elem_of_snd];
    eexists _, _; eauto.
Qed.

Lemma lookup_leg_live l : l ∈ legs (stack_of (m_calls s)) -> lookup_leg s l = l.
Proof. intros H. unfold lookup_leg. by rewrite decide_True. Qed.

Lemma orq_nonzero o : is_Some (orqs (stack_of (m_calls s)) !! o) -> o <> 0.
Proof.
  intros H. pose proof (proj2 (ok_orqs _ _ Hok o) H) as [i Hi]%elem_of_snd.
  by destruct (ok_handles _ _ Hok _ _ Hi).
Qed.

Lemma fresh_orq_none o : fresh_orq s o -> orqs (stack_of (m_calls s)) !! o = None.
Proof.
  intros [->|H]; [|done]. destruct (orqs (stack_of (m_calls s)) !! 0) eqn:E; [|done].
  by destruct (orq_nonzero 0).
Qed.

Lemma ack_stack o : fresh_orq s o -> delete o (orqs (stack_of (m_calls s))) = orqs (stack_of (m_calls s)).
Proof. intros H. by apply delete_id, fresh_orq_none. Qed.

Lemma irq_stack i : i ∉ map fst (m_transactions s) -> delete i (irqs (stack_of (m_calls s))) = irqs (stack_of (m_calls s)).
Proof. intros H. apply delete_id. by apply (no_trans_no_irq _ _ Hok). Qed.

Lemma quiet_inviting a b leg orq (t : tables) :
  quiet_but s orq leg -> (a, b) ∈ m_dialogs s -> leg = a \/ leg = b ->
  (forall o v, orqs (t_stack t) !! o = Some v -> orqs (stack_of (m_calls s)) !! o = Some v /\ o <> orq) ->
  ~ inviting t a /\ ~ inviting t b.
Proof.
  intros Hq Hd Hleg Ht.
  split; intros (o & cb & Ho); destruct (Ht _ _ Ho) as [Ho' Hne]; apply (Hq _ _ _ Ho' Hne);
    unfold same_call; destruct Hleg as [->| ->]; tauto.
Qed.

(** What a bound INVITE's call looks like. *)
Lemma call_of_irq irq : is_Some (irqs (stack_of (m_calls s)) !! irq) ->
  exists orq a b, (irq, orq) ∈ m_transactions s /\ (a, b) ∈ m_dialogs s /\
    irqs (stack_of (m_calls s)) !! irq = Some a /\
    orqs (stack_of (m_calls s)) !! orq = Some (b, response_to_invite, sip_method_invite) /\
    leg_of_irq s irq = a /\ a <> 0 /\ orq <> 0 /\
    ((exists d p, m_mapDialogInfo s !! a = Some d /\ di_pCdr d = Some p /\ known s p /\
        m_mapTerminationAttempts s !! orq = None) \/
     (exists t p, m_mapDialogInfo s !! a = None /\ m_mapTerminationAttempts s !! orq = Some t /\
        m_pCdr t = Some p /\ known s p)).
Proof using Hok.
  intros [a Ha]. destruct (ok_irqs _ _ Hok irq a Ha) as (orq & b & m & Htr & Ho & Hd).
  destruct (ok_calls _ _ Hok irq orq b m Htr Ho) as (-> & a' & Ha' & _ & Hiff). simpl in Ha'.
  rewrite Ha in Ha'. injection Ha' as <-. simpl in *.
  pose proof (dialog_legs _ _ Hok a b Hd) as (Hla & Hlb & _).
  exists orq, a, b. do 4 (split; [done|]).
  split; [unfold leg_of_irq; rewrite Ha; by apply lookup_leg_live|].
  split; [by apply legs_nonzero|]. split; [by apply orq_nonzero|].
  rewrite !lookup_fmap in Hiff. destruct (m_mapDialogInfo s !! a) as [d|] eqn:Ed.
  - left. destruct (m_mapTerminationAttempts s !! orq) eqn:Et; [by pose proof (proj1 Hiff (mk_is_Some _ _ eq_refl))|].
    pose proof (ok_infos _ _ Hok a (m_bOrigination d) (di_pCdr d)) as Hi. simpl in Hi. rewrite lookup_fmap, Ed in Hi.
    specialize (Hi eq_refl).
    assert (t_infos (tables_of s) !! a = Some (m_bOrigination d, di_pCdr d)) as Hia by (simpl; by rewrite lookup_fmap, Ed).
    destruct (infos_side _ _ Hok _ _ _ Hia a b Hd) as [Hor _]. rewrite Hor in Hi by done. destruct Hi as (_ & p & Hp & Hk). eauto 8.
  - right. destruct (m_mapTerminationAttempts s !! orq) as [t|] eqn:Et; [|by pose proof (proj2 Hiff eq_refl) as []].
    pose proof (ok_attempts _ _ Hok orq (m_pCdr t)) as Hat. simpl in Hat. rewrite lookup_fmap, Et in Hat.
    destruct (Hat eq_refl) as (_ & p & Hp & Hk). eauto 8.
Qed.

Lemma ack_or_cancel_safe an irq sip :
  ack_or_cancel_ok s an irq sip -> returns (processAckOrCancel an irq sip) (fun _ s' => step_ok (cancel_moves sip) s s') s.
Proof using Hok.
  intros ([m Hm] & Hirq & Hleg & Hq). unfold processAckOrCancel, cancel_moves. run. rewrite Hm. run.
  destruct m; try (run; by apply step_ok_same; [|exact Hok|left]).
  destruct (call_of_irq irq Hirq) as (orq & a & b & Htr & Hd & Ha & Ho & Hla & Ha0 & Ho0 & Hcdr).
  unfold getAssociatedTransaction_irq. run.
  rewrite (proj2 (left_find_Some (m_transactions s) irq orq (ok_trans _ _ Hok)) Htr), decide_False by congruence.
  specialize (Hq orq Htr). rewrite Hleg, Hla in *. destruct (Z.eqb_spec a 0); [done|]. run.
  assert (forall s1, cdr_only s s1 ->
    returns (nta (outgoing_cancel orq);; nta (outgoing_destroy orq);; clearTransaction orq;; clearDialog a;;
             modify (fun s => s <| m_mapTerminationAttempts ::= delete orq |>);; mret 0)
      (fun _ s' => step_ok [Fails] s s') s1) as Hgo.
  { intros s1 [(q & n0 & ->) _]. unfold nta, clearTransaction, getAssociatedTransaction_orq, nta. run. simpl.
    rewrite (proj2 (right_find_Some (m_transactions s) irq orq (ok_trans _ _ Hok)) Htr). simpl.
    eapply returns_mono.
    { eapply (clearDialog_tables _ a b a); [exact (tables_sides _ _ Hok)|done|by left]. }
    intros [] s3 H3. run. apply (step_ok_eq Fails _ _ _ (end_dialog a b (end_request irq orq (tables_of s)))); [..|by econstructor|by left].
    { unfold tables_of in *. simpl in *. injection H3 as -> -> H4 -> ->. unfold end_dialog, end_request. simpl.
      rewrite !stack_of_snoc. simpl. rewrite fmap_delete, H4. f_equal. f_equal. by rewrite delete_delete_eq. }
    apply end_dialog_ok; [by apply end_request_ok|done|..];
      eapply (quiet_inviting a b a orq); eauto; simpl; intros o v [? ?]%lookup_delete_Some; split; congruence. }
  destruct Hcdr as [(d & p & Hd' & Hp & Hk & _)|(t & p & Hn & Ht & Hp & Hk)].
  - rewrite Hd', Hp. run. apply change_cdr_only. intros s1 H1. apply post_only. intros s2 H2.
    apply Hgo. by eapply cdr_only_trans.
  - rewrite Hn, Ht, Hp. run. apply post_copy_only; [done|]. done.
Qed.

Lemma dialog_of leg : leg ∈ legs (stack_of (m_calls s)) ->
  exists a b other, (a, b) ∈ m_dialogs s /\ (leg = a /\ other = b \/ leg = b /\ other = a) /\ other <> 0 /\
    other ∈ legs (stack_of (m_calls s)) /\
    forall Q, (forall s', m_dialogs s' = m_dialogs s -> Q other s' -> returns (getAssociatedDialog (P := P) (C := C) leg) Q s').
Proof using Hok.
  intros Hl. destruct (legs_dialog leg Hl) as (a & b & Hd & Hleg).
  destruct (ok_sides _ _ Hok a b a b Hd Hd) as (_ & Ha & Hb).
  destruct (dialog_legs _ _ Hok a b Hd) as (Hla & Hlb & _).
  destruct Hleg as [->| ->]; [exists a, b, b|exists a, b, a]; (do 4 (split; [tauto|]));
    intros Q s' Heq HQ.
  - eapply getAssociatedDialog_a; rewrite ?Heq; [apply (ok_dialogs _ _ Hok)|done|done].
  - eapply getAssociatedDialog_b; rewrite ?Heq; [apply (ok_dialogs _ _ Hok)|done| |done].
    intros [y H]%elem_of_fst. by destruct (ok_sides _ _ Hok b y a b H Hd).
Qed.

Lemma origination_record leg other d b :
  origination_info (m_mapDialogInfo s) leg other = Some (d, b) -> exists p, di_pCdr d = Some p /\ known s p.
Proof using Hok.
  assert (forall l d, m_mapDialogInfo s !! l = Some d -> m_bOrigination d = true ->
    exists p, di_pCdr d = Some p /\ known s p) as H.
  { intros l e He Hor. pose proof (ok_infos _ _ Hok l true (di_pCdr e)) as Hi. simpl in Hi.
    rewrite lookup_fmap, He in Hi. simpl in Hi. rewrite Hor in Hi.
    destruct (Hi eq_refl) as (_ & p & ? & ?). eauto. }
  unfold origination_info. intros E. repeat case_match; simplify_eq; eauto.
Qed.

Lemma inside_safe an leg irq sip :
  inside_ok s an leg irq sip ->
  returns (respond irq (processRequestInsideDialog an leg irq sip)) (fun _ s' => step_ok (inside_moves sip) s s') s.
Proof using Hok.
  intros (Hl & [Hi0 Hi] & Hm). destruct (dialog_of leg Hl) as (a & b & other & Hd & Hside & Ho & Hlo & Hget).
  unfold respond, processRequestInsideDialog. apply returns_bind, returns_bind, Hget; [done|].
  destruct (Z.eqb_spec other 0); [done|]. run. unfold inside_moves. destruct (sip_request sip) as [m|]; [|done]. run.
  assert (an_orq an <> 0 /\ fresh_orq s (an_orq an) ->
    returns (nta (outgoing_tcreate (an_orq an) other m ToRemote (Some response_to_request_inside_dialog) EmptyString
      (sip_payload sip) []);; addTransactions irq (an_orq an);; mret 0)
      (fun r s' => returns (when (200 <=? r) (nta (incoming_treply irq r None None []));; mret r)
         (fun _ s' => step_ok [Idle] s s') s') s) as Hpass.
  { intros [Hq0 Hq]. apply fresh_orq_none in Hq. unfold nta, addTransactions. run. simpl. run.
    apply (step_ok_eq Idle _ _ _ (add_inside irq (an_orq an) other m (tables_of s))); [..|constructor|by left].
    - unfold tables_of, add_inside. simpl. rewrite stack_of_snoc. simpl. destruct (Z.eqb_spec (an_orq an) 0); [done|].
      by rewrite (bimap_insert_fresh irq _ _ Hi (no_orq_no_trans _ _ Hok _ Hq)).
    - by apply add_inside_ok. }
  destruct m; try by apply Hpass.
  - unfold nta. run. apply step_ok_same; [|exact Hok|by left]. unfold tables_of. simpl. rewrite stack_of_snoc. simpl.
    rewrite irq_stack by done. by rewrite stack_eta.
  - destruct Hm as [Hack Hq].
    assert (forall s1, cdr_only (s <| m_calls ::= fun l => (l ++ [outgoing_tcreate (an_ack an) other sip_method_bye
        ToRemote None EmptyString None []]) ++ [outgoing_destroy (an_ack an)] |>) s1 ->
      returns (clearDialog leg) (fun _ s3 => returns (nta (incoming_destroy irq);; mret 200)
        (fun r s' => returns (when (200 <=? r) (nta (incoming_treply irq r None None []));; mret r)
           (fun _ s' => step_ok [Ends] s s') s') s3) s1) as Hgo.
    { intros s1 H1. pose proof (cdr_only_tables _ _ H1) as Ht. destruct H1 as [(q & n1 & ->) _].
      assert (tables_of (s <| m_calls ::= fun l => (l ++ [outgoing_tcreate (an_ack an) other sip_method_bye
        ToRemote None EmptyString None []]) ++ [outgoing_destroy (an_ack an)] |>) = tables_of s) as Heq.
      { unfold tables_of. simpl. rewrite !stack_of_snoc. simpl. rewrite ack_stack by done. by rewrite stack_eta. }
      rewrite Heq in Ht. eapply returns_mono.
      { eapply (clearDialog_tables _ a b leg); [exact (tables_sides _ _ Hok)|done|tauto]. }
      intros [] s3 H3. rewrite Ht in H3. unfold nta. run. simpl. run.
      assert (~ inviting (tables_of s) a /\ ~ inviting (tables_of s) b) as [Hna Hnb].
      { eapply (quiet_inviting a b leg 0); eauto; try tauto; simpl; intros o v Hv; (split; [done|]); by apply orq_nonzero. }
      apply (step_ok_eq Ends _ _ _ (end_dialog a b (tables_of s))); [..|by constructor|by left].
      { rewrite <- H3. unfold tables_of in *. simpl in *. injection H3 as _ _ _ _ H4. rewrite !stack_of_snoc. simpl.
        rewrite H4. simpl. by rewrite !irq_stack by done. }
      by apply end_dialog_ok. }
    exec. destruct (origination_info _ leg other) as [[d caller]|] eqn:E.
    + change (origination_info (m_mapDialogInfo s) leg other = Some (d, caller)) in E.
      destruct (origination_record _ _ _ _ E) as (p & Hp & Hk). rewrite Hp. run.
      apply change_cdr_only. intros s1 H1. apply post_only. intros s2 H2. run. apply Hgo. by eapply cdr_only_trans.
    + run. apply Hgo. exact (cdr_only_refl _).
Qed.

Lemma send_ack_safe an leg sip (Q : unit -> St -> Prop) (s1 : St) :
  is_Some (sip_contact sip) -> orqs (stack_of (m_calls s1)) !! an_ack an = None ->
  (forall s2, tables_of s2 = tables_of s1 -> m_cdrs s2 = m_cdrs s1 ->
     m_mapTerminationAttempts s2 = m_mapTerminationAttempts s1 -> m_mapDialogInfo s2 = m_mapDialogInfo s1 ->
     m_mapTrunkStats s2 = m_mapTrunkStats s1 -> m_my_contact s2 = m_my_contact s1 ->
     m_Config s2 = m_Config s1 -> m_nTerminationRetries s2 = m_nTerminationRetries s1 -> Q tt s2) ->
  returns (send_ack an leg sip) Q s1.
Proof.
  intros [c Hc] Ha HQ. unfold send_ack. rewrite Hc. exec. apply HQ; try done.
  unfold tables_of. simpl. rewrite !stack_of_snoc. simpl. rewrite delete_id by done. by rewrite stack_eta.
Qed.

Lemma inside_response_safe an orq sip :
  inside_response_ok s an orq sip ->
  returns (processResponseInsideDialog an orq sip) (fun _ s' => step_ok [Idle] s s') s.
Proof using Hok.
  intros (l & m & Ho & Hleg & Hm & [status Hst] & Hack & Hc).
  pose proof (proj2 (ok_orqs _ _ Hok orq) (mk_is_Some _ _ Ho)) as [irq Htr]%elem_of_snd. simpl in Htr.
  destruct (ok_handles _ _ Hok _ _ Htr) as [Hi0 _].
  unfold processResponseInsideDialog, getAssociatedTransaction_orq. exec.
  rewrite (proj2 (right_find_Some (m_transactions s) irq orq (ok_trans _ _ Hok)) Htr). exec.
  destruct (Z.eqb_spec irq 0); [done|]. exec. rewrite Hst, Hm. exec.
  assert (irqs (stack_of (m_calls s)) !! irq = None) as Hni.
  { destruct (irqs (stack_of (m_calls s)) !! irq) as [a|] eqn:E; [|done].
    destruct (ok_irqs _ _ Hok irq a E) as (o & b & m' & H1 & H2 & _). simpl in H1, H2.
    assert (o = orq) as -> by (eapply (fst_inj (m_transactions s)); [apply (ok_trans _ _ Hok)|done..]). congruence. }
  assert (m_mapTerminationAttempts s !! orq = None) as Hat.
  { destruct (m_mapTerminationAttempts s !! orq) as [t|] eqn:E; [|done].
    pose proof (ok_attempts _ _ Hok orq (m_pCdr t)) as H. simpl in H. rewrite lookup_fmap, E in H.
    destruct (H eq_refl) as [(b & m' & H') _]. congruence. }
  assert (forall s1, tables_of s1 = tables_of s ->
    returns (when (200 <=? status) (clearTransaction orq)) (fun _ s2 => returns (mret 0) (fun _ s' => step_ok [Idle] s s') s2) s1) as Hgo.
  { intros s1 H1. destruct (200 <=? status); exec; [|by apply step_ok_same; [|exact Hok|left]].
    unfold clearTransaction, getAssociatedTransaction_orq.
    assert (m_transactions s1 = m_transactions s) as Ht1 by by injection H1. exec. rewrite Ht1.
    rewrite (proj2 (right_find_Some (m_transactions s) irq orq (ok_trans _ _ Hok)) Htr). exec.
    apply (step_ok_eq Idle _ _ _ (end_request irq orq (tables_of s))); [|by apply end_request_ok|by econstructor|by left].
    unfold tables_of, end_request in *. simpl in *. injection H1 as -> -> -> -> H1. rewrite !stack_of_snoc. simpl. rewrite H1.
    f_equal. by rewrite <- fmap_delete, delete_id. }
  assert (tables_of (s <| m_calls ::= fun l => l ++ [incoming_treply irq status (sip_payload sip)
    (dec <$> sip_session_expires sip) []] |>) = tables_of s) as Hsame.
  { unfold tables_of. simpl. rewrite stack_of_snoc. simpl. destruct (200 <=? status); [|done].
    by rewrite delete_id, stack_eta. }
  destruct (bool_decide (m = sip_method_invite) && (status =? 200)) eqn:E; [|exec; by apply Hgo].
  apply andb_true_iff in E as [->%bool_decide_eq_true ->%Z.eqb_eq].
  assert (l ∈ legs (stack_of (m_calls s))) as Hl by (by eapply (ok_inside _ _ Hok)).
  rewrite Hleg, lookup_leg_live by done. pose proof (legs_nonzero _ Hl). destruct (Z.eqb_spec l 0); [done|]. exec.
  apply send_ack_safe; [by apply Hc| |].
  - pose proof (f_equal t_stack Hsame) as Hs. simpl in Hs |- *. rewrite Hs. by apply fresh_orq_none.
  - intros s2 H2 _ _ _ _ _ _ _. exec. apply Hgo. by rewrite H2.
Qed.

Lemma refresh_safe leg :
  quiet_but s 0 leg -> returns (processSessionRefreshTimer leg) (fun _ s' => step_ok [Ends; Idle] s s') s.
Proof using Hok.
  intros Hq. unfold processSessionRefreshTimer. exec.
  destruct (m_mapDialogInfo s !! leg) as [p|] eqn:E; [|exec; apply step_ok_same; [done|done|by right; left]].
  assert (leg ∈ legs (stack_of (m_calls s))) as Hl.
  { apply (ok_legs _ _ Hok). pose proof (ok_infos _ _ Hok leg (m_bOrigination p) (di_pCdr p)) as H. simpl in H.
    rewrite lookup_fmap, E in H. specialize (H eq_refl). simpl. destruct (m_bOrigination p); tauto. }
  destruct (dialog_of leg Hl) as (a & b & other & Hd & Hside & Ho & Hlo & Hget).
  assert (forall s1, tables_of s1 = tables_of s ->
    returns (getAssociatedDialog leg) (fun o s2 => returns (assert_ (negb (o =? 0));; clearDialog leg;; mret 0)
      (fun _ s' => step_ok [Ends; Idle] s s') s2) s1) as Hgo.
  { intros s1 H1. apply Hget; [by injection H1|]. destruct (Z.eqb_spec other 0); [done|]. exec.
    assert (m_dialogs s1 = m_dialogs s) as Hds by by injection H1.
    eapply returns_mono.
    { apply (clearDialog_tables _ a b leg); rewrite ?Hds; [exact (tables_sides _ _ Hok)|done|tauto]. }
    intros [] s2 H2. exec. rewrite H1 in H2.
    assert (~ inviting (tables_of s) a /\ ~ inviting (tables_of s) b) as [Hna Hnb].
    { eapply (quiet_inviting a b leg 0); eauto; try tauto; simpl; intros o v Hv; (split; [done|]); by apply orq_nonzero. }
    eapply step_ok_eq; [exact H2|by apply end_dialog_ok|by constructor|by left]. }
  destruct (negb (m_timerSessionRefresh p =? 0)); unfold change_info; exec; apply Hgo; [|done].
  unfold tables_of. simpl. rewrite stack_of_snoc, fmap_alter_same by done. done.
Qed.

Lemma stray_safe an sip :
  is_Some (i_id sip) -> is_Some (sip_contact sip) -> fresh_orq s (an_ack an) ->
  returns (processRetransmittedResponse an sip) (fun _ s' => step_ok [Idle] s s') s.
Proof using Hok.
  intros [id Hid] Hc Ha. unfold processRetransmittedResponse. rewrite Hid.
  destruct (_ && _); exec; [|by apply step_ok_same; [|exact Hok|left]].
  destruct (negb (an_out_leg an =? 0)); exec; [|by apply step_ok_same; [|exact Hok|left]].
  apply send_ack_safe; [done|by apply fresh_orq_none|]. intros s2 H2 _ _ _ _ _ _ _. exec.
  apply step_ok_same; [exact H2|exact Hok|by left].
Qed.
End Handlers.

(** *** New calls *)

Section NewCalls.
Context {P C : Type} {pool : ServerPool P} {routes : CallRoutes C}.
#[local] Abbreviation St := (Ctl P C).
Context (s : St) (Henv : env_ok s) (Hok : tables_ok (known s) (tables_of s)).

Definition drop_irq (irq : Z) (t : tables) : tables :=
  mkTables (t_trans t) (t_dialogs t) (t_attempts t) (t_infos t)
    (mkStack (legs (t_stack t)) (orqs (t_stack t)) (delete irq (irqs (t_stack t)))).

(** A new request is answered with a final status, and nothing is left of it;
    or it is accepted. *)
Definition outcome_ok (ks : list move_kind) (irq r : Z) (s' : St) : Prop :=
  200 <= r /\ drop_irq irq (tables_of s') = tables_of s \/ r = 0 /\ step_ok ks s s'.

Lemma drop_same irq (s' : St) : irq ∉ map fst (m_transactions s) -> tables_of s' = tables_of s ->
  drop_irq irq (tables_of s') = tables_of s.
Proof using Hok.
  intros Hi ->. unfold drop_irq, tables_of. simpl. rewrite irq_stack by done. by rewrite stack_eta.
Qed.

Lemma leg_gone (k : Stack) a : a ∉ legs k -> ({[ a ]} ∪ legs k) ∖ {[ a ]} = legs k.
Proof. set_solver. Qed.

Lemma legs_gone (k : Stack) a b : a ∉ legs k -> b ∉ legs k ->
  (({[ b ]} ∪ ({[ a ]} ∪ legs k)) ∖ {[ a ]}) ∖ {[ b ]} = legs k.
Proof. set_solver. Qed.

Lemma reject_only p st cause (s1 : St) (Q : Z -> St -> Prop) :
  (forall s', cdr_only s1 s' -> Q st s') -> returns (reject p st cause) Q s1.
Proof.
  intros HQ. unfold reject. exec. apply change_cdr_only. intros s2 H2. exec. apply post_only. intros s3 H3.
  exec. apply HQ. by eapply cdr_only_trans.
Qed.

Lemma origination_cdr_only an p sip carrier (s1 : St) (Q : unit -> St -> Prop) :
  is_Some (sip_contact sip) -> is_Some (sip_to sip) -> is_Some (sip_from sip) -> is_Some (url_host (m_my_contact s1)) ->
  (forall s', cdr_only s1 s' -> Q tt s') -> returns (populateOriginationCdr an p sip carrier) Q s1.
Proof.
  intros [c Hc] [t Ht] [f Hf] [h Hh] HQ. unfold populateOriginationCdr, to_string. rewrite Hc, Ht, Hf. exec.
  rewrite Hh. exec. by apply change_cdr_only.
Qed.

Lemma invite_url_length u address :
  fits [u] -> length_ address <= ADDRESS_MAX -> length_ (invite_url u address) < URL_MAXLEN.
Proof.
  unfold fits, invite_url, stream, length_. simpl. intros H1 H2. destruct u as [u|]; simpl in *.
  - rewrite length_str_app. simpl. rewrite length_str_app. simpl. lia.
  - lia.
Qed.

Lemma origination_safe an irq sip carrier :
  fresh_irq s irq -> is_Some (sip_contact sip) -> is_Some (sip_from sip) -> fits_user (sip_to sip) ->
  fresh_leg s (an_a_leg an) -> fresh_leg s (an_b_leg an) -> fresh_orq s (an_orq an) ->
  (an_a_leg an = 0 \/ an_a_leg an <> an_b_leg an) ->
  returns (processOriginationRequest an irq sip carrier) (outcome_ok [Begins] irq) s.
Proof using Henv Hok.
  intros [Hi0 Hi] [contact Hcon] [from Hfrom] (to & Hto & Hfit) Hfa Hfb Hfo Hab.
  destruct Henv as (_ & Hpool & _ & Hhost).
  unfold processOriginationRequest. exec. apply new_only. intros p s1 [(q1 & n1 & ->) _] Hp. exec.
  apply origination_cdr_only; eauto. intros s2 [(q2 & n2 & ->) Hk2]. apply Hk2 in Hp.
  cbn in Hp. exec. unfold getAvailableServers at 1, returns at 1. cbn.
  destruct (pool_get_ok _ Hpool) as (r & pl & Epool & _ & Hshort). rewrite Epool.
  assert (forall st (s' : St), 200 <= st -> tables_of s' = tables_of s -> outcome_ok [Begins] irq st s') as Hrej.
  { intros st s' Hst Ht. left. split; [done|]. by apply drop_same. }
  destruct r as [[|server l]|].
  { by destruct (pool_get_nonempty _ _ _ Epool). }
  2:{ apply reject_only. intros s3 H3. apply Hrej; [done|]. by rewrite (cdr_only_tables _ _ H3). }
  rewrite Hcon, Hto, Hfrom. exec. apply fits_returns.
  { apply invite_url_length; [done|]. by apply Forall_cons in Hshort as [H _]. }
  exec. destruct (Z.eqb_spec (an_a_leg an) 0) as [Ea|Ea].
  { apply reject_only. intros s3 H3. apply Hrej; [done|]. rewrite (cdr_only_tables _ _ H3).
    unfold tables_of. simpl. rewrite stack_of_snoc. simpl. by rewrite Ea. }
  destruct Hfa as [?|Hfa]; [done|]. destruct Hab as [?|Hab]; [done|].
  apply (proj2 (Z.eqb_neq _ _)) in Ea as Ea'. exec. destruct (Z.eqb_spec (an_b_leg an) 0) as [Eb|Eb].
  { exec. apply reject_only. intros s3 H3. left. split; [done|]. rewrite (cdr_only_tables _ _ H3).
    unfold tables_of, drop_irq. simpl. rewrite !stack_of_snoc. simpl. rewrite Ea', Eb. simpl.
    rewrite delete_insert_eq, irq_stack by done. rewrite leg_gone by done. by rewrite stack_eta. }
  destruct Hfb as [?|Hfb]; [done|]. apply (proj2 (Z.eqb_neq _ _)) in Eb as Eb'. exec.
  unfold cdr_at. exec. destruct Hp as [c Hc]. cbn in Hc |- *. rewrite Hc. exec.
  destruct (Z.eqb_spec (an_orq an) 0) as [Eo|Eo].
  { exec. apply reject_only. intros s3 H3. left. split; [done|]. rewrite (cdr_only_tables _ _ H3).
    unfold tables_of, drop_irq. simpl. rewrite !stack_of_snoc. simpl. rewrite Ea', Eb', Eo. simpl.
    rewrite delete_insert_eq, irq_stack by done. rewrite legs_gone by done. by rewrite stack_eta. }
  destruct Hfo as [?|Hfo]; [done|]. apply (proj2 (Z.eqb_neq _ _)) in Eo as Eo'. exec.
  apply change_cdr_only. intros s3 [(q3 & n3 & ->) Hk3]. exec. apply change_cdr_only. intros s4 [(q4 & n4 & ->) Hk4].
  unfold addTransactions, addDialogs. exec. apply post_only. intros s5 H5. exec. right. split; [done|].
  assert (tables_of s5 = add_call true irq (an_orq an) (an_a_leg an) (an_b_leg an) p (tables_of s)) as E5.
  { rewrite (cdr_only_tables _ _ H5). unfold tables_of, add_call. simpl. rewrite !stack_of_snoc. simpl.
    rewrite Ea', Eb', Eo'. simpl.
    rewrite (bimap_insert_fresh irq _ _ Hi (no_orq_no_trans _ _ Hok _ Hfo)). 
    rewrite (bimap_insert_fresh (an_a_leg an)); [|rewrite (ok_legs _ _ Hok) in Hfa, Hfb; tauto..].
    pose proof (no_leg_no_info _ _ Hok _ Hfa) as Hna. simpl in Hna. rewrite lookup_fmap in Hna.
    unfold map_add. destruct (m_mapDialogInfo s !! an_a_leg an); [done|]. by rewrite fmap_insert. }
  split; [|exists Begins; split; [by left|rewrite E5; by constructor]].
  exists (fun k => known s k \/ known s5 k). split; [|done]. rewrite E5. apply add_call_ok; try done.
  - eapply tables_ok_mono; [|exact Hok]. tauto.
  - right. apply H5, Hk4, Hk3. unfold known. cbn. by rewrite Hc.
Qed.

(** Only the configuration's own state changes. *)
Lemma config_returns (m : M C (option route)) (s1 : St) (Q : option route -> St -> Prop) :
  gives_route routes_ok m -> routes_ok (m_Config s1) ->
  (forall r c, routes_ok c -> match r with Some (address, _, _) => length_ address <= ADDRESS_MAX | None => True end ->
     Q r (s1 <| m_Config := c |>)) -> returns (config m) Q s1.
Proof.
  intros Hg Hr HQ. destruct (Hg _ Hr) as (r & c & E & Hc & Hl). unfold returns, config. rewrite E. by apply HQ.
Qed.

Lemma choose_route_returns sip (s1 : St) (Q : option route -> St -> Prop) :
  routes_ok (m_Config s1) ->
  (forall r c, match r with Some (address, _, _) => length_ address <= ADDRESS_MAX | None => True end ->
     Q r (s1 <| m_Config := c |>)) -> returns (choose_route sip) Q s1.
Proof.
  intros Hr HQ. unfold choose_route. exec.
  assert (forall s2 : St, s2 = s1 <| m_Config := m_Config s2 |> -> routes_ok (m_Config s2) ->
    returns (config routes_next) Q s2) as Hnext.
  { intros s2 E H2. apply config_returns; [apply routes_next_ok|done|]. intros r c _ Hl. rewrite E. by apply HQ. }
  assert (s1 = s1 <| m_Config := m_Config s1 |>) as E1 by by destruct s1.
  destruct (routes_anonymous _) as [carrier|]; [|by exec; apply Hnext].
  destruct (isAnonymousCall sip); [|by exec; apply Hnext].
  apply config_returns; [apply routes_for_ok|done|]. intros [r|] c Hc Hl; [by exec; apply HQ|]. by apply Hnext.
Qed.

Lemma termination_cdr_only an p sip carrier address b1 b2 uuid (s1 : St) (Q : unit -> St -> Prop) :
  is_Some (i_id sip) -> (exists to, sip_to sip = Some to /\ is_Some (url_user (a_url to))) ->
  is_Some (url_host (m_my_contact s1)) ->
  (forall s', cdr_only s1 s' -> Q tt s') -> returns (populateTerminationCdr an p sip carrier address b1 b2 uuid) Q s1.
Proof.
  intros [i Hi] (to & Ht & [u Hu]) [h Hh] HQ. unfold populateTerminationCdr, to_string. rewrite Hi. exec.
  rewrite Hh, Ht. exec. rewrite Hu. exec. by apply change_cdr_only.
Qed.

Lemma termination_safe an irq sip :
  fresh_irq s irq -> is_Some (i_id sip) -> is_Some (sip_contact sip) -> is_Some (sip_from sip) ->
  fits_user (sip_to sip) -> (exists to, sip_to sip = Some to /\ is_Some (url_user (a_url to))) ->
  is_Some (sip_payload sip) ->
  fresh_leg s (an_a_leg an) -> fresh_leg s (an_b_leg an) -> fresh_orq s (an_orq an) ->
  an_a_leg an <> 0 -> an_a_leg an <> an_b_leg an ->
  returns (processTerminationRequest an irq sip) (outcome_ok [Begins] irq) s.
Proof using Henv Hok.
  intros [Hi0 Hi] Hid [contact Hcon] [from Hfrom] (to & Hto & Hfit) Huser [sdp Hsdp] Hfa Hfb Hfo Ha Hab.
  destruct Henv as (_ & _ & Hr & Hhost).
  unfold processTerminationRequest. exec. apply new_only. intros p s1 [(q1 & n1 & ->) _] Hp. exec.
  apply choose_route_returns; [done|]. intros [[[address carrier] charge]|] c Hl; exec.
  2:{ left. split; [done|]. by apply drop_same. }
  apply termination_cdr_only; [done|done|done|]. intros s2 [(q2 & n2 & ->) Hk2]. apply Hk2 in Hp as Hp2. exec.
  rewrite Hto, Hfrom, Hcon, Hsdp. exec.
  pose proof (invite_url_length (url_user (a_url to)) address Hfit Hl) as Hurl.
  apply fits_returns; [done|]. exec.
  destruct Hfa as [?|Hfa]; [done|]. apply (proj2 (Z.eqb_neq _ _)) in Ha as Ha'.
  eapply returns_mono.
  { apply (generate_tables an _ p); [|by destruct Hfo as [?|?]; [left|right]; simpl; rewrite ?stack_of_snoc; simpl; rewrite ?Ha'|done|done].
    destruct Hfb as [?|Hfb]; [by left|right]. simpl. rewrite !stack_of_snoc. simpl. rewrite Ha'. set_solver. }
  intros g s3 ((H1 & H2 & H3 & H4) & _ & Hk3 & H5). simpl in H1, H2, H3, H4.
  destruct g as [[o b]|].
  2:{ exec. left. split; [done|]. unfold tables_of, drop_irq. simpl. rewrite H1, H2, H3, H4, !stack_of_snoc, H5.
      simpl. rewrite !stack_of_snoc. simpl. rewrite Ha'. simpl.
      rewrite delete_insert_eq, irq_stack by done. rewrite leg_gone by done. by rewrite stack_eta. }
  destruct H5 as (-> & -> & Ho & Hb & H5). destruct Hfb as [?|Hfb]; [done|]. destruct Hfo as [?|Hfo]; [done|].
  pose proof (no_leg_no_info _ _ Hok _ Hfb) as Hnb. simpl in Hnb. rewrite lookup_fmap in Hnb.
  pose proof (no_orq_no_attempt _ _ Hok _ Hfo) as Hno. simpl in Hno. rewrite lookup_fmap in Hno.
  pose proof (ok_legs _ _ Hok (an_a_leg an)) as Hla. pose proof (ok_legs _ _ Hok (an_b_leg an)) as Hlb.
  unfold addTransactions, addDialogs. exec. right. split; [done|].
  match goal with |- step_ok _ _ ?st =>
    assert (tables_of st = add_call false irq (an_orq an) (an_a_leg an) (an_b_leg an) p (tables_of s)) as E5 end.
  { unfold tables_of, add_call. simpl. rewrite H1, H2, H3, H4, H5. simpl. rewrite !stack_of_snoc. simpl. rewrite Ha'. simpl.
    rewrite (bimap_insert_fresh irq _ _ Hi (no_orq_no_trans _ _ Hok _ Hfo)).
    rewrite (bimap_insert_fresh (an_a_leg an)); [|simpl in *; tauto..]. unfold map_add.
    destruct (m_mapTerminationAttempts s !! an_orq an); [done|]. destruct (m_mapDialogInfo s !! an_b_leg an); [done|].
    by rewrite !fmap_insert. }
  split; [|exists Begins; split; [by left|rewrite E5; by constructor]].
  eexists (fun k => known s k \/ _). split.
  2:{ intros k [Hk|Hk]; [by left|right; exact Hk]. }
  rewrite E5. apply (add_call_ok _ _ (tables_ok_mono _ _ _ (fun k Hk => or_introl Hk) Hok)); try done.
  right. by apply Hk3.
Qed.
End NewCalls.

Section Outside.
Context {P C : Type} {pool : ServerPool P} {routes : CallRoutes C}.
#[local] Abbreviation St := (Ctl P C).

Lemma respond_safe (s s1 : St) ks irq (m : M St Z) :
  (forall r, 200 <= r -> ks r = [Idle]) -> tables_ok (known s) (tables_of s) -> returns m (outcome_ok s (ks 0) irq) s1 ->
  returns (respond irq m) (fun r s' => step_ok (ks r) s s') s1.
Proof.
  intros Hks Hok H. unfold respond. apply returns_bind. eapply returns_mono; [exact H|].
  intros r s2 [[Hr Ht]|[-> Hs]]; [|by exec].
  destruct (Z.leb_spec 200 r); [|lia]. exec. rewrite Hks by done. apply step_ok_same; [|exact Hok|by left]. rewrite <- Ht.
  unfold tables_of, drop_irq. simpl. rewrite stack_of_snoc. simpl. by destruct (Z.leb_spec 200 r); [|lia].
Qed.

(** A request that got as far as its call type. *)
Definition valid_invite (sip : sip_t) : Prop :=
  (exists contact host, sip_contact sip = Some contact /\ url_host (a_url contact) = Some host) /\
  (exists to, sip_to sip = Some to /\ is_Some (url_user (a_url to))).

Lemma validate_returns (s : St) sip m (Q : Z -> St -> Prop) :
  sip_request sip = Some m ->
  (forall rc, rc = 0 \/ rc = 400 ->
     (rc = 0 -> is_Some (i_id sip) /\ (m = sip_method_invite -> valid_invite sip)) -> Q rc s) ->
  returns (validateSipMessage sip) Q s.
Proof.
  intros Hm HQ. unfold validateSipMessage. rewrite Hm. exec.
  destruct (bool_decide_reflect (m = sip_method_invite)) as [->|Hne]; simpl.
  - destruct (sip_contact sip) as [[? [? [host|] ?] ?]|] eqn:Ec; simpl; try (exec; apply HQ; [by right|done]).
    destruct (i_id sip); simpl; [|exec; apply HQ; [by right|done]].
    destruct (sip_to sip) as [[? [[user|] ? ?] ?]|] eqn:Et; simpl; try (exec; apply HQ; [by right|done]).
    destruct (sip_from sip) as [[? ? [tag|]]|]; simpl; exec; apply HQ; try (by right); try done; try (by left).
    intros _. split; [done|]. intros _. unfold valid_invite. rewrite Ec, Et. split; [do 2 eexists; split; reflexivity|]. eexists. split; [reflexivity|]. by eexists.
  - destruct (i_id sip); simpl; exec; apply HQ; try (by right); try done; try (by left).
Qed.

Lemma call_type_returns (s : St) sip contact host (Q : call_type_t * string -> St -> Prop) :
  sip_contact sip = Some contact -> url_host (a_url contact) = Some host ->
  (forall t, determineCallType sip s = Ok (t, s) -> Q t s) -> returns (determineCallType sip) Q s.
Proof.
  intros Hc Hh HQ.
  assert (exists t, determineCallType sip s = Ok (t, s)) as [t E].
  { unfold determineCallType. rewrite Hc. unfold deref, mbind, M_bind, mret, M_ret, gets. simpl.
    unfold to_string. rewrite Hh. unfold mret, M_ret. simpl. destruct (routes_getCarrier host (m_Config s)); eauto. }
  unfold returns. rewrite E. by apply HQ.
Qed.

(** The steps around a new call do not touch the tables. *)
Lemma outcome_iteration (s s1 : St) ks irq (m : M St Z) f :
  tables_of s1 = tables_of s -> (forall k, known s1 k -> known s k) ->
  returns m (outcome_ok s1 ks irq) s1 ->
  returns (rc ← m; modify (fun s => s <| m_nIterationCount ::= f |>);; mret rc) (outcome_ok s ks irq) s1.
Proof.
  intros Ht Hk H. apply returns_bind. eapply returns_mono; [exact H|]. intros r s2 H2. exec.
  destruct H2 as [[Hr E]|[-> [(K & HK & Hks) Hm]]].
  - left. split; [done|]. by rewrite <- Ht.
  - right. split; [done|]. split; [|by rewrite <- Ht]. exists K. split; [done|]. intros k Hkk. destruct (Hks k Hkk); [left; by apply Hk|by right].
Qed.

Lemma reject_call_safe (s s1 : St) ks an irq sip carrier st cause :
  tables_of s1 = tables_of s -> tables_ok (known s) (tables_of s) -> irq ∉ map fst (m_transactions s) -> 200 <= st ->
  is_Some (sip_contact sip) -> is_Some (sip_to sip) -> is_Some (sip_from sip) -> is_Some (url_host (m_my_contact s1)) ->
  returns (reject_call an sip carrier st cause) (outcome_ok s ks irq) s1.
Proof.
  intros Ht Hok Hi Hst Hc Hto Hf Hh. unfold reject_call. exec. apply new_only. intros p s2 H2 _. exec.
  destruct H2 as [(q & n & ->) Hk2]. apply origination_cdr_only; [done|done|done|done|]. intros s3 H3.
  apply reject_only. intros s4 H4. left. split; [done|].
  apply (drop_same _ Hok); [done|]. by rewrite (cdr_only_tables _ _ H4), (cdr_only_tables _ _ H3).
Qed.

Lemma outside_outcome (s : St) an irq sip :
  env_ok s -> tables_ok (known s) (tables_of s) -> outside_ok s an irq sip ->
  returns (processRequestOutsideDialog an irq sip) (outcome_ok s (outside_moves sip 0) irq) s.
Proof.
  intros Henv Hok [[Hi0 Hi] Hm].
  unfold processRequestOutsideDialog, outside_moves. exec. destruct (sip_request sip) as [m|] eqn:Em; [|done].
  apply (validate_returns s sip m); [done|]. intros rc Hrc Hvalid.
  assert (forall ks r s', 200 <= r -> tables_of s' = tables_of s -> outcome_ok s ks irq r s') as Hrej.
  { intros ks r s' Hr Ht. left. split; [done|]. by apply (drop_same _ Hok). }
  assert (tables_of (s <| m_calls ::= fun l => l ++ [incoming_destroy irq] |>) = tables_of s) as Hdrop.
  { unfold tables_of. simpl. rewrite stack_of_snoc. simpl. rewrite irq_stack by done. by rewrite stack_eta. }
  assert (outcome_ok s [Idle] irq 0 (s <| m_calls ::= fun l => l ++ [incoming_destroy irq] |>)) as Hdestroy.
  { right. split; [done|]. by apply step_ok_same; [|done|left]. }
  destruct Hrc as [->| ->]; cbn [negb Z.eqb]; exec; [|by apply Hrej]. destruct (Hvalid eq_refl) as [Hid Hinv]. 
  destruct m; try (exec; by apply Hrej).
  - destruct Hm as (contact & Hcon & [host Hhost]). exec.
    destruct (negb (routes_isActive (m_Config s))); exec; [done|].
    apply (call_type_returns s sip contact host); [done|done|]. intros t _. destruct (fst t); exec; by apply Hrej.
  - destruct Hm as (Hf & Hto & Hfa & Hfb & Hfo & Hab & Hterm).
    destruct (Hinv eq_refl) as [(contact & host & Hcon & Hhost) Huser]. exec.
    apply (call_type_returns s sip contact host); [done|done|]. intros [t carrier] Et. exec.
    set (s1 := s <| m_calls ::= fun l => l ++ [incoming_treply irq 100 None None []] |>).
    assert (stack_of (m_calls s1) = stack_of (m_calls s)) as Hst by (unfold s1; simpl; by rewrite stack_of_snoc).
    assert (tables_of s1 = tables_of s) as Ht1 by (unfold tables_of; by rewrite Hst).
    assert (tables_ok (known s1) (tables_of s1)) as Hok1 by (by rewrite Ht1).
    assert (is_Some (sip_to sip)) as Hto' by (destruct Hto as (to & -> & _); by eexists).
    assert (is_Some (url_host (m_my_contact s1))) as Hh1 by apply Henv.
    assert (fresh_leg s1 (an_a_leg an)) as Hfa1 by (unfold fresh_leg; by rewrite Hst).
    assert (fresh_leg s1 (an_b_leg an)) as Hfb1 by (unfold fresh_leg; by rewrite Hst).
    assert (fresh_orq s1 (an_orq an)) as Hfo1 by (unfold fresh_orq; by rewrite Hst).
    cbn [fst snd]. destruct t.
    + apply (reject_call_safe s s1); try done; by eexists.
    + destruct (_ || _); [apply (reject_call_safe s s1); try done; by eexists|].
      apply (outcome_iteration s s1); [done|done|]. apply origination_safe; try done; by eexists.
    + apply (outcome_iteration s s1); [done|done|]. destruct (Hterm carrier s Et) as [Ha Hsdp].
      apply termination_safe; try done; try (by eexists). by destruct Hab.
  - exec. exact Hdestroy.
Qed.

Lemma outside_safe (s : St) an irq sip :
  env_ok s -> tables_ok (known s) (tables_of s) -> outside_ok s an irq sip ->
  returns (respond irq (processRequestOutsideDialog an irq sip)) (fun r s' => step_ok (outside_moves sip r) s s') s.
Proof.
  intros. apply respond_safe; [|done|by apply outside_outcome].
  intros r Hr. unfold outside_moves. destruct (Z.eqb_spec r 0); [lia|]. by rewrite andb_false_r.
Qed.
End Outside.

(** *** Responses to an INVITE *)

Section InviteResponse.
Context {P C : Type} {pool : ServerPool P} {routes : CallRoutes C}.
#[local] Abbreviation St := (Ctl P C).
Context (s : St) (Henv : env_ok s) (Hok : tables_ok (known s) (tables_of s)).

(** Nothing that matters to the tables has happened yet. *)
Definition mid (s' : St) : Prop :=
  tables_of s' = tables_of s /\ (forall k, known s k -> known s' k) /\ routes_ok (m_Config s').

Lemma mid_refl : mid s.
Proof using Henv. split; [done|]. split; [done|]. apply Henv. Qed.

Lemma mid_cdr (s1 s2 : St) : mid s1 -> cdr_only s1 s2 -> mid s2.
Proof.
  intros (Ht & Hk & Hr) H. split; [by rewrite (cdr_only_tables _ _ H)|]. destruct H as [(q & n & ->) Hk2].
  split; [auto|done].
Qed.

Lemma mid_eq (s1 s2 : St) :
  mid s1 -> tables_of s2 = tables_of s1 -> m_cdrs s2 = m_cdrs s1 -> m_Config s2 = m_Config s1 -> mid s2.
Proof.
  intros (Ht & Hk & Hr) E1 E2 E3. split; [by rewrite E1|]. split; [|by rewrite E3].
  intros k H. unfold known. rewrite E2. by apply Hk.
Qed.

Lemma mid_fields (s1 : St) : mid s1 ->
  m_transactions s1 = m_transactions s /\ m_dialogs s1 = m_dialogs s /\
  m_pCdr <$> m_mapTerminationAttempts s1 = m_pCdr <$> m_mapTerminationAttempts s /\
  stack_of (m_calls s1) = stack_of (m_calls s).
Proof. intros (Ht & _). unfold tables_of in Ht. by injection Ht. Qed.

Lemma count_failure_mid t status (s1 : St) (Q : unit -> St -> Prop) :
  status < 700 -> mid s1 ->
  (forall s2, mid s2 -> m_mapTerminationAttempts s2 = m_mapTerminationAttempts s1 -> Q tt s2) ->
  returns (count_failure t status) Q s1.
Proof.
  intros Hst Hmid HQ. unfold count_failure. exec.
  destruct (m_mapTrunkStats s1 !! m_sipTrunk t) as [tr|]; [|exec; by apply HQ].
  unfold incrementFailureCount, MAX_STATUS. destruct (Z.ltb_spec status 700); [|lia]. simpl. exec.
  apply HQ; [by apply (mid_eq s1)|done].
Qed.

Lemma accepted_mid an leg a_leg dialog sip (s1 : St) (Q : option string -> St -> Prop) :
  is_Some (sip_to sip) -> is_Some (sip_contact sip) -> is_Some (sip_payload sip) -> fresh_orq s (an_ack an) ->
  mid s1 -> (forall v s2, mid s2 -> Q v s2) -> returns (invite_accepted an leg a_leg dialog sip) Q s1.
Proof using Hok.
  intros [to Hto] Hc [sdp Hsdp] Hack Hmid HQ. unfold invite_accepted. rewrite Hto. exec.
  destruct (mid_fields _ Hmid) as (_ & _ & _ & Hst).
  apply send_ack_safe; [done| |].
  { simpl. rewrite !stack_of_snoc. simpl. rewrite Hst. by apply (fresh_orq_none _ Hok). }
  intros s2 H2 Hcdr _ _ _ _ Hcfg _.
  assert (mid s2) as Hmid2.
  { destruct Hmid as (Ht & Hk & Hr). split; [|split; [|by rewrite Hcfg]].
    - rewrite H2, <- Ht. unfold tables_of. simpl. by rewrite !stack_of_snoc.
    - intros k H. unfold known. rewrite Hcdr. by apply Hk. }
  destruct dialog as [d|]; exec; [|by apply HQ]. rewrite Hsdp. unfold change_info, start_session_timer. exec.
  set (s3 := s2 <| m_mapDialogInfo ::= alter (fun d => d <| m_localSdp := sdp |>) a_leg |>).
  assert (mid s3) as Hmid3.
  { apply (mid_eq s2); try done. unfold tables_of. simpl. by rewrite fmap_alter_same. }
  destruct (0 <? getSessionTimerSecs d); [|exec; by apply HQ].
  destruct (an_timer an =? 0); [exec; by apply HQ|]. unfold change_info. exec. apply HQ.
  apply (mid_eq s3); try done.
  unfold tables_of. simpl. rewrite stack_of_snoc. simpl. by rewrite !fmap_alter_same.
Qed.

Section Crank.
Context (irq orq a b p : Z) (an : answers).
Context (Htr : (irq, orq) ∈ m_transactions s) (Hd : (a, b) ∈ m_dialogs s).
Context (Horq : orqs (stack_of (m_calls s)) !! orq = Some (b, response_to_invite, sip_method_invite)).
Context (Hirq : irqs (stack_of (m_calls s)) !! irq = Some a) (Hp : known s p) (Hq : quiet_but s orq b).
Context (Hfb : fresh_leg s (an_b_leg an)) (Hfo : fresh_orq s (an_orq an)).

Lemma retry_safe t (s1 : St) :
  mid s1 -> m_mapTerminationAttempts s1 !! orq = Some t -> m_pCdr t = Some p -> length_ (m_url t) < URL_MAXLEN ->
  returns (retry an irq orq b) (fun r s' => if r : bool then step_ok [Idle] s s' else mid s') s1.
Proof using Hok Htr Hd Horq Hirq Hp Hq Hfb Hfo.
  intros Hmid Ht Htp Hu. destruct (mid_fields _ Hmid) as (E1 & E2 & E3 & E4). pose proof Hmid as (E & Hk & Hr).
  assert (m_mapTerminationAttempts s !! orq <> None) as Hat.
  { intros E0. assert ((m_pCdr <$> m_mapTerminationAttempts s1) !! orq = None) as H.
    { by rewrite E3, lookup_fmap, E0. }
    by rewrite lookup_fmap, Ht in H. }
  assert (exists x, t_infos (tables_of s) !! b = Some x) as [x Hx].
  { destruct (ok_calls _ _ Hok irq orq b sip_method_invite Htr Horq) as (_ & a' & Ha' & _ & Hiff). simpl in Ha'.
    rewrite Hirq in Ha'. injection Ha' as <-.
    destruct (ok_kinds _ _ Hok a b Hd) as [[Ha _]|[_ Hb]]; [|destruct Hb as [x Hx]; by exists x].
    apply Hiff in Ha. simpl in Ha. rewrite lookup_fmap in Ha. by destruct (m_mapTerminationAttempts s !! orq). }
  eapply returns_mono.
  { apply (retry_tables an t p x irq orq a b s1 (known s)); rewrite ?E, ?E1, ?E2, ?E4; try done.
    - by rewrite Horq.
    - unfold fresh_leg. by rewrite E4.
    - unfold fresh_orq. by rewrite E4. }
  intros [|] s2.
  - intros (Ho & Hb & Hs2). rewrite E in Hs2. destruct Hfb as [?|Hfb']; [done|]. destruct Hfo as [?|Hfo']; [done|].
    eapply step_ok_eq; [exact Hs2|..|by apply move_retry|by left]. apply replace_request_ok; try done.
    + simpl. rewrite lookup_fmap. by destruct (m_mapTerminationAttempts s !! orq).
    + intros o cb H. destruct (decide (o = orq)) as [|Hne]; [done|]. destruct (Hq o b cb H Hne). by left.
  - intros ((F1 & F2 & F3 & F4) & F5 & F6 & F7). split; [|split; [auto|by rewrite F5]].
    rewrite <- E. unfold tables_of. by rewrite F1, F2, F3, F4, F7.
Qed.

Lemma stream_length u h pt :
  fits [u; h; pt] ->
  length_ (stream ([Some "sip:"; u; Some "@"; h] ++ match pt with Some p => [Some ":"; Some p] | None => [] end)) < URL_MAXLEN.
Proof.
  unfold fits, stream, length_. unfold ADDRESS_MAX. simpl.
  destruct u as [u|]; simpl; [|lia]. destruct h as [h|]; simpl.
  - destruct pt as [pt|]; simpl; repeat (rewrite ?length_str_app; simpl); lia.
  - rewrite length_str_app. simpl. lia.
Qed.

(** The attempt behind the request is changed. *)
Lemma change_attempt_mid t f (s1 : St) :
  mid s1 -> m_mapTerminationAttempts s1 !! orq = Some t -> (forall u, m_pCdr (f u) = m_pCdr u) ->
  forall (Q : unit -> St -> Prop), (forall s2, mid s2 -> m_mapTerminationAttempts s2 !! orq = Some (f t) -> Q tt s2) ->
  returns (change_attempt orq f) Q s1.
Proof.
  intros Hmid Ht Hf Q HQ. unfold change_attempt. exec. apply HQ.
  - apply (mid_eq s1); try done. unfold tables_of. simpl. by rewrite fmap_alter_same.
  - simpl. by rewrite lookup_alter_eq, Ht.
Qed.

Lemma crank_safe status sip t (s1 : St) :
  mid s1 -> m_mapTerminationAttempts s1 !! orq = Some t -> m_pCdr t = Some p ->
  (300 <= status <= 399 -> exists c, sip_contact sip = Some c /\
     fits [url_user (a_url c); url_host (a_url c); url_port (a_url c)]) ->
  (status = 503 \/ status = 480 -> fits_user (sip_to sip)) ->
  returns (crank an irq orq b p status sip) (fun r s' => if r : bool then step_ok [Idle] s s' else mid s') s1.
Proof using Hok Htr Hd Horq Hirq Hp Hq Hfb Hfo.
  intros Hmid Ht Htp Hc Hto. unfold crank. exec. rewrite Ht.
  destruct ((300 <=? status) && (status <=? 399)) eqn:E3.
  - apply andb_true_iff in E3 as [H1%Z.leb_le H2%Z.leb_le]. destruct (Hc (conj H1 H2)) as (c & Hc' & Hfit).
    unfold redirect. rewrite Hc'. exec. apply (change_attempt_mid t); try done.
    intros s2 Hmid2 Ht2. exec. eapply retry_safe; [done|exact Ht2|done|]. by apply stream_length.
  - destruct ((503 =? status) || (480 =? status)) eqn:E5; [|by exec].
    assert (status = 503 \/ status = 480) as Hst.
    { apply orb_true_iff in E5 as [?%Z.eqb_eq|?%Z.eqb_eq]; lia. }
    destruct (Hto Hst) as (to & Hto' & Hfit). unfold next_carrier. exec.
    destruct (m_nAttemptCount t <? _); [|by exec]. exec.
    apply config_returns; [apply routes_alt_ok|apply Hmid|]. intros r cfg Hcfg Hl.
    set (s2 := s1 <| m_Config := cfg |>).
    assert (mid s2) as Hmid2 by (destruct Hmid as (? & ? & _); by split).
    destruct r as [[[address carrier] charge]|]; [|by exec]. exec.
    apply post_copy_only; [by apply Hmid|]. intros s3 H3. pose proof (mid_cdr _ _ Hmid2 H3) as Hmid3.
    rewrite Hto'. exec. pose proof (invite_url_length (url_user (a_url to)) address Hfit Hl) as Hurl.
    apply (change_attempt_mid t); try done; [by destruct H3 as [(q & n & ->) _]|].
    intros s4 Hmid4 Ht4. exec. apply change_cdr_only. intros s5 H5. exec.
    eapply retry_safe; [by eapply mid_cdr|destruct H5 as [(q & n & ->) _]; exact Ht4|done|exact Hurl].
Qed.
End Crank.

(** The end of the handler, when the call does not go on with another request. *)
#[local] Abbreviation finish irq orq leg status timer sip :=
  (finish_response (negb (100 =? status)) (200 <=? status) ((200 <=? status) && negb (status =? 200))
     irq orq leg status timer sip).

Lemma finish_cdrs q b1 b2 b3 irq orq leg status timer sip :
  keeps (fun s : St => m_cdrs s = q) (finish_response b1 b2 b3 irq orq leg status timer sip).
Proof.
  assert (forall f : St -> St, (forall s, m_cdrs (f s) = m_cdrs s) -> keeps (fun s => m_cdrs s = q) (modify f)) as Hm.
  { intros f Hf. apply keeps_modify. intros s1 H. by rewrite Hf. }
  unfold finish_response, proxy_response, clearTransaction, getAssociatedTransaction_orq, clearDialog, getAssociatedDialog,
    erase_info, nta. keeps_auto; by apply Hm.
Qed.

(** What the end of the handler leaves. *)
#[local] Abbreviation finished status :=
  (fun _ s' => tables_ok (known s) (tables_of s') /\ moved (response_moves status) (tables_of s) (tables_of s')).

Lemma finish_safe irq orq a b status timer sip (s1 : St) :
  mid s1 -> 100 <= status -> (irq, orq) ∈ m_transactions s -> (a, b) ∈ m_dialogs s ->
  orqs (stack_of (m_calls s)) !! orq = Some (b, response_to_invite, sip_method_invite) ->
  (200 < status -> quiet_but s orq b) ->
  returns (finish irq orq b status timer sip) (finished status) s1.
Proof using Hok.
  intros Hmid Hlo Htr Hd Horq Hq. destruct (mid_fields _ Hmid) as (E1 & E2 & E3 & E4). pose proof Hmid as (E & _ & _).
  unfold finish_response, proxy_response. exec.
  destruct (Z.leb_spec 200 status) as [Hfinal|Hprov].
  2:{ assert (forall s2 : St, tables_of s2 = tables_of s -> returns (when false (clearTransaction orq)) (fun _ s3 =>
        returns (when (false && negb (status =? 200)) (clearDialog b))
          (finished status) s3) s2) as Hgo.
    { intros s2 E'. simpl. exec. rewrite E'. split; [done|]. exists Idle. split; [|constructor].
      unfold response_moves. destruct (Z.ltb_spec status 200); [by left|lia]. }
      destruct (negb (100 =? status)); exec; [|by apply Hgo].
      apply Hgo. rewrite <- E. unfold tables_of. simpl. rewrite stack_of_snoc. simpl.
      by destruct (Z.leb_spec 200 status); [lia|]. }
  assert ((100 =? status) = false) as -> by (apply Z.eqb_neq; lia).
  assert (forall s2 : St, tables_of s2 = mkTables (m_transactions s) (m_dialogs s) (delete orq (t_attempts (tables_of s)))
      (t_infos (tables_of s)) (mkStack (legs (stack_of (m_calls s))) (orqs (stack_of (m_calls s)))
        (delete irq (irqs (stack_of (m_calls s))))) ->
    returns (clearTransaction orq) (fun _ s3 => returns (when (negb (status =? 200)) (clearDialog b))
      (finished status) s3) s2) as Hgo.
  { intros s2 E'. unfold tables_of at 1 in E'. injection E' as F1 F2 F3 F4 F5.
    unfold clearTransaction, getAssociatedTransaction_orq. exec. rewrite F1.
    rewrite (proj2 (right_find_Some (m_transactions s) irq orq (ok_trans _ _ Hok)) Htr). exec.
    match goal with |- returns _ _ ?st => assert (tables_of st = end_request irq orq (tables_of s)) as Htab end.
    { unfold tables_of at 1, end_request. simpl. rewrite !stack_of_snoc. simpl. rewrite F1, F2, F3, F4, F5. simpl.
      by rewrite delete_delete_eq. }
    pose proof (end_request_ok _ _ Hok irq orq Htr) as Hok2.
    unfold response_moves. destruct (Z.ltb_spec status 200); [lia|].
    destruct (Z.eqb_spec status 200) as [E200|E200]; simpl; exec.
    { split; [eapply tables_ok_eq; [exact Htab|done]|]. eapply moved_eq; [exact Htab|by econstructor|by left]. }
    eapply returns_mono.
    { eapply (clearDialog_tables _ a b b); [|simpl; by rewrite F2|by right].
      simpl. rewrite F2. exact (tables_sides _ _ Hok). }
    intros [] s3 H3. assert (tables_of s3 = end_dialog a b (end_request irq orq (tables_of s))) as E3'.
    { rewrite H3. f_equal. exact Htab. }
    rewrite E3'. split; [|exists Fails; split; [by left|by econstructor]].
    apply end_dialog_ok; [done|done|..];
      (eapply (quiet_inviting s a b b orq); [apply Hq; lia|done|by right|]);
      simpl; intros o v [? ?]%lookup_delete_Some; split; congruence. }
  simpl. exec. destruct (m_mapTerminationAttempts s1 !! orq) as [t|] eqn:Et; exec; apply Hgo;
    rewrite <- E; unfold tables_of; simpl; rewrite stack_of_snoc; simpl;
    (destruct (Z.leb_spec 200 status); [|lia]); simpl; rewrite E1, E2, E4; [by rewrite fmap_delete|].
  f_equal. symmetry. apply delete_id. by rewrite lookup_fmap, Et.
Qed.

(** The record of the call is posted. *)
Lemma posted_safe ks (t : option TerminationAttempt) p (s1 : St) (b1 b2 : bool) f g :
  tables_ok (known s) (tables_of s1) -> moved ks (tables_of s) (tables_of s1) -> known s1 p ->
  returns (match t with Some _ => when b1 (post_copy p f) | None => when b2 (post_copy p g) end;; mret 0)
    (fun _ s' => step_ok ks s s') s1.
Proof.
  intros H1 Hm Hp. apply returns_bind. assert (forall (b : bool) h, returns (when b (post_copy p h))
    (fun _ s2 => returns (mret 0) (fun _ s' => step_ok ks s s') s2) s1) as Hw; [|by destruct t; apply Hw].
  intros b h. destruct b; exec; [|by apply step_ok_moved].
  apply post_copy_only; [done|]. intros s2 H2. exec. apply step_ok_moved; by rewrite (cdr_only_tables _ _ H2).
Qed.

Section Response.
Context (irq orq a b status : Z) (an : answers) (sip : sip_t).
Context (Htr : (irq, orq) ∈ m_transactions s) (Hd : (a, b) ∈ m_dialogs s) (Hlo : 100 <= status).
Context (Horq : orqs (stack_of (m_calls s)) !! orq = Some (b, response_to_invite, sip_method_invite)).
Context (Hq : 200 < status -> quiet_but s orq b).

Lemma finish_posted_safe (t : option TerminationAttempt) p (s1 : St) timer (final b1 b2 b3 : bool) f g :
  known s p -> mid s1 -> final = (200 <=? status) -> b3 = final && negb (status =? 200) ->
  returns (finish_response (negb (100 =? status)) final b3 irq orq b status timer sip;;
    match t with Some _ => when b1 (post_copy p f) | None => when b2 (post_copy p g) end;; mret 0)
    (fun _ s' => step_ok (response_moves status) s s') s1.
Proof using Hok Htr Hd Hlo Horq Hq.
  intros Hp Hmid -> ->. apply returns_bind. eapply returns_mono.
  - apply (returns_keeps (fun s' => m_cdrs s' = m_cdrs s1)); [apply finish_cdrs|done|].
    by eapply (finish_safe irq orq a b).
  - intros [] s4 [[H4 Hm4] Hq4]. apply posted_safe; [done|done|]. unfold known. rewrite Hq4. by apply Hmid.
Qed.

Context (Hirq : irqs (stack_of (m_calls s)) !! irq = Some a).
Context (Hfb : fresh_leg s (an_b_leg an)) (Hfo : fresh_orq s (an_orq an)) (Hack : fresh_orq s (an_ack an)).
Context (H200 : status = 200 -> is_Some (sip_to sip) /\ is_Some (sip_contact sip) /\ is_Some (sip_payload sip)).
Context (H3xx : 300 <= status <= 399 -> exists c, sip_contact sip = Some c /\
  fits [url_user (a_url c); url_host (a_url c); url_port (a_url c)]).
Context (H5xx : status = 503 \/ status = 480 -> fits_user (sip_to sip)).

(** The handler, once the record of the call is known. *)
Lemma recorded_safe t p dialog (s1 : St) f g :
  known s p -> mid s1 -> (forall t', t = Some t' -> m_pCdr t' = Some p) -> m_mapTerminationAttempts s1 !! orq = t ->
  returns (
    timer ← (if status =? 200 then invite_accepted an b a dialog sip else mret None);
    cranked ← (if (200 <=? status) && negb (status =? 200) then crank an irq orq b p status sip else mret false);
    finish_response (negb (100 =? status) && negb cranked) ((200 <=? status) && negb cranked)
      ((200 <=? status) && negb (status =? 200) && negb cranked) irq orq b status timer sip;;
    match t with
    | None => when (200 <=? status) (post_copy p g)
    | Some _ => when ((200 <=? status) && (negb (100 =? status) && negb cranked)) (post_copy p f)
    end;;
    mret 0) (fun _ s' => step_ok (response_moves status) s s') s1.
Proof using All.
  intros Hp Hmid Htp Hat. apply returns_bind. destruct (Z.eqb_spec status 200) as [E|E].
  - destruct (H200 E) as (? & ? & ?). apply accepted_mid; try done. intros timer s2 Hmid2.
    rewrite andb_false_r. apply returns_bind, returns_ret. cbn [negb andb]. rewrite ?andb_true_r.
    by apply (finish_posted_safe t); rewrite ?E.
  - apply returns_ret. cbn [negb]. rewrite andb_true_r. apply (proj2 (Z.eqb_neq _ _)) in E.
    destruct (200 <=? status) eqn:Efinal.
    2:{ apply returns_bind, returns_ret. cbn [negb andb]. rewrite andb_true_r. by apply (finish_posted_safe t). }
    apply Z.leb_le in Efinal as Hfinal. assert (200 < status) as Hlt by (apply Z.eqb_neq in E; lia).
    destruct t as [t|].
    + apply returns_bind. eapply returns_mono.
      { apply (crank_safe irq orq a b p an) with (t := t); auto. }
      intros [|] s3 H3; cbn [negb]; rewrite ?andb_true_r, ?andb_false_r; [|by apply (finish_posted_safe (Some t) p) with (b2 := true); rewrite ?E, ?Efinal].
      unfold finish_response. cbn [andb]. exec. destruct H3 as [H3 (k & Hk & H4)]. split; [exact H3|]. exists k. split; [|exact H4].
      unfold response_moves. rewrite E. destruct (Z.ltb_spec status 200); [lia|]. apply list_elem_of_singleton in Hk as ->. right. by left.
    + apply returns_bind. unfold crank. apply returns_bind, returns_gets. rewrite Hat. apply returns_ret.
      cbn [negb]. rewrite ?andb_true_r.
      by apply (finish_posted_safe None p) with (b1 := true); rewrite ?E, ?Efinal.
Qed.
End Response.

Lemma invite_response_safe an orq sip :
  invite_response_ok s an orq sip ->
  returns (processInviteResponseInsideDialog an orq sip)
    (fun _ s' => step_ok (response_moves (default 0 (sip_status sip))) s s') s.
Proof using Henv Hok.
  intros (b & m & status & Ho & Hout & Hleg & Hstatus & [Hlo Hhi] & Hfb & Hfo & Hack & H200 & H3xx & H5xx & Hq).
  pose proof (proj2 (ok_orqs _ _ Hok orq) (mk_is_Some _ _ Ho)) as [irq Htr]%elem_of_snd. simpl in Htr.
  destruct (ok_calls _ _ Hok irq orq b m Htr Ho) as (-> & a & Hirq & Hd & _). simpl in Hirq, Hd.
  destruct (ok_handles _ _ Hok _ _ Htr) as [Hi0 _].
  destruct (dialog_legs _ _ Hok a b Hd) as (Hla & Hlb & _).
  destruct (ok_sides _ _ Hok a b a b Hd Hd) as (_ & Ha0 & Hb0).
  rewrite (lookup_leg_live _ b Hlb) in Hout.
  assert (leg_of_irq s irq = a) as Hla'.
  { unfold leg_of_irq. rewrite Hirq. by apply lookup_leg_live. }
  destruct (call_of_irq s Hok irq (mk_is_Some _ _ Hirq)) as (orq' & a' & b' & Htr' & _ & Hirq' & _ & _ & _ & _ & Hrec).
  assert (orq' = orq) as -> by (eapply (fst_inj (m_transactions s)); [apply (ok_trans _ _ Hok)|done..]).
  rewrite Hirq in Hirq'. injection Hirq' as <-.
  unfold processInviteResponseInsideDialog, getAssociatedTransaction_orq. exec.
  rewrite (proj2 (right_find_Some (m_transactions s) irq orq (ok_trans _ _ Hok)) Htr). exec.
  rewrite Hout, (Hleg irq Htr), Hla'.
  destruct (Z.eqb_spec irq 0); [done|]. exec. destruct (Z.eqb_spec b 0); [done|]. exec.
  destruct (Z.eqb_spec a 0); [done|]. exec. rewrite Hstatus. exec.
  unfold record_of_call. exec. destruct Hrec as [(d & p & Hi & Hdp & Hp & Hnone)|(t & p & Hi & Ht & Htp & Hp)].
  - rewrite Hnone, Hi, Hdp. exec. apply returns_unbind, (recorded_safe irq orq a b status an sip) with (t := None) (f := id); auto; [|done]. apply mid_refl.
  - rewrite Ht, Htp. exec.
    destruct ((400 <=? status) && (status <=? 700)); exec.
    + apply count_failure_mid; [done|apply mid_refl|]. intros s2 Hmid2 Hs2. exec.
      apply returns_unbind, (recorded_safe irq orq a b status an sip) with (t := Some t) (g := id); auto; [by intros ? [= <-]|by rewrite Hs2].
    + apply returns_unbind, (recorded_safe irq orq a b status an sip) with (t := Some t) (g := id); auto; [apply mid_refl|by intros ? [= <-]].
Qed.
End InviteResponse.
