(* ===== verification/CallRuns.v ===== *)
(** * CallRuns: runs of the proxy in stateful mode

    Any sequence of callbacks the SIP stack may make: each of them returns and
    keeps the invariant of [CallSafety], and nothing is leaked. *)

From S2P Require Import Prelude Text Sip Bimap Ssp FsInstance FsMonitor Routing.
From S2P Require Import SspConfig Routes Cdr CdrWriter TrunkStats CallControl CallTables CallSafety.

(** ** Runs *)

Section Runs.
Context {P C : Type} {pool : ServerPool P} {routes : CallRoutes C}.
#[local] Abbreviation St := (Ctl P C).

(** A callback runs, as the SIP stack may have it. *)
Definition call_step (s : St) (e : event) (s' : St) : Prop :=
  event_ok s e /\ exists r, handle e s = Ok (r, s').

(** The start of a run: what [run] has set up, with no calls. *)
Definition initial_ctl (cfg : C) (p : P) (cdrs : bool) (w : CdrWriter) (iterations retries : Z) (contact : url_t)
    (agent : string) : St :=
  mkCtl cfg p cdrs (mkQueue ∅ [] w) 1 iterations retries contact agent [] [] ∅ ∅ ∅ [].
End Runs.

(** Nothing of a call is left in the controller, or held in the stack. *)
Definition no_calls {P C} (s : Ctl P C) : Prop :=
  m_mapTerminationAttempts s = ∅ /\ m_mapDialogInfo s = ∅ /\ stack_of (m_calls s) = mkStack ∅ ∅ ∅.

(** ** An example: the distributed configuration, one server, an INVITE of a
    carrier and its rejection by the server *)

Definition own_url : url_t := mkUrl None (Some "209.251.49.135") (Some "5060").

Definition example_url (user host : string) : url_t := mkUrl (Some user) (Some host) None.
Definition example_addr (user host : string) (tag : option string) : addr_t :=
  mkAddr None (example_url user host) tag.

Definition request_msg (m : sip_method) (contact_host : string) : sip_t :=
  mkSipT (Some m) None (Some "id1@carrier") (Some (example_addr "6175550000" "carrier" (Some "t1")))
    (Some (example_addr "8005551234" "ssp" None)) (Some (example_addr "gw" contact_host None)) (Some m)
    (Some "v=0") (Some 1800) None None None [].

Definition response_msg (status : Z) (m : sip_method) : sip_t :=
  mkSipT None (Some status) (Some "id2@ssp") (Some (example_addr "6175550000" "ssp" (Some "t2")))
    (Some (example_addr "8005551234" "server" (Some "t3"))) (Some (example_addr "fs" "10.10.2.35" None)) (Some m)
    (Some "v=0") None None None None [].

(** Handles for one call, the A leg the [n]th; what a lookup finds. *)
Definition example_answers (n out_leg irq_leg : Z) : answers :=
  mkAnswers n (n + 1) (n + 2) "id2@ssp" (n + 3) out_leg irq_leg (n + 4) 1000 "uuid".

(** A pool of one server, always available. *)
Definition example_server : FsInstance :=
  (new_FsInstance "10.10.2.35" 8021) <| m_state := querying_status |>
    <| m_nMaxSessions := 100 |> <| m_strSipAddress := "10.10.2.35" |> <| m_nSipPort := 5080 |>.

#[local] Obligation Tactic := idtac.
#[export] Program Instance example_pool : ServerPool unit :=
  {| pool_get := mret (Some [example_server]); pool_isAppserver := fun a _ => String.eqb a "10.10.2.35";
     pool_ok := fun _ => True |}.
Next Obligation. intros p l p' [= <- _]. done. Qed.
Next Obligation. intros p l p' [= <- _]. by repeat constructor. Qed.
Next Obligation. intros p _. exists (Some [example_server]), p. repeat constructor. vm_compute. discriminate. Qed.

Definition example_ctl : Ctl unit Impl :=
  initial_ctl (load (example_pt example_carriers)) tt true (new_CdrWriter []) (-1) 2 own_url "agent".

(** The state after an event. *)
Definition after {P C} {pool : ServerPool P} {routes : CallRoutes C} (e : event) (s : Ctl P C) : Ctl P C :=
  match handle e s with Ok (_, s') => s' | Fault _ => s end.

(** The example after the INVITE of a call: of a carrier, or of the server. *)
Definition example_call (host : string) : Ctl unit Impl :=
  after (EOutside (example_answers 1 0 0) 50 (request_msg sip_method_invite host)) example_ctl.

(** ** Lemmas *)

Section Lemmas.
Context {P C : Type} {pool : ServerPool P} {routes : CallRoutes C}.
#[local] Abbreviation St := (Ctl P C).

Lemma initial_ctl_ok cfg p cdrs w iterations retries contact agent :
  routes_ok cfg -> pool_ok p -> is_Some (url_host contact) ->
  ctl_ok (initial_ctl cfg p cdrs w iterations retries contact agent : St).
Proof.
  intros Hr Hp Hc. split.
  - split; [|done]. intros k [c Hk]. done.
  - split; simpl; try (by split; constructor); try (by intros ? ? ?%not_elem_of_nil);
      try (by intros ? ? ? ? ?%not_elem_of_nil); try (by intros ? ? ?; rewrite lookup_empty);
      try (by intros ? ?; rewrite lookup_empty); try (by intros ? ? ?; rewrite fmap_empty, lookup_empty);
      try (by intros ? ?; rewrite fmap_empty, lookup_empty).
    + intros l. rewrite !elem_of_nil. set_solver.
    + intros o. rewrite elem_of_nil, lookup_empty. split; [done|by intros []].
Qed.

(** A callback returns; the tables stay well-formed for the records there are
    then; and the calls make a move that the callback allows. *)
Lemma handle_moves (s : St) (e : event) :
  ctl_ok s -> event_ok s e -> returns (handle e) (fun r s' => step_ok (moves_of e r) s s') s.
Proof.
  intros [Henv Hok] He. destruct e as [an irq sip|an orq sip|an irq sip|an leg irq sip|an orq sip|leg|an sip|p|]; simpl in He |- *.
  - by apply outside_safe.
  - by apply invite_response_safe.
  - by apply ack_or_cancel_safe.
  - by apply inside_safe.
  - by apply inside_response_safe.
  - by apply refresh_safe.
  - destruct He as (? & ? & ?). by apply stray_safe.
  - exec. by apply step_ok_same; [|exact Hok|left].
  - exec. by apply step_ok_same; [|exact Hok|left].
Qed.

Lemma handle_safe (s : St) (e : event) :
  ctl_ok s -> event_ok s e -> returns (handle e) (fun _ s' => ctl_ok s' /\ forall p, known s p -> known s' p) s.
Proof.
  intros [Henv Hok] He. eapply returns_mono.
  { apply (returns_keeps (env s)); [apply env_handle|split; [exact Henv|done]|by apply handle_moves].
    intros p ->. exact He. }
  intros r s' [[(K & HK & Hks) _] [Henv' Hk]]. split; [|done]. split; [done|].
  eapply tables_ok_mono; [|exact HK]. intros p Hp. destruct (Hks p Hp); auto.
Qed.

Lemma call_step_ok (s : St) e s' : ctl_ok s -> call_step s e s' -> ctl_ok s'.
Proof.
  intros Hok [He [r Hr]]. pose proof (handle_safe s e Hok He) as H. unfold returns in H. rewrite Hr in H. by apply H.
Qed.

Lemma runs_ok (s : St) es s' : ctl_ok s -> runs call_step s es s' -> ctl_ok s'.
Proof. intros Hok Hr. eapply (runs_invariant call_step ctl_ok); [exact call_step_ok|exact Hr|exact Hok]. Qed.

(** Of the invariant: what no table refers to does not exist. *)
Lemma no_calls_left (s : St) : ctl_ok s -> m_dialogs s = [] -> m_transactions s = [] -> no_calls s.
Proof.
  intros [_ Hok] Hd Ht.
  assert (forall o, orqs (stack_of (m_calls s)) !! o = None) as Ho.
  { intros o. destruct (orqs (stack_of (m_calls s)) !! o) eqn:E; [|done].
    pose proof (proj2 (ok_orqs _ _ Hok o) (mk_is_Some _ _ E)) as H. simpl in H. rewrite Ht in H. by apply not_elem_of_nil in H. }
  assert (forall l, l ∉ legs (stack_of (m_calls s))) as Hl.
  { intros l Hl. apply (ok_legs _ _ Hok) in Hl. simpl in Hl. rewrite Hd in Hl.
    by destruct Hl as [?%not_elem_of_nil|?%not_elem_of_nil]. }
  split; [|split].
  - apply map_eq. intros o. rewrite lookup_empty.
    pose proof (no_orq_no_attempt _ _ Hok o (Ho o)) as H. simpl in H. rewrite lookup_fmap in H.
    by destruct (m_mapTerminationAttempts s !! o).
  - apply map_eq. intros l. rewrite lookup_empty.
    pose proof (no_leg_no_info _ _ Hok l (Hl l)) as H. simpl in H. rewrite lookup_fmap in H.
    by destruct (m_mapDialogInfo s !! l).
  - rewrite <- (stack_eta (stack_of (m_calls s))). f_equal; [set_solver|by apply map_eq|].
    apply map_eq. intros i. rewrite lookup_empty. apply (no_trans_no_irq _ _ Hok). simpl. rewrite Ht. apply not_elem_of_nil.
Qed.
End Lemmas.

Lemma load_short : impl_ok (load (example_pt example_carriers)).
Proof.
  split; [apply load_ok|]. split; [vm_compute; reflexivity|].
  apply (bool_decide_unpack _). vm_compute. reflexivity.
Qed.

Lemma example_ctl_ok : ctl_ok example_ctl.
Proof. apply initial_ctl_ok; [apply load_short|done|by eexists]. Qed.

Lemma first_invite_ok (s : Ctl unit Impl) host :
  m_calls s = [] -> m_transactions s = [] -> outside_ok s (example_answers 1 0 0) 50 (request_msg sip_method_invite host).
Proof.
  intros Hs Ht. assert (stack_of (m_calls s) = mkStack ∅ ∅ ∅) as E by by rewrite Hs.
  unfold outside_ok, fresh_irq, fresh_leg, fresh_orq. rewrite E, Ht. simpl.
  split; [split; [done|apply not_elem_of_nil]|]. split; [by eexists|].
  split; [eexists; split; [reflexivity|vm_compute; reflexivity]|].
  split; [right; apply not_elem_of_empty|]. split; [right; apply not_elem_of_empty|].
  split; [by right|]. split; [by right|]. intros carrier s' _. by split.
Qed.

Lemma example_invite_ok host :
  outside_ok example_ctl (example_answers 1 0 0) 50 (request_msg sip_method_invite host).
Proof. exact (first_invite_ok example_ctl host eq_refl eq_refl). Qed.

Lemma after_ok {P C} {pool : ServerPool P} {routes : CallRoutes C} (s : Ctl P C) e :
  ctl_ok s -> event_ok s e -> ctl_ok (after e s).
Proof.
  intros Hs He. pose proof (handle_safe s e Hs He) as H. unfold returns in H. unfold after.
  destruct (handle e s) as [[r s']|]; [apply H|done].
Qed.

Lemma after_step {P C} {pool : ServerPool P} {routes : CallRoutes C} (s : Ctl P C) e :
  ctl_ok s -> event_ok s e -> call_step s e (after e s).
Proof.
  intros Hs He. pose proof (handle_safe s e Hs He) as H. unfold returns in H. unfold after. split; [done|].
  destruct (handle e s) as [[r s']|]; [by exists r|done].
Qed.

Lemma after_runs {P C} {pool : ServerPool P} {routes : CallRoutes C} (s : Ctl P C) e :
  ctl_ok s -> event_ok s e -> runs call_step s [e] (after e s).
Proof. intros Hs He. econstructor; [by apply after_step|constructor]. Qed.

Lemma example_call_ok host : ctl_ok (example_call host).
Proof. apply after_ok; [apply example_ctl_ok|apply example_invite_ok]. Qed.

Lemma example_call_stack host : host = "10.10.2.35" \/ host = "192.168.1.54" ->
  stack_of (m_calls (example_call host)) =
    mkStack {[ 1; 2 ]} {[ 3 := (2, response_to_invite, sip_method_invite) ]} {[ 50 := 1 ]} /\
  m_transactions (example_call host) = [(50, 3)] /\ m_dialogs (example_call host) = [(1, 2)].
Proof. intros [->| ->]; split_and!; vm_compute; reflexivity. Qed.

(** A response to a call on those handles. *)
Lemma example_response_ok {P C} {pool : ServerPool P} {routes : CallRoutes C} (s : Ctl P C) status :
  stack_of (m_calls s) =
    mkStack {[ 1; 2 ]} {[ 3 := (2, response_to_invite, sip_method_invite) ]} {[ 50 := 1 ]} ->
  m_transactions s = [(50, 3)] -> 100 <= status < 700 ->
  invite_response_ok s (example_answers 11 2 1) 3 (response_msg status sip_method_invite).
Proof.
  intros E1 E2 Hs. exists 2, sip_method_invite, status.
  unfold lookup_leg, leg_of_irq, fresh_leg, fresh_orq, quiet_but. rewrite E1, E2. cbn [legs orqs irqs].
  split; [reflexivity|]. split; [by rewrite decide_True by set_solver|].
  split.
  { intros irq [E|?%not_elem_of_nil]%elem_of_cons; [|done]. injection E as ->.
    rewrite lookup_singleton_eq. unfold lookup_leg. rewrite E1. cbn [legs]. by rewrite decide_True by set_solver. }
  split; [reflexivity|]. split; [done|]. split; [right; set_solver|]. split; [by right|]. split; [by right|].
  split; [intros _; split; [by eexists|]; split; by eexists|].
  split; [intros _; eexists; split; [reflexivity|vm_compute; reflexivity]|].
  split; [intros _; eexists; split; [reflexivity|vm_compute; reflexivity]|].
  intros _ o l cb H Hne. by apply lookup_singleton_Some in H as [<- _].
Qed.

(** ** Properties *)

(** C1: No callback crashes.  Start the proxy, in stateful mode, with any
    well-formed configuration and pool of servers, and let the SIP stack make
    callbacks in any order, with any messages that [event_ok] allows: whatever
    callback comes next returns (no assertion fails, no null pointer or
    iterator past the end is dereferenced, no exception is thrown), leaves the
    tables well-formed, and no record that was made is lost. *)
Theorem callbacks_never_crash {P C} {pool : ServerPool P} {routes : CallRoutes C} (cfg : C) (p : P) (cdrs : bool)
    (w : CdrWriter) (iterations retries : Z) (contact : url_t) (agent : string) (es : list event) (s : Ctl P C)
    (e : event) :
  routes_ok cfg -> pool_ok p -> is_Some (url_host contact) ->
  runs call_step (initial_ctl cfg p cdrs w iterations retries contact agent) es s -> event_ok s e ->
  exists r s', handle e s = Ok (r, s') /\ ctl_ok s' /\ forall k, known s k -> known s' k.
Proof.
  intros Hr Hp Hc Hruns He. apply returns_elim, handle_safe; [|done].
  eapply runs_ok; [by apply initial_ctl_ok|exact Hruns].
Qed.

Lemma callbacks_never_crash_witness :
  exists r s', handle (EOutside (example_answers 1 0 0) 50 (request_msg sip_method_invite "192.168.1.54")) example_ctl =
    Ok (r, s') /\ ctl_ok s' /\ forall k, known example_ctl k -> known s' k.
Proof.
  apply (callbacks_never_crash (load (example_pt example_carriers)) tt true (new_CdrWriter []) (-1) 2 own_url "agent" []);
    [apply load_short|done|by eexists|constructor|].
  apply (example_invite_ok "192.168.1.54").
Defined.

(** C4: Nothing leaks.  At every point of such a run the legs that exist are
    those of the dialogs, the outgoing requests that exist those of the
    transactions; and when neither table has an entry, nothing of any call is
    left: no termination attempt, no dialog information, no leg, request or
    bound INVITE in the stack. *)
Theorem nothing_leaks {P C} {pool : ServerPool P} {routes : CallRoutes C} (cfg : C) (p : P) (cdrs : bool)
    (w : CdrWriter) (iterations retries : Z) (contact : url_t) (agent : string) (es : list event) (s : Ctl P C) :
  routes_ok cfg -> pool_ok p -> is_Some (url_host contact) ->
  runs call_step (initial_ctl cfg p cdrs w iterations retries contact agent) es s ->
  let k := stack_of (m_calls s) in
  (forall l, l ∈ legs k <-> l ∈ map fst (m_dialogs s) \/ l ∈ map snd (m_dialogs s)) /\
  (forall o, is_Some (orqs k !! o) <-> o ∈ map snd (m_transactions s)) /\
  (m_dialogs s = [] -> m_transactions s = [] -> no_calls s).
Proof.
  intros Hr Hp Hc Hruns k.
  assert (ctl_ok s) as Hok by (eapply runs_ok; [by apply initial_ctl_ok|exact Hruns]).
  split; [apply (ok_legs _ _ (proj2 Hok))|]. split; [|by apply no_calls_left].
  intros o. symmetry. apply (ok_orqs _ _ (proj2 Hok)).
Qed.

Lemma nothing_leaks_witness :
  let k := stack_of (m_calls example_ctl) in
  (forall l, l ∈ legs k <-> l ∈ map fst (m_dialogs example_ctl) \/ l ∈ map snd (m_dialogs example_ctl)) /\
  (forall o, is_Some (orqs k !! o) <-> o ∈ map snd (m_transactions example_ctl)) /\
  (m_dialogs example_ctl = [] -> m_transactions example_ctl = [] -> no_calls example_ctl).
Proof.
  apply (nothing_leaks (load (example_pt example_carriers)) tt true (new_CdrWriter []) (-1) 2 own_url "agent" []);
    [apply load_short|done|by eexists|constructor].
Defined.
