(* ===== verification/CallMachine.v ===== *)
(** * CallMachine: the calls of the proxy, abstractly

    What the stateful proxy promises, without its tables: a finite map from the
    A leg of each call to its kind and phase, and the steps that begin a call,
    have it answered, and end it.  Every run of the detailed model is a run of
    this machine, in which each callback makes one of the moves it is allowed. *)

From S2P Require Import Prelude Text Sip Bimap Ssp FsInstance FsMonitor Routing SspConfig Routes.
From S2P Require Import Cdr CdrWriter TrunkStats CallControl CallTables CallSafety CallRuns.

(** ** The specification *)

Inductive phase := Dialing | Connected.

(** Whether it is an origination, and its phase. *)
Definition call : Type := bool * phase.

Inductive calls_step : gmap Z call -> move_kind -> gmap Z call -> Prop :=
| step_idle m : calls_step m Idle m
| step_begins m a o : m !! a = None -> calls_step m Begins (<[ a := (o, Dialing) ]> m)
| step_answered m a o : m !! a = Some (o, Dialing) -> calls_step m Answered (<[ a := (o, Connected) ]> m)
| step_fails m a o : m !! a = Some (o, Dialing) -> calls_step m Fails (delete a m)
| step_ends m a o : m !! a = Some (o, Connected) -> calls_step m Ends (delete a m).

(** ** The abstraction *)

(** An INVITE is bound to the leg [a] as long as it has no final response. *)
Definition dialing (t : tables) (a : Z) : bool := bool_decide (a ∈ map snd (map_to_list (irqs (t_stack t)))).

Definition call_at (t : tables) (a : Z) : call :=
  (bool_decide (is_Some (t_infos t !! a)), if dialing t a then Dialing else Connected).

Definition calls (t : tables) : gmap Z call := list_to_map (map (fun d => (fst d, call_at t (fst d))) (t_dialogs t)).

(** No two INVITEs are bound to one leg. *)
Definition irqs_inj (t : tables) : Prop :=
  forall i j a, irqs (t_stack t) !! i = Some a -> irqs (t_stack t) !! j = Some a -> i = j.

(** ** Lemmas *)

Lemma dialing_spec t a : dialing t a = true <-> exists i, irqs (t_stack t) !! i = Some a.
Proof.
  unfold dialing. rewrite bool_decide_eq_true, elem_of_snd.
  split; intros [i Hi]; exists i; revert Hi; [apply elem_of_map_to_list|apply elem_of_map_to_list].
Qed.

Lemma keyed_lookup {A} (f : Z -> A) (l : bimap) a :
  (list_to_map (map (fun d => (fst d, f (fst d))) l) : gmap Z A) !! a =
  if bool_decide (a ∈ map fst l) then Some (f a) else None.
Proof.
  induction l as [|[x y] l IH]; simpl; [by rewrite lookup_empty|].
  destruct (decide (x = a)) as [->|Hne].
  - rewrite lookup_insert_eq, bool_decide_eq_true_2; [reflexivity|]. apply elem_of_cons. by left.
  - rewrite lookup_insert_ne, IH by done.
    assert (bool_decide (a ∈ x :: map fst l) = bool_decide (a ∈ map fst l)) as ->; [|reflexivity].
    apply bool_decide_ext. rewrite elem_of_cons. split; [intros [->|?]; [by destruct Hne|done]|by right].
Qed.

Lemma calls_lookup t a : calls t !! a = if bool_decide (a ∈ map fst (t_dialogs t)) then Some (call_at t a) else None.
Proof. apply keyed_lookup. Qed.

Lemma calls_size t : bimap_ok (t_dialogs t) -> size (calls t) = length (t_dialogs t).
Proof.
  intros [Hf _]. unfold calls. rewrite map_size_list_to_map; [by rewrite length_map|].
  change (NoDup (map fst (map (fun d => (fst d, call_at t (fst d))) (t_dialogs t)))). rewrite map_map. exact Hf.
Qed.

Lemma call_at_eq t t' a :
  (is_Some (t_infos t' !! a) <-> is_Some (t_infos t !! a)) ->
  ((exists i, irqs (t_stack t') !! i = Some a) <-> (exists i, irqs (t_stack t) !! i = Some a)) ->
  call_at t' a = call_at t a.
Proof.
  intros Hi Hd. unfold call_at. f_equal; [by apply bool_decide_ext|].
  assert (dialing t' a = dialing t a) as ->; [|done]. apply eq_bool_prop_intro.
  rewrite <- !(dialing_spec) in Hd. destruct (dialing t' a), (dialing t a); naive_solver.
Qed.

(** Two tables that differ in one call at most. *)
Lemma calls_eq t t' :
  (forall a, a ∈ map fst (t_dialogs t') <-> a ∈ map fst (t_dialogs t)) ->
  (forall a, a ∈ map fst (t_dialogs t) -> call_at t' a = call_at t a) -> calls t' = calls t.
Proof.
  intros Hd Hc. apply map_eq. intros a. rewrite !calls_lookup.
  destruct (decide (a ∈ map fst (t_dialogs t))) as [H|H].
  - rewrite !bool_decide_eq_true_2 by (by rewrite ?Hd). by rewrite Hc.
  - by rewrite !bool_decide_eq_false_2 by (by rewrite ?Hd).
Qed.

Lemma calls_insert t t' a c :
  (forall x, x ∈ map fst (t_dialogs t') <-> x = a \/ x ∈ map fst (t_dialogs t)) -> call_at t' a = c ->
  (forall x, x <> a -> x ∈ map fst (t_dialogs t) -> call_at t' x = call_at t x) -> calls t' = <[ a := c ]> (calls t).
Proof.
  intros Hd Ha Hc. apply map_eq. intros x. rewrite calls_lookup. destruct (decide (x = a)) as [->|Hne].
  - rewrite lookup_insert_eq, bool_decide_eq_true_2 by (apply Hd; by left). by rewrite Ha.
  - rewrite lookup_insert_ne, calls_lookup by done. destruct (decide (x ∈ map fst (t_dialogs t))) as [H|H].
    + rewrite !bool_decide_eq_true_2 by (rewrite ?Hd; tauto). by rewrite Hc.
    + by rewrite !bool_decide_eq_false_2 by (rewrite ?Hd; tauto).
Qed.

Lemma calls_delete t t' a :
  (forall x, x ∈ map fst (t_dialogs t') <-> x <> a /\ x ∈ map fst (t_dialogs t)) ->
  (forall x, x <> a -> x ∈ map fst (t_dialogs t) -> call_at t' x = call_at t x) -> calls t' = delete a (calls t).
Proof.
  intros Hd Hc. apply map_eq. intros x. rewrite calls_lookup. destruct (decide (x = a)) as [->|Hne].
  - rewrite lookup_delete_eq, bool_decide_eq_false_2 by (rewrite Hd; tauto). done.
  - rewrite lookup_delete_ne, calls_lookup by done. destruct (decide (x ∈ map fst (t_dialogs t))) as [H|H].
    + rewrite !bool_decide_eq_true_2 by (rewrite ?Hd; tauto). by rewrite Hc.
    + by rewrite !bool_decide_eq_false_2 by (rewrite ?Hd; tauto).
Qed.

Section Moves.
Context (known : Z -> Prop) (t : tables) (Hok : tables_ok known t) (Hinj : irqs_inj t).

Lemma dialing_call irq orq a b :
  (irq, orq) ∈ t_trans t -> (a, b) ∈ t_dialogs t ->
  orqs (t_stack t) !! orq = Some (b, response_to_invite, sip_method_invite) -> irqs (t_stack t) !! irq = Some a.
Proof using Hok.
  intros Htr Hd Ho. destruct (ok_calls _ _ Hok irq orq b _ Htr Ho) as (_ & a' & Hi & Hd' & _).
  rewrite Hi. f_equal. eapply (snd_inj (t_dialogs t)); [apply (ok_dialogs _ _ Hok)|done|done].
Qed.

Lemma call_in a b : (a, b) ∈ t_dialogs t -> calls t !! a = Some (call_at t a).
Proof. intros Hd. rewrite calls_lookup, bool_decide_eq_true_2; [done|]. apply elem_of_fst. by exists b. Qed.

(** The end of a request: no other leg is affected. *)
Lemma call_at_end_request irq orq x :
  irqs (t_stack t) !! irq <> Some x -> call_at (end_request irq orq t) x = call_at t x.
Proof.
  intros Hx. apply call_at_eq; [done|]. simpl. split; intros [i Hi]; exists i.
  - by apply lookup_delete_Some in Hi as [_ Hi].
  - apply lookup_delete_Some. split; [|done]. congruence.
Qed.

Lemma not_dialing irq orq a :
  irqs (t_stack t) !! irq = Some a -> dialing (end_request irq orq t) a = false.
Proof using Hinj.
  intros Hi. apply not_true_iff_false. rewrite dialing_spec. simpl. intros [j [Hne Hj]%lookup_delete_Some].
  by apply Hne, (Hinj irq j a).
Qed.

(** The other calls keep their kind when the legs [a] and [b] of one go. *)
Lemma call_at_end_dialog a b x :
  x <> a -> x <> b -> call_at (end_dialog a b t) x = call_at t x.
Proof.
  intros Ha Hb. apply call_at_eq; [|done]. simpl. by rewrite !lookup_delete_ne by congruence.
Qed.

Lemma end_dialog_calls a b x :
  (a, b) ∈ t_dialogs t -> (x ∈ map fst (right_erase b (left_erase a (t_dialogs t))) <-> x <> a /\ x ∈ map fst (t_dialogs t)).
Proof using Hok.
  intros Hd. rewrite !elem_of_fst. split.
  - intros [y [[H1 H2]%elem_of_left_erase _]%elem_of_right_erase]. split; [done|by exists y].
  - intros [Hne [y Hy]]. exists y. apply elem_of_right_erase. split; [by apply elem_of_left_erase|]. simpl.
    intros ->. apply Hne. eapply (snd_inj (t_dialogs t)); [apply (ok_dialogs _ _ Hok)|done|done].
Qed.

(** A left side is no right side. *)
Lemma sides_differ a b x : (a, b) ∈ t_dialogs t -> x ∈ map fst (t_dialogs t) -> x <> b.
Proof using Hok. intros Hd [y Hy]%elem_of_fst. apply (ok_sides _ _ Hok x y a b Hy Hd). Qed.

Lemma end_dialog_step a b :
  (a, b) ∈ t_dialogs t -> calls (end_dialog a b t) = delete a (calls t).
Proof using Hok.
  intros Hd. apply calls_delete; [intros x; by apply end_dialog_calls|].
  intros x Hne Hx. apply call_at_end_dialog; [done|]. by eapply sides_differ.
Qed.
End Moves.

(** Each move is a step of the machine. *)
Lemma move_begins known t o irq orq a b p :
  tables_ok known t -> irq ∉ map fst (t_trans t) -> a ∉ legs (t_stack t) -> b ∉ legs (t_stack t) -> a <> b ->
  calls_step (calls t) Begins (calls (add_call o irq orq a b p t)).
Proof.
  intros Hok Hi Ha Hb Hab. pose proof (no_trans_no_irq _ _ Hok _ Hi) as Hni.
  assert (forall x, x ∈ map fst (t_dialogs t) -> x ∈ legs (t_stack t)) as Hleg.
  { intros x Hx. apply (ok_legs _ _ Hok). by left. }
  assert (calls (add_call o irq orq a b p t) = <[ a := (o, Dialing) ]> (calls t)) as ->.
  - apply calls_insert.
    + intros x. simpl. rewrite elem_of_cons. done.
    + unfold call_at. f_equal.
      * simpl. destruct o; [by rewrite lookup_insert_eq|].
        rewrite lookup_insert_ne by congruence. by rewrite (no_leg_no_info _ _ Hok _ Ha).
      * assert (dialing (add_call o irq orq a b p t) a = true) as ->; [|done].
        apply dialing_spec. exists irq. simpl. by rewrite lookup_insert_eq.
    + intros x Hne Hx. apply call_at_eq; simpl.
      * assert (x <> b) by (intros ->; by apply Hb, Hleg). destruct o; by rewrite lookup_insert_ne by congruence.
      * split; intros [i Hii]; exists i.
        -- apply lookup_insert_Some in Hii as [[_ ?]|[_ ?]]; [congruence|done].
        -- apply lookup_insert_Some. right. split; [|done]. congruence.
  - constructor. rewrite calls_lookup, bool_decide_eq_false_2; [done|]. intros H. by apply Ha, Hleg.
Qed.

Lemma move_answered known t irq orq b :
  tables_ok known t -> irqs_inj t -> (irq, orq) ∈ t_trans t ->
  orqs (t_stack t) !! orq = Some (b, response_to_invite, sip_method_invite) ->
  calls_step (calls t) Answered (calls (end_request irq orq t)).
Proof.
  intros Hok Hinj Htr Ho. destruct (ok_calls _ _ Hok irq orq b _ Htr Ho) as (_ & a & Hi & Hd & _).
  assert (a ∈ map fst (t_dialogs t)) as Ha by (apply elem_of_fst; by exists b).
  pose proof (call_in t a b Hd) as Hc. unfold call_at in Hc. rewrite (proj2 (dialing_spec t a)) in Hc by by exists irq.
  assert (calls (end_request irq orq t) = <[ a := (bool_decide (is_Some (t_infos t !! a)), Connected) ]> (calls t)) as ->.
  - apply calls_insert.
    + intros x. simpl. split; [by right|]. by intros [->|?].
    + unfold call_at. by rewrite (not_dialing t Hinj irq orq a Hi).
    + intros x Hne _. apply call_at_end_request. rewrite Hi. congruence.
  - by constructor.
Qed.

Lemma move_fails known t irq orq a b :
  tables_ok known t -> (irq, orq) ∈ t_trans t -> (a, b) ∈ t_dialogs t ->
  orqs (t_stack t) !! orq = Some (b, response_to_invite, sip_method_invite) ->
  calls_step (calls t) Fails (calls (end_dialog a b (end_request irq orq t))).
Proof.
  intros Hok Htr Hd Ho. pose proof (dialing_call known t Hok irq orq a b Htr Hd Ho) as Hi.
  pose proof (call_in t a b Hd) as Hc. unfold call_at in Hc. rewrite (proj2 (dialing_spec t a)) in Hc by by exists irq.
  assert (calls (end_dialog a b (end_request irq orq t)) = delete a (calls t)) as ->; [|by econstructor].
  apply calls_delete; [intros x; by apply (end_dialog_calls known t Hok)|].
  intros x Hne Hx. rewrite call_at_end_dialog; [|done|by eapply (sides_differ known t Hok)].
  apply call_at_end_request. rewrite Hi. congruence.
Qed.

Lemma move_ends known t a b :
  tables_ok known t -> (a, b) ∈ t_dialogs t -> ~ inviting t b -> calls_step (calls t) Ends (calls (end_dialog a b t)).
Proof.
  intros Hok Hd Hn. rewrite (end_dialog_step known t Hok) by done. apply step_ends with (o := bool_decide (is_Some (t_infos t !! a))).
  etransitivity; [exact (call_in t a b Hd)|]. unfold call_at. assert (dialing t a = false) as ->; [|done].
  apply not_true_iff_false. rewrite dialing_spec. intros [i Hi].
  destruct (ok_irqs _ _ Hok i a Hi) as (o & b' & m & Htr & Ho & Hd').
  assert (b' = b) as -> by (eapply (fst_inj (t_dialogs t)); [apply (ok_dialogs _ _ Hok)|done|done]).
  destruct (ok_calls _ _ Hok i o b m Htr Ho) as (-> & _). apply Hn. by exists o, response_to_invite.
Qed.

Lemma move_retries known t irq orq orq' a b b' p x :
  tables_ok known t -> (a, b) ∈ t_dialogs t -> b' ∉ legs (t_stack t) ->
  calls (replace_request irq orq orq' a b b' p x t) = calls t.
Proof.
  intros Hok Hd Hb'. assert (forall y, y ∈ map fst (t_dialogs t) -> y <> b') as Hne.
  { intros y Hy ->. apply Hb', (ok_legs _ _ Hok). by left. }
  apply calls_eq.
  - intros y. simpl. rewrite elem_of_cons, !elem_of_fst. split.
    + intros [->|[z [Hz _]%elem_of_right_erase]]; [by exists b|by exists z].
    + intros [z Hz]. destruct (decide (y = a)) as [->|Hya]; [by left|right]. exists z. apply elem_of_right_erase.
      split; [done|]. simpl. intros ->. apply Hya. eapply (snd_inj (t_dialogs t)); [apply (ok_dialogs _ _ Hok)|done|done].
  - intros y Hy. pose proof (Hne y Hy). pose proof (sides_differ known t Hok a b y Hd Hy).
    apply call_at_eq; [|done]. simpl. by rewrite lookup_delete_ne, lookup_insert_ne by congruence.
Qed.

Lemma move_passes known t irq orq l m :
  tables_ok known t -> (irq, orq) ∈ t_trans t ->
  orqs (t_stack t) !! orq = Some (l, response_to_request_inside_dialog, m) -> calls (end_request irq orq t) = calls t.
Proof.
  intros Hok Htr Ho. apply calls_eq; [done|]. intros x _. apply call_at_end_request. intros Hi.
  destruct (ok_irqs _ _ Hok irq x Hi) as (o & b & m' & Htr' & Ho' & _).
  assert (o = orq) as -> by (eapply (fst_inj (t_trans t)); [apply (ok_trans _ _ Hok)|done|done]). congruence.
Qed.

Lemma move_simulated known k t t' :
  tables_ok known t -> irqs_inj t -> call_move t k t' -> calls_step (calls t) k (calls t').
Proof.
  intros Hok Hinj Hm. destruct Hm.
  - constructor.
  - by eapply move_begins.
  - by eapply move_answered.
  - by eapply move_fails.
  - by eapply move_ends.
  - erewrite move_retries by done. constructor.
  - constructor.
  - erewrite move_passes by done. constructor.
Qed.

(** The INVITEs stay apart. *)
Lemma move_inj known k t t' : tables_ok known t -> irqs_inj t -> call_move t k t' -> irqs_inj t'.
Proof.
  intros Hok Hinj Hm. destruct Hm; try exact Hinj; intros i j x; simpl;
    try (intros [_ Hi]%lookup_delete_Some [_ Hj]%lookup_delete_Some; by eapply Hinj).
  assert (forall y z, irqs (t_stack t) !! y = Some z -> z ∈ legs (t_stack t)) as Hl.
  { intros y z Hy. destruct (ok_irqs _ _ Hok y z Hy) as (_ & b' & _ & _ & _ & Hd).
    by destruct (dialog_legs _ _ Hok z b' Hd). }
  intros [[<- <-]|[Hi Hi']]%lookup_insert_Some [[<- Hx]|[Hj Hj']]%lookup_insert_Some; subst; try done.
  - by destruct H0; eapply Hl.
  - by destruct H0; eapply Hl.
  - by eapply Hinj.
Qed.

(** ** Runs *)

Section Runs.
Context {P C : Type} {pool : ServerPool P} {routes : CallRoutes C}.
#[local] Abbreviation St := (Ctl P C).

(** The calls of the controller. *)
Definition calls_of_ctl (s : St) : gmap Z call := calls (tables_of s).

Lemma step_simulated (s s' : St) e :
  ctl_ok s -> irqs_inj (tables_of s) -> call_step s e s' ->
  exists r k, handle e s = Ok (r, s') /\ k ∈ moves_of e r /\ calls_step (calls_of_ctl s) k (calls_of_ctl s') /\
    irqs_inj (tables_of s').
Proof.
  intros Hok Hinj [He [r Hr]]. pose proof (handle_moves s e Hok He) as H. unfold returns in H. rewrite Hr in H.
  destruct H as [_ (k & Hk & Hm)]. exists r, k. split; [done|]. split; [done|].
  split; [by eapply move_simulated; [apply Hok|..]|by eapply move_inj; [apply Hok|..]].
Qed.

Lemma runs_simulated (s s' : St) es :
  runs call_step s es s' -> ctl_ok s -> irqs_inj (tables_of s) ->
  exists ks, runs calls_step (calls_of_ctl s) ks (calls_of_ctl s') /\
    Forall2 (fun e k => exists r, k ∈ moves_of e r) es ks /\ ctl_ok s' /\ irqs_inj (tables_of s').
Proof.
  induction 1 as [s|s e s1 es s2 Hstep _ IH]; intros Hok Hinj; [exists []; by split_and!; [constructor|constructor|..]|].
  destruct (step_simulated s s1 e Hok Hinj Hstep) as (r & k & _ & Hk & Hm & Hinj1).
  destruct (IH (call_step_ok s e s1 Hok Hstep) Hinj1) as (ks & Hr & Hf & Hok2 & Hinj2).
  exists (k :: ks). split; [by econstructor|]. split; [|done]. constructor; [by exists r|done].
Qed.
End Runs.

(** ** Properties *)

(** C3: The proxy is its abstract machine.  Every run of the stateful proxy, from
    its start, with any configuration, pool and messages that are allowed, is a run of
    the machine that only knows the calls: each callback makes one of the moves
    [moves_of] lists for it (a new INVITE that is accepted begins a call, a 200
    answers it, another final response fails it or has it tried again, a CANCEL
    fails it, a BYE or the session timer ends it, and everything else leaves
    the calls alone), on one call, which is in the phase for it; and the number of calls is
    the one the statistics server reports. *)
Theorem proxy_refines_calls {P C} {pool : ServerPool P} {routes : CallRoutes C} (cfg : C) (p : P) (cdrs : bool)
    (w : CdrWriter) (iterations retries : Z) (contact : url_t) (agent : string) (es : list event) (s : Ctl P C) (e : event) :
  routes_ok cfg -> pool_ok p -> is_Some (url_host contact) ->
  runs call_step (initial_ctl cfg p cdrs w iterations retries contact agent) es s -> event_ok s e ->
  (exists ks, runs calls_step ∅ ks (calls_of_ctl s) /\ Forall2 (fun e k => exists r, k ∈ moves_of e r) es ks) /\
  (exists r s' k, handle e s = Ok (r, s') /\ k ∈ moves_of e r /\ calls_step (calls_of_ctl s) k (calls_of_ctl s')) /\
  getCountOfDialogs s = wrap32 (Z.of_nat (size (calls_of_ctl s))).
Proof.
  intros Hr Hp Hc Hruns He.
  destruct (runs_simulated _ _ _ Hruns) as (ks & Hk & Hf & Hok & Hinj).
  - by apply initial_ctl_ok.
  - intros i j a H. simpl in H. by rewrite lookup_empty in H.
  - split; [by exists ks|]. split.
    + destruct (returns_elim _ _ _ (handle_moves s e Hok He)) as (r & s' & E & _ & k & Hk' & Hm).
      exists r, s', k. split; [done|]. split; [done|]. by eapply move_simulated; [apply Hok|..].
    + unfold getCountOfDialogs, calls_of_ctl. by rewrite calls_size by apply (ok_dialogs _ _ (proj2 Hok)).
Qed.

Lemma proxy_refines_calls_witness :
  (exists ks, runs calls_step ∅ ks (calls_of_ctl example_ctl)) /\
  exists r s' k, handle (EOutside (example_answers 1 0 0) 50 (request_msg sip_method_invite "192.168.1.54")) example_ctl =
    Ok (r, s') /\ k ∈ [Begins] /\ calls_step (calls_of_ctl example_ctl) k (calls_of_ctl s').
Proof.
  set (e := EOutside (example_answers 1 0 0) 50 (request_msg sip_method_invite "192.168.1.54")).
  destruct (proxy_refines_calls (load (example_pt example_carriers)) tt true (new_CdrWriter []) (-1) 2 own_url "agent" []
    example_ctl e) as ((ks & H1 & _) & (r & s' & k & E & Hk & Hm) & _).
  - apply load_short.
  - exact I.
  - by eexists.
  - constructor.
  - exact (example_invite_ok "192.168.1.54").
  - split; [exists ks; exact H1|]. exists r, s', k. split; [exact E|]. split; [|exact Hm].
    assert (r = 0) as Hr.
    { change (match Ok (r, s') with Ok (r, _) => r = 0 | Fault _ => False end). rewrite <- E. vm_compute. reflexivity. }
    rewrite Hr in Hk. exact Hk.
Defined.
