(* ===== verification/CallEffects.v ===== *)
(** * CallEffects: what the parts of the callbacks do, exactly

    The effect of each part that the handlers of a call share, as a function on
    the controller's state with the calls it makes to the stack, and the proof
    that, in a well-formed state, the part has that effect. *)

From S2P Require Import Prelude Text Sip Bimap Ssp FsInstance FsMonitor Routes.
From S2P Require Import Cdr CdrWriter TrunkStats CallControl CallTables CallSafety.

(** ** The effects *)

(** The final statuses that an incoming request is answered with. *)
Definition final_answers (irq : Z) (calls : list nta_call) : list Z :=
  omap (fun c => match c with
                 | incoming_treply i status _ _ _ => if (200 <=? status) && (i =? irq) then Some status else None
                 | _ => None
                 end) calls.

(** A record is made, and posted if there is a writer. *)
Definition record_posted {P C} (c : CdrInfo) (s : Ctl P C) : Ctl P C :=
  s <| m_cdrs := mkQueue (<[ m_nextCdr s := c ]> (store (m_cdrs s)))
                   (posted (m_cdrs s) ++ (if m_cdrWriter s then [m_nextCdr s] else [])) (writer (m_cdrs s)) |>
    <| m_nextCdr ::= fun p => p + 1 |>.

(** An attempt on a trunk is counted. *)
Definition attempt_counted (t : TerminationAttempt) (stats : gmap string TrunkStats) : gmap string TrunkStats :=
  <[ m_sipTrunk t := incrementAttemptCount (default (new_TrunkStats (m_sipTrunk t) (m_carrier t)) (stats !! m_sipTrunk t)) ]>
    stats.

Section Effects.
Context {P C : Type} {pool : ServerPool P} {routes : CallRoutes C}.
#[local] Abbreviation St := (Ctl P C).

(** A request for a termination attempt, when its handles can be made. *)
Definition generated (an : answers) (t : TerminationAttempt) (p : Z) (s : St) : St :=
  s <| m_calls ::= fun l => l ++
         [leg_tcreate (an_b_leg an) (Some (m_from t, m_to t)); leg_tag (an_b_leg an) None;
          outgoing_tcreate (an_orq an) (an_b_leg an) sip_method_invite (ToText (m_url t)) (Some response_to_invite)
            (m_contact t) (sip_payload (m_sip t)) [m_my_user_agent s; m_p_charge_info_header t]] |>
    <| m_cdrs ::= queue_step (QChange p (setDLegCallId (an_call_id an))) |>
    <| m_mapTrunkStats ::= attempt_counted t |>.

(** A request is replaced by another; so is the B leg of a dialog, with the
    information on it. *)
Definition request_replaced (irq orq orq' : Z) (s : St) : St :=
  s <| m_transactions ::= fun m => (irq, orq') :: right_erase orq m |>
    <| m_calls ::= fun l => l ++ [outgoing_destroy orq] |>.
Definition leg_replaced (a b b' : Z) (d : SipDialogInfo) (s : St) : St :=
  s <| m_dialogs ::= fun m => (a, b') :: right_erase b m |>
    <| m_calls ::= fun l => l ++ [leg_destroy b] |>
    <| m_mapDialogInfo ::= fun m => delete b (<[ b' := d <| m_leg := b' |> ]> m) |>.

(** An attempt goes on with another request, on another B leg. *)
Definition retried (an : answers) (t : TerminationAttempt) (p : Z) (d : SipDialogInfo) (irq orq a b : Z) (s : St) : St :=
  leg_replaced a b (an_b_leg an) d
    ((request_replaced irq orq (an_orq an) (generated an t p s))
       <| m_mapTerminationAttempts ::= fun m => <[ an_orq an := t ]> (delete orq m) |>).

(** A transaction is over. *)
Definition request_over (irq orq : Z) (s : St) : St :=
  s <| m_transactions ::= right_erase orq |>
    <| m_calls ::= fun l => l ++ [incoming_destroy irq; outgoing_destroy orq] |>.

(** The timer of a leg goes with the information on it. *)
Definition timer_calls (infos : gmap Z SipDialogInfo) (leg : Z) : list nta_call :=
  match infos !! leg with
  | Some d => if m_timerSessionRefresh d =? 0 then [] else [timer_destroy (m_timerSessionRefresh d)]
  | None => []
  end.

(** A dialog is over. *)
Definition dialog_over (leg other : Z) (s : St) : St :=
  s <| m_calls ::= fun l => l ++ leg_destroy leg :: timer_calls (m_mapDialogInfo s) leg ++
                                 leg_destroy other :: timer_calls (m_mapDialogInfo s) other |>
    <| m_dialogs ::= fun d => right_erase leg (left_erase leg d) |>
    <| m_mapDialogInfo ::= fun m => delete other (delete leg m) |>.
End Effects.

(** ** Lemmas *)

(** The state a part leads to is the one its effect gives. *)
Ltac same_state HQ :=
  match goal with |- ?Q ?X =>
    match type of HQ with _ ?Y =>
      let E := fresh "E" in enough (Y = X) as E; [exact (eq_ind Y Q HQ X E)|]; clear HQ
    end
  end.

Section Lemmas.
Context {P C : Type} {pool : ServerPool P} {routes : CallRoutes C}.
#[local] Abbreviation St := (Ctl P C).

Lemma generate_exact an t p (s : St) (Q : option (Z * Z) -> St -> Prop) :
  an_b_leg an <> 0 -> an_orq an <> 0 -> length_ (m_url t) < URL_MAXLEN -> m_pCdr t = Some p ->
  Q (Some (an_orq an, an_b_leg an)) (generated an t p s) -> returns (generateTerminationRequest an t) Q s.
Proof.
  intros Hb Ho Hu Hp HQ. unfold generateTerminationRequest, change_cdr. exec.
  rewrite ?(proj2 (Z.eqb_neq _ _)) by done. exec. apply fits_returns; [done|]. exec.
  rewrite ?(proj2 (Z.eqb_neq _ _)) by done. rewrite Hp. exec.
  same_state HQ. unfold generated, attempt_counted. destruct s as [cfg mon w cdrs nc it re own ag tr di at' info st calls].
  simpl. rewrite <- !app_assoc. by destruct (st !! m_sipTrunk t).
Qed.

Lemma updateOutgoing_exact irq orq orq' (s : St) (Q : unit -> St -> Prop) :
  bimap_insert irq orq' (right_erase orq (m_transactions s)) = (irq, orq') :: right_erase orq (m_transactions s) ->
  Q tt (request_replaced irq orq orq' s) -> returns (updateOutgoingTransaction irq orq orq') Q s.
Proof.
  intros Hi HQ. unfold updateOutgoingTransaction, addTransactions. exec. same_state HQ. unfold request_replaced.
  destruct s as [cfg mon w cdrs nc it re own ag tr di at' info st calls]. simpl in *. by rewrite Hi.
Qed.

Lemma updateDialog_exact a b b' d (s : St) (Q : unit -> St -> Prop) :
  bimap_ok (m_dialogs s) -> (a, b) ∈ m_dialogs s -> b ∉ map fst (m_dialogs s) -> b <> 0 -> b' <> 0 ->
  bimap_insert a b' (right_erase b (m_dialogs s)) = (a, b') :: right_erase b (m_dialogs s) ->
  m_mapDialogInfo s !! b = Some d -> m_mapDialogInfo s !! b' = None ->
  Q tt (leg_replaced a b b' d s) -> returns (updateDialog b b') Q s.
Proof.
  intros Hd Hin Hbf Hb Hb' Hi Hinfo Hnb HQ. unfold updateDialog, addDialogs. exec.
  destruct (Z.eqb_spec b 0); [done|]. destruct (Z.eqb_spec b' 0); [done|]. exec. apply returns_bind.
  eapply getAssociatedDialog_b; [exact Hd|exact Hin|exact Hbf|]. exec.
  destruct s as [cfg mon w cdrs nc it re own ag tr di at' info st calls]. simpl in *. rewrite Hinfo. exec.
  same_state HQ. unfold leg_replaced, map_add. simpl. by rewrite Hi, Hnb.
Qed.

Lemma retry_exact an t p d irq orq a b (s : St) K (Q : bool -> St -> Prop) :
  tables_ok K (tables_of s) -> (irq, orq) ∈ m_transactions s -> (a, b) ∈ m_dialogs s ->
  is_Some (orqs (stack_of (m_calls s)) !! orq) ->
  m_mapTerminationAttempts s !! orq = Some t -> m_pCdr t = Some p -> length_ (m_url t) < URL_MAXLEN ->
  m_mapDialogInfo s !! b = Some d -> fresh_leg s (an_b_leg an) -> fresh_orq s (an_orq an) ->
  an_orq an <> 0 -> an_b_leg an <> 0 ->
  Q true (retried an t p d irq orq a b s) -> returns (retry an irq orq b) Q s.
Proof.
  intros Hok Htr Hd Horq Ht Hp Hu Hi Hfb Hfo Ho Hb' HQ.
  destruct (retry_fresh an irq orq a b s K Hok Htr Hd Horq Hfb Hfo Ho Hb') as (Hb & Hoo & Hbf & Hbi & Hbi' & Hna & Hnb).
  unfold retry. exec. rewrite Ht. exec. apply (generate_exact an t p); try done. exec.
  apply updateOutgoing_exact; [exact Hbi|]. exec.
  apply (updateDialog_exact a b _ d); [apply Hok|exact Hd|exact Hbf|done|done|exact Hbi'|exact Hi|exact Hnb|].
  exec. unfold retried in HQ. assert (map_add (an_orq an) t (delete orq (m_mapTerminationAttempts s)) =
    <[an_orq an := t]> (delete orq (m_mapTerminationAttempts s))) as E.
  { unfold map_add. by rewrite lookup_delete_ne, Hna. }
  same_state HQ. f_equal. unfold request_replaced, generated.
  destruct s as [cfg mon w cdrs nc it re own ag tr di at' info st calls]. simpl in *. by rewrite E.
Qed.

Lemma clearTransaction_exact irq orq (s : St) (Q : unit -> St -> Prop) :
  bimap_ok (m_transactions s) -> (irq, orq) ∈ m_transactions s ->
  Q tt (request_over irq orq s) -> returns (clearTransaction orq) Q s.
Proof.
  intros Hok Hin HQ. unfold clearTransaction, getAssociatedTransaction_orq. exec.
  rewrite (proj2 (right_find_Some _ irq orq Hok) Hin). same_state HQ. unfold request_over.
  destruct s as [cfg mon w cdrs nc it re own ag tr di at' info st calls]. simpl. by rewrite <- app_assoc.
Qed.

Lemma erase_info_exact leg (s : St) (Q : unit -> St -> Prop) :
  Q tt (s <| m_calls ::= fun l => l ++ timer_calls (m_mapDialogInfo s) leg |> <| m_mapDialogInfo ::= delete leg |>) ->
  returns (erase_info leg) Q s.
Proof.
  intros HQ. unfold erase_info. exec. unfold timer_calls in HQ.
  destruct (m_mapDialogInfo s !! leg) as [d|] eqn:E; [destruct (m_timerSessionRefresh d =? 0) eqn:Ed|];
    cbn [negb]; exec; same_state HQ; destruct s as [cfg mon w cdrs nc it re own ag tr di at' info st calls]; simpl in *;
    rewrite ?app_nil_r; [done..|]. by rewrite delete_id.
Qed.

Lemma clearDialog_exact leg other a b (s : St) (Q : unit -> St -> Prop) :
  sides_ok (m_dialogs s) -> (a, b) ∈ m_dialogs s -> leg = a /\ other = b \/ leg = b /\ other = a ->
  Q tt (dialog_over leg other s) -> returns (clearDialog leg) Q s.
Proof.
  intros [Hd Hs] Hin Hleg HQ. destruct (Hs a b a b Hin Hin) as (Hab & Ha & Hb).
  assert (b ∉ map fst (m_dialogs s)) as Hbf by (intros [y H]%elem_of_fst; by destruct (Hs b y a b H Hin)).
  unfold clearDialog. apply returns_bind.
  assert (leg <> other /\ other <> 0) as [Hne H0] by (destruct Hleg as [[-> ->]|[-> ->]]; naive_solver).
  assert (returns (getAssociatedDialog leg) (fun r s' => r = other /\ s' = s) s) as Hget.
  { destruct Hleg as [[-> ->]|[-> ->]]; [by eapply getAssociatedDialog_a|by eapply getAssociatedDialog_b]. }
  eapply returns_mono; [exact Hget|]. intros r s' [-> ->]. exec. apply erase_info_exact. exec.
  destruct (Z.eqb_spec other 0); [done|]. exec. apply erase_info_exact. unfold dialog_over in HQ.
  destruct s as [cfg mon w cdrs nc it re own ag tr di at' info st calls]. simpl in *.
  unfold timer_calls at 2. rewrite lookup_delete_ne by done. fold (timer_calls info other).
  rewrite <- !app_assoc. exact HQ.
Qed.

Lemma post_copy_exact p f c (s : St) (Q : unit -> St -> Prop) :
  store (m_cdrs s) !! p = Some c -> Q tt (record_posted (f c) s) -> returns (post_copy p f) Q s.
Proof.
  intros Hc HQ. unfold post_copy, cdr_at, new_cdr, change_cdr, postCdr. exec. rewrite Hc. exec.
  destruct (m_cdrWriter _) eqn:Ew; exec; same_state HQ; unfold record_posted;
    destruct s as [cfg mon w cdrs nc it re own ag tr di at' info st calls]; simpl in *; subst w;
    by rewrite alter_insert_eq, ?app_nil_r.
Qed.

Lemma post_exact p (s : St) (Q : unit -> St -> Prop) :
  Q tt (s <| m_cdrs ::= fun q => q <| posted ::= fun l => l ++ (if m_cdrWriter s then [p] else []) |> |>) ->
  returns (postCdr p) Q s.
Proof.
  intros HQ. unfold postCdr. exec. destruct (m_cdrWriter s) eqn:Ew; exec; same_state HQ; [done|].
  destruct s as [cfg mon w cdrs nc it re own ag tr di at' info st calls]. simpl in *. rewrite app_nil_r. by destruct cdrs.
Qed.
End Lemmas.
