(* ===== verification/CallSetup.v ===== *)
(** * CallSetup: how a new call is refused or set up

    An INVITE outside a dialog: the status it is answered with, as a function of
    the configuration, the pool and the answers of the SIP stack; and what a call
    that is set up looks like, to the stack, in the tables and in its record. *)

From S2P Require Import Prelude Text Sip Bimap Ssp FsInstance FsMonitor Routing SspConfig Routes.
From S2P Require Import Cdr CdrWriter TrunkStats CallControl CallTables CallSafety CallRuns CallEffects.

(** ** Specifications *)

Section Verdict.
Context {P C : Type} {pool : ServerPool P} {routes : CallRoutes C}.
#[local] Abbreviation St := (Ctl P C).

(** No originations are accepted, or none any more. *)
Definition offline (s : St) : bool := negb (routes_isActive (m_Config s)) || (0 =? m_nIterationCount s).

(** The status an INVITE outside a dialog is refused with, 0 when it is set up. *)
Definition invite_verdict (an : answers) (sip : sip_t) (s : St) : Z :=
  match c ← sip_contact sip; url_host (a_url c), i_id sip, t ← sip_to sip; url_user (a_url t), f ← sip_from sip; a_tag f with
  | Some host, Some _, Some _, Some _ =>
      match routes_getCarrier host (m_Config s) with
      | Some _ =>
          if offline s then 503
          else match pool_get (m_fsMonitor s) with
               | Ok (Some _, _) => if (an_a_leg an =? 0) || (an_b_leg an =? 0) || (an_orq an =? 0) then 503 else 0
               | _ => 486
               end
      | None =>
          if pool_isAppserver host (m_fsMonitor s) then
            match choose_route sip s with
            | Ok (Some _, _) => if (an_b_leg an =? 0) || (an_orq an =? 0) then 503 else 0
            | _ => 480
            end
          else 403
      end
  | _, _, _, _ => 400
  end.
End Verdict.

(** The parts of a complete INVITE. *)
Record invite_parts (sip : sip_t) (contact to from : addr_t) (host user id : string) : Prop := {
  ip_request : sip_request sip = Some sip_method_invite;
  ip_contact : sip_contact sip = Some contact;
  ip_host : url_host (a_url contact) = Some host;
  ip_to : sip_to sip = Some to;
  ip_user : url_user (a_url to) = Some user;
  ip_from : sip_from sip = Some from;
  ip_tag : is_Some (a_tag from);
  ip_id : i_id sip = Some id
}.

(** What the stack is told of a new call: its A leg, answered with 100, and
    its B leg with the INVITE that goes out on it. *)
Definition setup_calls (an : answers) (irq : Z) (from to url contact : string) (body : option string)
    (headers : list string) : list nta_call :=
  [incoming_treply irq 100 None None []; leg_tcreate (an_a_leg an) None; leg_server_route (an_a_leg an);
   leg_tag (an_a_leg an) (Some irq); incoming_bind irq; leg_tcreate (an_b_leg an) (Some (from, to));
   leg_tag (an_b_leg an) None;
   outgoing_tcreate (an_orq an) (an_b_leg an) sip_method_invite (ToText url) (Some response_to_invite) contact
     body headers].

(** The record of an origination. *)
Definition origination_cdr {P C} (s : Ctl P C) (an : answers) (server : FsInstance) (carrier host user id : string)
    (c : CdrInfo) : Prop :=
  m_cdrType c = origination_request /\ m_uuid c = an_uuid an /\ m_tmStart c = an_now an /\
  m_originatingCarrier c = carrier /\ m_originatingCarrierAddress c = host /\
  Some (m_originatingEdgeServerAddress c) = url_host (m_my_contact s) /\
  m_alegCallId c = id /\ m_blegCallId c = an_call_id an /\ m_calledPartyNumberIn c = user /\
  m_fsAddress c = m_strSipAddress server.

(** The state after an origination has been set up. *)
Definition origination_set_up {P C} {routes : CallRoutes C} (an : answers) (irq : Z) (sip : sip_t) (contact to from : addr_t)
    (host user carrier : string) (server : FsInstance) (p' : P) (c : CdrInfo) (s : Ctl P C) : Ctl P C :=
  (record_posted c (s <| m_fsMonitor := p' |>))
    <| m_calls ::= fun l => l ++ setup_calls an irq
         (generateOutgoing (m_my_contact s) from) (generateOutgoing (m_my_contact s) to) (invite_url (Some user) (m_strSipAddress server +:+ ":" +:+ dec (m_nSipPort server)))
         (generateOutgoing (m_my_contact s) contact) (sip_payload sip)
         ["X-Originating-Carrier: " +:+ (if empty_ carrier then "unknown" else carrier);
          "X-Originating-Carrier-IP: " +:+ host; X_SESSION_UUID +:+ ": " +:+ m_uuid c] |>
    <| m_transactions ::= cons (irq, an_orq an) |> <| m_dialogs ::= cons (an_a_leg an, an_b_leg an) |>
    <| m_mapDialogInfo ::= <[ an_a_leg an := (new_SipDialogInfo (an_a_leg an) true (session_timer (m_Config s) sip))
                                <| di_pCdr := Some (m_nextCdr s) |> ]> |>.

(** The record of a termination. *)
Definition termination_cdr {P C} (s : Ctl P C) (an : answers) (sip : sip_t) (address carrier user id : string)
    (c : CdrInfo) : Prop :=
  m_cdrType c = termination_attempt /\ m_uuid c = default EmptyString (findCustomHeaderValue sip X_SESSION_UUID) /\
  m_tmStart c = an_now an /\ m_terminatingCarrier c = carrier /\ m_terminatingCarrierAddress c = address /\
  Some (m_terminatingEdgeServerAddress c) = url_host (m_my_contact s) /\
  m_clegCallId c = id /\ m_dlegCallId c = an_call_id an /\ m_calledPartyNumberOut c = user.

(** The first attempt of a termination. *)
Definition first_attempt {P C} (s : Ctl P C) (sip : sip_t) (contact to from : addr_t) (user address carrier charge : string)
  : TerminationAttempt :=
  (new_TerminationAttempt (invite_url (Some user) address) sip (generateOutgoing (m_my_contact s) from)
     (generateOutgoing (m_my_contact s) to) (generateOutgoing (m_my_contact s) contact)
     (if empty_ charge then EmptyString else charge_header charge address) carrier address)
    <| m_pCdr := Some (m_nextCdr s) |>.

(** The state after a termination has been set up, with route [(address,
    carrier, charge)] and configuration [cfg]. *)
Definition termination_set_up {P C} (an : answers) (irq : Z) (sip : sip_t) (t : TerminationAttempt) (cfg : C)
    (sdp : string) (c : CdrInfo) (s : Ctl P C) : Ctl P C :=
  s <| m_Config := cfg |>
    <| m_cdrs := mkQueue (<[ m_nextCdr s := c ]> (store (m_cdrs s))) (posted (m_cdrs s)) (writer (m_cdrs s)) |>
    <| m_nextCdr ::= fun p => p + 1 |>
    <| m_calls ::= fun l => l ++ setup_calls an irq (m_from t) (m_to t) (m_url t) (m_contact t) (sip_payload sip)
         [m_my_user_agent s; m_p_charge_info_header t] |>
    <| m_mapTrunkStats ::= attempt_counted t |>
    <| m_transactions ::= cons (irq, an_orq an) |> <| m_dialogs ::= cons (an_a_leg an, an_b_leg an) |>
    <| m_mapTerminationAttempts ::= <[ an_orq an := t ]> |>
    <| m_mapDialogInfo ::= <[ an_b_leg an := (new_SipDialogInfo (an_b_leg an) false 0) <| m_localSdp := sdp |> ]> |>.

(** The example's route. *)
Definition example_route : Ctl unit Impl :=
  match choose_route (request_msg sip_method_invite "10.10.2.35") example_ctl with Ok (_, s) => s | Fault _ => example_ctl end.

(** ** Lemmas *)


Section Lemmas.
Context {P C : Type} {pool : ServerPool P} {routes : CallRoutes C}.
#[local] Abbreviation St := (Ctl P C).

Lemma returns_gives {A} (m : M St A) Q s : returns m Q s -> gives m Q s.
Proof. unfold returns, gives. by destruct (m s) as [[a s']|]. Qed.

Lemma gives_nta c (Q : unit -> St -> Prop) s : Q tt (s <| m_calls ::= fun l => l ++ [c] |>) -> gives (nta c) Q s.
Proof. done. Qed.

Lemma origination_cdr_gives an p sip carrier (s1 : St) (Q : unit -> St -> Prop) :
  (forall s', cdr_only s1 s' -> Q tt s') -> gives (populateOriginationCdr an p sip carrier) Q s1.
Proof.
  intros HQ. unfold populateOriginationCdr, to_string. run_gives.
  destruct (url_host (m_my_contact s1)); run_gives. by apply returns_gives, change_cdr_only.
Qed.

Lemma termination_cdr_gives an p sip carrier address b1 b2 uuid (s1 : St) (Q : unit -> St -> Prop) :
  (forall s', cdr_only s1 s' -> Q tt s') -> gives (populateTerminationCdr an p sip carrier address b1 b2 uuid) Q s1.
Proof.
  intros HQ. unfold populateTerminationCdr, to_string. run_gives.
  destruct (i_id sip); run_gives. destruct (url_host (m_my_contact s1)); run_gives.
  destruct (url_user (a_url a)); run_gives. by apply returns_gives, change_cdr_only.
Qed.

Lemma fits_gives url (Q : unit -> St -> Prop) s : Q tt s -> gives (fits_url url) Q s.
Proof. intros H. unfold fits_url. by destruct (_ <? _). Qed.

(** The route depends on the configuration only. *)
Lemma choose_route_config sip (s s1 : St) :
  m_Config s1 = m_Config s ->
  match choose_route sip s, choose_route sip s1 with
  | Ok (r, s'), Ok (r', s1') => r = r' /\ m_Config s1' = m_Config s' /\ s1' = s1 <| m_Config := m_Config s1' |>
  | Fault _, Fault _ => True
  | _, _ => False
  end.
Proof.
  intros Hc. unfold choose_route, config, gets, mbind, M_bind, mret, M_ret. rewrite Hc.
  assert (s1 = s1 <| m_Config := m_Config s |>) as E by (rewrite <- Hc; by destruct s1).
  destruct (routes_anonymous (m_Config s)) as [carrier|]; simpl.
  - destruct (isAnonymousCall sip); simpl.
    + rewrite Hc. destruct (routes_for carrier (m_Config s)) as [[[r|] c]|]; [done| |done].
      simpl. by destruct (routes_next c) as [[r c']|].
    + rewrite Hc. by destruct (routes_next (m_Config s)) as [[r c']|].
  - rewrite Hc. by destruct (routes_next (m_Config s)) as [[r c']|].
Qed.

(** The calls made to the stack since [s0] hold no final answer to [irq]. *)
Definition unanswered (s0 : St) (irq : Z) (s : St) : Prop :=
  exists new, m_calls s = m_calls s0 ++ new /\ final_answers irq new = [].

Lemma keeps_unanswered_nta s0 irq c : final_answers irq [c] = [] -> keeps (unanswered s0 irq) (nta c).
Proof.
  intros Hc. apply keeps_modify. intros s (new & E & Hn). exists (new ++ [c]). simpl. rewrite E, app_assoc.
  split; [done|]. unfold final_answers in *. by rewrite omap_app, Hn.
Qed.

Lemma keeps_unanswered_modify s0 irq (f : St -> St) :
  (forall s, m_calls (f s) = m_calls s) -> keeps (unanswered s0 irq) (modify f).
Proof. intros Hf. apply keeps_modify. intros s (new & E & Hn). exists new. by rewrite Hf. Qed.

Lemma keeps_unanswered_config s0 irq {A} (m : M C A) : keeps (unanswered s0 irq) (config m).
Proof.
  intros s a s' (new & E & Hn) H. unfold config in H. destruct (m (m_Config s)) as [[r c]|]; [|done].
  injection H as <- <-. by exists new.
Qed.

Lemma keeps_unanswered_servers s0 irq : keeps (unanswered s0 irq) (getAvailableServers (P := P) (C := C)).
Proof.
  intros s a s' (new & E & Hn) H. unfold getAvailableServers in H. destruct (pool_get (m_fsMonitor s)) as [[r p]|]; [|done].
  injection H as <- <-. by exists new.
Qed.
End Lemmas.

#[export] Hint Resolve keeps_unanswered_config keeps_unanswered_servers : keeps.
#[export] Hint Extern 2 (keeps (unanswered _ _) (nta _)) => apply keeps_unanswered_nta; reflexivity : keeps.
#[export] Hint Extern 1 (keeps (unanswered _ _) (modify _)) => apply keeps_unanswered_modify; done : keeps.

Section Verdicts.
Context {P C : Type} {pool : ServerPool P} {routes : CallRoutes C}.
#[local] Abbreviation St := (Ctl P C).

Lemma outside_unanswered (s0 : St) irq an sip i :
  keeps (unanswered s0 irq) (processRequestOutsideDialog an i sip).
Proof.
  unfold processRequestOutsideDialog, validateSipMessage, determineCallType, reject_call, processOriginationRequest,
    processTerminationRequest, choose_route, populateTerminationCdr, populateOriginationCdr, generateTerminationRequest,
    addTransactions, addDialogs, cdr_at, fits_url, to_string, reject, new_cdr, change_cdr, postCdr.
  keeps_auto.
Qed.

Lemma reject_gives p st cause (s1 : St) (Q : Z -> St -> Prop) :
  (forall s', Q st s') -> gives (reject p st cause) Q s1.
Proof. intros HQ. by apply returns_gives, reject_only. Qed.

Lemma new_cdr_gives c (s1 : St) (Q : Z -> St -> Prop) :
  (forall p s', cdr_only s1 s' -> Q p s') -> gives (new_cdr c) Q s1.
Proof. intros HQ. apply returns_gives, new_only. auto. Qed.

Ltac exec_gives := repeat (progress run_gives || lazymatch goal with
  | |- gives (nta _) _ _ => apply gives_nta
  | |- gives (when _ _) _ _ => unfold when at 1
  | |- gives (fits_url _) _ _ => apply fits_gives
  | |- gives (new_cdr _) _ _ => apply new_cdr_gives; intros ? ? [(? & ? & ->) _]
  | |- gives (populateOriginationCdr _ _ _ _) _ _ => apply origination_cdr_gives; intros ? [(? & ? & ->) _]
  | |- gives (populateTerminationCdr _ _ _ _ _ _ _ _) _ _ => apply termination_cdr_gives; intros ? [(? & ? & ->) _]
  | |- gives (reject _ _ _) _ _ => apply reject_gives; intros ?
  | |- gives (postCdr _) _ _ => apply returns_gives, post_only; intros ? _
  | |- gives (change_cdr _ _) _ _ => apply returns_gives, change_cdr_only; intros ? [(? & ? & ->) _]
  end).

Lemma origination_verdict an irq sip carrier (s : St) :
  gives (processOriginationRequest an irq sip carrier) (fun r _ =>
    r = match pool_get (m_fsMonitor s) with
        | Ok (Some _, _) => if (an_a_leg an =? 0) || (an_b_leg an =? 0) || (an_orq an =? 0) then 503 else 0
        | _ => 486
        end) s.
Proof.
  unfold processOriginationRequest. exec_gives. unfold getAvailableServers at 1, gives at 1. cbn.
  destruct (pool_get (m_fsMonitor s)) as [[[[|server l]|] pl]|]; [by exec_gives| |by exec_gives|done].
  exec_gives. destruct (an_a_leg an =? 0); [by exec_gives|]. exec_gives.
  destruct (an_b_leg an =? 0); [by exec_gives|]. unfold cdr_at, addTransactions, addDialogs. exec_gives.
  destruct (an_orq an =? 0); by exec_gives.
Qed.

Lemma generate_verdict an t (s : St) :
  gives (generateTerminationRequest an t) (fun g _ =>
    match g with Some _ => false | None => true end = (an_b_leg an =? 0) || (an_orq an =? 0)) s.
Proof.
  unfold generateTerminationRequest. exec_gives. destruct (an_b_leg an =? 0); [by exec_gives|]. exec_gives.
  destruct (an_orq an =? 0); by exec_gives.
Qed.

Lemma termination_verdict an irq sip (s s0 : St) :
  m_Config s = m_Config s0 ->
  gives (processTerminationRequest an irq sip) (fun r _ =>
    r = match choose_route sip s0 with
        | Ok (Some _, _) => if (an_b_leg an =? 0) || (an_orq an =? 0) then 503 else 0
        | _ => 480
        end) s.
Proof.
  intros Hc. unfold processTerminationRequest. exec_gives.
  match goal with |- gives _ _ ?s1 => pose proof (choose_route_config sip s0 s1 Hc) as H; unfold gives at 1;
    destruct (choose_route sip s0) as [[r ?]|], (choose_route sip s1) as [[r' s2]|]; try done end.
  destruct H as [<- _]. destruct r as [[[address carrier] charge]|]; [|by exec_gives]. exec_gives.
  eapply gives_mono; [apply generate_verdict|]. intros [[orq b]|] s3 <-; unfold addTransactions, addDialogs; by exec_gives.
Qed.

Lemma call_verdict an irq sip (s : St) :
  sip_request sip = Some sip_method_invite ->
  gives (processRequestOutsideDialog an irq sip) (fun r _ => r = invite_verdict an sip s) s.
Proof.
  intros Hm. unfold processRequestOutsideDialog, validateSipMessage, invite_verdict. rewrite Hm. exec_gives.
  simplify_eq. rewrite bool_decide_eq_true_2 by done.
  destruct (sip_contact sip) as [[? [? [host|] ?] ?]|] eqn:Ec; simpl; try (by exec_gives).
  destruct (i_id sip); simpl; try (by exec_gives).
  destruct (sip_to sip) as [[? [[user|] ? ?] ?]|] eqn:Et; simpl; try (by exec_gives).
  destruct (sip_from sip) as [[? ? [tag|]]|]; simpl; try (by exec_gives).
  exec_gives. change (negb (0 =? 0)) with false. cbv iota. exec_gives. simplify_eq. unfold determineCallType, to_string. rewrite Ec. exec_gives. simplify_eq. cbn [CallControl.url_host CallControl.a_url].
  exec_gives. destruct (routes_getCarrier host (m_Config s)) as [carrier|]; [|destruct (pool_isAppserver host (m_fsMonitor s))];
    exec_gives; cbn [fst snd].
  - lazymatch goal with |- gives (if ?b then _ else _) _ _ =>
      change b with (offline s) end.
    destruct (offline s); [unfold reject_call; by exec_gives|].
    exec_gives. eapply gives_mono; [apply origination_verdict|]. intros r s1 ->. by exec_gives.
  - exec_gives. eapply gives_mono; [by apply (termination_verdict _ _ _ _ s)|]. intros r s1 ->. by exec_gives.
  - unfold reject_call. by exec_gives.
Qed.

(** A complete INVITE is valid, and its type is looked up. *)
Ltac start_invite Hip :=
  let tag := fresh "tag" in let Htag := fresh "Htag" in
  destruct (ip_tag _ _ _ _ _ _ _ Hip) as [tag Htag];
  unfold processRequestOutsideDialog, validateSipMessage, determineCallType, to_string;
  rewrite (ip_request _ _ _ _ _ _ _ Hip), (ip_contact _ _ _ _ _ _ _ Hip); exec;
  rewrite bool_decide_eq_true_2 by done;
  rewrite (ip_to _ _ _ _ _ _ _ Hip), (ip_from _ _ _ _ _ _ _ Hip), (ip_id _ _ _ _ _ _ _ Hip); simpl (Some _ ≫= _);
  rewrite (ip_host _ _ _ _ _ _ _ Hip), (ip_user _ _ _ _ _ _ _ Hip), Htag;
  cbn [andb]; exec; change (negb (0 =? 0)) with false; cbv iota; exec; cbv iota; exec;
  rewrite (ip_host _ _ _ _ _ _ _ Hip); exec.

Lemma outside_origination (s : St) an irq sip contact to from host user id carrier (Q : Z -> St -> Prop) :
  invite_parts sip contact to from host user id -> routes_getCarrier host (m_Config s) = Some carrier ->
  offline s = false ->
  returns (processOriginationRequest an irq sip carrier)
    (fun r s' => Q r (s' <| m_nIterationCount ::= fun n => if 0 <? n then n - 1 else n |>))
    (s <| m_calls ::= fun l => l ++ [incoming_treply irq 100 None None []] |>) ->
  returns (processRequestOutsideDialog an irq sip) Q s.
Proof.
  intros Hip Hcar Hoff HQ. start_invite Hip. rewrite Hcar. exec. cbn [fst snd].
  lazymatch goal with |- returns (if ?b then _ else _) _ _ => change b with (offline s) end. rewrite Hoff. exec.
  eapply returns_mono; [exact HQ|]. intros r s1 H. by exec.
Qed.

(** Handles that are not in use are in no table. *)
Lemma fresh_absent (s : St) an :
  tables_ok (known s) (tables_of s) -> fresh_leg s (an_a_leg an) -> fresh_leg s (an_b_leg an) -> fresh_orq s (an_orq an) ->
  an_a_leg an <> 0 -> an_b_leg an <> 0 -> an_orq an <> 0 ->
  an_a_leg an ∉ map fst (m_dialogs s) /\ an_b_leg an ∉ map snd (m_dialogs s) /\
  an_orq an ∉ map snd (m_transactions s) /\ m_mapDialogInfo s !! an_a_leg an = None /\
  m_mapDialogInfo s !! an_b_leg an = None /\ m_mapTerminationAttempts s !! an_orq an = None.
Proof.
  intros Hok [?|Ha] [?|Hb] [?|Ho]; try done. intros _ _ _.
  pose proof (no_leg_no_info _ _ Hok _ Ha) as H1. pose proof (no_leg_no_info _ _ Hok _ Hb) as H2.
  pose proof (no_orq_no_attempt _ _ Hok _ Ho) as H3. simpl in H1, H2, H3. rewrite lookup_fmap in H1, H2. rewrite lookup_fmap in H3.
  pose proof (no_orq_no_trans _ _ Hok _ Ho) as H4.
  pose proof (ok_legs _ _ Hok (an_a_leg an)) as H5. pose proof (ok_legs _ _ Hok (an_b_leg an)) as H6. simpl in *.
  split; [tauto|]. split; [tauto|]. split; [done|]. destruct (m_mapDialogInfo s !! an_a_leg an); [done|].
  destruct (m_mapDialogInfo s !! an_b_leg an); [done|]. by destruct (m_mapTerminationAttempts s !! an_orq an).
Qed.

Lemma origination_accepted (s s0 : St) an irq sip contact to from host user id carrier server l p' :
  invite_parts sip contact to from host user id -> tables_ok (known s) (tables_of s) ->
  fresh_irq s irq -> fresh_leg s (an_a_leg an) -> fresh_leg s (an_b_leg an) -> fresh_orq s (an_orq an) ->
  fits_user (sip_to sip) -> is_Some (url_host (m_my_contact s)) ->
  pool_get (m_fsMonitor s) = Ok (Some (server :: l), p') ->
  length_ (m_strSipAddress server +:+ ":" +:+ dec (m_nSipPort server)) <= ADDRESS_MAX ->
  an_a_leg an <> 0 -> an_b_leg an <> 0 -> an_orq an <> 0 ->
  s0 = s <| m_calls ::= fun l => l ++ [incoming_treply irq 100 None None []] |> ->
  returns (processOriginationRequest an irq sip carrier) (fun r s' => r = 0 /\
    exists c, origination_cdr s an server carrier host user id c /\
      s' = origination_set_up an irq sip contact to from host user carrier server p' c s) s0.
Proof.
  intros [Hm Hc Hh Ht Hu Hf [tag Htag] Hid] Hok [_ Hi] Hfa Hfb Hfo (to' & Eto & Hfit) [own Hown] Epool Hlen Ha Hb Ho ->.
  assert (to' = to) as -> by congruence.
  destruct (fresh_absent s an Hok Hfa Hfb Hfo Ha Hb Ho) as (Hna & Hnb & Hno & Hni & _).
  unfold processOriginationRequest, populateOriginationCdr, new_cdr, to_string, change_cdr. exec. rewrite Hc, Ht, Hf. exec.
  simpl (m_my_contact _). rewrite Hown. exec. unfold getAvailableServers at 1, returns at 1. simpl (m_fsMonitor _).
  rewrite Epool. exec. rewrite Hu. apply fits_returns; [by apply invite_url_length; [rewrite <- Hu|]|]. exec.
  rewrite ?(proj2 (Z.eqb_neq _ _)) by done. exec. rewrite ?(proj2 (Z.eqb_neq _ _)) by done. exec.
  unfold cdr_at. exec. simpl (m_cdrs _). simpl (store _). rewrite lookup_alter_eq, lookup_insert_eq. simpl (_ <$> Some _). exec.
  rewrite ?(proj2 (Z.eqb_neq _ _)) by done. unfold addTransactions, addDialogs, postCdr. exec.
  simpl (m_cdrWriter _). destruct s as [cfg mon w cdrs n it re own' ag tr di at' info st calls]. simpl in *.
  destruct (url_user (a_url from)), w; exec; (split; [done|]); eexists.
  all: split; cycle 1; [unfold origination_set_up, record_posted; simpl;
    rewrite bimap_insert_fresh, bimap_insert_fresh by done; unfold map_add; rewrite Hni;
    rewrite Hid, Hh, ?lookup_alter_eq, ?lookup_insert_eq, !alter_insert_eq, <- !app_assoc, ?app_nil_r, ?app_str_nil_r; f_equal; reflexivity|].
  all: by rewrite ?Hown.
Qed.

Lemma outside_termination (s : St) an irq sip contact to from host user id (Q : Z -> St -> Prop) :
  invite_parts sip contact to from host user id -> routes_getCarrier host (m_Config s) = None ->
  pool_isAppserver host (m_fsMonitor s) = true ->
  returns (processTerminationRequest an irq sip)
    (fun r s' => Q r (s' <| m_nIterationCount ::= fun n => if 0 <? n then n - 1 else n |>))
    (s <| m_calls ::= fun l => l ++ [incoming_treply irq 100 None None []] |>) ->
  returns (processRequestOutsideDialog an irq sip) Q s.
Proof.
  intros Hip Hcar Hsrv HQ. start_invite Hip. rewrite Hcar. exec. simpl (m_fsMonitor _). rewrite Hsrv. cbn [fst snd]. exec.
  eapply returns_mono; [exact HQ|]. intros r s1 H. by exec.
Qed.

Lemma termination_accepted (s s0 : St) an irq sip contact to from host user id address carrier charge sr sdp :
  invite_parts sip contact to from host user id -> tables_ok (known s) (tables_of s) ->
  fresh_irq s irq -> fresh_leg s (an_a_leg an) -> fresh_leg s (an_b_leg an) -> fresh_orq s (an_orq an) ->
  fits_user (sip_to sip) -> is_Some (url_host (m_my_contact s)) -> sip_payload sip = Some sdp ->
  choose_route sip s = Ok (Some (address, carrier, charge), sr) -> length_ address <= ADDRESS_MAX ->
  an_a_leg an <> 0 -> an_b_leg an <> 0 -> an_orq an <> 0 ->
  s0 = s <| m_calls ::= fun l => l ++ [incoming_treply irq 100 None None []] |> ->
  returns (processTerminationRequest an irq sip) (fun r s' => r = 0 /\
    exists c, termination_cdr s an sip address carrier user id c /\
      s' = termination_set_up an irq sip (first_attempt s sip contact to from user address carrier charge)
             (m_Config sr) sdp c s) s0.
Proof.
  intros [Hm Hc Hh Ht Hu Hf [tag Htag] Hid] Hok [_ Hi] Hfa Hfb Hfo (to' & Eto & Hfit) [own Hown] Hsdp Er Hlen Ha Hb Ho ->.
  assert (to' = to) as -> by congruence.
  destruct (fresh_absent s an Hok Hfa Hfb Hfo Ha Hb Ho) as (Hna & Hnb & Hno & _ & Hni & Hat).
  unfold processTerminationRequest, new_cdr. exec.
  match goal with |- returns _ _ ?s1 => pose proof (choose_route_config sip s s1 eq_refl) as H; rewrite Er in H;
    destruct (choose_route sip s1) as [[r s2]|] eqn:E2; [|done]; destruct H as (<- & Hcfg & Hs2) end.
  unfold returns at 1. rewrite E2. rewrite Hs2, Hcfg. clear E2 s2 Hcfg Hs2.
  unfold populateTerminationCdr, to_string, change_cdr. rewrite Hid. exec. simpl (m_my_contact _). rewrite Hown. exec.
  rewrite Ht, Hf, Hc. exec. rewrite Hu. exec.
  apply fits_returns; [by apply invite_url_length|]. exec. rewrite Hu.
  apply (generate_exact an _ (m_nextCdr s)); [done|done|by apply invite_url_length; [rewrite <- Hu|]|done|].
  unfold addTransactions, addDialogs. exec. rewrite Hsdp. exec. split; [done|].
  destruct s as [cfg mon w cdrs n it re own' ag tr di at' info st calls]. simpl in *.
  eexists. split; cycle 1.
  - unfold termination_set_up, generated, attempt_counted. simpl.
    rewrite bimap_insert_fresh, bimap_insert_fresh by done. unfold map_add. rewrite Hni, Hat, !alter_insert_eq, <- !app_assoc, ?Hsdp.
    f_equal.
  - unfold termination_cdr. simpl. rewrite Hown. by destruct (negb (empty_ (default _ (findCustomHeaderValue sip X_AVOKE_CALL_ID)))),
      (negb (empty_ (default _ (findCustomHeaderValue sip X_AVOKE_BROWSER)))).
Qed.

Lemma unanswered_refl (s : St) irq : unanswered s irq s.
Proof. exists []. by rewrite app_nil_r. Qed.
End Verdicts.

(** ** Properties *)






(** C7: Setting up a call to a carrier.  A complete INVITE from an application
    server, with a route and every handle made, is answered with 100 only; exactly
    one INVITE goes out, to the trunk of the route, with the caller's body, and
    the charge number if the carrier has one; the attempt and the caller's session
    description are kept with the call; the attempt is counted for the
    trunk; the record, which is not posted yet, holds the carrier, the trunk and both Call-IDs;
    and nothing else changes. *)
Theorem termination_call {P C} {pool : ServerPool P} {routes : CallRoutes C} (s : Ctl P C) (an : answers) (irq : Z)
    (sip : sip_t) (contact to from : addr_t) (host user id address carrier charge sdp : string) (sr : Ctl P C) :
  ctl_ok s -> outside_ok s an irq sip -> invite_parts sip contact to from host user id ->
  routes_getCarrier host (m_Config s) = None -> pool_isAppserver host (m_fsMonitor s) = true ->
  choose_route sip s = Ok (Some (address, carrier, charge), sr) -> sip_payload sip = Some sdp ->
  an_b_leg an <> 0 -> an_orq an <> 0 ->
  exists c, termination_cdr s an sip address carrier user id c /\
    handle (EOutside an irq sip) s =
      Ok (0, (termination_set_up an irq sip (first_attempt s sip contact to from user address carrier charge)
                (m_Config sr) sdp c s)
               <| m_nIterationCount ::= fun n => if 0 <? n then n - 1 else n |>).
Proof.
  intros [Henv Hok] [Hirq He] Hip Hcar Hsrv Er Hsdp Hb Ho. rewrite (ip_request _ _ _ _ _ _ _ Hip) in He.
  destruct He as (_ & Hfit & Hfa & Hfb & Hfo & _ & Hterm). destruct Henv as (_ & _ & Hr & Hhost).
  assert (an_a_leg an <> 0) as Ha.
  { apply (Hterm EmptyString s). unfold determineCallType, mbind, M_bind, to_string.
    rewrite (ip_contact _ _ _ _ _ _ _ Hip). simpl. rewrite (ip_host _ _ _ _ _ _ _ Hip). simpl. by rewrite Hcar, Hsrv. }
  assert (length_ address <= ADDRESS_MAX) as Hlen.
  { pose proof (choose_route_returns sip s
      (fun r _ => match r with Some (address, _, _) => length_ address <= ADDRESS_MAX | None => True end) Hr
      (fun r c H => H)) as H. unfold returns in H. by rewrite Er in H. }
  pose proof (outside_termination s an irq sip contact to from host user id
    (fun r s' => r = 0 /\ exists c, termination_cdr s an sip address carrier user id c /\
       s' = (termination_set_up an irq sip (first_attempt s sip contact to from user address carrier charge)
               (m_Config sr) sdp c s)
               <| m_nIterationCount ::= fun n => if 0 <? n then n - 1 else n |>) Hip Hcar Hsrv) as H.
  apply returns_elim in H as (r & s' & E & -> & c & Hc & ->).
  - exists c. split; [done|]. cbn [handle]. unfold respond, mbind, M_bind. by rewrite E.
  - eapply returns_mono.
    { apply (termination_accepted s _ an irq sip contact to from host user id address carrier charge sr sdp); try assumption. reflexivity. }
    intros r s' (-> & c & Hc & ->). split; [done|]. by exists c.
Qed.

Lemma termination_call_witness :
  exists c, termination_cdr example_ctl (example_answers 1 0 0) (request_msg sip_method_invite "10.10.2.35")
      "172.21.3.96" "level3" "8005551234" "id1@carrier" c /\
    handle (EOutside (example_answers 1 0 0) 50 (request_msg sip_method_invite "10.10.2.35")) example_ctl =
      Ok (0, (termination_set_up (example_answers 1 0 0) 50 (request_msg sip_method_invite "10.10.2.35")
               (first_attempt example_ctl (request_msg sip_method_invite "10.10.2.35") (example_addr "gw" "10.10.2.35" None)
                  (example_addr "8005551234" "ssp" None) (example_addr "6175550000" "carrier" (Some "t1")) "8005551234"
                  "172.21.3.96" "level3" "")
               (m_Config example_route) "v=0" c example_ctl)
               <| m_nIterationCount ::= fun n => if 0 <? n then n - 1 else n |>).
Proof.
  apply (termination_call example_ctl (example_answers 1 0 0) 50 (request_msg sip_method_invite "10.10.2.35")
    (example_addr "gw" "10.10.2.35" None) (example_addr "8005551234" "ssp" None)
    (example_addr "6175550000" "carrier" (Some "t1")) "10.10.2.35").
  - apply example_ctl_ok.
  - apply example_invite_ok.
  - split; try reflexivity. by eexists.
  - vm_compute. reflexivity.
  - reflexivity.
  - vm_compute. reflexivity.
  - reflexivity.
  - done.
  - done.
Defined.
