(* ===== verification/CallResponses.v ===== *)
(** * CallResponses: the answers to a call's INVITE

    What the handler of a response does, for a call to a carrier and for a call to
    an application server: a failed trunk is replaced by another carrier's, a redirection is
    followed, an acceptance and a final failure are passed back. *)

From S2P Require Import Prelude Text Sip Bimap Ssp FsInstance FsMonitor Routing SspConfig Routes.
From S2P Require Import Cdr CdrWriter TrunkStats CallControl CallTables CallSafety CallRuns CallEffects CallSetup.

(** ** Specifications *)

Section Specifications.
Context {P C : Type} {pool : ServerPool P} {routes : CallRoutes C}.
#[local] Abbreviation St := (Ctl P C).

(** The INVITE [orq], on leg [b], is outstanding for the INVITE [irq], on leg [a]. *)
Record call_in_progress (s : St) (irq orq a b : Z) : Prop := {
  cp_trans : (irq, orq) ∈ m_transactions s;
  cp_dialog : (a, b) ∈ m_dialogs s;
  cp_orq : orqs (stack_of (m_calls s)) !! orq = Some (b, response_to_invite, sip_method_invite);
  cp_irq : irqs (stack_of (m_calls s)) !! irq = Some a
}.

(** A failure of a trunk in the statistics. *)
Definition failure_counted (t : TerminationAttempt) (status : Z) (stats : gmap string TrunkStats) : gmap string TrunkStats :=
  match stats !! m_sipTrunk t with
  | Some tr => match incrementFailureCount status tr with Ok tr => <[ m_sipTrunk t := tr ]> stats | Fault _ => stats end
  | None => stats
  end.

(** The rest of the handler, with the record [p] of the call. *)
Definition respond_to_invite (an : answers) (irq orq a b p status : Z) (dialog : option SipDialogInfo)
    (termination : option TerminationAttempt) (sip : sip_t) : M St Z :=
  let final := 200 <=? status in
  timer ← (if status =? 200 then invite_accepted an b a dialog sip else mret None);
  cranked ← (if final && negb (status =? 200) then crank an irq orq b p status sip else mret false);
  let proxied := negb (100 =? status) && negb cranked in
  finish_response proxied (final && negb cranked) (final && negb (status =? 200) && negb cranked)
    irq orq b status timer sip;;
  match termination with
  | None => when final (post_copy p (fun c =>
      populateFinalResponseCdr (an_now an) status (setCdrType origination_final_response c)))
  | Some _ => when (final && proxied) (post_copy p (fun c =>
      setCdrType termination_attempt (populateFinalResponseCdr (an_now an) status c)))
  end;;
  mret 0.

(** The URI of a Contact header, in text. *)
Definition contact_uri (u : url_t) : string :=
  stream ([Some "sip:"; url_user u; Some "@"; url_host u] ++
          match url_port u with Some p => [Some ":"; Some p] | None => [] end).

(** The next carrier's trunk takes the place of the failed one in the attempt
    and in the record; a copy of the record, with the failure, is posted. *)
Definition next_trunk (to : addr_t) (address carrier charge : string) : TerminationAttempt -> TerminationAttempt :=
  crankback (invite_url (url_user (a_url to)) address) carrier address (charge_header charge address).
Definition carrier_changed (an : answers) (orq p status : Z) (t : TerminationAttempt) (to : addr_t) (c : CdrInfo)
    (address carrier charge : string) (cfg : C) (s : St) : St :=
  (record_posted (setCdrType termination_attempt (populateFinalResponseCdr (an_now an) status c))
     (s <| m_mapTrunkStats ::= failure_counted t status |> <| m_Config := cfg |>))
    <| m_mapTerminationAttempts ::= alter (next_trunk to address carrier charge) orq |>
    <| m_cdrs ::= queue_step (QChange p (fun c => setTerminatingCarrierAddress address (setTerminatingCarrier carrier c))) |>.

(** A response is passed back to the caller; a final one ends the attempt. *)
Definition trunk_headers (t : option TerminationAttempt) : list string :=
  match t with
  | Some t => ["X-Terminating-Carrier: " +:+ m_carrier t; "X-Terminating-Carrier-IP: " +:+ m_sipTrunk t]
  | None => []
  end.
Definition passed_back (irq orq status : Z) (timer : option string) (sip : sip_t) (s : St) : St :=
  s <| m_calls ::= fun l => l ++ [incoming_treply irq status (sip_payload sip)
         (match timer with Some v => Some v | None => dec <$> sip_session_expires sip end)
         (if 200 <=? status then trunk_headers (m_mapTerminationAttempts s !! orq) else [])] |>
    <| m_mapTerminationAttempts ::= fun m => if 200 <=? status then delete orq m else m |>.

(** The attempts left for another carrier. *)
Definition attempts_left (s : St) (t : TerminationAttempt) : Prop :=
  m_nAttemptCount t < wrap32 (m_nTerminationRetries s - 1).

(** A trunk's failure ends the call, leaving the configuration [cfg]: it is none of those that
    are tried again, or no attempts are left, or there is no other route. *)
Definition given_up (s : St) (t : TerminationAttempt) (status : Z) (cfg : C) : Prop :=
  (status < 300 \/ 399 < status) /\
  (status <> 503 /\ status <> 480 /\ cfg = m_Config s \/ ~ attempts_left s t /\ cfg = m_Config s \/
   (status = 503 \/ status = 480) /\ attempts_left s t /\ routes_alt (m_carrier t) (m_Config s) = Ok (None, cfg)).

(** The call that [orq] was for has failed for good; [p] is its record. *)
Definition fails (s : St) (orq a p status : Z) (cfg : C) : Prop :=
  match m_mapTerminationAttempts s !! orq with
  | Some t => m_pCdr t = Some p /\ given_up s t status cfg
  | None => (exists d, m_mapDialogInfo s !! a = Some d /\ di_pCdr d = Some p) /\ cfg = m_Config s
  end.
Definition final_cdr (an : answers) (status : Z) (t : option TerminationAttempt) (c : CdrInfo) : CdrInfo :=
  match t with
  | Some _ => setCdrType termination_attempt (populateFinalResponseCdr (an_now an) status c)
  | None => populateFinalResponseCdr (an_now an) status (setCdrType origination_final_response c)
  end.
Definition stats_after (t : option TerminationAttempt) (status : Z) (stats : gmap string TrunkStats) : gmap string TrunkStats :=
  match t with Some t => if 400 <=? status then failure_counted t status stats else stats | None => stats end.

(** The session timer of an answered origination, the value it is announced
    with, and the information on the dialog after the answer. *)
Definition timer_started (an : answers) (d : SipDialogInfo) : bool :=
  (0 <? getSessionTimerSecs d) && negb (an_timer an =? 0).
Definition session_value (an : answers) (d : SipDialogInfo) : option string :=
  if 0 <? getSessionTimerSecs d
  then Some (if an_timer an =? 0 then EmptyString else dec (getSessionTimerSecs d)) else None.
Definition answered_info (an : answers) (sdp : string) (d : SipDialogInfo) : SipDialogInfo :=
  if timer_started an d then d <| m_localSdp := sdp |> <| m_timerSessionRefresh := an_timer an |>
  else d <| m_localSdp := sdp |>.

(** What the stack is told when an INVITE has been answered, up to the response. *)
Definition answer_calls (an : answers) (a b : Z) (contact to : addr_t) (dialog : option SipDialogInfo) : list nta_call :=
  [leg_rtag b (a_tag to); leg_client_reroute b;
   outgoing_tcreate (an_ack an) b sip_method_ack (ToContact (a_url contact)) None EmptyString None [];
   outgoing_destroy (an_ack an)] ++
  match dialog with
  | Some d => if timer_started an d then [timer_set (an_timer an) a (wrap32 (getSessionTimerSecs d * 1000))] else []
  | None => []
  end.
Definition answered (an : answers) (a b : Z) (contact to : addr_t) (sdp : string) (dialog : option SipDialogInfo) (s : St) : St :=
  s <| m_calls ::= fun l => l ++ answer_calls an a b contact to dialog |>
    <| m_mapDialogInfo ::= match dialog with Some _ => alter (answered_info an sdp) a | None => id end |>.

(** The call that [orq] is for has been answered; [p] is its record and
    [dialog] the information on its dialog, if it is an origination. *)
Definition call_record (s : St) (orq a p : Z) (dialog : option SipDialogInfo) : Prop :=
  match m_mapTerminationAttempts s !! orq with
  | Some t => m_pCdr t = Some p /\ dialog = None
  | None => exists d, dialog = Some d /\ m_mapDialogInfo s !! a = Some d /\ di_pCdr d = Some p
  end.
End Specifications.

(** ** Lemmas *)

Section Lemmas.
Context {P C : Type} {pool : ServerPool P} {routes : CallRoutes C}.
#[local] Abbreviation St := (Ctl P C).

Lemma in_progress_parts (s : St) an orq sip irq a b :
  ctl_ok s -> invite_response_ok s an orq sip -> call_in_progress s irq orq a b ->
  an_out_leg an = b /\ an_irq_leg an = a /\ irq <> 0 /\ a <> 0 /\ b <> 0 /\ a <> b /\ sides_ok (m_dialogs s) /\
  bimap_ok (m_transactions s).
Proof.
  intros [_ Hok] (l & m & status & Ho & Hout & Hleg & _) [Htr Hd Horq Hirq].
  rewrite Horq in Ho. injection Ho as <- <-.
  destruct (ok_handles _ _ Hok _ _ Htr) as [Hi0 _]. destruct (dialog_legs _ _ Hok a b Hd) as (Hla & Hlb & Hab).
  destruct (ok_sides _ _ Hok a b a b Hd Hd) as (_ & Ha0 & Hb0). rewrite (lookup_leg_live _ b Hlb) in Hout.
  rewrite (Hleg irq Htr). unfold leg_of_irq. rewrite Hirq, (lookup_leg_live _ a Hla).
  split; [done|]. split; [done|]. do 4 (split; [done|]). split; [by eapply tables_sides|apply Hok].
Qed.

Lemma count_failure_exact t status (s : St) (Q : unit -> St -> Prop) :
  0 <= status < 700 -> Q tt (s <| m_mapTrunkStats ::= failure_counted t status |>) -> returns (count_failure t status) Q s.
Proof.
  intros Hst HQ. unfold count_failure, incrementFailureCount, MAX_STATUS. exec. destruct (Z.ltb_spec status 700) as [|?]; [|lia].
  destruct (m_mapTrunkStats s !! m_sipTrunk t) as [x|] eqn:Ex; simpl; exec; same_state HQ; unfold failure_counted;
    destruct s as [cfg mon w cdrs nc it re own ag tr di at' info st calls]; simpl in *; rewrite Ex; [|done].
  unfold incrementFailureCount, MAX_STATUS. by destruct (Z.ltb_spec status 700); [|lia].
Qed.

(** The response of a trunk: a failure is counted, and the rest of the handler runs. *)
Lemma termination_response (s : St) an orq sip irq a b t p status (Q : Z -> St -> Prop) :
  ctl_ok s -> invite_response_ok s an orq sip -> call_in_progress s irq orq a b ->
  m_mapTerminationAttempts s !! orq = Some t -> m_pCdr t = Some p -> sip_status sip = Some status -> 100 <= status < 700 ->
  returns (respond_to_invite an irq orq a b p status None (Some t) sip) Q
    (if 400 <=? status then s <| m_mapTrunkStats ::= failure_counted t status |> else s) ->
  returns (processInviteResponseInsideDialog an orq sip) Q s.
Proof.
  intros Hctl He Hcp Ht Htp Hst Hr HQ.
  destruct (in_progress_parts _ _ _ _ _ _ _ Hctl He Hcp) as (Hout & Hleg & Hi & Ha & Hb & _ & _ & Htok).
  unfold processInviteResponseInsideDialog, getAssociatedTransaction_orq. exec.
  rewrite (proj2 (right_find_Some _ irq orq Htok) (cp_trans _ _ _ _ _ Hcp)). exec.
  rewrite Hout, Hleg. destruct (Z.eqb_spec irq 0); [done|]. exec. destruct (Z.eqb_spec b 0); [done|]. exec.
  destruct (Z.eqb_spec a 0); [done|]. exec. rewrite Hst. exec. unfold record_of_call. exec. rewrite Ht, Htp. exec.
  destruct (Z.leb_spec 400 status); cbn [andb].
  - destruct (Z.leb_spec status 700); [|lia]. exec. apply count_failure_exact; [lia|]. exec. by apply returns_unbind in HQ.
  - exec. by apply returns_unbind in HQ.
Qed.

(** The response of an application server. *)
Lemma origination_response (s : St) an orq sip irq a b d p status (Q : Z -> St -> Prop) :
  ctl_ok s -> invite_response_ok s an orq sip -> call_in_progress s irq orq a b ->
  m_mapTerminationAttempts s !! orq = None -> m_mapDialogInfo s !! a = Some d -> di_pCdr d = Some p ->
  sip_status sip = Some status ->
  returns (respond_to_invite an irq orq a b p status (Some d) None sip) Q s ->
  returns (processInviteResponseInsideDialog an orq sip) Q s.
Proof.
  intros Hctl He Hcp Ht Hi Hp Hst HQ.
  destruct (in_progress_parts _ _ _ _ _ _ _ Hctl He Hcp) as (Hout & Hleg & Hi0 & Ha & Hb & _ & _ & Htok).
  unfold processInviteResponseInsideDialog, getAssociatedTransaction_orq. exec.
  rewrite (proj2 (right_find_Some _ irq orq Htok) (cp_trans _ _ _ _ _ Hcp)). exec.
  rewrite Hout, Hleg. destruct (Z.eqb_spec irq 0); [done|]. exec. destruct (Z.eqb_spec b 0); [done|]. exec.
  destruct (Z.eqb_spec a 0); [done|]. exec. rewrite Hst. exec. unfold record_of_call. exec. rewrite Ht, Hi, Hp. exec.
  by apply returns_unbind in HQ.
Qed.

Lemma carrier_retry (s : St) an orq sip irq a b t p d c to status address carrier charge cfg (Q : Z -> St -> Prop) :
  ctl_ok s -> invite_response_ok s an orq sip -> call_in_progress s irq orq a b ->
  m_mapTerminationAttempts s !! orq = Some t -> m_pCdr t = Some p -> store (m_cdrs s) !! p = Some c ->
  m_mapDialogInfo s !! b = Some d -> sip_status sip = Some status -> status = 503 \/ status = 480 ->
  sip_to sip = Some to -> attempts_left s t ->
  routes_alt (m_carrier t) (m_Config s) = Ok (Some (address, carrier, charge), cfg) ->
  an_b_leg an <> 0 -> an_orq an <> 0 ->
  Q 0 (retried an (next_trunk to address carrier charge t) p d irq orq a b
         (carrier_changed an orq p status t to c address carrier charge cfg s)) ->
  returns (processInviteResponseInsideDialog an orq sip) Q s.
Proof.
  intros Hctl He Hcp Ht Htp Hc Hd Hst Hstatus Hto Hleft Halt Hb Ho HQ.
  pose proof He as (l & m & status' & _ & _ & _ & Hst' & Hrange & Hfb & Hfo & _ & _ & _ & H5 & _).
  rewrite Hst in Hst'. injection Hst' as <-. destruct (H5 Hstatus) as (to' & Hto' & Hfit). rewrite Hto in Hto'. injection Hto' as <-.
  pose proof Hctl as [(_ & _ & Hr & _) Hok].
  destruct (routes_alt_ok (m_carrier t) _ Hr) as (r & cfg' & E & _ & Hlen). rewrite Halt in E. injection E as <- <-.
  eapply (termination_response s an orq sip irq a b t p status); try done.
  assert ((400 <=? status) = true) as -> by (apply Z.leb_le; lia).
  unfold respond_to_invite. assert ((status =? 200) = false) as -> by (apply Z.eqb_neq; lia).
  assert ((200 <=? status) = true) as -> by (apply Z.leb_le; lia). cbn [negb andb]. exec.
  unfold crank. exec. simpl (m_mapTerminationAttempts _). rewrite Ht.
  assert ((300 <=? status) && (status <=? 399) = false) as ->.
  { apply andb_false_iff. right. apply Z.leb_gt. lia. }
  assert ((503 =? status) || (480 =? status) = true) as ->.
  { apply orb_true_iff. destruct Hstatus as [->| ->]; [by left|by right]. }
  unfold next_carrier. exec. simpl (m_nTerminationRetries _). unfold attempts_left in Hleft.
  destruct (Z.ltb_spec (m_nAttemptCount t) (wrap32 (m_nTerminationRetries s - 1))); [|lia]. exec.
  unfold returns at 1, config. simpl (m_Config _). rewrite Halt. exec.
  apply (post_copy_exact p _ c); [done|]. rewrite Hto. unfold change_attempt, change_cdr. exec.
  fold (next_trunk to address carrier charge).
  match goal with |- returns _ _ ?s5 => assert (s5 = carrier_changed an orq p status t to c address carrier charge cfg s) as -> by reflexivity end.
  assert (tables_of (carrier_changed an orq p status t to c address carrier charge cfg s) = tables_of s) as Etab.
  { unfold carrier_changed, record_posted, tables_of. simpl. by rewrite fmap_alter_same. }
  destruct Hcp as [Htr Hdg Horq Hirq].
  apply (retry_exact an (next_trunk to address carrier charge t) p d irq orq a b _ (known s)); try done.
  - by rewrite Etab.
  - simpl. by rewrite lookup_alter_eq, Ht.
  - by apply invite_url_length.
  - unfold finish_response. cbn [negb]. rewrite andb_false_r. by exec.
Qed.

(** A redirection is followed. *)
Lemma redirect_retry (s : St) an orq sip irq a b t p d contact status (Q : Z -> St -> Prop) :
  ctl_ok s -> invite_response_ok s an orq sip -> call_in_progress s irq orq a b ->
  m_mapTerminationAttempts s !! orq = Some t -> m_pCdr t = Some p ->
  m_mapDialogInfo s !! b = Some d -> sip_status sip = Some status -> 300 <= status <= 399 ->
  sip_contact sip = Some contact -> an_b_leg an <> 0 -> an_orq an <> 0 ->
  Q 0 (retried an (crankback_url (contact_uri (a_url contact)) t) p d irq orq a b
         (s <| m_mapTerminationAttempts ::= alter (crankback_url (contact_uri (a_url contact))) orq |>)) ->
  returns (processInviteResponseInsideDialog an orq sip) Q s.
Proof.
  intros Hctl He Hcp Ht Htp Hd Hst Hstatus Hcontact Hb Ho HQ.
  pose proof He as (l & m & status' & _ & _ & _ & Hst' & Hrange & Hfb & Hfo & _ & _ & H3 & _).
  rewrite Hst in Hst'. injection Hst' as <-. destruct (H3 Hstatus) as (c' & Hc' & Hfit). rewrite Hcontact in Hc'. injection Hc' as <-.
  pose proof Hctl as [_ Hok].
  eapply (termination_response s an orq sip irq a b t p status); try done.
  assert ((400 <=? status) = false) as -> by (apply Z.leb_gt; lia).
  unfold respond_to_invite. assert ((status =? 200) = false) as -> by (apply Z.eqb_neq; lia).
  assert ((200 <=? status) = true) as -> by (apply Z.leb_le; lia). cbn [negb andb]. exec.
  unfold crank. exec. rewrite Ht.
  assert ((300 <=? status) && (status <=? 399) = true) as -> by (apply andb_true_iff; split; apply Z.leb_le; lia).
  unfold redirect. rewrite Hcontact. unfold change_attempt. exec. fold (contact_uri (a_url contact)).
  destruct Hcp as [Htr Hdg Horq Hirq].
  match goal with |- returns _ _ ?s5 => assert (tables_of s5 = tables_of s) as Etab end.
  { unfold tables_of. simpl. by rewrite fmap_alter_same. }
  apply (retry_exact an (crankback_url (contact_uri (a_url contact)) t) p d irq orq a b _ (known s)); try done.
  - by rewrite Etab.
  - simpl. by rewrite lookup_alter_eq, Ht.
  - by apply stream_length.
  - unfold finish_response. cbn [negb]. rewrite andb_false_r. by exec.
Qed.

Lemma proxy_exact irq orq status timer sip (s : St) (Q : unit -> St -> Prop) :
  Q tt (passed_back irq orq status timer sip s) -> returns (proxy_response irq orq status timer sip) Q s.
Proof.
  intros HQ. unfold proxy_response. exec.
  destruct (200 <=? status) eqn:Es; [destruct (m_mapTerminationAttempts s !! orq) as [t|] eqn:Et|]; exec; same_state HQ;
    unfold passed_back; rewrite Es; destruct s as [cfg mon w cdrs nc it re own ag tr di at' info st calls]; simpl in *;
    rewrite ?Et; [done| |done]. by rewrite delete_id.
Qed.

(** The end of a call that has failed. *)
Definition call_failed (irq orq a b status : Z) (sip : sip_t) (c : CdrInfo) (s : St) : St :=
  record_posted c (dialog_over b a (request_over irq orq (passed_back irq orq status None sip s))).

Lemma failure_finish (s : St) irq orq a b p status sip f c (Q : Z -> St -> Prop) :
  bimap_ok (m_transactions s) -> (irq, orq) ∈ m_transactions s -> sides_ok (m_dialogs s) -> (a, b) ∈ m_dialogs s ->
  store (m_cdrs s) !! p = Some c ->
  Q 0 (call_failed irq orq a b status sip (f c) s) ->
  returns (finish_response true true true irq orq b status None sip;; post_copy p f;; mret 0) Q s.
Proof.
  intros Htok Htr Hs Hd Hc HQ. unfold finish_response. exec. apply proxy_exact. exec.
  apply (clearTransaction_exact irq); [done|done|]. exec.
  apply (clearDialog_exact b a a b); [done|done|by right|]. exec. by apply (post_copy_exact p f c).
Qed.

Lemma given_up_crank (s : St) an irq orq b p status sip t cfg (Q : bool -> St -> Prop) :
  m_mapTerminationAttempts s !! orq = Some t -> given_up s t status cfg ->
  Q false (s <| m_Config := cfg |>) -> returns (crank an irq orq b p status sip) Q s.
Proof.
  intros Ht [H3 Hg] HQ. assert (s <| m_Config := m_Config s |> = s) as Es by (by destruct s).
  unfold crank. exec. rewrite Ht.
  assert ((300 <=? status) && (status <=? 399) = false) as -> by (apply andb_false_iff; rewrite !Z.leb_gt; lia).
  destruct Hg as [(H1 & H2 & ->)|[[Hno ->]|(Hst & Hleft & Halt)]]; rewrite ?Es in HQ.
  - destruct (Z.eqb_spec 503 status); [lia|]. destruct (Z.eqb_spec 480 status); [lia|]. by exec.
  - destruct ((503 =? status) || (480 =? status)); [|by exec]. unfold next_carrier. exec.
    unfold attempts_left in Hno. destruct (Z.ltb_spec (m_nAttemptCount t) (wrap32 (m_nTerminationRetries s - 1))); [done|by exec].
  - assert ((503 =? status) || (480 =? status) = true) as ->.
    { apply orb_true_iff. destruct Hst as [->| ->]; [by left|by right]. }
    unfold next_carrier, attempts_left in *. exec. destruct (Z.ltb_spec (m_nAttemptCount t) (wrap32 (m_nTerminationRetries s - 1))); [|lia].
    exec. unfold returns at 1, config. rewrite Halt. by exec.
Qed.

Lemma failed_call (s : St) an orq sip irq a b p c status cfg (Q : Z -> St -> Prop) :
  ctl_ok s -> invite_response_ok s an orq sip -> call_in_progress s irq orq a b -> fails s orq a p status cfg ->
  store (m_cdrs s) !! p = Some c -> sip_status sip = Some status -> 200 < status < 700 ->
  Q 0 (call_failed irq orq a b status sip (final_cdr an status (m_mapTerminationAttempts s !! orq) c)
         (s <| m_mapTrunkStats ::= stats_after (m_mapTerminationAttempts s !! orq) status |> <| m_Config := cfg |>)) ->
  returns (processInviteResponseInsideDialog an orq sip) Q s.
Proof.
  intros Hctl He Hcp Hf Hc Hst Hrange HQ.
  destruct (in_progress_parts _ _ _ _ _ _ _ Hctl He Hcp) as (_ & _ & _ & _ & _ & _ & Hs & Htok).
  destruct Hcp as [Htr Hdg Horq Hirq] eqn:Ecp. clear Ecp.
  assert ((status =? 200) = false /\ (200 <=? status) = true /\ (100 =? status) = false) as (E1 & E2 & E3).
  { split; [|split]; [apply Z.eqb_neq|apply Z.leb_le|apply Z.eqb_neq]; lia. }
  unfold fails in Hf. destruct (m_mapTerminationAttempts s !! orq) as [t|] eqn:Et.
  - destruct Hf as [Htp Hg]. eapply (termination_response s an orq sip irq a b t p status); try done; [lia|].
    unfold respond_to_invite. rewrite E1, E2, E3. cbn [negb andb]. exec.
    eapply (given_up_crank _ an irq orq b p status sip t cfg); [by destruct (400 <=? status)|by destruct (400 <=? status)|].
    cbn [negb andb].
    eapply (failure_finish _ irq orq a b p status sip _ c); try done; try (by destruct (400 <=? status)).
    unfold stats_after in HQ. destruct (400 <=? status); [exact HQ|]. same_state HQ. f_equal.
  - destruct Hf as [(d & Hd & Hp) ->]. eapply (origination_response s an orq sip irq a b d p status); try done.
    unfold respond_to_invite. rewrite E1, E2, E3. cbn [negb andb]. exec.
    unfold crank. exec. rewrite Et. exec. cbn [negb andb]. apply returns_unbind.
    eapply (failure_finish s irq orq a b p status sip _ c); try done.
Qed.

Lemma accepted_exact an a b contact to sdp dialog sip (s : St) (Q : option string -> St -> Prop) :
  sip_to sip = Some to -> sip_contact sip = Some contact -> sip_payload sip = Some sdp ->
  match dialog with Some d => m_mapDialogInfo s !! a = Some d | None => True end ->
  Q (d ← dialog; session_value an d) (answered an a b contact to sdp dialog s) ->
  returns (invite_accepted an b a dialog sip) Q s.
Proof.
  intros Hto Hc Hsdp Hd HQ. unfold invite_accepted, send_ack, start_session_timer, change_info. rewrite Hto, Hc. exec.
  destruct dialog as [d|]; exec.
  2:{ same_state HQ. unfold answered, answer_calls. destruct s. simpl. by rewrite <- !app_assoc. }
  rewrite Hsdp. exec. simpl (_ ≫= _) in HQ. unfold session_value in HQ.
  destruct (0 <? getSessionTimerSecs d) eqn:Es; [destruct (an_timer an =? 0) eqn:Et|]; exec; same_state HQ;
    unfold answered, answer_calls, timer_started; rewrite Es, ?Et;
    destruct s as [cfg mon w cdrs nc it re own ag tr di at' info st calls]; simpl in *; rewrite <- !app_assoc; f_equal;
    rewrite ?alter_alter_eq; apply alter_ext; intros x Hx; rewrite Hd in Hx; injection Hx as <-;
    unfold answered_info, timer_started; by rewrite Es, ?Et.
Qed.

(** The end of the handler for an answered call. *)
Definition call_answered (irq orq : Z) (timer : option string) (sip : sip_t) (c : CdrInfo) (s : St) : St :=
  record_posted c (request_over irq orq (passed_back irq orq 200 timer sip s)).

Lemma answer_finish (s : St) irq orq b p timer sip f c (Q : Z -> St -> Prop) :
  bimap_ok (m_transactions s) -> (irq, orq) ∈ m_transactions s -> store (m_cdrs s) !! p = Some c ->
  Q 0 (call_answered irq orq timer sip (f c) s) ->
  returns (finish_response true true false irq orq b 200 timer sip;; post_copy p f;; mret 0) Q s.
Proof.
  intros Htok Htr Hc HQ. unfold finish_response. exec. apply proxy_exact. exec.
  apply (clearTransaction_exact irq); [done|done|]. exec. by apply (post_copy_exact p f c).
Qed.

Lemma answered_call (s : St) an orq sip irq a b p c contact to sdp dialog (Q : Z -> St -> Prop) :
  ctl_ok s -> invite_response_ok s an orq sip -> call_in_progress s irq orq a b -> call_record s orq a p dialog ->
  store (m_cdrs s) !! p = Some c -> sip_status sip = Some 200 ->
  sip_to sip = Some to -> sip_contact sip = Some contact -> sip_payload sip = Some sdp ->
  Q 0 (call_answered irq orq (d ← dialog; session_value an d) sip
         (final_cdr an 200 (m_mapTerminationAttempts s !! orq) c) (answered an a b contact to sdp dialog s)) ->
  returns (processInviteResponseInsideDialog an orq sip) Q s.
Proof.
  intros Hctl He Hcp Hf Hc Hst Hto Hcon Hsdp HQ.
  destruct (in_progress_parts _ _ _ _ _ _ _ Hctl He Hcp) as (_ & _ & _ & _ & _ & _ & Hs & Htok).
  pose proof (cp_trans _ _ _ _ _ Hcp) as Htr.
  unfold call_record in Hf. destruct (m_mapTerminationAttempts s !! orq) as [t|] eqn:Et.
  - destruct Hf as [Htp ->]. eapply (termination_response s an orq sip irq a b t p 200); try done.
    change (400 <=? 200) with false. cbv iota. unfold respond_to_invite. cbn [Z.eqb Pos.eqb Z.leb Z.compare Pos.compare Pos.compare_cont negb andb].
    apply returns_bind. apply (accepted_exact _ _ _ contact to sdp); try done. exec.
    cbn [negb andb]. apply returns_unbind. by apply (answer_finish _ irq orq b p _ _ _ c).
  - destruct Hf as (d & -> & Hd & Hp). eapply (origination_response s an orq sip irq a b d p 200); try done.
    unfold respond_to_invite. cbn [Z.eqb Pos.eqb Z.leb Z.compare Pos.compare Pos.compare_cont negb andb].
    apply returns_bind. apply (accepted_exact _ _ _ contact to sdp); try done. exec.
    cbn [negb andb]. apply returns_unbind. by apply (answer_finish _ irq orq b p _ _ _ c).
Qed.
End Lemmas.

(** ** Properties *)

(** C9: A failed trunk is replaced.  When a trunk answers a call with 503 or 480,
    attempts are left and the configuration has a route by another carrier,
    nothing is sent to the caller: a new INVITE, with the same body, goes
    to the new trunk on a new B leg, and the failed request and its leg are
    destroyed; the tables refer to the new ones, and the attempt has counted one more.  The
    failure is counted for the failed trunk and posted in a copy of the record;
    the record itself goes on with the new carrier. *)
Theorem failed_trunk_is_replaced {P C} {pool : ServerPool P} {routes : CallRoutes C} (s : Ctl P C) (an : answers)
    (orq : Z) (sip : sip_t) (irq a b p status : Z) (t : TerminationAttempt) (d : SipDialogInfo) (c : CdrInfo)
    (to : addr_t) (address carrier charge : string) (cfg : C) :
  ctl_ok s -> invite_response_ok s an orq sip -> call_in_progress s irq orq a b ->
  m_mapTerminationAttempts s !! orq = Some t -> m_pCdr t = Some p -> store (m_cdrs s) !! p = Some c ->
  m_mapDialogInfo s !! b = Some d -> sip_status sip = Some status -> status = 503 \/ status = 480 ->
  sip_to sip = Some to -> attempts_left s t ->
  routes_alt (m_carrier t) (m_Config s) = Ok (Some (address, carrier, charge), cfg) ->
  an_b_leg an <> 0 -> an_orq an <> 0 ->
  let t' := next_trunk to address carrier charge t in
  let b' := an_b_leg an in
  let orq' := an_orq an in
  let failed := setCdrType termination_attempt (populateFinalResponseCdr (an_now an) status c) in
  exists s', handle (EInviteResponse an orq sip) s = Ok (0, s') /\
    m_calls s' = m_calls s ++
      [leg_tcreate b' (Some (m_from t, m_to t)); leg_tag b' None;
       outgoing_tcreate orq' b' sip_method_invite (ToText (invite_url (url_user (a_url to)) address))
         (Some response_to_invite) (m_contact t) (sip_payload (m_sip t))
         [m_my_user_agent s; charge_header charge address];
       outgoing_destroy orq; leg_destroy b] /\
    m_transactions s' = (irq, orq') :: right_erase orq (m_transactions s) /\
    m_dialogs s' = (a, b') :: right_erase b (m_dialogs s) /\
    m_mapTerminationAttempts s' !! orq' = Some t' /\ m_mapTerminationAttempts s' !! orq = None /\
    m_mapTrunkStats s' = attempt_counted t' (failure_counted t status (m_mapTrunkStats s)) /\
    m_carrier t' = carrier /\ m_sipTrunk t' = address /\ m_nAttemptCount t' = wrap32 (m_nAttemptCount t + 1) /\
    store (m_cdrs s') !! m_nextCdr s = Some failed /\
    posted (m_cdrs s') = posted (m_cdrs s) ++ (if m_cdrWriter s then [m_nextCdr s] else []) /\
    store (m_cdrs s') !! p =
      Some (setDLegCallId (an_call_id an) (setTerminatingCarrierAddress address (setTerminatingCarrier carrier c))).
Proof.
  intros Hctl He Hcp Ht Htp Hc Hd Hst Hstatus Hto Hleft Halt Hb Ho t' b' orq' failed.
  assert (orq' <> orq) as Hne.
  { pose proof He as (l & m & st & Horq & _ & _ & _ & _ & _ & Hfo & _). intros E. unfold orq' in E.
    destruct Hfo as [?|Hfo]; [done|]. by rewrite E, Horq in Hfo. }
  assert (p < m_nextCdr s) as Hp by (apply Hctl; by eexists).
  eassert (returns (handle (EInviteResponse an orq sip)) (fun r s' => r = 0 /\ s' = _) s) as H.
  { by eapply (carrier_retry s an orq sip irq a b t p d c to status address carrier charge cfg). }
  apply returns_elim in H as (r & s' & E & -> & ->). eexists. split; [exact E|].
  unfold retried, leg_replaced, request_replaced, generated, carrier_changed, record_posted. simpl.
  split; [by rewrite <- !app_assoc|]. split; [done|]. split; [done|].
  split; [by rewrite lookup_insert_eq|]. split; [by rewrite lookup_insert_ne, lookup_delete_eq by done|].
  do 4 (split; [done|]). rewrite !lookup_alter_ne, lookup_insert_eq by lia. split; [done|]. split; [done|].
  by rewrite !lookup_alter_eq, lookup_insert_ne, Hc by lia.
Qed.

Lemma failed_trunk_is_replaced_witness :
  exists s', handle (EInviteResponse (example_answers 11 2 1) 3 (response_msg 503 sip_method_invite))
      (example_call "10.10.2.35") = Ok (0, s') /\
    m_dialogs s' = [(1, 12)] /\ m_transactions s' = [(50, 13)].
Proof.
  destruct (example_call_stack "10.10.2.35" ltac:(by left)) as (E1 & E2 & E3).
  edestruct (failed_trunk_is_replaced (example_call "10.10.2.35") (example_answers 11 2 1) 3
    (response_msg 503 sip_method_invite) 50 1 2 1 503) as (s' & E & _ & Ht & Hd & _).
  - apply example_call_ok.
  - apply example_response_ok; [exact E1|exact E2|lia].
  - split; rewrite ?E1, ?E2, ?E3; [apply list_elem_of_here|apply list_elem_of_here|reflexivity..].
  - vm_compute. reflexivity.
  - vm_compute. reflexivity.
  - vm_compute. reflexivity.
  - vm_compute. reflexivity.
  - reflexivity.
  - by left.
  - reflexivity.
  - vm_compute. reflexivity.
  - vm_compute. reflexivity.
  - done.
  - done.
  - exists s'. split; [exact E|]. rewrite Ht, Hd, E2, E3. by split.
Defined.

(** C10: A final failure is passed back and ends the call.  When a server answers
    a call with a final status other than 200, or a trunk does and the call is given up (the
    status is none that is tried again, no attempts are left, or there is no other
    carrier), the caller gets that status with its body, exactly once; the transaction and
    both legs are destroyed with their timers, and no table mentions them any more.  A trunk's
    failure is counted, and the record is posted with the status, the time and
    the cause. *)
Theorem failure_ends_call {P C} {pool : ServerPool P} {routes : CallRoutes C} (s : Ctl P C) (an : answers) (orq : Z)
    (sip : sip_t) (irq a b p status : Z) (c : CdrInfo) (cfg : C) :
  ctl_ok s -> invite_response_ok s an orq sip -> call_in_progress s irq orq a b -> fails s orq a p status cfg ->
  store (m_cdrs s) !! p = Some c -> sip_status sip = Some status -> 200 < status < 700 ->
  let t := m_mapTerminationAttempts s !! orq in
  exists s', handle (EInviteResponse an orq sip) s = Ok (0, s') /\
    m_calls s' = m_calls s ++
      [incoming_treply irq status (sip_payload sip) (dec <$> sip_session_expires sip) (trunk_headers t);
       incoming_destroy irq; outgoing_destroy orq] ++
      leg_destroy b :: timer_calls (m_mapDialogInfo s) b ++ leg_destroy a :: timer_calls (m_mapDialogInfo s) a /\
    orq ∉ map snd (m_transactions s') /\ a ∉ map fst (m_dialogs s') /\ b ∉ map snd (m_dialogs s') /\
    m_mapTerminationAttempts s' = delete orq (m_mapTerminationAttempts s) /\
    m_mapDialogInfo s' = delete a (delete b (m_mapDialogInfo s)) /\
    m_mapTrunkStats s' = stats_after t status (m_mapTrunkStats s) /\
    store (m_cdrs s') = <[ m_nextCdr s := final_cdr an status t c ]> (store (m_cdrs s)) /\
    posted (m_cdrs s') = posted (m_cdrs s) ++ (if m_cdrWriter s then [m_nextCdr s] else []) /\
    m_sipStatus (final_cdr an status t c) = status /\ m_tmEnd (final_cdr an status t c) = an_now an /\
    m_releaseCause (final_cdr an status t c) = call_rejected_due_to_termination_carriers.
Proof.
  intros Hctl He Hcp Hf Hc Hst Hrange t.
  destruct (in_progress_parts _ _ _ _ _ _ _ Hctl He Hcp) as (_ & _ & _ & _ & _ & _ & Hs & Htok).
  eassert (returns (handle (EInviteResponse an orq sip)) (fun r s' => r = 0 /\ s' = _) s) as H.
  { by eapply (failed_call s an orq sip irq a b p c status cfg). }
  apply returns_elim in H as (r & s' & E & -> & ->). eexists. split; [exact E|]. fold t.
  assert ((200 <=? status) = true /\ (200 =? status) = false) as [E2 E3] by (split; [apply Z.leb_le|apply Z.eqb_neq]; lia).
  unfold call_failed, record_posted, dialog_over, request_over, passed_back. rewrite E2. simpl.
  split; [by rewrite <- !app_assoc|].
  split; [by intros [x [_ Hne]%elem_of_right_erase]%elem_of_snd|].
  pose proof (cp_dialog _ _ _ _ _ Hcp) as Hd. destruct Hs as [[Hfs Hss] Hsides].
  split.
  { intros [y [[H Hl]%elem_of_left_erase Hr]%elem_of_right_erase]%elem_of_fst. apply Hr. simpl.
    by eapply (fst_inj (m_dialogs s)). }
  split; [by intros [x [_ Hne]%elem_of_right_erase]%elem_of_snd|].
  do 5 (split; [done|]). unfold final_cdr, populateFinalResponseCdr. rewrite E3. by destruct t.
Qed.

(** C8: An answer connects the call.  When a server or a trunk answers a call with
    200, it gets an ACK at its Contact, and the caller gets exactly one 200,
    with the same body; the transaction ends, and the dialog stays.  Of a call to a server the
    answer's session description is kept, and a session timer is started
    when the caller asked for one, whose value the 200 announces; an attempt
    on a trunk is over.  The record is posted with the status and the time. *)
Theorem answer_connects {P C} {pool : ServerPool P} {routes : CallRoutes C} (s : Ctl P C) (an : answers) (orq : Z)
    (sip : sip_t) (irq a b p : Z) (c : CdrInfo) (contact to : addr_t) (sdp : string) (dialog : option SipDialogInfo) :
  ctl_ok s -> invite_response_ok s an orq sip -> call_in_progress s irq orq a b -> call_record s orq a p dialog ->
  store (m_cdrs s) !! p = Some c -> sip_status sip = Some 200 ->
  sip_to sip = Some to -> sip_contact sip = Some contact -> sip_payload sip = Some sdp ->
  let t := m_mapTerminationAttempts s !! orq in
  exists s', handle (EInviteResponse an orq sip) s = Ok (0, s') /\
    m_calls s' = m_calls s ++ answer_calls an a b contact to dialog ++
      [incoming_treply irq 200 (Some sdp)
         (match d ← dialog; session_value an d with Some v => Some v | None => dec <$> sip_session_expires sip end)
         (trunk_headers t);
       incoming_destroy irq; outgoing_destroy orq] /\
    m_transactions s' = right_erase orq (m_transactions s) /\ m_dialogs s' = m_dialogs s /\
    m_mapTerminationAttempts s' = delete orq (m_mapTerminationAttempts s) /\
    m_mapDialogInfo s' = (match dialog with Some _ => alter (answered_info an sdp) a | None => id end) (m_mapDialogInfo s) /\
    m_mapTrunkStats s' = m_mapTrunkStats s /\
    store (m_cdrs s') = <[ m_nextCdr s := final_cdr an 200 t c ]> (store (m_cdrs s)) /\
    posted (m_cdrs s') = posted (m_cdrs s) ++ (if m_cdrWriter s then [m_nextCdr s] else []) /\
    m_sipStatus (final_cdr an 200 t c) = 200 /\ m_tmConnect (final_cdr an 200 t c) = an_now an.
Proof.
  intros Hctl He Hcp Hf Hc Hst Hto Hcon Hsdp t.
  eassert (returns (handle (EInviteResponse an orq sip)) (fun r s' => r = 0 /\ s' = _) s) as H.
  { by eapply (answered_call s an orq sip irq a b p c contact to sdp dialog). }
  apply returns_elim in H as (r & s' & E & -> & ->). eexists. split; [exact E|]. fold t.
  unfold call_answered, record_posted, request_over, passed_back, answered. simpl. rewrite Hsdp.
  split; [by rewrite <- !app_assoc|]. do 7 (split; [done|]). by destruct t.
Qed.

(** A redirection is followed, and not counted.  Whatever the number of
    attempts made and allowed, when a trunk answers with a 3xx, nothing is sent to the caller: the
    INVITE goes to the URI of its Contact, on a new B leg, and the attempt's
    count stays what it was.  So nothing bounds the redirections of a call. *)
Theorem redirection_is_not_counted {P C} {pool : ServerPool P} {routes : CallRoutes C} (s : Ctl P C) (an : answers)
    (orq : Z) (sip : sip_t) (irq a b p status : Z) (t : TerminationAttempt) (d : SipDialogInfo) (contact : addr_t) :
  ctl_ok s -> invite_response_ok s an orq sip -> call_in_progress s irq orq a b ->
  m_mapTerminationAttempts s !! orq = Some t -> m_pCdr t = Some p ->
  m_mapDialogInfo s !! b = Some d -> sip_status sip = Some status -> 300 <= status <= 399 ->
  sip_contact sip = Some contact -> an_b_leg an <> 0 -> an_orq an <> 0 ->
  let b' := an_b_leg an in
  let orq' := an_orq an in
  exists s' t', handle (EInviteResponse an orq sip) s = Ok (0, s') /\
    m_calls s' = m_calls s ++
      [leg_tcreate b' (Some (m_from t, m_to t)); leg_tag b' None;
       outgoing_tcreate orq' b' sip_method_invite (ToText (contact_uri (a_url contact))) (Some response_to_invite)
         (m_contact t) (sip_payload (m_sip t)) [m_my_user_agent s; m_p_charge_info_header t];
       outgoing_destroy orq; leg_destroy b] /\
    call_in_progress s' irq orq' a b' /\
    m_mapTerminationAttempts s' !! orq' = Some t' /\ m_nAttemptCount t' = m_nAttemptCount t /\
    m_carrier t' = m_carrier t /\ posted (m_cdrs s') = posted (m_cdrs s).
Proof.
  intros Hctl He Hcp Ht Htp Hd Hst Hstatus Hcon Hb Ho b' orq'.
  pose proof He as (l & m & st & _ & _ & _ & _ & _ & Hfb & Hfo & _).
  destruct Hfb as [?|Hfb]; [done|]. destruct Hfo as [?|Hfo]; [done|].
  eassert (returns (handle (EInviteResponse an orq sip)) (fun r s' => r = 0 /\ s' = _) s) as H.
  { by eapply (redirect_retry s an orq sip irq a b t p d contact status). }
  apply returns_elim in H as (r & s' & E & -> & ->).
  destruct Hcp as [Htr Hdg Horq Hirq].
  assert (orq' <> orq) as Hne by (intros E'; unfold orq' in E'; by rewrite E', Horq in Hfo).
  eexists _, _. split; [exact E|].
  unfold retried, leg_replaced, request_replaced, generated. simpl.
  split; [by rewrite <- !app_assoc|].
  split; [|split; [by rewrite lookup_insert_eq|done]]. split; simpl; [by left|by left|..].
  - unfold stack_of. rewrite !foldl_app. cbn [foldl]. fold (stack_of (m_calls s)). simpl.
    destruct (Z.eqb_spec (an_b_leg an) 0); [done|]. destruct (Z.eqb_spec (an_orq an) 0); [done|]. simpl.
    by rewrite lookup_delete_ne, lookup_insert_eq.
  - unfold stack_of. rewrite !foldl_app. cbn [foldl]. fold (stack_of (m_calls s)). simpl.
    destruct (Z.eqb_spec (an_b_leg an) 0); [done|]. by destruct (Z.eqb_spec (an_orq an) 0).
Qed.

Lemma example_progress host : host = "10.10.2.35" \/ host = "192.168.1.54" ->
  call_in_progress (example_call host) 50 3 1 2.
Proof.
  intros Hh. destruct (example_call_stack host Hh) as (E1 & E2 & E3).
  split; rewrite ?E1, ?E2, ?E3; [apply list_elem_of_here|apply list_elem_of_here|reflexivity..].
Qed.

Lemma example_answer host status : host = "10.10.2.35" \/ host = "192.168.1.54" -> 100 <= status < 700 ->
  invite_response_ok (example_call host) (example_answers 11 2 1) 3 (response_msg status sip_method_invite).
Proof. intros Hh Hs. destruct (example_call_stack host Hh) as (E1 & E2 & _). by apply example_response_ok. Qed.

Lemma failure_ends_call_witness :
  exists s', handle (EInviteResponse (example_answers 11 2 1) 3 (response_msg 486 sip_method_invite))
      (example_call "192.168.1.54") = Ok (0, s') /\
    m_mapDialogInfo s' = delete 1 (delete 2 (m_mapDialogInfo (example_call "192.168.1.54"))).
Proof.
  edestruct (failure_ends_call (example_call "192.168.1.54") (example_answers 11 2 1) 3
    (response_msg 486 sip_method_invite) 50 1 2 1 486) as (s' & E & _ & _ & _ & _ & _ & H & _).
  - apply example_call_ok.
  - apply example_answer; [by right|lia].
  - apply example_progress. by right.
  - unfold fails. replace (m_mapTerminationAttempts (example_call "192.168.1.54") !! 3) with (@None TerminationAttempt)
      by (vm_compute; reflexivity). split; [eexists; split; vm_compute; reflexivity|reflexivity].
  - vm_compute. reflexivity.
  - reflexivity.
  - lia.
  - exists s'. split; [exact E|exact H].
Defined.

Lemma answer_connects_witness :
  exists s', handle (EInviteResponse (example_answers 11 2 1) 3 (response_msg 200 sip_method_invite))
      (example_call "192.168.1.54") = Ok (0, s') /\ m_dialogs s' = [(1, 2)].
Proof.
  edestruct (answer_connects (example_call "192.168.1.54") (example_answers 11 2 1) 3
    (response_msg 200 sip_method_invite) 50 1 2 1) as (s' & E & _ & _ & H & _).
  - apply example_call_ok.
  - apply example_answer; [by right|lia].
  - apply example_progress. by right.
  - unfold call_record. replace (m_mapTerminationAttempts (example_call "192.168.1.54") !! 3) with (@None TerminationAttempt)
      by (vm_compute; reflexivity). eexists. split; [reflexivity|split; vm_compute; reflexivity].
  - vm_compute. reflexivity.
  - reflexivity.
  - reflexivity.
  - reflexivity.
  - reflexivity.
  - exists s'. split; [exact E|]. rewrite H. vm_compute. reflexivity.
Defined.

Lemma redirection_is_not_counted_witness :
  exists s' t', handle (EInviteResponse (example_answers 11 2 1) 3 (response_msg 302 sip_method_invite))
      (example_call "10.10.2.35") = Ok (0, s') /\
    m_mapTerminationAttempts s' !! 13 = Some t' /\ m_nAttemptCount t' = 0.
Proof.
  edestruct (redirection_is_not_counted (example_call "10.10.2.35") (example_answers 11 2 1) 3
    (response_msg 302 sip_method_invite) 50 1 2 1 302) as (s' & t' & E & _ & _ & H & Hn & _).
  - apply example_call_ok.
  - apply example_answer; [by left|lia].
  - apply example_progress. by left.
  - vm_compute. reflexivity.
  - reflexivity.
  - vm_compute. reflexivity.
  - reflexivity.
  - lia.
  - reflexivity.
  - done.
  - done.
  - exists s', t'. split; [exact E|]. split; [exact H|exact Hn].
Defined.
