(* ===== verification/CallAttempts.v ===== *)
(** * CallAttempts: how many carriers a call can be tried with

    The number of attempts a termination has made never exceeds the configured
    number of retries, less one, computed in [unsigned int]; so it is bounded,
    except when that number is 0. *)

From S2P Require Import Prelude Text Sip Bimap Ssp FsInstance FsMonitor Routing SspConfig Routes.
From S2P Require Import Cdr CdrWriter TrunkStats CallControl CallTables CallSafety CallRuns CallEffects CallSetup CallResponses.

(** ** Specification *)

Definition attempt_bounded (retries : Z) (t : TerminationAttempt) : Prop :=
  0 <= m_nAttemptCount t <= wrap32 (retries - 1).

Definition attempts_bounded {P C} (retries : Z) (s : Ctl P C) : Prop :=
  m_nTerminationRetries s = retries /\
  map_Forall (fun _ t => attempt_bounded retries t) (m_mapTerminationAttempts s).

(** The bound, spelled out: the subtraction wraps around. *)
Definition attempt_limit (retries : Z) : Z := if retries =? 0 then 2^32 - 1 else retries - 1.

(** ** Lemmas *)

Section Lemmas.
Context {P C : Type} {pool : ServerPool P} {routes : CallRoutes C}.
#[local] Abbreviation St := (Ctl P C).
Context (retries : Z).
#[local] Abbreviation I := (attempts_bounded (P := P) (C := C) retries).

Lemma gives_keeps {A} (m : M St A) (Q : A -> St -> Prop) s :
  keeps I m -> I s -> (forall a s', I s' -> Q a s') -> gives m Q s.
Proof. intros Hm Hs HQ. unfold gives. destruct (m s) as [[a s']|] eqn:E; [|done]. apply HQ. by eapply Hm. Qed.

Lemma keeps_gives {A} (m : M St A) : (forall s, I s -> gives m (fun _ s' => I s') s) -> keeps I m.
Proof. intros H s a s' Hs E. specialize (H s Hs). unfold gives in H. by rewrite E in H. Qed.

(** A change of the state that leaves the attempts alone. *)
Lemma keeps_bounded_other (f : St -> St) :
  (forall s, m_nTerminationRetries (f s) = m_nTerminationRetries s) ->
  (forall s, m_mapTerminationAttempts (f s) = m_mapTerminationAttempts s) -> keeps I (modify f).
Proof. intros H1 H2. apply keeps_modify. intros s [Hr Hf]. split; [by rewrite H1|by rewrite H2]. Qed.

Lemma keeps_delete_attempt orq : keeps I (modify (fun s => s <| m_mapTerminationAttempts ::= delete orq |>)).
Proof. apply keeps_modify. intros s [Hr Hf]. split; [done|]. simpl. by apply map_Forall_delete. Qed.

Lemma add_bounded orq t (m : gmap Z TerminationAttempt) :
  attempt_bounded retries t -> map_Forall (fun _ t => attempt_bounded retries t) m ->
  map_Forall (fun _ t => attempt_bounded retries t) (map_add orq t m).
Proof. intros Ht Hm. unfold map_add. destruct (m !! orq); [done|]. by apply map_Forall_insert_2. Qed.

Lemma keeps_add_new orq url sip from to contact charge carrier trunk p :
  keeps I (modify (fun s => s <| m_mapTerminationAttempts ::=
    map_add orq ((new_TerminationAttempt url sip from to contact charge carrier trunk) <| m_pCdr := p |>) |>)).
Proof.
  apply keeps_modify. intros s [Hr Hf]. split; [done|]. apply add_bounded; [|done].
  split; [done|]. apply wrap32_range.
Qed.

Lemma keeps_bounded_config {A} (m : M C A) : keeps I (config m).
Proof.
  intros s a s' [Hr Hf] H. unfold config in H. destruct (m (m_Config s)) as [[r c]|]; [|done].
  by injection H as <- <-.
Qed.

Lemma keeps_bounded_servers : keeps I (getAvailableServers (P := P) (C := C)).
Proof.
  intros s a s' [Hr Hf] H. unfold getAvailableServers in H. destruct (pool_get (m_fsMonitor s)) as [[r p]|]; [|done].
  by injection H as <- <-.
Qed.
End Lemmas.

#[export] Hint Resolve keeps_bounded_config keeps_bounded_servers keeps_delete_attempt keeps_add_new : keeps.
#[export] Hint Extern 1 (keeps (attempts_bounded _) (modify _)) => apply keeps_bounded_other; done : keeps.

Section Handlers.
Context {P C : Type} {pool : ServerPool P} {routes : CallRoutes C}.
#[local] Abbreviation St := (Ctl P C).
Context (retries : Z).
#[local] Abbreviation I := (attempts_bounded (P := P) (C := C) retries).

Lemma keeps_bounded_generate an t : keeps I (generateTerminationRequest an t).
Proof. unfold generateTerminationRequest, fits_url, change_cdr, nta. keeps_auto. Qed.

Lemma keeps_bounded_updates an irq orq b b' :
  keeps I (updateOutgoingTransaction irq orq an) /\ keeps I (updateDialog b b').
Proof.
  split; [unfold updateOutgoingTransaction, addTransactions, nta; keeps_auto|].
  unfold updateDialog, getAssociatedDialog, addDialogs, nta. keeps_auto.
Qed.

(** The next request is for the attempt that the table holds. *)
Lemma keeps_bounded_retry an irq orq leg : keeps I (retry an irq orq leg).
Proof.
  apply keeps_gives. intros s Hs. unfold retry. run_gives.
  match goal with H : _ !! orq = Some ?t |- _ => assert (attempt_bounded retries t) as Ht by (by eapply (proj2 Hs)) end.
  apply (gives_keeps retries); [apply keeps_bounded_generate|done|]. intros [[o b]|] s1 H1; run_gives; [|done].
  apply (gives_keeps retries); [apply (keeps_bounded_updates o irq orq 0 0)|done|]. intros _ s2 [Hr2 Hf2]. run_gives.
  apply (gives_keeps retries); [apply (keeps_bounded_updates o irq orq leg b)| |by intros; run_gives].
  split; [done|]. apply add_bounded; [done|by apply map_Forall_delete].
Qed.

Lemma change_bounded orq f t (s : St) :
  I s -> m_mapTerminationAttempts s !! orq = Some t -> attempt_bounded retries (f t) ->
  I (s <| m_mapTerminationAttempts ::= alter f orq |>).
Proof.
  intros [Hr Hf] Ht Hb. split; [done|]. simpl. intros k u H. destruct (decide (k = orq)) as [->|Hne].
  - rewrite lookup_alter_eq, Ht in H. by injection H as <-.
  - rewrite lookup_alter_ne in H by done. by eapply Hf.
Qed.

Lemma post_copy_gives p f (s : St) (Q : unit -> St -> Prop) :
  (forall s', m_mapTerminationAttempts s' = m_mapTerminationAttempts s ->
     m_nTerminationRetries s' = m_nTerminationRetries s -> Q tt s') -> gives (post_copy p f) Q s.
Proof.
  intros HQ. unfold post_copy, cdr_at, new_cdr, change_cdr, postCdr. run_gives.
  unfold when. simpl (m_cdrWriter _). destruct (m_cdrWriter s); run_gives; by apply HQ.
Qed.

Lemma keeps_bounded_crank an irq orq leg p status sip : keeps I (crank an irq orq leg p status sip).
Proof.
  apply keeps_gives. intros s Hs. unfold crank. run_gives.
  destruct (m_mapTerminationAttempts s !! orq) as [t|] eqn:Et; [|by run_gives].
  pose proof (proj2 Hs _ _ Et) as Ht. simpl in Ht.
  destruct ((300 <=? status) && (status <=? 399)).
  { unfold redirect, change_attempt. run_gives. apply (gives_keeps retries); [apply keeps_bounded_retry| |done].
    by apply (change_bounded orq _ t s Hs Et). }
  destruct ((503 =? status) || (480 =? status)); [|by run_gives].
  unfold next_carrier. run_gives. destruct (Z.ltb_spec (m_nAttemptCount t) (wrap32 (m_nTerminationRetries s - 1))) as [Hlt|]; [|by run_gives].
  rewrite (proj1 Hs) in Hlt. run_gives. unfold gives at 1, config.
  destruct (routes_alt (m_carrier t) (m_Config s)) as [[[[[address carrier] charge]|] cfg]|]; [|by run_gives|done].
  assert (forall s2 : St, m_mapTerminationAttempts s2 !! orq = Some t -> I s2 -> gives (
    to ← deref (sip_to sip);
    let dest := invite_url (url_user (a_url to)) address in
    change_attempt orq (crankback dest carrier address (charge_header charge address));;
    change_cdr p (fun c => setTerminatingCarrierAddress address (setTerminatingCarrier carrier c));;
    retry an irq orq leg) (fun _ s' => I s') s2) as Hgo.
  { intros s2 E2 H2. unfold change_attempt, change_cdr. run_gives.
    apply (gives_keeps retries); [apply keeps_bounded_retry| |done].
    apply (change_bounded orq (crankback _ _ _ _) t s2 H2 E2).
    unfold attempt_bounded in *. simpl. pose proof (wrap32_range (retries - 1)) as Hw. unfold is_u32 in Hw.
    rewrite wrap32_small by (unfold is_u32; lia). lia. }
  apply gives_bind, post_copy_gives. intros s2 E2 Er2. apply Hgo; [by rewrite E2|].
  split; [rewrite Er2; apply Hs|rewrite E2; apply Hs].
Qed.

Lemma keeps_bounded_clear leg orq : keeps I (clearDialog leg) /\ keeps I (clearTransaction orq).
Proof.
  split; unfold clearDialog, clearTransaction, getAssociatedDialog, getAssociatedTransaction_orq, erase_info, nta; keeps_auto.
Qed.

Lemma keeps_bounded_records p f : keeps I (post_copy p f) /\ keeps I (postCdr p) /\ keeps I (change_cdr p f).
Proof. split_and!; unfold post_copy, cdr_at, new_cdr, change_cdr, postCdr; keeps_auto. Qed.
End Handlers.

#[export] Hint Resolve keeps_bounded_generate keeps_bounded_crank : keeps.
#[export] Hint Extern 2 (keeps (attempts_bounded _) (clearDialog _)) => apply (keeps_bounded_clear _ _ 0) : keeps.
#[export] Hint Extern 2 (keeps (attempts_bounded _) (clearTransaction _)) => apply (keeps_bounded_clear _ 0 _) : keeps.
#[export] Hint Extern 2 (keeps (attempts_bounded _) (post_copy _ _)) => apply keeps_bounded_records : keeps.
#[export] Hint Extern 2 (keeps (attempts_bounded _) (postCdr _)) => apply (keeps_bounded_records _ _ id) : keeps.
#[export] Hint Extern 2 (keeps (attempts_bounded _) (change_cdr _ _)) => apply keeps_bounded_records : keeps.

Section Bounded.
Context {P C : Type} {pool : ServerPool P} {routes : CallRoutes C}.
#[local] Abbreviation St := (Ctl P C).

Lemma handle_bounded retries (e : event) : keeps (attempts_bounded (P := P) (C := C) retries) (handle e).
Proof.
  destruct e as [an irq sip|an orq sip|an irq sip|an leg irq sip|an orq sip|leg|an sip|p|]; simpl.
  - unfold respond, processRequestOutsideDialog, validateSipMessage, determineCallType, reject_call, processOriginationRequest,
      processTerminationRequest, choose_route, populateTerminationCdr, populateOriginationCdr, addTransactions, addDialogs,
      cdr_at, fits_url, to_string, reject, new_cdr, nta. keeps_auto.
  - unfold processInviteResponseInsideDialog, finish_response, record_of_call, count_failure, invite_accepted, start_session_timer,
      proxy_response, change_info, send_ack, getAssociatedTransaction_orq, nta. keeps_auto.
  - unfold processAckOrCancel, getAssociatedTransaction_irq, nta. keeps_auto.
  - unfold respond, processRequestInsideDialog, getAssociatedDialog, addTransactions, nta. keeps_auto.
  - unfold processResponseInsideDialog, send_ack, getAssociatedTransaction_orq, nta. keeps_auto.
  - unfold processSessionRefreshTimer, getAssociatedDialog, change_info, nta. keeps_auto.
  - unfold processRetransmittedResponse, send_ack, nta. keeps_auto.
  - keeps_auto.
  - keeps_auto.
Qed.

Lemma runs_attempts_bounded (cfg : C) (p : P) cdrs w iterations retries contact agent es (s : St) :
  runs call_step (initial_ctl cfg p cdrs w iterations retries contact agent) es s -> attempts_bounded retries s.
Proof.
  intros Hr. eapply (runs_invariant call_step (attempts_bounded retries)); [|exact Hr|].
  - intros s1 e s2 H1 [_ [r E]]. by eapply (handle_bounded retries e).
  - split; [done|]. by intros k u H.
Qed.
End Bounded.

(** ** Properties *)


