(* ===== verification/CallEnd.v ===== *)
(** * CallEnd: how a call ends

    The BYE and the CANCEL of a call, a BYE before the call is answered, and the
    expiry of a session timer. *)

From S2P Require Import Prelude Text Sip Bimap Ssp FsInstance FsMonitor Routing SspConfig Routes.
From S2P Require Import Cdr CdrWriter TrunkStats CallControl CallTables CallSafety CallRuns CallEffects CallSetup.
From S2P Require Import CallResponses.

(** ** Specifications *)

Section Specifications.
Context {P C : Type}.
#[local] Abbreviation St := (Ctl P C).

(** The other leg of a dialog. *)
Definition pair_of (a b leg other : Z) : Prop := leg = a /\ other = b \/ leg = b /\ other = a.

(** The record of the call on A leg [a], if it is to an application server. *)
Definition origination_record_of (s : St) (a : Z) : option Z := d ← m_mapDialogInfo s !! a; di_pCdr d.

(** A record is changed, and posted again. *)
Definition record_updated (p : Z) (f : CdrInfo -> CdrInfo) (s : St) : St :=
  s <| m_cdrs := mkQueue (alter f p (store (m_cdrs s))) (posted (m_cdrs s) ++ (if m_cdrWriter s then [p] else []))
                   (writer (m_cdrs s)) |>.

Definition bye_recorded (an : answers) (a leg : Z) (s : St) : St :=
  match origination_record_of s a with
  | Some p => record_updated p (populateByeCdr (an_now an) (bool_decide (leg = a))) s
  | None => s
  end.

(** A BYE on [leg] is passed on to [other]. *)
Definition bye_sent (an : answers) (other : Z) (s : St) : St :=
  s <| m_calls ::= fun l => l ++
         [outgoing_tcreate (an_ack an) other sip_method_bye ToRemote None EmptyString None []; outgoing_destroy (an_ack an)] |>.

(** The state after a BYE, before the stack answers it. *)
Definition hung_up (an : answers) (a leg other irq : Z) (s : St) : St :=
  (dialog_over leg other (bye_recorded an a leg (bye_sent an other s)))
    <| m_calls ::= fun l => l ++ [incoming_destroy irq] |>.

(** The record of a canceled call: that of an origination is changed and posted;
    of a termination's, a copy with status 487 is posted. *)
Definition cancel_recorded (an : answers) (orq a : Z) (s : St) : St :=
  match origination_record_of s a with
  | Some p => record_updated p (populateCancelCdr (an_now an)) s
  | None =>
      match t ← m_mapTerminationAttempts s !! orq; p ← m_pCdr t; store (m_cdrs s) !! p with
      | Some c => record_posted (setCdrType termination_attempt (populateFinalResponseCdr (an_now an) 487 c)) s
      | None => s
      end
  end.
End Specifications.

(** The example after the answer to a call of the carrier. *)
Definition example_connected : Ctl unit Impl :=
  after (EInviteResponse (example_answers 11 2 1) 3 (response_msg 200 sip_method_invite)) (example_call "192.168.1.54").

(** ** Lemmas *)

Section Lemmas.
Context {P C : Type} {pool : ServerPool P} {routes : CallRoutes C}.
#[local] Abbreviation St := (Ctl P C).

Lemma associated_dialog (s : St) a b leg other (Q : Z -> St -> Prop) :
  sides_ok (m_dialogs s) -> (a, b) ∈ m_dialogs s -> pair_of a b leg other -> Q other s ->
  returns (getAssociatedDialog leg) Q s.
Proof.
  intros [Hd Hs] Hin Hp HQ.
  assert (b ∉ map fst (m_dialogs s)) as Hbf by (intros [y H]%elem_of_fst; by destruct (Hs b y a b H Hin)).
  destruct Hp as [[-> ->]|[-> ->]]; [by eapply getAssociatedDialog_a|by eapply getAssociatedDialog_b].
Qed.

(** The information on a dialog is on one side: the A side of an
    origination, the B side of a termination. *)
Lemma dialog_info_kinds (s : St) a b :
  tables_ok (known s) (tables_of s) -> (a, b) ∈ m_dialogs s ->
  match m_mapDialogInfo s !! a with
  | Some d => m_bOrigination d = true /\ is_Some (di_pCdr d) /\ m_mapDialogInfo s !! b = None
  | None => exists d, m_mapDialogInfo s !! b = Some d /\ m_bOrigination d = false
  end.
Proof.
  intros Hok Hin.
  pose proof (ok_kinds _ _ Hok a b Hin) as Hk. simpl in Hk. rewrite !lookup_fmap in Hk.
  destruct (m_mapDialogInfo s !! a) as [d|] eqn:Ea.
  - destruct Hk as [[_ Hb]|[Ha _]]; [|done].
    pose proof (ok_infos _ _ Hok a (m_bOrigination d) (di_pCdr d)) as Hi. simpl in Hi. rewrite lookup_fmap, Ea in Hi.
    specialize (Hi eq_refl). destruct (m_bOrigination d).
    + split; [done|]. destruct Hi as [_ (q & -> & _)]. split; [by eexists|]. by destruct (m_mapDialogInfo s !! b).
    + apply elem_of_snd in Hi as [x Hx]. by destruct (ok_sides _ _ Hok a b x a Hin Hx).
  - destruct Hk as [[Ha _]|[_ Hb]]; [by destruct Ha|].
    destruct (m_mapDialogInfo s !! b) as [d|] eqn:Eb; [|by destruct Hb]. exists d. split; [done|].
    pose proof (ok_infos _ _ Hok b (m_bOrigination d) (di_pCdr d)) as Hi. simpl in Hi. rewrite lookup_fmap, Eb in Hi.
    specialize (Hi eq_refl). destruct (m_bOrigination d); [|done]. destruct Hi as [[y Hy]%elem_of_fst _].
    by destruct (ok_sides _ _ Hok b y a b Hy Hin).
Qed.

Lemma origination_info_spec (s : St) a b leg other :
  tables_ok (known s) (tables_of s) -> (a, b) ∈ m_dialogs s -> pair_of a b leg other ->
  origination_info (m_mapDialogInfo s) leg other =
    (fun d => (d, bool_decide (leg = a))) <$> m_mapDialogInfo s !! a.
Proof.
  intros Hok Hin Hp. pose proof (dialog_info_kinds s a b Hok Hin) as Hk.
  destruct (dialog_legs _ _ Hok a b Hin) as (_ & _ & Hab).
  unfold origination_info. destruct (m_mapDialogInfo s !! a) as [d|] eqn:Ea; simpl.
  - destruct Hk as (Ho & _ & Hb). destruct Hp as [[-> ->]|[-> ->]]; rewrite ?Ea, ?Hb, ?Ho.
    + by rewrite bool_decide_eq_true_2.
    + by rewrite bool_decide_eq_false_2.
  - destruct Hk as (d & Hb & Ho). destruct Hp as [[-> ->]|[-> ->]]; by rewrite Ea, Hb, Ho.
Qed.

Lemma update_record_exact p f (s : St) (Q : unit -> St -> Prop) :
  Q tt (record_updated p f s) -> returns (change_cdr p f;; postCdr p) Q s.
Proof.
  intros HQ. unfold change_cdr. exec. apply post_exact. same_state HQ. by destruct s.
Qed.

Lemma bye_sent_eq an other (s : St) :
  bye_sent an other s =
  s <| m_calls ::= fun l => l ++ [outgoing_tcreate (an_ack an) other sip_method_bye ToRemote None EmptyString None []] |>
    <| m_calls ::= fun l => l ++ [outgoing_destroy (an_ack an)] |>.
Proof. unfold bye_sent. destruct s. simpl. by rewrite <- app_assoc. Qed.

Lemma bye_exact (s : St) an irq sip a b leg other (Q : Z -> St -> Prop) :
  ctl_ok s -> (a, b) ∈ m_dialogs s -> pair_of a b leg other -> sip_request sip = Some sip_method_bye ->
  Q 200 (hung_up an a leg other irq s) -> returns (processRequestInsideDialog an leg irq sip) Q s.
Proof.
  intros [_ Hok] Hin Hp Hm HQ. pose proof (tables_sides _ _ Hok) as Hs.
  destruct (proj2 Hs a b a b Hin Hin) as (Hab & Ha & Hb).
  unfold processRequestInsideDialog. apply returns_bind. eapply (associated_dialog s a b); [done|done|done|].
  assert (other <> 0) as Ho by (destruct Hp as [[-> ->]|[-> ->]]; done).
  destruct (Z.eqb_spec other 0); [done|]. cbn [negb]. exec. rewrite Hm. exec. cbv iota. exec.
  pose proof (origination_info_spec s a b leg other Hok Hin Hp) as Hi. 
  match goal with |- context [origination_info ?m leg other] => change m with (m_mapDialogInfo s) end. rewrite Hi.
  pose proof (dialog_info_kinds s a b Hok Hin) as Hk.
  assert (forall s2 : St, m_dialogs s2 = m_dialogs s -> (forall s3, s3 = (dialog_over leg other s2)
      <| m_calls ::= fun l => l ++ [incoming_destroy irq] |> -> Q 200 s3) ->
    returns (clearDialog leg;; nta (incoming_destroy irq);; mret 200) Q s2) as Hend.
  { intros s2 E HQ2. apply returns_bind. apply (clearDialog_exact leg other a b); [by rewrite E|by rewrite E|exact Hp|].
    exec. by apply HQ2. }
  unfold hung_up, bye_recorded, origination_record_of in HQ. simpl (m_mapDialogInfo _) in HQ.
  destruct (m_mapDialogInfo s !! a) as [d|] eqn:Ea; simpl (_ ≫= _) in HQ; simpl (_ <$> _); cbv iota.
  - destruct Hk as (_ & [p Ep] & _). rewrite Ep in HQ |- *. exec.
    apply returns_unbind, update_record_exact. apply Hend; [done|]. intros s3 ->. same_state HQ. by rewrite bye_sent_eq.
  - exec. apply returns_unbind, Hend; [done|]. intros s3 ->. same_state HQ. by rewrite bye_sent_eq.
Qed.

Lemma bye_event (s : St) an irq sip a b leg other :
  ctl_ok s -> (a, b) ∈ m_dialogs s -> pair_of a b leg other -> sip_request sip = Some sip_method_bye ->
  handle (EInside an leg irq sip) s =
    Ok (200, (hung_up an a leg other irq s) <| m_calls ::= fun l => l ++ [incoming_treply irq 200 None None []] |>).
Proof.
  intros Hctl Hin Hp Hm.
  eassert (returns (processRequestInsideDialog an leg irq sip) (fun r s' => r = 200 /\ s' = _) s) as H.
  { by eapply (bye_exact s an irq sip a b). }
  apply returns_elim in H as (r & s' & E & -> & ->). cbn [handle]. unfold respond, mbind, M_bind. by rewrite E.
Qed.

(** The CANCEL of a call in progress. *)
Lemma cancel_exact (s : St) an irq sip orq a b (Q : Z -> St -> Prop) :
  ctl_ok s -> call_in_progress s irq orq a b -> an_irq_leg an = a -> sip_request sip = Some sip_method_cancel ->
  Q 0 ((dialog_over a b (request_over irq orq ((cancel_recorded an orq a s)
          <| m_calls ::= fun l => l ++ [outgoing_cancel orq; outgoing_destroy orq] |>)))
         <| m_mapTerminationAttempts ::= delete orq |>) ->
  returns (processAckOrCancel an irq sip) Q s.
Proof.
  intros [Henv Hok] [Htr Hin Horq Hirq] Hleg Hm HQ. pose proof (tables_sides _ _ Hok) as Hs.
  destruct (proj2 Hs a b a b Hin Hin) as (_ & Ha & _). destruct (ok_handles _ _ Hok _ _ Htr) as [_ Ho].
  pose proof (ok_trans _ _ Hok) as Htok. simpl in Htok.
  unfold processAckOrCancel, getAssociatedTransaction_irq. rewrite Hm. exec. cbv iota. exec.
  rewrite (proj2 (left_find_Some _ irq orq Htok) Htr). rewrite decide_False by congruence. rewrite Hleg.
  destruct (Z.eqb_spec a 0); [done|]. exec.
  assert (forall s2 : St, m_transactions s2 = m_transactions s -> m_dialogs s2 = m_dialogs s ->
    (forall s3, s3 = (dialog_over a b (request_over irq orq (s2
          <| m_calls ::= fun l => l ++ [outgoing_cancel orq; outgoing_destroy orq] |>)))
         <| m_mapTerminationAttempts ::= delete orq |> -> Q 0 s3) ->
    returns (nta (outgoing_cancel orq);; nta (outgoing_destroy orq);; clearTransaction orq;; clearDialog a;;
      modify (fun s => s <| m_mapTerminationAttempts ::= delete orq |>);; mret 0) Q s2) as Hend.
  { intros s2 E1 E2 HQ2. exec. apply (clearTransaction_exact irq); [simpl; by rewrite E1|simpl; by rewrite E1|]. exec.
    apply (clearDialog_exact a b a b); [simpl; by rewrite E2|simpl; by rewrite E2|by left|]. exec. apply HQ2.
    do 3 f_equal. destruct s2. simpl. by rewrite <- app_assoc. }
  destruct (ok_calls _ _ Hok irq orq b _ Htr Horq) as (_ & a' & Ha' & _ & Hiff). simpl in Ha', Hiff.
  rewrite Hirq in Ha'. injection Ha' as <-. rewrite !lookup_fmap in Hiff.
  pose proof (dialog_info_kinds s a b Hok Hin) as Hk.
  unfold cancel_recorded, origination_record_of in HQ.
  destruct (m_mapDialogInfo s !! a) as [d|] eqn:Ea.
  - destruct Hk as (_ & [p Ep] & _). simpl (_ ≫= _) in HQ. rewrite Ep in HQ |- *. exec. apply returns_unbind, update_record_exact.
    apply Hend; [done|done|]. intros s3 ->. exact HQ.
  - destruct (m_mapTerminationAttempts s !! orq) as [t|] eqn:Et.
    2:{ destruct (proj2 Hiff eq_refl) as [x Hx]. done. }
    pose proof (ok_attempts _ _ Hok orq (m_pCdr t)) as Hat. simpl in Hat. rewrite lookup_fmap, Et in Hat.
    destruct (Hat eq_refl) as [_ (p & Ep & [c Hc])]. simpl (_ ≫= _) in HQ. rewrite Ep in HQ |- *. exec.
    simpl (_ ≫= _) in HQ. rewrite Hc in HQ. apply (post_copy_exact p _ c); [done|].
    apply Hend; [done|done|]. intros s3 ->. exact HQ.
Qed.

(** The session timer of a leg expires. *)
Lemma refresh_exact (s : St) leg a b other d (Q : Z -> St -> Prop) :
  sides_ok (m_dialogs s) -> (a, b) ∈ m_dialogs s -> pair_of a b leg other -> m_mapDialogInfo s !! leg = Some d ->
  m_timerSessionRefresh d <> 0 ->
  Q 0 (dialog_over leg other (s
         <| m_calls ::= fun l => l ++ [timer_destroy (m_timerSessionRefresh d)] |>
         <| m_mapDialogInfo ::= alter (fun d => d <| m_timerSessionRefresh := 0 |>) leg |>)) ->
  returns (processSessionRefreshTimer leg) Q s.
Proof.
  intros Hs Hin Hp Hd Ht HQ. destruct (proj2 Hs a b a b Hin Hin) as (Hab & Ha & Hb).
  assert (other <> 0) as Ho by (destruct Hp as [[-> ->]|[-> ->]]; done).
  unfold processSessionRefreshTimer, change_info. exec. rewrite Hd.
  destruct (Z.eqb_spec (m_timerSessionRefresh d) 0); [done|]. cbn [negb]. exec. apply returns_bind.
  eapply (associated_dialog _ a b); [exact Hs|exact Hin|exact Hp|].
  destruct (Z.eqb_spec other 0); [done|]. cbn [negb]. exec.
  by apply (clearDialog_exact leg other a b).
Qed.
End Lemmas.

Section Facts.
Context {P C : Type} {pool : ServerPool P} {routes : CallRoutes C}.
#[local] Abbreviation St := (Ctl P C).

Lemma timers_stack k infos leg : foldl nta_step k (timer_calls infos leg) = k.
Proof. unfold timer_calls. destruct (infos !! leg) as [d|]; [|done]. by destruct (_ =? 0). Qed.

(** Both legs of a dialog that is over are gone. *)
Lemma over_legs leg other (s : St) :
  legs (stack_of (m_calls (dialog_over leg other s))) = legs (stack_of (m_calls s)) ∖ {[ leg ]} ∖ {[ other ]}.
Proof.
  unfold dialog_over. simpl. unfold stack_of. rewrite foldl_app. cbn [foldl]. rewrite foldl_app. cbn [foldl].
  by rewrite !timers_stack.
Qed.

Lemma origination_known (s : St) a b p :
  ctl_ok s -> (a, b) ∈ m_dialogs s -> origination_record_of s a = Some p -> known s p.
Proof.
  intros [_ Hok] Hin. unfold origination_record_of. pose proof (dialog_info_kinds s a b Hok Hin) as Hk.
  destruct (m_mapDialogInfo s !! a) as [d|] eqn:E; [|done]. simpl. intros Hp. destruct Hk as (Ho & _).
  pose proof (ok_infos _ _ Hok a true (di_pCdr d)) as Hi. simpl in Hi. rewrite lookup_fmap, E in Hi. simpl in Hi.
  rewrite Ho, Hp in Hi. by destruct (Hi eq_refl) as [_ (q & [= <-] & ?)].
Qed.
End Facts.

Lemma example_connected_ok : ctl_ok example_connected.
Proof. apply after_ok; [apply example_call_ok|]. apply example_answer; [by right|lia]. Qed.

Lemma example_connected_stack :
  stack_of (m_calls example_connected) = mkStack {[ 1; 2 ]} ∅ ∅ /\ m_transactions example_connected = [] /\
  m_dialogs example_connected = [(1, 2)].
Proof. split_and!; vm_compute; reflexivity. Qed.

Lemma example_bye_ok (s : Ctl unit Impl) :
  stack_of (m_calls s) = mkStack {[ 1; 2 ]} ∅ ∅ -> m_transactions s = [] ->
  inside_ok s (example_answers 21 0 0) 1 51 (request_msg sip_method_bye "192.168.1.54").
Proof.
  intros E1 E2. unfold inside_ok, fresh_irq, fresh_orq, quiet_but. rewrite E1, E2. cbn [legs orqs].
  split; [set_solver|]. split; [split; [done|apply not_elem_of_nil]|]. split; [by right|].
  intros o l cb H. by rewrite lookup_empty in H.
Qed.

Lemma example_cancel_ok (s : Ctl unit Impl) :
  stack_of (m_calls s) = mkStack {[ 1; 2 ]} {[ 3 := (2, response_to_invite, sip_method_invite) ]} {[ 50 := 1 ]} ->
  m_transactions s = [(50, 3)] ->
  ack_or_cancel_ok s (example_answers 21 0 1) 50 (request_msg sip_method_cancel "192.168.1.54").
Proof.
  intros E1 E2. unfold ack_or_cancel_ok, leg_of_irq, quiet_but, lookup_leg. rewrite E1, E2. cbn [legs orqs irqs].
  split; [by eexists|]. rewrite lookup_singleton_eq. split; [by eexists|].
  split; [by rewrite decide_True by set_solver|].
  intros orq [E|?%not_elem_of_nil]%elem_of_cons; [|done]. injection E as ->. intros o l cb H Hne.
  by apply lookup_singleton_Some in H as [<- _].
Qed.

(** ** Properties *)

(** C11: A BYE ends the call.  A BYE on either leg of a dialog is passed on to
    the other leg, and answered with 200; both legs are destroyed, with their timers,
    and neither table mentions them any more.  The record of a call to a server is posted
    with the time and the party that hung up: the caller if the BYE came on the
    A leg, else the called party. *)
Theorem bye_ends_call {P C} {pool : ServerPool P} {routes : CallRoutes C} (s : Ctl P C) (an : answers)
    (a b leg other irq : Z) (sip : sip_t) :
  ctl_ok s -> inside_ok s an leg irq sip -> (a, b) ∈ m_dialogs s -> pair_of a b leg other ->
  sip_request sip = Some sip_method_bye ->
  exists s', handle (EInside an leg irq sip) s = Ok (200, s') /\
    m_calls s' = m_calls s ++
      [outgoing_tcreate (an_ack an) other sip_method_bye ToRemote None EmptyString None []; outgoing_destroy (an_ack an)] ++
      leg_destroy leg :: timer_calls (m_mapDialogInfo s) leg ++ leg_destroy other :: timer_calls (m_mapDialogInfo s) other ++
      [incoming_destroy irq; incoming_treply irq 200 None None []] /\
    a ∉ map fst (m_dialogs s') /\ b ∉ map snd (m_dialogs s') /\
    m_mapDialogInfo s' = delete other (delete leg (m_mapDialogInfo s)) /\ m_transactions s' = m_transactions s /\
    match origination_record_of s a with
    | Some p => exists c, store (m_cdrs s) !! p = Some c /\
        store (m_cdrs s') !! p = Some (populateByeCdr (an_now an) (bool_decide (leg = a)) c) /\
        posted (m_cdrs s') = posted (m_cdrs s) ++ (if m_cdrWriter s then [p] else [])
    | None => m_cdrs s' = m_cdrs s
    end.
Proof.
  intros Hctl _ Hin Hp Hm. eexists. split; [by apply (bye_event s an irq sip a b)|].
  pose proof (tables_sides _ _ (proj2 Hctl)) as Hs. destruct (proj2 Hs a b a b Hin Hin) as (Hab & _ & _).
  assert (a ∉ map fst (right_erase leg (left_erase leg (m_dialogs s))) /\
          b ∉ map snd (right_erase leg (left_erase leg (m_dialogs s)))) as [Hna Hnb].
  { destruct Hs as [[Hf Hss] _]. split.
    - intros [y [[H H1]%elem_of_left_erase H2]%elem_of_right_erase]%elem_of_fst. simpl in H1, H2.
      assert (y = b) as -> by (by eapply (fst_inj (m_dialogs s))). by destruct Hp as [[-> _]|[-> _]].
    - intros [x [[H H1]%elem_of_left_erase H2]%elem_of_right_erase]%elem_of_snd. simpl in H1, H2.
      assert (x = a) as -> by (by eapply (snd_inj (m_dialogs s))). by destruct Hp as [[-> _]|[-> _]]. }
  unfold hung_up, bye_recorded, dialog_over. change (origination_record_of (bye_sent an other s) a) with (origination_record_of s a).
  pose proof (origination_known s a b) as Hk.
  destruct (origination_record_of s a) as [p|] eqn:Er; simpl.
  - destruct (Hk p Hctl Hin eq_refl) as [c Hc]. split; [by simpl; repeat (rewrite <- app_assoc; simpl)|].
    do 4 (split; [done|]). exists c. by rewrite lookup_alter_eq, Hc.
  - split; [by repeat (rewrite <- app_assoc; simpl)|]. done.
Qed.

Lemma bye_ends_call_witness :
  exists s', handle (EInside (example_answers 21 0 0) 1 51 (request_msg sip_method_bye "192.168.1.54")) example_connected =
    Ok (200, s') /\ m_transactions s' = [].
Proof.
  destruct example_connected_stack as (E1 & E2 & E3).
  destruct (bye_ends_call example_connected (example_answers 21 0 0) 1 2 1 2 51
    (request_msg sip_method_bye "192.168.1.54")) as (s' & E & _ & _ & _ & _ & Ht & _).
  - exact example_connected_ok.
  - apply example_bye_ok; [exact E1|exact E2].
  - rewrite E3. apply list_elem_of_here.
  - left. split; reflexivity.
  - reflexivity.
  - exists s'. split; [exact E|]. rewrite Ht. exact E2.
Defined.

(** C12: A CANCEL ends a call that is not answered.  The outgoing INVITE is
    canceled, both legs are destroyed, with their timers, and no table mentions the call any
    more.  The record of a call to a server is posted as canceled; of a call to a carrier a
    copy is posted, with status 487.  The outgoing request is destroyed a second time. *)
Theorem cancel_ends_call {P C} {pool : ServerPool P} {routes : CallRoutes C} (s : Ctl P C) (an : answers)
    (irq orq a b : Z) (sip : sip_t) :
  ctl_ok s -> ack_or_cancel_ok s an irq sip -> call_in_progress s irq orq a b ->
  sip_request sip = Some sip_method_cancel ->
  exists s', handle (EAckOrCancel an irq sip) s = Ok (0, s') /\
    m_calls s' = m_calls s ++
      [outgoing_cancel orq; outgoing_destroy orq; incoming_destroy irq; outgoing_destroy orq] ++
      leg_destroy a :: timer_calls (m_mapDialogInfo s) a ++ leg_destroy b :: timer_calls (m_mapDialogInfo s) b /\
    m_transactions s' = right_erase orq (m_transactions s) /\
    m_dialogs s' = right_erase a (left_erase a (m_dialogs s)) /\
    m_mapDialogInfo s' = delete b (delete a (m_mapDialogInfo s)) /\
    m_mapTerminationAttempts s' = delete orq (m_mapTerminationAttempts s) /\
    m_cdrs s' = m_cdrs (cancel_recorded an orq a s).
Proof.
  intros Hctl (_ & _ & Hleg & _) Hcp Hm.
  pose proof Hcp as [_ Hin _ Hirq]. destruct Hctl as [Henv Hok].
  destruct (dialog_legs _ _ Hok a b Hin) as (Hla & _ & _).
  unfold leg_of_irq in Hleg. rewrite Hirq, (lookup_leg_live _ a Hla) in Hleg.
  eassert (returns (handle (EAckOrCancel an irq sip)) (fun r s' => r = 0 /\ s' = _) s) as H.
  { by eapply (cancel_exact s an irq sip orq a b). }
  apply returns_elim in H as (r & s' & E & -> & ->). eexists. split; [exact E|].
  assert (forall s2 : Ctl P C, m_calls s2 = m_calls s -> m_transactions s2 = m_transactions s -> m_dialogs s2 = m_dialogs s ->
    m_mapDialogInfo s2 = m_mapDialogInfo s -> m_mapTerminationAttempts s2 = m_mapTerminationAttempts s ->
    let s' := (dialog_over a b (request_over irq orq (s2
          <| m_calls ::= fun l => l ++ [outgoing_cancel orq; outgoing_destroy orq] |>)))
         <| m_mapTerminationAttempts ::= delete orq |> in
    m_calls s' = m_calls s ++
      [outgoing_cancel orq; outgoing_destroy orq; incoming_destroy irq; outgoing_destroy orq] ++
      leg_destroy a :: timer_calls (m_mapDialogInfo s) a ++ leg_destroy b :: timer_calls (m_mapDialogInfo s) b /\
    m_transactions s' = right_erase orq (m_transactions s) /\
    m_dialogs s' = right_erase a (left_erase a (m_dialogs s)) /\
    m_mapDialogInfo s' = delete b (delete a (m_mapDialogInfo s)) /\
    m_mapTerminationAttempts s' = delete orq (m_mapTerminationAttempts s) /\
    m_cdrs s' = m_cdrs s2) as Hgo.
  { intros s2 E1 E2 E3 E4 E5. simpl. rewrite E1, E2, E3, E4, E5. split; [by repeat (rewrite <- app_assoc; simpl)|done]. }
  unfold cancel_recorded. destruct (origination_record_of s a); [by apply Hgo|].
  destruct (t ← _; _); by apply Hgo.
Qed.

Lemma cancel_ends_call_witness :
  exists s', handle (EAckOrCancel (example_answers 21 0 1) 50 (request_msg sip_method_cancel "192.168.1.54"))
      (example_call "192.168.1.54") = Ok (0, s') /\ m_transactions s' = [].
Proof.
  destruct (example_call_stack "192.168.1.54" ltac:(by right)) as (E1 & E2 & E3).
  destruct (cancel_ends_call (example_call "192.168.1.54") (example_answers 21 0 1) 50 3 1 2
    (request_msg sip_method_cancel "192.168.1.54")) as (s' & E & _ & Ht & _).
  - apply example_call_ok.
  - apply example_cancel_ok; [exact E1|exact E2].
  - apply example_progress. by right.
  - reflexivity.
  - exists s'. split; [exact E|]. rewrite Ht, E2. reflexivity.
Defined.

(** An expired session ends in silence.  When the session timer of a leg
    expires, both legs are destroyed; but no BYE is sent on either of them, and no record is
    changed or posted, so that the parties are not told and the call's record never gets
    an end. *)
Theorem expired_session_is_silent {P C} {pool : ServerPool P} {routes : CallRoutes C} (s : Ctl P C)
    (a b leg other : Z) (d : SipDialogInfo) :
  ctl_ok s -> (a, b) ∈ m_dialogs s -> pair_of a b leg other -> m_mapDialogInfo s !! leg = Some d ->
  m_timerSessionRefresh d <> 0 ->
  exists s', handle (ERefresh leg) s = Ok (0, s') /\
    m_calls s' = m_calls s ++ [timer_destroy (m_timerSessionRefresh d); leg_destroy leg; leg_destroy other] /\
    m_dialogs s' = right_erase leg (left_erase leg (m_dialogs s)) /\ m_cdrs s' = m_cdrs s.
Proof.
  intros [_ Hok] Hin Hp Hd Ht. pose proof (tables_sides _ _ Hok) as Hs.
  destruct (dialog_legs _ _ Hok a b Hin) as (_ & _ & Hab).
  eassert (returns (handle (ERefresh leg)) (fun r s' => r = 0 /\ s' = _) s) as H.
  { by eapply (refresh_exact s leg a b other d). }
  apply returns_elim in H as (r & s' & E & -> & ->). eexists. split; [exact E|].
  assert (m_mapDialogInfo s !! other = None) as Hnone.
  { pose proof (dialog_info_kinds s a b Hok Hin) as Hk. destruct Hp as [[-> ->]|[-> ->]].
    - rewrite Hd in Hk. by apply Hk.
    - destruct (m_mapDialogInfo s !! a); [|done]. destruct Hk as (_ & _ & Hb). congruence. }
  assert (leg <> other) as Hne by (destruct Hp as [[-> ->]|[-> ->]]; congruence).
  unfold dialog_over. simpl. split; [|done]. unfold timer_calls.
  rewrite lookup_alter_eq, Hd, lookup_alter_ne, Hnone by done. simpl. by rewrite <- app_assoc.
Qed.

Lemma expired_session_is_silent_witness :
  exists s', handle (ERefresh 1) example_connected = Ok (0, s') /\ m_dialogs s' = [] /\
    m_cdrs s' = m_cdrs example_connected.
Proof.
  destruct example_connected_stack as (E1 & E2 & E3).
  edestruct (expired_session_is_silent example_connected 1 2 1 2) as (s' & E & _ & Hd & Hc).
  - exact example_connected_ok.
  - rewrite E3. apply list_elem_of_here.
  - left. split; reflexivity.
  - vm_compute. reflexivity.
  - discriminate.
  - exists s'. split; [exact E|]. split; [rewrite Hd, E3; reflexivity|exact Hc].
Defined.

(** C40: A BYE before the answer is fatal.  When either party hangs up (a BYE is
    allowed on an early dialog) while the call's INVITE is outstanding, the legs
    go but the transaction stays; and the next response to the INVITE, whatever
    it is, fails an assertion, which ends the process and every call in it. *)
Theorem early_bye_is_fatal {P C} {pool : ServerPool P} {routes : CallRoutes C} (s : Ctl P C) (an an' : answers)
    (irq orq a b leg other i : Z) (bye response : sip_t) :
  ctl_ok s -> call_in_progress s irq orq a b -> pair_of a b leg other -> sip_request bye = Some sip_method_bye ->
  exists s', handle (EInside an leg i bye) s = Ok (200, s') /\
    (an_out_leg an' = lookup_leg s' b -> handle (EInviteResponse an' orq response) s' = Fault AssertFailed).
Proof.
  intros Hctl Hcp Hp Hm. pose proof Hcp as [Htr Hin _ _]. eexists. split; [by apply (bye_event s an i bye a b)|].
  set (s' := _ <| m_calls ::= _ |>).
  assert (m_transactions s' = m_transactions s) as Et.
  { unfold s', hung_up, bye_recorded. simpl. by destruct (origination_record_of _ a). }
  assert (b ∉ legs (stack_of (m_calls s'))) as Hb.
  { unfold s', hung_up. cbn [update m_calls]. rewrite !stack_of_snoc. cbn [nta_step legs Z.leb Z.compare Pos.compare Pos.compare_cont]. rewrite over_legs.
    destruct Hp as [[-> ->]|[-> ->]]; set_solver. }
  intros Hout. unfold lookup_leg in Hout. rewrite decide_False in Hout by done.
  pose proof (ok_trans _ _ (proj2 Hctl)) as Htok. simpl in Htok.
  cbn [handle]. unfold processInviteResponseInsideDialog, getAssociatedTransaction_orq, mbind, M_bind, gets. rewrite Et.
  rewrite (proj2 (right_find_Some _ irq orq Htok) Htr). rewrite Hout.
  destruct (ok_handles _ _ (proj2 Hctl) _ _ Htr) as [Hi _]. simpl.
  by destruct (Z.eqb_spec irq 0).
Qed.

Lemma early_bye_is_fatal_witness :
  exists s', handle (EInside (example_answers 21 0 0) 1 51 (request_msg sip_method_bye "192.168.1.54"))
      (example_call "192.168.1.54") = Ok (200, s') /\
    (0 = lookup_leg s' 2 ->
     handle (EInviteResponse (example_answers 31 0 0) 3 (response_msg 487 sip_method_invite)) s' = Fault AssertFailed).
Proof.
  apply (early_bye_is_fatal (example_call "192.168.1.54") (example_answers 21 0 0) (example_answers 31 0 0) 50 3 1 2 1 2 51).
  - apply example_call_ok.
  - apply example_progress. by right.
  - left. split; reflexivity.
  - reflexivity.
Defined.
