(* ===== verification/CallLimit.v ===== *)
(** * CallLimit: the number of calls, and the widths of the counters

    A proxy that is started with a number of iterations counts the calls it
    sets up; and the numbers the controller keeps stay within their C types
    in every run. *)

From S2P Require Import Prelude Text Sip Bimap Ssp FsInstance FsMonitor Routing SspConfig Routes.
From S2P Require Import Cdr CdrWriter TrunkStats CallControl CallTables CallSafety CallRuns CallEffects CallSetup CallResponses CallAttempts.

(** ** Specification *)

Definition is_i32 (z : Z) : Prop := -2^31 <= z < 2^31.

(** The counters of a trunk: 64 bits each, one failure counter per status. *)
Definition stats_typed (t : TrunkStats) : Prop :=
  is_u64 (m_attempts t) /\ length (m_fails t) = 700%nat /\ Forall is_u64 (m_fails t).

(** The members of the controller that are counters. *)
Definition counters_typed {P C} (s : Ctl P C) : Prop :=
  is_i32 (m_nIterationCount s) /\ is_u32 (m_nTerminationRetries s) /\
  map_Forall (fun _ => stats_typed) (m_mapTrunkStats s) /\
  map_Forall (fun _ t => is_u32 (m_nAttemptCount t)) (m_mapTerminationAttempts s).

Section Calls.
Context {P C : Type} {pool : ServerPool P} {routes : CallRoutes C}.
#[local] Abbreviation St := (Ctl P C).

(** The type of the call that an event has set up, or tried to: an INVITE
    outside a dialog that is complete and comes from a known peer; from a
    carrier, only while the proxy is in service. *)
Definition call_of (e : event (P := P)) (s : St) : option call_type_t :=
  match e with
  | EOutside an irq sip =>
      match sip_request sip, validateSipMessage sip s with
      | Some sip_method_invite, Ok (0, _) =>
          match determineCallType sip s with
          | Ok ((origination_call_type, _), _) => if offline s then None else Some origination_call_type
          | Ok ((termination_call_type, _), _) => Some termination_call_type
          | _ => None
          end
      | _, _ => None
      end
  | _ => None
  end.

(** The calls of a run, in order, and its last state. *)
Fixpoint calls_of (es : list (event (P := P))) (s : St) : outcome (list call_type_t * St) :=
  match es with
  | [] => Ok ([], s)
  | e :: es =>
      r ← handle e s;
      l ← calls_of es (snd r);
      Ok (match call_of e s with Some c => c :: fst l | None => fst l end, snd l)
  end.
End Calls.

Definition is_origination (c : call_type_t) : bool :=
  match c with origination_call_type => true | _ => false end.

(** ** Lemmas *)

Lemma stats_typed_attempt t : stats_typed t -> stats_typed (incrementAttemptCount t).
Proof.
  intros (H1 & H2 & H3). unfold incrementAttemptCount. pose proof (wrap64_range (m_attempts t + 1)).
  destruct (0 =? _); split_and!; try done. simpl. apply Forall_replicate. vm_compute. by split.
Qed.

Lemma stats_typed_failure status t t' :
  stats_typed t -> incrementFailureCount status t = Ok t' -> stats_typed t'.
Proof.
  intros (H1 & H2 & H3). unfold incrementFailureCount. destruct (negb _); [done|]. intros [= <-].
  split_and!; simpl; [done|by rewrite length_alter|]. apply Forall_alter; [done|]. intros. apply wrap64_range.
Qed.

Lemma stats_typed_new address carrier : stats_typed (new_TrunkStats address carrier).
Proof. split_and!; [vm_compute; by split|done|]. apply Forall_replicate. vm_compute. by split. Qed.

Section Counts.
Context {P C : Type} {pool : ServerPool P} {routes : CallRoutes C}.
#[local] Abbreviation St := (Ctl P C).

(** What everything but the end of a new call's callback keeps. *)
Definition counts (n : Z) (s : St) : Prop :=
  m_nIterationCount s = n /\ map_Forall (fun _ => stats_typed) (m_mapTrunkStats s).

Context (n : Z).
#[local] Abbreviation I := (counts n).

Lemma keeps_counts_other (f : St -> St) :
  (forall s, m_nIterationCount (f s) = m_nIterationCount s) ->
  (forall s, m_mapTrunkStats (f s) = m_mapTrunkStats s) -> keeps I (modify f).
Proof. intros H1 H2. apply keeps_modify. intros s [Hn Hf]. split; [by rewrite H1|by rewrite H2]. Qed.

(** A computation on a value of the state, which the invariant restricts. *)
Lemma keeps_gets_with {A B} (f : St -> A) (k : A -> M St B) :
  (forall s, I s -> keeps I (k (f s))) -> keeps I (a ← gets f; k a).
Proof. intros H s b s' Hs E. exact (H s Hs s b s' Hs E). Qed.

Lemma keeps_counts_config {A} (m : M C A) : keeps I (config m).
Proof.
  intros s a s' Hs H. unfold config in H. destruct (m (m_Config s)) as [[r c]|]; [|done].
  by injection H as <- <-.
Qed.

Lemma keeps_counts_servers : keeps I (getAvailableServers (P := P) (C := C)).
Proof.
  intros s a s' Hs H. unfold getAvailableServers in H. destruct (pool_get (m_fsMonitor s)) as [[r p]|]; [|done].
  by injection H as <- <-.
Qed.

Lemma keeps_store_stats k t :
  stats_typed t -> keeps I (modify (fun s => s <| m_mapTrunkStats ::= <[ k := t ]> |>)).
Proof. intros Ht. apply keeps_modify. intros s [Hn Hf]. split; [done|]. simpl. by apply map_Forall_insert_2. Qed.
End Counts.

#[export] Hint Resolve keeps_counts_config keeps_counts_servers : keeps.
#[export] Hint Extern 1 (keeps (counts _) (modify _)) => apply keeps_counts_other; done : keeps.

(** [keeps_auto], with what the invariant says of the statistics that are read. *)
Ltac counts_auto :=
  repeat (cbv zeta; lazymatch goal with
  | |- forall _, _ => intros ?
  | |- keeps _ (mbind _ (gets m_mapTrunkStats)) =>
      let s := fresh "s" in let Hn := fresh "Hn" in let Hf := fresh "Hf" in apply keeps_gets_with; intros s [Hn Hf]
  | |- keeps _ (mbind _ _) => apply keeps_bind
  | |- keeps _ (if ?x then _ else _) => destruct x
  | |- keeps _ _ => solve [eauto 4 with keeps]
  end).

Section Handlers.
Context {P C : Type} {pool : ServerPool P} {routes : CallRoutes C}.
#[local] Abbreviation St := (Ctl P C).
Context (n : Z).
#[local] Abbreviation I := (counts (P := P) (C := C) n).

Lemma keeps_counts_generate an t : keeps I (generateTerminationRequest an t).
Proof.
  unfold generateTerminationRequest, fits_url, change_cdr, nta. counts_auto.
  apply keeps_store_stats, stats_typed_attempt. destruct (_ !! _) as [u|] eqn:E; [by eapply Hf|apply stats_typed_new].
Qed.

Lemma keeps_counts_failure t status : keeps I (count_failure t status).
Proof.
  unfold count_failure. counts_auto. destruct (_ !! _) as [u|] eqn:E; [|apply keeps_ret].
  intros s1 a s2 H1. unfold mbind, M_bind, lift. destruct (incrementFailureCount status u) as [u'|] eqn:Eu; [|done].
  apply keeps_store_stats; [|done]. eapply stats_typed_failure; [|exact Eu]. by eapply Hf.
Qed.

#[local] Hint Resolve keeps_counts_generate keeps_counts_failure : keeps.

Lemma keeps_counts_retry an irq orq leg : keeps I (retry an irq orq leg).
Proof.
  unfold retry, updateOutgoingTransaction, updateDialog, addTransactions, addDialogs, getAssociatedDialog, nta. keeps_auto.
Qed.

#[local] Hint Resolve keeps_counts_retry : keeps.

Lemma keeps_counts_crank an irq orq leg p status sip : keeps I (crank an irq orq leg p status sip).
Proof.
  unfold crank, redirect, next_carrier, change_attempt, change_cdr, post_copy, cdr_at, new_cdr, postCdr. keeps_auto.
Qed.

Lemma keeps_counts_clear leg orq : keeps I (clearDialog leg) /\ keeps I (clearTransaction orq).
Proof.
  split; unfold clearDialog, clearTransaction, getAssociatedDialog, getAssociatedTransaction_orq, erase_info, nta; keeps_auto.
Qed.

Lemma keeps_counts_records p f : keeps I (post_copy p f) /\ keeps I (postCdr p) /\ keeps I (change_cdr p f).
Proof. split_and!; unfold post_copy, cdr_at, new_cdr, change_cdr, postCdr; keeps_auto. Qed.
End Handlers.

#[export] Hint Resolve keeps_counts_generate keeps_counts_failure keeps_counts_crank : keeps.
#[export] Hint Extern 2 (keeps (counts _) (clearDialog _)) => apply (keeps_counts_clear _ _ 0) : keeps.
#[export] Hint Extern 2 (keeps (counts _) (clearTransaction _)) => apply (keeps_counts_clear _ 0 _) : keeps.
#[export] Hint Extern 2 (keeps (counts _) (post_copy _ _)) => apply keeps_counts_records : keeps.
#[export] Hint Extern 2 (keeps (counts _) (postCdr _)) => apply (keeps_counts_records _ _ id) : keeps.
#[export] Hint Extern 2 (keeps (counts _) (change_cdr _ _)) => apply keeps_counts_records : keeps.

Section Events.
Context {P C : Type} {pool : ServerPool P} {routes : CallRoutes C}.
#[local] Abbreviation St := (Ctl P C).

(** Whatever happens other than a request outside a dialog uses no call up. *)
Lemma handle_counts n (e : event (P := P)) :
  (forall an irq sip, e <> EOutside an irq sip) -> keeps (counts (P := P) (C := C) n) (handle e).
Proof.
  intros He. destruct e as [an irq sip|an orq sip|an irq sip|an leg irq sip|an orq sip|leg|an sip|p|]; simpl.
  - by destruct (He an irq sip).
  - unfold processInviteResponseInsideDialog, record_of_call, finish_response, invite_accepted, start_session_timer,
      proxy_response, change_info, send_ack, getAssociatedTransaction_orq, nta. keeps_auto.
  - unfold processAckOrCancel, getAssociatedTransaction_irq, nta. keeps_auto.
  - unfold respond, processRequestInsideDialog, getAssociatedDialog, addTransactions, nta. keeps_auto.
  - unfold processResponseInsideDialog, send_ack, getAssociatedTransaction_orq, nta. keeps_auto.
  - unfold processSessionRefreshTimer, getAssociatedDialog, change_info, nta. keeps_auto.
  - unfold processRetransmittedResponse, send_ack, nta. keeps_auto.
  - keeps_auto.
  - keeps_auto.
Qed.

Lemma keeps_counts_calls n an irq sip carrier :
  keeps (counts (P := P) (C := C) n) (processOriginationRequest an irq sip carrier) /\
  keeps (counts (P := P) (C := C) n) (processTerminationRequest an irq sip) /\
  forall status cause, keeps (counts (P := P) (C := C) n) (reject_call an sip carrier status cause).
Proof.
  split_and!; [..|intros status cause];
    unfold reject_call, processOriginationRequest, processTerminationRequest, choose_route, populateTerminationCdr,
      populateOriginationCdr, addTransactions, addDialogs, cdr_at, fits_url, to_string, reject, new_cdr, nta; keeps_auto.
Qed.

(** How many calls are left after one. *)
Definition one_less (n : Z) : Z := if 0 <? n then n - 1 else n.

(** Computations that only look. *)
Lemma looking {A} (m : M St A) s a s' : (forall s0, keeps (fun s => s = s0) m) -> m s = Ok (a, s') -> s' = s.
Proof. intros Hm. by apply (keeps_elim _ _ _ _ _ (Hm s)). Qed.

Lemma validate_state sip s rc s' : validateSipMessage (P := P) (C := C) sip s = Ok (rc, s') -> s' = s.
Proof. apply looking. intros s0. unfold validateSipMessage. keeps_auto. Qed.

Lemma callType_state sip s t s' : determineCallType (P := P) (C := C) sip s = Ok (t, s') -> s' = s.
Proof. apply looking. intros s0. unfold determineCallType, to_string. keeps_auto. Qed.

Lemma go_on_counts (m : M St Z) n s r s' :
  keeps (counts n) m -> counts n s ->
  (rc ← m; modify (fun s => s <| m_nIterationCount ::= fun n => if 0 <? n then n - 1 else n |>);; mret rc) s = Ok (r, s') ->
  counts (one_less n) s'.
Proof.
  intros Hm Hs (rc & s1 & E & H)%M_bind_ok. destruct (Hm _ _ _ Hs E) as [Hn Hf].
  injection H as <- <-. split; [by rewrite <- Hn|exact Hf].
Qed.

Lemma outside_counts an irq sip s r s' n :
  counts n s -> handle (EOutside an irq sip) s = Ok (r, s') ->
  counts (if call_of (EOutside an irq sip) s then one_less n else n) s'.
Proof.
  intros Hs (r1 & s1 & E & H)%M_bind_ok. set (n' := if call_of _ _ then _ else _).
  enough (counts n' s1) as H1.
  { revert H1 H. apply (keeps_elim (counts n')). unfold nta. keeps_auto. }
  clear H. apply M_bind_ok in E as (rc & s2 & Ev & E). unfold n', call_of. rewrite Ev. apply validate_state in Ev as ->.
  destruct (decide (rc = 0)) as [Hrc|Hrc].
  2:{ rewrite (proj2 (Z.eqb_neq _ _) Hrc) in E. injection E as <- <-. destruct (sip_request sip) as [[]|], rc; done. }
  subst rc. simpl in E.
  destruct (sip_request sip) as [m|]; [|done]. apply M_bind_ok in E as (m1 & s2 & Em & E). injection Em as <- <-.
  assert (forall (k : M St Z), keeps (counts n) k -> k s = Ok (r1, s1) -> counts n s1) as Hk by (intros k Hk; by apply Hk).
  destruct m; try (by injection E as <- <-).
  - revert E. apply Hk. unfold determineCallType, to_string, nta. keeps_auto.
  - apply M_bind_ok in E as (t & s2 & Et & E). rewrite Et. apply callType_state in Et as ->. destruct t as [t carrier].
    apply M_bind_ok in E as (u & s2 & Eu & E). assert (counts n s2) as H2.
    { revert Hs Eu. apply keeps_elim. unfold nta. keeps_auto. }
    injection Eu as <- <-.
    destruct (keeps_counts_calls n an irq sip carrier) as (Ho & Ht & Hr). unfold offline.
    apply M_bind_ok in E as (cfg & s3 & Ec & E). injection Ec as <- <-.
    apply M_bind_ok in E as (m & s3 & Ec & E). injection Ec as <- <-. simpl in E.
    destruct t.
    + by eapply Hr in E.
    + destruct (_ || _); [by eapply Hr in E|]. by eapply go_on_counts in E.
    + by eapply go_on_counts in E.
Qed.

Lemma event_counts e s r s' n :
  counts n s -> handle (pool := pool) e s = Ok (r, s') -> counts (if call_of e s then one_less n else n) s'.
Proof.
  intros Hs H. destruct e eqn:Ee; [by eapply outside_counts|..]; simpl call_of; revert Hs H; rewrite <- Ee;
    apply keeps_elim, handle_counts; by subst.
Qed.

(** Originations are only begun while calls are left. *)
Lemma origination_counted e s : call_of e s = Some origination_call_type -> m_nIterationCount s <> 0.
Proof.
  unfold call_of. destruct e; try done. destruct (sip_request _) as [[]|]; try done.
  destruct (validateSipMessage _ _) as [[[] ?]|]; try done.
  destruct (determineCallType _ _) as [[[[] ?] ?]|]; try done.
  unfold offline. destruct (Z.eqb_spec 0 (m_nIterationCount s)) as [H|H]; [by rewrite orb_true_r|]. by intros _ ?.
Qed.
End Events.

Section Runs.
Context {P C : Type} {pool : ServerPool P} {routes : CallRoutes C}.
#[local] Abbreviation St := (Ctl P C).

Lemma one_less_range n : is_i32 n -> is_i32 (one_less n).
Proof. unfold is_i32, one_less. destruct (Z.ltb_spec 0 n); lia. Qed.

Lemma initial_counts cfg (p : P) cdrs w iterations retries contact agent :
  counts (C := C) iterations (initial_ctl cfg p cdrs w iterations retries contact agent).
Proof. split; [done|]. apply map_Forall_empty. Qed.

(** Every run has calls, and stays typed. *)
Lemma runs_calls (s s' : St) es :
  runs call_step s es s' -> forall n, counts n s ->
  exists l, calls_of es s = Ok (l, s') /\ counts (Nat.iter (length l) one_less n) s' /\
    (0 <= n -> Z.of_nat (length (List.filter is_origination l)) <= n).
Proof.
  induction 1 as [s|s e s1 es s2 [_ [r E]] _ IH]; intros n Hs.
  { exists []. simpl. split; [done|]. split; [done|lia]. }
  pose proof (event_counts e s r s1 n Hs E) as H1.
  destruct (IH _ H1) as (l & El & Hl & Ho). simpl. rewrite E. unfold mbind, outcome_bind. simpl. rewrite El. simpl.
  destruct (call_of e s) as [c|] eqn:Ec; [|by exists l].
  exists (c :: l). split; [done|]. split; [by rewrite length_cons, Nat.iter_succ_r|]. intros Hn. simpl.
  assert (0 <= one_less n) as H0 by (unfold one_less; destruct (Z.ltb_spec 0 n); lia).
  specialize (Ho H0). destruct (is_origination c) eqn:Eo; simpl length; unfold one_less in Ho; destruct (Z.ltb_spec 0 n); try lia.
  destruct c; try done. apply origination_counted in Ec. destruct Hs as [Hs _]. lia.
Qed.

Lemma iter_less k n : Nat.iter k one_less n = if 0 <? n then Z.max 0 (n - Z.of_nat k) else n.
Proof.
  induction k as [|k IH]; simpl Nat.iter.
  - destruct (Z.ltb_spec 0 n); lia.
  - rewrite IH. unfold one_less. destruct (Z.ltb_spec 0 n); [|by destruct (Z.ltb_spec 0 n); lia].
    destruct (Z.ltb_spec 0 (Z.max 0 (n - Z.of_nat k))); lia.
Qed.
End Runs.

(** ** Properties *)



(** *** An example: a proxy that is to handle one call *)

Definition limited_ctl : Ctl unit Impl :=
  initial_ctl (load (example_pt example_carriers)) tt true (new_CdrWriter []) 1 2 own_url "agent".

Definition limited_call (host : string) : event (P := unit) :=
  EOutside (example_answers 1 0 0) 50 (request_msg sip_method_invite host).

Lemma limited_ctl_ok : ctl_ok limited_ctl.
Proof. apply initial_ctl_ok; [apply load_short|done|by eexists]. Qed.

Lemma limited_runs host : runs call_step limited_ctl [limited_call host] (after (limited_call host) limited_ctl).
Proof. apply after_runs; [apply limited_ctl_ok|]. exact (first_invite_ok limited_ctl host eq_refl eq_refl). Qed.


