(* ===== verification/Nagios.v ===== *)
(** * Nagios: the statistics server and its client

    [nagios-connector.h], [nagios-connector.cpp]: a TCP server, on a thread of
    its own, that reads one command on each connection, answers with a text
    about the controller or has the application servers reload their
    configuration; and [check-ssp.cpp], the command-line program that sends
    those commands.  A handler is a computation over the controller; the
    connections are a small machine around it. *)

From stdpp Require Import sorting.
From S2P Require Import Prelude Text Tokenizer FsMessage FsInstance FsMonitor.
From S2P Require Import PropertyTree Routing SspConfig TrunkStats CallControl.

(** ** The server's requests *)

(** The controller the server asks. *)
Abbreviation Proxy := (Ctl FsMonitor Impl).

Definition servers_of (s : Proxy) : list FsInstance := m_servers (m_fsMonitor s).

(** What a request ends with: a text to write, or an exception. *)
Inductive reply := Reply (text : string) | Threw (e : exn).

Section Requests.
(** [std::sort] on the handles of the servers; the order in which an
    [unordered_map] is visited. *)
Context (sort : (Z -> Z -> bool) -> list Z -> list Z).
Context (iteration : gmap string TrunkStats -> list (string * TrunkStats)).

(** [name_sorter], on handles. *)
Definition name_sorter (servers : list FsInstance) (a b : Z) : bool :=
  match servers !! Z.to_nat a, servers !! Z.to_nat b with
  | Some x, Some y => string_ltb (FsInstance.m_strAddress x) (FsInstance.m_strAddress y)
  | _, _ => false
  end.

(** [getAllServers], and the sorting by name. *)
Definition sorted_servers (s : Proxy) : list Z :=
  sort (name_sorter (servers_of s)) (seqZ 0 (Z.of_nat (length (servers_of s)))).

(** The loop of [processNagiosRequest]: [nActiveServers], [total] and the text
    of [ol]. *)
Record tally := mkTally { nActiveServers : Z; total : Z; ol : string }.

Definition count_server (brief : bool) (t : tally) (p : FsInstance) : tally :=
  let active := if isOnline p then wrap32 (nActiveServers t + 1) else nActiveServers t in
  if brief then mkTally active (total t) (ol t)
  else if isOnline p then
    let current := m_nCurrentSessions p in
    mkTally active (wrap32 (total t + current))
      (ol t +:+ FsInstance.m_strAddress p +:+ ",online," +:+ m_strSipAddress p +:+ ":" +:+ dec (m_nSipPort p) +:+ "," +:+
       dec current +:+ "," +:+ dec (m_nMaxSessions p) +:+ endl)
  else mkTally active (total t) (ol t +:+ FsInstance.m_strAddress p +:+ ",offline,,," +:+ endl).

(** [processNagiosRequest]. *)
Definition processNagiosRequest (brief : bool) : M Proxy reply :=
  active ← gets (fun s : Proxy => m_bIsActive (m_Config s));
  legs ← gets getCountOfDialogs;
  l ← gets sorted_servers;
  servers ← gets servers_of;
  insts ← lift (resolve servers l);
  let t := foldl (count_server brief) (mkTally 0 0 EmptyString) insts in
  let ol := if brief then ol t
            else ol t +:+ "total active freeswitch session count: " +:+ dec (total t) +:+ endl in
  mret (Reply (
    (if (active : bool) then "System Active " else "System Inactive ") +:+ dec legs +:+ " call legs " +:+
    " | " +:+ dec (nActiveServers t) +:+ " of " +:+ dec (Z.of_nat (length insts)) +:+
    " freeswitch servers active" +:+ endl +:+
    (if brief then EmptyString else "|" +:+ endl +:+ ol +:+ endl))).

(** A change of the server with a handle. *)
Definition put_server (k : Z) (p : FsInstance) (s : Proxy) : Proxy :=
  s <| m_fsMonitor ::= fun m => m <| m_servers ::= <[ Z.to_nat k := p ]> |> |>.

(** The loop of [processFsReloadxml]: [wr k] tells whether the write to the
    server with handle [k] succeeds; an exception leaves the loop. *)
Fixpoint reload_servers (wr : Z -> bool) (l : list Z) : M Proxy (option exn) :=
  match l with
  | [] => mret None
  | k :: l =>
      servers ← gets servers_of;
      p ← lift (at_ servers k);
      if isOnline p then
        let '(p', e) := reloadxml (wr k) p in
        modify (put_server k p');;
        match e with
        | Some e => mret (Some e)
        | None => reload_servers wr l
        end
      else reload_servers wr l
  end.

Definition processFsReloadxml (wr : Z -> bool) : M Proxy reply :=
  l ← gets sorted_servers;
  e ← reload_servers wr l;
  mret (match e with Some e => Threw e | None => Reply ("OK" +:+ endl) end).

(** The lines [processOutboundTrunkStatsRequest] writes of one trunk. *)
Definition status_line (tr : TrunkStats) (i : Z) : string :=
  let count := getFailureCount_of i tr in
  if 0 <? count then "   " +:+ dec i +:+ ": " +:+ dec count +:+ endl else EmptyString.

Definition trunk_lines (brief : bool) (tr : TrunkStats) : string :=
  TrunkStats.m_strAddress tr +:+ " (" +:+ m_strCarrier tr +:+ ") attempts/failures: " +:+
  dec (getAttemptCount tr) +:+ "/" +:+ dec (getFailureCount tr) +:+ endl +:+
  (if brief then EmptyString else concat_str (map (status_line tr) (seqZ 400 300))).

Definition processOutboundTrunkStatsRequest (brief : bool) : M Proxy reply :=
  stats ← gets getOutboundTrunkStats;
  let trunks := iteration stats in
  mret (Reply (
    concat_str (map (fun it => trunk_lines brief (snd it)) trunks) +:+
    match trunks with
    | [] => "No outbound trunks have been utilized for calling yet" +:+ endl
    | _ :: _ => EmptyString
    end)).

Definition processResetOutboundStatsRequest : M Proxy reply :=
  modify resetOutboundTrunkStats;;
  mret (Reply ("OK" +:+ endl)).

(** The requests, and the names they have on the wire. *)
Inductive command := NagiosSummary (brief : bool) | OutboundStats (brief : bool) | ResetStats | ReloadXml.

Definition serve (wr : Z -> bool) (c : command) : M Proxy reply :=
  match c with
  | NagiosSummary brief => processNagiosRequest brief
  | OutboundStats brief => processOutboundTrunkStatsRequest brief
  | ResetStats => processResetOutboundStatsRequest
  | ReloadXml => processFsReloadxml wr
  end.

(** [StatsSession::read_handler] on the bytes transferred (none when there is
    an error, which it does not look at): [None] when nothing is written. *)
Definition first_token (s : string) : string :=
  match tokenize (String newline (String (Ascii.ascii_of_N 13) ", ")) s with
  | t :: _ => t
  | [] => EmptyString
  end.

Definition answer_with (m : M Proxy reply) : M Proxy (option reply) := r ← m; mret (Some r).

Definition read_handler (wr : Z -> bool) (s : string) : M Proxy (option reply) :=
  let command := first_token s in
  if String.eqb command "nagios-short" then answer_with (processNagiosRequest true)
  else if String.eqb command "nagios-long" then answer_with (processNagiosRequest false)
  else if String.eqb command "outbound-stats-short" then answer_with (processOutboundTrunkStatsRequest true)
  else if String.eqb command "outbound-stats-long" then answer_with (processOutboundTrunkStatsRequest false)
  else if String.eqb command "outbound-stats-reset" then answer_with processResetOutboundStatsRequest
  else if String.eqb command "fs-reloadxml" then answer_with (processFsReloadxml wr)
  else mret None.

(** ** The connections of the server *)

(** A [StatsSession] that waits for its read, or for its write, to complete.
    One that waits for nothing is gone: only the outstanding operation kept it
    alive, and its socket closes. *)
Inductive session := Reading | Writing (text : string).

(** [m_thread] tells whether the thread is in [m_ioservice.run()]; an accept
    is outstanding all the time. *)
Record NagiosConnector := mkConnector { m_thread : bool; m_sessions : gmap Z session }.

#[export] Instance NagiosConnector_rebuild : Rebuild NagiosConnector := fun n =>
  mkConnector (m_thread n) (m_sessions n).

(** The constructor. *)
Definition new_NagiosConnector : NagiosConnector := mkConnector true ∅.

(** [accept_handler] for the new session [k]; [ec] is true for an error. *)
Definition accept_handler (k : Z) (ec : bool) (n : NagiosConnector) : NagiosConnector :=
  if negb ec then n <| m_sessions ::= <[ k := Reading ]> |> else n.

(** What the completion of a read leaves of the session; an exception leaves
    [threadFunc]. *)
Definition session_read (k : Z) (r : option reply) (n : NagiosConnector) : NagiosConnector :=
  match r with
  | None => n <| m_sessions ::= delete k |>
  | Some (Reply t) => n <| m_sessions ::= <[ k := Writing t ]> |>
  | Some (Threw _) => n <| m_sessions ::= delete k |> <| m_thread := false |>
  end.

Definition write_handler (k : Z) (n : NagiosConnector) : NagiosConnector := n <| m_sessions ::= delete k |>.

(** [SController]: the rest of the program goes on. *)
Inductive stats_event :=
| SAccept (k : Z) (ec : bool)
| SRead (k : Z) (data : string) (wr : Z -> bool)
| SWrite (k : Z)
| SController (p : Proxy).

Inductive stats_step : NagiosConnector * Proxy -> stats_event -> NagiosConnector * Proxy -> Prop :=
| stats_accept n p k ec :
    m_thread n = true -> m_sessions n !! k = None ->
    stats_step (n, p) (SAccept k ec) (accept_handler k ec n, p)
| stats_read n p k data wr r p' :
    m_thread n = true -> m_sessions n !! k = Some Reading -> read_handler wr data p = Ok (r, p') ->
    stats_step (n, p) (SRead k data wr) (session_read k r n, p')
| stats_write n p k t :
    m_thread n = true -> m_sessions n !! k = Some (Writing t) ->
    stats_step (n, p) (SWrite k) (write_handler k n, p)
| stats_controller n p p' : stats_step (n, p) (SController p') (n, p').
End Requests.

(** ** The client, [check-ssp] *)

(** What [getopt_long] returns: a flag it has set, an option with its
    argument, or [?]. *)
Inductive flag := help | long | show_outbound_stats | reset_outbound_stats | fs_reloadxml.
Inductive getopt_result := OFlag (f : flag) | OHost (optarg : string) | OPort (optarg : string) | OUnknown.

#[export] Instance flag_eq_dec : EqDecision flag.
Proof. solve_decision. Defined.
#[export] Instance getopt_result_eq_dec : EqDecision getopt_result.
Proof. solve_decision. Defined.

Record Options := mkOptions {
  printHelp : Z; printLong : Z; printNagios : Z; printOutboundStats : Z; resetOutboundStats : Z; reloadxml : Z;
  host : string; port : Z
}.

#[export] Instance Options_rebuild : Rebuild Options := fun o =>
  mkOptions (printHelp o) (printLong o) (printNagios o) (printOutboundStats o) (resetOutboundStats o)
    (reloadxml o) (host o) (port o).

Definition no_options : Options := mkOptions 0 0 0 0 0 0 EmptyString 8022.

Definition take_option (o : Options) (r : getopt_result) : Options :=
  match r with
  | OFlag help => o <| printHelp := 1 |>
  | OFlag long => o <| printLong := 1 |>
  | OFlag show_outbound_stats => o <| printOutboundStats := 1 |>
  | OFlag reset_outbound_stats => o <| resetOutboundStats := 1 |>
  | OFlag fs_reloadxml => o <| reloadxml := 1 |>
  | OHost optarg => o <| host := optarg |>
  | OPort optarg => o <| port := atoi_u32 optarg |>
  | OUnknown => o
  end.

(** [parseCmdArgs]: what it returns, and the global variables. *)
Definition parseCmdArgs (args : list getopt_result) : bool * Options :=
  let o := foldl take_option no_options args in
  let selected := printOutboundStats o + resetOutboundStats o + reloadxml o in
  if negb (printHelp o =? 0) then (false, o)
  else if 1 <? selected then (false, o)
  else
    let o := if 0 =? selected then o <| printNagios := 1 |> else o in
    if empty_ (host o) then (false, o) else (true, o).

(** The text [connect_handler] writes. *)
Definition request (o : Options) : string :=
  let length := if negb (printLong o =? 0) then "long" else "short" in
  if negb (printNagios o =? 0) then "nagios-" +:+ length
  else if negb (printOutboundStats o =? 0) then "outbound-stats-" +:+ length
  else if negb (resetOutboundStats o =? 0) then "outbound-stats-reset"
  else if negb (reloadxml o =? 0) then "fs-reloadxml"
  else EmptyString.

(** The program between two handlers; [Exited]: the exit code, and what it has
    printed on its standard output. *)
Inductive client :=
| Resolving
| Connecting (it : list string)
| Awaiting
| Exited (code : Z) (stdout : string).

Inductive client_event :=
| CResolve (r : unit + list string)
| CConnect (ec wr : bool)
| CRead (ec : bool) (data : string)
| CTimer.

(** One handler: the new state and what is written to the server.  A write
    that fails throws, and nothing catches it. *)
Definition client_step (o : Options) (c : client) (e : client_event) : option (outcome (client * string)) :=
  match c, e with
  | Exited _ _, _ => None
  | Resolving, CResolve (inr (_ :: it)) => Some (Ok (Connecting it, EmptyString))
  | Resolving, CResolve (inr []) => Some (Fault PastTheEnd)
  | Resolving, CResolve (inl _) => Some (Ok (Exited 3 EmptyString, EmptyString))
  | Connecting _, CConnect false true => Some (Ok (Awaiting, request o))
  | Connecting _, CConnect false false => Some (Fault Uncaught)
  | Connecting (_ :: it), CConnect true _ => Some (Ok (Connecting it, EmptyString))
  | Connecting [], CConnect true _ => Some (Ok (Exited 3 EmptyString, EmptyString))
  | Awaiting, CRead false data => Some (Ok (Exited 0 data, EmptyString))
  | Awaiting, CRead true _ => Some (Ok (Exited 3 EmptyString, EmptyString))
  | _, CTimer => Some (Ok (Exited 3 EmptyString, EmptyString))
  | _, _ => None
  end.

(** ** Reference definitions *)

Definition has (f : flag) (args : list getopt_result) : bool := bool_decide (OFlag f ∈ args).

(** What a command line asks for, if it makes sense. *)
Definition wanted (args : list getopt_result) : option command :=
  let brief := negb (has long args) in
  let kinds := (if has show_outbound_stats args then [OutboundStats brief] else []) ++
    (if has reset_outbound_stats args then [ResetStats] else []) ++
    (if has fs_reloadxml args then [ReloadXml] else []) in
  if has help args then None
  else match kinds with
       | [] => Some (NagiosSummary brief)
       | [c] => Some c
       | _ => None
       end.

Definition host_of (args : list getopt_result) : string :=
  default EmptyString (last (omap (fun a => match a with OHost h => Some h | _ => None end) args)).

(** The name of a request on the wire. *)
Definition name_of (c : command) : string :=
  let length (brief : bool) := if brief then "short" else "long" in
  match c with
  | NagiosSummary brief => "nagios-" +:+ length brief
  | OutboundStats brief => "outbound-stats-" +:+ length brief
  | ResetStats => "outbound-stats-reset"
  | ReloadXml => "fs-reloadxml"
  end.

(** What a summary says of servers listed in the order [l]. *)
Definition online (l : list FsInstance) : list FsInstance := List.filter isOnline l.

Definition server_line (p : FsInstance) : string :=
  FsInstance.m_strAddress p +:+
  (if isOnline p then
     ",online," +:+ m_strSipAddress p +:+ ":" +:+ dec (m_nSipPort p) +:+ "," +:+ dec (m_nCurrentSessions p) +:+ "," +:+
     dec (m_nMaxSessions p)
   else ",offline,,,") +:+ endl.

Definition sessions (l : list FsInstance) : Z := sum (map m_nCurrentSessions (online l)).

Definition summary (brief active : bool) (legs : Z) (l : list FsInstance) : string :=
  (if active then "System Active " else "System Inactive ") +:+ dec legs +:+ " call legs " +:+ " | " +:+
  dec (Z.of_nat (length (online l))) +:+ " of " +:+ dec (Z.of_nat (length l)) +:+ " freeswitch servers active" +:+ endl +:+
  if brief then EmptyString
  else "|" +:+ endl +:+ concat_str (map server_line l) +:+
       "total active freeswitch session count: " +:+ dec (wrap32 (sessions l)) +:+ endl +:+ endl.

(** In the order of the addresses. *)
Definition by_address (l : list FsInstance) : Prop :=
  StronglySorted (fun a b => string_ltb (FsInstance.m_strAddress b) (FsInstance.m_strAddress a) = false) l.

Definition no_server : FsInstance := new_FsInstance EmptyString 0.
Definition server_at (servers : list FsInstance) (k : Z) : FsInstance := default no_server (servers !! Z.to_nat k).

(** A server that has been told to reload its configuration. *)
Definition asking (p : FsInstance) : FsInstance :=
  pend PRead ((act (AWrite ("api reloadxml" +:+ crlf +:+ crlf)) p) <| m_bReloadingXml := true |>).

(** The servers of [l] that are told, in that order, and whether none of the
    writes failed. *)
Fixpoint asked (wr : Z -> bool) (servers : list FsInstance) (l : list Z) : list Z * bool :=
  match l with
  | [] => ([], true)
  | k :: l =>
      if isOnline (server_at servers k) then
        if wr k then (k :: fst (asked wr servers l), snd (asked wr servers l)) else ([], false)
      else asked wr servers l
  end.

Definition ask_all (ks : list Z) (servers : list FsInstance) : list FsInstance :=
  foldl (fun servers k => alter asking (Z.to_nat k) servers) servers ks.

Definition set_servers (servers : list FsInstance) (s : Proxy) : Proxy :=
  s <| m_fsMonitor ::= fun m => m <| m_servers := servers |> |>.

(** ** Lemmas *)

Definition bit (b : bool) : Z := if b then 1 else 0.

Lemma has_snoc f args a : has f (args ++ [a]) = has f args || bool_decide (a = OFlag f).
Proof.
  unfold has. rewrite <- bool_decide_or. apply bool_decide_ext. rewrite elem_of_app, list_elem_of_singleton. naive_solver.
Qed.

Lemma host_of_snoc args a : host_of (args ++ [a]) = match a with OHost h => h | _ => host_of args end.
Proof. unfold host_of. rewrite omap_app. destruct a; simpl; rewrite ?app_nil_r, ?last_snoc; done. Qed.

(** The globals after the options have been read. *)
Lemma take_options args :
  let o := foldl take_option no_options args in
  printHelp o = bit (has help args) /\ printLong o = bit (has long args) /\ printNagios o = 0 /\
  printOutboundStats o = bit (has show_outbound_stats args) /\
  resetOutboundStats o = bit (has reset_outbound_stats args) /\
  reloadxml o = bit (has fs_reloadxml args) /\ host o = host_of args.
Proof.
  induction args as [|a args IH] using rev_ind; [done|].
  rewrite foldl_app, host_of_snoc, !has_snoc. simpl in IH |- *. destruct IH as (H1 & H2 & H3 & H4 & H5 & H6 & H7).
  destruct a as [[]|h|p|]; simpl; rewrite ?orb_false_r, ?orb_true_r; split_and!; done.
Qed.

Lemma parse_wanted args c :
  wanted args = Some c -> host_of args <> EmptyString ->
  exists o, parseCmdArgs args = (true, o) /\ request o = name_of c.
Proof.
  unfold parseCmdArgs, wanted. destruct (take_options args) as (H1 & H2 & H3 & H4 & H5 & H6 & H7).
  set (g := foldl take_option no_options args) in *. rewrite H1, H4, H5, H6.
  destruct (has help args); [done|]. intros Hc Hh.
  destruct (has show_outbound_stats args), (has reset_outbound_stats args), (has fs_reloadxml args);
    simpl in *; simplify_eq; rewrite H7; destruct (host_of args) eqn:Eh; try done; eexists; (split; [done|]);
    unfold request; simpl; rewrite ?H2, ?H3, ?H4, ?H5, ?H6; by destruct (has long args).
Qed.

Lemma parse_refuses args : wanted args = None \/ host_of args = EmptyString -> fst (parseCmdArgs args) = false.
Proof.
  unfold parseCmdArgs, wanted. destruct (take_options args) as (H1 & H2 & H3 & H4 & H5 & H6 & H7).
  set (g := foldl take_option no_options args) in *. rewrite H1, H4, H5, H6.
  destruct (has help args); [done|].
  destruct (has show_outbound_stats args), (has reset_outbound_stats args), (has fs_reloadxml args);
    simpl; try done; intros [H|H]; simplify_eq; by rewrite H7, H.
Qed.

Lemma name_of_token c : name_of c <> EmptyString /\ clean (String newline (String (Ascii.ascii_of_N 13) ", ")) (name_of c) = true.
Proof. by destruct c as [[]|[]| |]. Qed.

Definition separated (rest : string) : Prop :=
  rest = EmptyString \/ exists c r, rest = String c r /\ mem_char c (String newline (String (Ascii.ascii_of_N 13) ", ")) = true.

Lemma first_token_name c rest : separated rest -> first_token (name_of c +:+ rest) = name_of c.
Proof. intros H. destruct (name_of_token c) as [Hne Hc]. unfold first_token. by rewrite tokenize_token. Qed.

Lemma read_handler_name sort iteration wr c rest s :
  separated rest -> read_handler sort iteration wr (name_of c +:+ rest) s = answer_with (serve sort iteration wr c) s.
Proof.
  intros H. unfold read_handler. rewrite first_token_name by done. by destruct c as [[]|[]| |].
Qed.

(** *** The servers in their order *)

Lemma resolve_map servers l :
  Forall (fun k => is_Some (servers !! Z.to_nat k)) l -> resolve servers l = Ok (map (server_at servers) l).
Proof.
  induction 1 as [|k l [i Hi] _ IH]; [done|]. simpl. unfold at_, server_at at 1. rewrite Hi, IH. done.
Qed.

Lemma all_servers servers : map (server_at servers) (seqZ 0 (Z.of_nat (length servers))) = servers.
Proof.
  apply list_eq. intros k. rewrite list_lookup_fmap. destruct (decide (k < length servers)%nat) as [Hk|Hk].
  - rewrite lookup_seqZ_lt by lia. simpl. unfold server_at. replace (Z.to_nat (0 + Z.of_nat k)) with k by lia.
    destruct (lookup_lt_is_Some_2 servers k Hk) as [i ->]. done.
  - rewrite lookup_seqZ_ge by lia. simpl. symmetry. apply lookup_ge_None. lia.
Qed.

Lemma name_sorter_strict_weak servers :
  strict_weak (fun a => In a (seqZ 0 (Z.of_nat (length servers)))) (name_sorter servers).
Proof.
  unfold name_sorter. repeat split; intros; repeat match goal with
    | H : In _ _ |- _ => apply in_servers in H as [? H]; rewrite H in * end.
  - apply string_ltb_irrefl.
  - by eapply string_ltb_trans.
  - eapply string_ltb_incomparable; eassumption.
Qed.

Lemma StronglySorted_map {A B} (f : A -> B) (R : A -> A -> Prop) (R' : B -> B -> Prop) l :
  (forall a b, a ∈ l -> b ∈ l -> R a b -> R' (f a) (f b)) -> StronglySorted R l -> StronglySorted R' (map f l).
Proof.
  intros Hf H. induction H as [|a l Hs IH Ha]; simpl; [constructor|].
  constructor; [apply IH; intros; apply Hf; [by right..|done]|].
  apply Forall_map. rewrite Forall_forall in Ha |- *. intros b Hb. apply Hf; [by left|by right|auto].
Qed.

(** Sorting the handles lists every server once, by address. *)
Lemma sorted_servers_spec sort s :
  sort_laws sort ->
  let l := sorted_servers sort s in let insts := map (server_at (servers_of s)) l in
  Permutation l (seqZ 0 (Z.of_nat (length (servers_of s)))) /\ resolve (servers_of s) l = Ok insts /\
  Permutation insts (servers_of s) /\ by_address insts.
Proof.
  intros Hs l insts. destruct (Hs _ _ (name_sorter_strict_weak (servers_of s))) as [Hp Hsorted].
  fold l in Hp, Hsorted. fold (sorted_servers sort s) in Hp, Hsorted. fold l in Hp, Hsorted.
  assert (Forall (fun k => is_Some (servers_of s !! Z.to_nat k)) l) as Hin.
  { rewrite Hp. apply Forall_forall. intros k Hk%elem_of_seqZ. apply lookup_lt_is_Some_2. lia. }
  split; [done|]. split; [by apply resolve_map|]. split.
  - unfold insts. rewrite Hp. by rewrite all_servers.
  - unfold by_address, insts. apply (StronglySorted_map _ (fun a b => name_sorter (servers_of s) b a = false)); [|exact Hsorted].
    intros a b Ha Hb. rewrite Forall_forall in Hin. destruct (Hin a Ha) as [x Hx], (Hin b Hb) as [y Hy].
    unfold name_sorter, server_at. by rewrite Hx, Hy.
Qed.

(** *** The text of a summary *)

Lemma wrap32_add_l a b : wrap32 (wrap32 a + b) = wrap32 (a + b).
Proof. unfold wrap32. by rewrite Z.add_mod_idemp_l by lia. Qed.

Lemma wrap32_idem a : wrap32 (wrap32 a) = wrap32 a.
Proof. unfold wrap32. by rewrite Z.mod_mod by lia. Qed.

Lemma count_servers brief l : forall n m t,
  foldl (count_server brief) (mkTally (wrap32 n) (wrap32 m) t) l =
  mkTally (wrap32 (n + Z.of_nat (length (online l)))) (if brief then wrap32 m else wrap32 (m + sessions l))
    (if brief then t else t +:+ concat_str (map server_line l)).
Proof.
  induction l as [|p l IH]; intros n m t.
  { unfold sessions. simpl. rewrite !Z.add_0_r, app_str_nil_r. by destruct brief. }
  simpl foldl. unfold count_server at 2. simpl nActiveServers. simpl total. simpl ol.
  assert (server_line p = FsInstance.m_strAddress p +:+
    (if isOnline p then ",online," +:+ m_strSipAddress p +:+ ":" +:+ dec (m_nSipPort p) +:+ "," +:+
       dec (m_nCurrentSessions p) +:+ "," +:+ dec (m_nMaxSessions p) else ",offline,,,") +:+ endl) as El by done.
  unfold sessions, online in *. simpl List.filter. simpl map. simpl concat_str. rewrite El.
  destruct (isOnline p), brief; rewrite ?wrap32_add_l, IH; simpl map; simpl sum; simpl length; f_equal;
    rewrite ?app_str_assoc; try done; try (f_equal; lia).
Qed.

Lemma nagios_reply sort brief s :
  sort_laws sort -> Z.of_nat (length (servers_of s)) < 2^32 ->
  exists l, Permutation l (servers_of s) /\ by_address l /\
    processNagiosRequest sort brief s =
    Ok (Reply (summary brief (m_bIsActive (m_Config s)) (getCountOfDialogs s) l), s).
Proof.
  intros Hs Hl. destruct (sorted_servers_spec sort s Hs) as (_ & Hr & Hp & Hsorted).
  set (insts := map _ _) in *. exists insts. split; [done|]. split; [done|].
  unfold processNagiosRequest, mbind, M_bind, gets, lift, mret, M_ret. rewrite Hr.
  replace (mkTally 0 0 EmptyString) with (mkTally (wrap32 0) (wrap32 0) EmptyString) by done.
  rewrite count_servers, !Z.add_0_l. cbn [nActiveServers total ol]. unfold summary.
  assert (Z.of_nat (length (online insts)) < 2^32) as Hn.
  { pose proof (length_filter_le isOnline insts). unfold online. rewrite (Permutation_length Hp) in *. lia. }
  rewrite (wrap32_small (Z.of_nat _)) by (unfold is_u32; lia).
  destruct brief; rewrite ?app_str_assoc; done.
Qed.

(** *** Reloading *)

Lemma set_servers_same s : set_servers (servers_of s) s = s.
Proof. by destruct s as [? []]. Qed.

Lemma set_servers_twice a b s : set_servers a (set_servers b s) = set_servers a s.
Proof. done. Qed.

Lemma put_server_eq k p s : put_server k p s = set_servers (<[ Z.to_nat k := p ]> (servers_of s)) s.
Proof. by destruct s as [? []]. Qed.

Lemma asking_alter (servers : list FsInstance) (k : nat) p :
  servers !! k = Some p -> <[ k := asking p ]> servers = alter asking k servers.
Proof.
  intros Hp. apply list_eq. intros j. destruct (decide (j = k)) as [->|].
  - rewrite list_lookup_alter_eq, Hp. apply list_lookup_insert_eq. by eapply lookup_lt_Some.
  - by rewrite list_lookup_insert_ne, list_lookup_alter_ne by done.
Qed.

Lemma asking_online p : isOnline (asking p) = isOnline p.
Proof. done. Qed.

Lemma server_at_asked ks servers j :
  isOnline (server_at (ask_all ks servers) j) = isOnline (server_at servers j).
Proof.
  revert servers. induction ks as [|k ks IH]; intros servers; [done|]. simpl. rewrite IH. unfold server_at.
  destruct (decide (Z.to_nat j = Z.to_nat k)) as [E|E].
  - rewrite E, list_lookup_alter_eq. by destruct (servers !! Z.to_nat k).
  - by rewrite list_lookup_alter_ne by done.
Qed.

Lemma asked_same wr ks servers l : asked wr (ask_all ks servers) l = asked wr servers l.
Proof. induction l as [|k l IH]; simpl; [done|]. by rewrite server_at_asked, IH. Qed.

Lemma reload_servers_spec wr l s :
  Forall (fun k => is_Some (servers_of s !! Z.to_nat k)) l ->
  reload_servers wr l s =
  Ok (if snd (asked wr (servers_of s) l) then None else Some system_error,
      set_servers (ask_all (fst (asked wr (servers_of s) l)) (servers_of s)) s).
Proof.
  intros H. revert s H. induction l as [|k l IH]; intros s H; [simpl; by rewrite set_servers_same|].
  apply Forall_cons in H as [[p Hp] Hl]. simpl. unfold mbind, M_bind, gets, lift, at_. rewrite Hp.
  assert (server_at (servers_of s) k = p) as -> by (unfold server_at; by rewrite Hp).
  destruct (isOnline p) eqn:Ep; [|by apply IH].
  unfold FsInstance.reloadxml. rewrite decide_False by (unfold isOnline in Ep; apply bool_decide_eq_true in Ep; tauto).
  unfold write_socket. destruct (wr k).
  - unfold modify. change (pend PRead _) with (asking p). rewrite put_server_eq, (asking_alter _ _ p Hp).
    change (alter asking (Z.to_nat k) (servers_of s)) with (ask_all [k] (servers_of s)).
    rewrite IH.
    + change (servers_of (set_servers (ask_all [k] (servers_of s)) s)) with (ask_all [k] (servers_of s)).
      by rewrite !asked_same, set_servers_twice.
    + eapply Forall_impl; [exact Hl|]. intros j Hj.
      change (is_Some (alter asking (Z.to_nat k) (servers_of s) !! Z.to_nat j)).
      apply lookup_lt_is_Some. rewrite length_alter. by apply lookup_lt_is_Some.
  - unfold modify, mret, M_ret. by rewrite put_server_eq, list_insert_id.
Qed.

Lemma lookup_ask_all ks : forall servers j,
  NoDup (map Z.to_nat ks) ->
  ask_all ks servers !! j = if decide (j ∈ map Z.to_nat ks) then asking <$> servers !! j else servers !! j.
Proof.
  induction ks as [|k ks IH]; intros servers j Hnd; [done|]. simpl in Hnd |- *.
  apply NoDup_cons in Hnd as [Hk Hnd]. rewrite IH by done. destruct (decide (j = Z.to_nat k)) as [->|Hne].
  - rewrite decide_False by done. rewrite decide_True by by left. apply list_lookup_alter_eq.
  - rewrite list_lookup_alter_ne by done. destruct (decide (j ∈ map Z.to_nat ks)).
    + by rewrite decide_True by by right.
    + by rewrite decide_False by (intros [?|?]%elem_of_cons; done).
Qed.

Lemma asked_true wr servers l :
  snd (asked wr servers l) = true ->
  fst (asked wr servers l) = List.filter (fun k => isOnline (server_at servers k)) l /\
  forall k, k ∈ l -> isOnline (server_at servers k) = true -> wr k = true.
Proof.
  induction l as [|k l IH]; simpl; [intros _; split; [done|by intros k ?%not_elem_of_nil]|].
  destruct (isOnline (server_at servers k)) eqn:E.
  - destruct (wr k) eqn:Ew; simpl; [|done]. intros [-> H]%IH. split; [done|]. intros j [->|Hj]%elem_of_cons; auto.
  - intros [-> H]%IH. split; [done|]. intros j [->|Hj]%elem_of_cons; [congruence|auto].
Qed.

Lemma asked_false wr servers l :
  snd (asked wr servers l) = false ->
  exists l1 k l2, l = l1 ++ k :: l2 /\ isOnline (server_at servers k) = true /\ wr k = false /\
    fst (asked wr servers l) = List.filter (fun k => isOnline (server_at servers k)) l1.
Proof.
  induction l as [|k l IH]; simpl; [done|]. destruct (isOnline (server_at servers k)) eqn:E.
  - destruct (wr k) eqn:Ew; simpl.
    + intros (l1 & j & l2 & -> & Hj & Hw & ->)%IH. exists (k :: l1), j, l2. simpl. by rewrite E.
    + intros _. by exists [], k, l.
  - intros (l1 & j & l2 & -> & Hj & Hw & ->)%IH. exists (k :: l1), j, l2. simpl. by rewrite E.
Qed.

(** The handles of the servers are their positions. *)
Lemma handles_NoDup (f : Z -> bool) l1 l2 n :
  Permutation (l1 ++ l2) (seqZ 0 n) -> NoDup (map Z.to_nat (List.filter f l1)).
Proof.
  intros Hp. assert (forall x, x ∈ l1 -> 0 <= x) as H0.
  { intros x Hx. assert (x ∈ seqZ 0 n) as Hn%elem_of_seqZ by (rewrite <- Hp; by apply elem_of_app; left). lia. }
  assert (NoDup (l1 ++ l2)) as [Hnd _]%NoDup_app by (rewrite Hp; apply NoDup_seqZ).
  apply NoDup_fmap_2_strong; [|by apply filter_NoDup].
  intros x y [_ Hx%H0]%elem_of_filter_b [_ Hy%H0]%elem_of_filter_b. lia.
Qed.

Lemma elem_of_handles (f : Z -> bool) l j :
  Forall (fun k => 0 <= k) l ->
  j ∈ map Z.to_nat (List.filter f l) <-> f (Z.of_nat j) = true /\ Z.of_nat j ∈ l.
Proof.
  intros H. rewrite Forall_forall in H. rewrite list_elem_of_fmap. split.
  - intros (k & -> & [Hf Hk]%elem_of_filter_b). rewrite Z2Nat.id by auto. done.
  - intros [Hf Hj]. exists (Z.of_nat j). rewrite Nat2Z.id. split; [done|]. by apply elem_of_filter_b.
Qed.

Lemma server_at_lookup servers j p : servers !! j = Some p -> server_at servers (Z.of_nat j) = p.
Proof. intros H. unfold server_at. by rewrite Nat2Z.id, H. Qed.

(** When the servers before one, in the order of the addresses, have been
    asked. *)
Lemma ask_before servers l1 k l2 :
  Permutation (l1 ++ k :: l2) (seqZ 0 (Z.of_nat (length servers))) ->
  by_address (map (server_at servers) (l1 ++ k :: l2)) ->
  let servers' := ask_all (List.filter (fun k => isOnline (server_at servers k)) l1) servers in
  let p := server_at servers k in
  servers' !! Z.to_nat k = servers !! Z.to_nat k /\
  forall j q, servers !! j = Some q -> isOnline q = true ->
    (string_ltb (FsInstance.m_strAddress q) (FsInstance.m_strAddress p) = true -> servers' !! j = Some (asking q)) /\
    (string_ltb (FsInstance.m_strAddress p) (FsInstance.m_strAddress q) = true -> servers' !! j = Some q).
Proof.
  intros Hp Hsorted servers' p.
  assert (forall x, x ∈ l1 ++ k :: l2 <-> 0 <= x < Z.of_nat (length servers)) as Hl.
  { intros x. rewrite Hp, elem_of_seqZ. lia. }
  assert (Forall (fun x => 0 <= x) l1) as H0.
  { apply Forall_forall. intros x Hx. assert (x ∈ l1 ++ k :: l2) as ?%Hl by (apply elem_of_app; by left). lia. }
  assert (forall j, servers' !! j = if decide (isOnline (server_at servers (Z.of_nat j)) = true /\ Z.of_nat j ∈ l1)
                                   then asking <$> servers !! j else servers !! j) as Hlook.
  { intros j. unfold servers'. rewrite lookup_ask_all by (by eapply handles_NoDup).
    apply decide_ext. by apply elem_of_handles. }
  unfold by_address in Hsorted. rewrite map_app in Hsorted.
  assert (NoDup (l1 ++ k :: l2)) as (_ & Hk & _)%NoDup_app by (rewrite Hp; apply NoDup_seqZ).
  split.
  { rewrite Hlook, decide_False; [done|]. assert (0 <= k) by (apply Hl, elem_of_app; right; left).
    rewrite Z2Nat.id by done. intros [_ Hin]. apply (Hk _ Hin). by left. }
  intros j q Hj Hq. rewrite Hlook, (server_at_lookup _ _ _ Hj), Hj.
  assert (Z.of_nat j ∈ l1 ++ k :: l2) as Hjl by (apply Hl; apply lookup_lt_Some in Hj; lia).
  assert (forall x, x ∈ l1 -> server_at servers x ∈ map (server_at servers) l1) as Hmap by (intros; by apply list_elem_of_fmap_2).
  split; intros Hlt.
  - rewrite decide_True; [done|]. split; [done|]. apply elem_of_app in Hjl as [?|Hjl]; [done|]. exfalso.
    apply elem_of_cons in Hjl as [E|Hjl].
    + unfold p in Hlt. rewrite <- E, (server_at_lookup _ _ _ Hj), string_ltb_irrefl in Hlt. done.
    + apply StronglySorted_app_1_r in Hsorted. simpl in Hsorted. apply StronglySorted_inv in Hsorted as [_ Hf].
      rewrite Forall_forall in Hf. fold p in Hf. rewrite (Hf q) in Hlt; [done|].
      rewrite <- (server_at_lookup _ _ _ Hj). by apply list_elem_of_fmap_2.
  - rewrite decide_False; [done|]. intros [_ Hin].
    pose proof (StronglySorted_app_1_elem_of _ _ _ q p Hsorted) as H. simpl in H. rewrite H in Hlt; [done| |by left].
    rewrite <- (server_at_lookup _ _ _ Hj). by apply Hmap.
Qed.

(** A reload one of whose writes fails ends in an exception. *)
Lemma reload_throws sort wr s j q :
  sort_laws sort -> servers_of s !! j = Some q -> isOnline q = true -> wr (Z.of_nat j) = false ->
  exists servers', processFsReloadxml sort wr s = Ok (Threw system_error, set_servers servers' s).
Proof.
  intros Hs Hj Hq Hw. destruct (sorted_servers_spec sort s Hs) as (Hp & _).
  set (l := sorted_servers sort s) in *. set (servers := servers_of s) in *.
  assert (Forall (fun k => is_Some (servers !! Z.to_nat k)) l) as Hin.
  { rewrite Hp. apply Forall_forall. intros k Hk%elem_of_seqZ. apply lookup_lt_is_Some_2. lia. }
  exists (ask_all (fst (asked wr servers l)) servers).
  unfold processFsReloadxml, mbind, M_bind, gets, mret, M_ret. fold l.
  rewrite reload_servers_spec by exact Hin. fold servers.
  destruct (snd (asked wr servers l)) eqn:E; [|done]. apply asked_true in E as [_ H].
  rewrite (H (Z.of_nat j)) in Hw; [done| |by rewrite (server_at_lookup _ _ _ Hj)].
  rewrite Hp, elem_of_seqZ. apply lookup_lt_Some in Hj. lia.
Qed.

(** Without the thread only the rest of the program moves. *)
Lemma no_thread sort iteration n p e st :
  m_thread n = false -> stats_step sort iteration (n, p) e st -> exists p', e = SController p' /\ st = (n, p').
Proof. intros Hn H. inversion H; subst; try congruence. by eexists. Qed.

Definition is_controller (e : stats_event) : bool := match e with SController _ => true | _ => false end.

Lemma no_thread_runs sort iteration n p es st :
  m_thread n = false -> runs (stats_step sort iteration) (n, p) es st ->
  Forall (fun e => is_controller e = true) es /\ fst st = n.
Proof.
  intros Hn H. remember (n, p) as st0 eqn:E. revert p E. induction H as [st0|st0 e st1 es st2 Hstep Hruns IH]; intros p ->.
  { done. }
  destruct (no_thread _ _ _ _ _ _ Hn Hstep) as (p' & -> & ->). destruct (IH p' eq_refl) as [H1 H2].
  split; [by constructor|done].
Qed.

(** The client against a sequence of completions: its state and all it has
    written. *)
Fixpoint client_run (o : Options) (c : client) (es : list client_event) : option (outcome (client * string)) :=
  match es with
  | [] => Some (Ok (c, EmptyString))
  | e :: es =>
      match client_step o c e with
      | Some (Ok (c', w)) =>
          match client_run o c' es with
          | Some (Ok (c'', w')) => Some (Ok (c'', w +:+ w'))
          | r => r
          end
      | r => r
      end
  end.

(** Connecting to the endpoint after some that refuse. *)
Lemma client_connects o fails : forall it t, (fails <= length it)%nat ->
  client_run o (Connecting it) (replicate fails (CConnect true true) ++ [CConnect false true; CRead false t]) =
  Some (Ok (Exited 0 t, request o)).
Proof.
  induction fails as [|fails IH]; intros it t Hf.
  - destruct it; simpl; by rewrite app_str_nil_r.
  - destruct it as [|ep it]; simpl in Hf; [lia|]. simpl. by rewrite IH by lia.
Qed.

(** The handlers that can still run once the name is resolved. *)
Definition handlers_left (c : client) : nat :=
  match c with Resolving => 0 | Connecting it => 2 + length it | Awaiting => 1 | Exited _ _ => 0 end.

Definition resolved (c : client) : bool := match c with Resolving => false | _ => true end.

Definition exit_code (c : client) : option Z := match c with Exited code _ => Some code | _ => None end.

Lemma client_step_cons o c e c1 w :
  client_step o c e = Some (Ok (c1, w)) ->
  resolved c1 = true /\ (resolved c = true -> (S (handlers_left c1) <= handlers_left c)%nat) /\
  (forall code, exit_code c1 = Some code -> code = 3 \/ code = 0 /\ exists data, e = CRead false data /\ c1 = Exited 0 data).
Proof.
  destruct c as [|it| |code out], e as [[[]|[|ep eps]]|[] []|[] data|]; try done; simpl; intros H;
    repeat (case_match; simplify_eq/=); simplify_eq/=; (split; [done|split; [try lia; done|]]);
    intros ? Hc; simpl in Hc; simplify_eq; eauto.
Qed.

Lemma client_run_left o es : forall c c' w, resolved c = true ->
  client_run o c es = Some (Ok (c', w)) -> (length es <= handlers_left c)%nat.
Proof.
  induction es as [|e es IH]; intros c c' w Hc H; simpl in *; [lia|].
  destruct (client_step o c e) as [[[c1 w1]|]|] eqn:E; [|done..].
  destruct (client_step_cons _ _ _ _ _ E) as (H1 & H2 & _).
  destruct (client_run o c1 es) as [[[c2 w2]|]|] eqn:E1; [|done..]. apply IH in E1; [|done]. specialize (H2 Hc). lia.
Qed.

Lemma client_run_last o es : forall c c' w,
  client_run o c es = Some (Ok (c', w)) ->
  (es = [] /\ c' = c) \/ exists es' e c1 w1, es = es' ++ [e] /\ client_step o c1 e = Some (Ok (c', w1)).
Proof.
  induction es as [|e es IH]; intros c c' w H; simpl in H; [left; by injection H as <- <-|]. right.
  destruct (client_step o c e) as [[[c1 w1]|]|] eqn:E; [|done..].
  destruct (client_run o c1 es) as [[[c2 w2]|]|] eqn:E1; [|done..]. injection H as <- <-.
  destruct (IH _ _ _ E1) as [[-> ->]|(es' & e' & c3 & w3 & -> & E2)].
  - by exists [], e, c, w1.
  - by exists (e :: es'), e', c3, w3.
Qed.

Lemma Permutation_filter_b {A} (f : A -> bool) (l l' : list A) :
  Permutation l l' -> Permutation (List.filter f l) (List.filter f l').
Proof.
  induction 1 as [|x l l' _ IH|x y l|l l' l'' _ IH1 _ IH2]; simpl.
  - done.
  - destruct (f x); [by constructor|done].
  - destruct (f x), (f y); reflexivity || constructor.
  - by etransitivity.
Qed.

(** A proxy with three servers, two of them online. *)
Definition fs_server (address : string) (on : bool) : FsInstance :=
  (new_FsInstance address 8021) <| m_state := if on then querying_status else connect_failed |>
    <| m_nCurrentSessions := 3 |> <| m_nMaxSessions := 1000 |>
    <| m_strSipAddress := address |> <| m_nSipPort := 5080 |>.

Definition example_proxy : Proxy :=
  mkCtl (load (example_pt example_carriers))
    (mkFsMonitor [fs_server "10.10.2.37" true; fs_server "10.10.2.36" false; fs_server "10.10.2.35" true] 0 0 0 ∅)
    false (CdrWriter.mkQueue ∅ [] (CdrWriter.new_CdrWriter [])) 1 (-1) 2 (mkUrl None (Some "1.2.3.4") None) "agent" [] [] ∅ ∅
    {[ "im" := new_TrunkStats "10.10.10.1" "im" ]} [].

(** ** Properties *)

(** Reloading.  The request changes nothing but servers.  Either every online
    server has been told to reload its configuration, none of the writes
    failed and the answer is OK; or the write to some online server failed,
    the exception leaves the request, the online servers whose addresses come
    before that one have been told and those that come after have not. *)
Theorem reload_outcome (sort : (Z -> Z -> bool) -> list Z -> list Z) (wr : Z -> bool) (s : Proxy) :
  sort_laws sort ->
  exists r servers', processFsReloadxml sort wr s = Ok (r, set_servers servers' s) /\
    ((r = Reply ("OK" +:+ endl) /\
      (forall k p, servers_of s !! k = Some p -> isOnline p = true -> wr (Z.of_nat k) = true) /\
      servers' = map (fun p => if isOnline p then asking p else p) (servers_of s)) \/
     (r = Threw system_error /\
      exists k p, servers_of s !! k = Some p /\ isOnline p = true /\ wr (Z.of_nat k) = false /\ servers' !! k = Some p /\
        forall j q, servers_of s !! j = Some q -> isOnline q = true ->
          (string_ltb (FsInstance.m_strAddress q) (FsInstance.m_strAddress p) = true -> servers' !! j = Some (asking q)) /\
          (string_ltb (FsInstance.m_strAddress p) (FsInstance.m_strAddress q) = true -> servers' !! j = Some q))).
Proof.
  intros Hs. destruct (sorted_servers_spec sort s Hs) as (Hp & Hr & _ & Hsorted).
  set (l := sorted_servers sort s) in *. set (servers := servers_of s) in *.
  assert (forall k, k ∈ l <-> 0 <= k < Z.of_nat (length servers)) as Hl.
  { intros k. rewrite Hp, elem_of_seqZ. lia. }
  assert (Forall (fun k => is_Some (servers !! Z.to_nat k)) l) as Hin.
  { apply Forall_forall. intros k Hk%Hl. apply lookup_lt_is_Some_2. lia. }
  exists (if snd (asked wr servers l) then Reply ("OK" +:+ endl) else Threw system_error).
  exists (ask_all (fst (asked wr servers l)) servers). split.
  { unfold processFsReloadxml, mbind, M_bind, gets, mret, M_ret. fold l.
    rewrite reload_servers_spec by exact Hin. fold servers. by destruct (snd (asked wr servers l)). }
  destruct (snd (asked wr servers l)) eqn:E; [left|right]; (split; [done|]).
  - apply asked_true in E as [-> Hw]. split.
    + intros k p Hk Ho. apply Hw; [apply Hl; apply lookup_lt_Some in Hk; lia|]. by rewrite (server_at_lookup _ _ _ Hk).
    + apply list_eq. intros j. rewrite lookup_ask_all, list_lookup_fmap.
      2:{ apply (handles_NoDup _ l [] (Z.of_nat (length servers))). by rewrite app_nil_r. }
      destruct (servers !! j) as [q|] eqn:Ej; [|by case_decide]. simpl.
      pose proof (lookup_lt_Some _ _ _ Ej) as Hj. destruct (isOnline q) eqn:Eq.
      * rewrite decide_True; [done|]. apply elem_of_handles; [apply Forall_forall; intros k Hk%Hl; lia|].
        rewrite (server_at_lookup _ _ _ Ej). split; [done|]. apply Hl. lia.
      * rewrite decide_False; [done|]. intros [Ho _]%elem_of_handles; [|apply Forall_forall; intros k Hk%Hl; lia].
        rewrite (server_at_lookup _ _ _ Ej) in Ho. congruence.
  - apply asked_false in E as (l1 & k & l2 & E & Ho & Hw & ->).
    assert (0 <= k < Z.of_nat (length servers)) as Hk by (apply Hl; rewrite E; apply elem_of_app; right; by left).
    destruct (servers !! Z.to_nat k) as [p|] eqn:Ep; [|apply lookup_ge_None in Ep; lia].
    exists (Z.to_nat k), p. rewrite Z2Nat.id by lia. assert (server_at servers k = p) as Hkp by (unfold server_at; by rewrite Ep).
    rewrite Hkp in Ho. split; [done|]. split; [done|]. split; [done|]. rewrite E in Hp, Hsorted.
    destruct (ask_before servers l1 k l2 Hp Hsorted) as [Hk' H]. rewrite Hkp in H. by rewrite Hk'.
Qed.

Lemma reload_outcome_witness :
  exists r servers', processFsReloadxml insertion_sort (fun k => negb (k =? 0)) example_proxy = Ok (r, set_servers servers' example_proxy).
Proof.
  destruct (reload_outcome insertion_sort (fun k => negb (k =? 0)) example_proxy insertion_sort_laws) as (r & servers' & H & _).
  exists r, servers'. exact H.
Defined.

(** C39: A failed reload ends the statistics server.  When a connection asks for a
    reload and the write to an online server fails, the exception leaves the
    event loop: whatever happens from then on, no connection is accepted, no
    request is read and no answer is written. *)
Theorem failed_reload_is_final (sort : (Z -> Z -> bool) -> list Z -> list Z)
    (iteration : gmap string TrunkStats -> list (string * TrunkStats)) (n : NagiosConnector) (p : Proxy) (k : Z)
    (data : string) (wr : Z -> bool) (j : nat) (q : FsInstance) :
  sort_laws sort -> m_thread n = true -> m_sessions n !! k = Some Reading -> first_token data = "fs-reloadxml" ->
  servers_of p !! j = Some q -> isOnline q = true -> wr (Z.of_nat j) = false ->
  exists n' p', stats_step sort iteration (n, p) (SRead k data wr) (n', p') /\ m_sessions n' !! k = None /\
    forall es st, runs (stats_step sort iteration) (n', p') es st ->
      Forall (fun e => is_controller e = true) es /\ fst st = n'.
Proof.
  intros Hs Hn Hk Hd Hj Hq Hw. destruct (reload_throws sort wr p j q Hs Hj Hq Hw) as [servers' E].
  assert (read_handler sort iteration wr data p = Ok (Some (Threw system_error), set_servers servers' p)) as Er.
  { unfold read_handler. rewrite Hd. simpl. unfold answer_with, mbind, M_bind. by rewrite E. }
  exists (session_read k (Some (Threw system_error)) n), (set_servers servers' p).
  split; [by constructor|]. split; [apply lookup_delete_eq|].
  intros es st H. by eapply no_thread_runs.
Qed.

Lemma failed_reload_is_final_witness :
  exists n' p', stats_step insertion_sort map_to_list (mkConnector true {[ 1 := Reading ]}, example_proxy)
    (SRead 1 "fs-reloadxml" (fun k => negb (k =? 0))) (n', p') /\ m_sessions n' !! 1 = None.
Proof.
  destruct (failed_reload_is_final insertion_sort map_to_list (mkConnector true {[ 1 := Reading ]}) example_proxy 1
    "fs-reloadxml" (fun k => negb (k =? 0)) 0 (default no_server (servers_of example_proxy !! 0%nat)))
    as (n' & p' & H1 & H2 & _).
  - exact insertion_sort_laws.
  - reflexivity.
  - reflexivity.
  - reflexivity.
  - reflexivity.
  - vm_compute. reflexivity.
  - reflexivity.
  - exists n', p'. split; [exact H1|exact H2].
Defined.



(** C38: The client ends.  However the operations of [check-ssp] complete, it runs
    at most one handler for each endpoint of the server and two more; while it
    has not exited its timer can still end it, with status 3; and the status it
    exits with is 3, unless an answer of the server has come: then it is 0, and
    what it prints is that answer. *)
Theorem client_ends (o : Options) (es : list client_event) (c : client) (w : string) :
  client_run o Resolving es = Some (Ok (c, w)) ->
  (length es <= 2 + match es with CResolve (inr eps) :: _ => length eps | _ => 0 end)%nat /\
  match c with
  | Exited code stdout => code = 3 \/ code = 0 /\ exists es', es = es' ++ [CRead false stdout]
  | _ => client_step o c CTimer = Some (Ok (Exited 3 EmptyString, EmptyString))
  end.
Proof.
  intros H. split.
  - destruct es as [|e es]; [simpl; lia|]. cbn [client_run] in H.
    destruct (client_step o Resolving e) as [[[c1 w1]|]|] eqn:E; [|done..].
    destruct (client_run o c1 es) as [[[c2 w2]|]|] eqn:E1; [|done..]. apply client_run_left in E1; [|by eapply client_step_cons].
    destruct e as [[[]|[|ep eps]]|[] []|[] data|]; simpl in E; try done; injection E as <- <-; simpl in *; lia.
  - destruct (client_run_last o es Resolving c w H) as [[-> ->]|(es' & e & c1 & w1 & -> & E)]; [done|].
    destruct (client_step_cons _ _ _ _ _ E) as (Hr & _ & Hc).
    destruct c as [|[]| |code out]; try done.
    destruct (Hc code eq_refl) as [->|(-> & data & -> & Ed)]; [by left|]. right. injection Ed as ->. eauto.
Qed.

Lemma client_ends_witness :
  exists es', [CResolve (inr ["a"; "b"]); CConnect true true; CConnect false true; CRead false "OK"] = es' ++ [CRead false "OK"].
Proof.
  destruct (client_ends no_options [CResolve (inr ["a"; "b"]); CConnect true true; CConnect false true; CRead false "OK"]
    (Exited 0 "OK") EmptyString) as [_ [H|[_ H]]]; [reflexivity|discriminate|exact H].
Defined.

(** C37: The summary is right.  Whatever the order the sort leaves equal addresses
    in, [nagios-short] answers with the mode, the number of call legs and the
    numbers of online and of all servers, and [nagios-long] adds a line for
    every server, once, by address, and the sum of their sessions; nothing
    changes. *)
Theorem summary_is_right (sort : (Z -> Z -> bool) -> list Z -> list Z) (brief : bool) (s : Proxy) :
  sort_laws sort -> Z.of_nat (length (servers_of s)) < 2^32 ->
  exists l, Permutation l (servers_of s) /\ by_address l /\
    processNagiosRequest sort brief s =
    Ok (Reply (summary brief (m_bIsActive (m_Config s)) (getCountOfDialogs s) l), s).
Proof. exact (nagios_reply sort brief s). Qed.

Lemma summary_is_right_witness :
  exists l, Permutation l (servers_of example_proxy) /\
    processNagiosRequest insertion_sort true example_proxy =
    Ok (Reply ("System Active 0 call legs  | 2 of 3 freeswitch servers active" +:+ endl), example_proxy).
Proof.
  destruct (summary_is_right insertion_sort true example_proxy insertion_sort_laws) as (l & Hp & _ & H).
  - vm_compute. reflexivity.
  - exists l. split; [exact Hp|]. rewrite H. unfold summary.
    assert (length (online l) = 2%nat) as E.
    { unfold online. rewrite (Permutation_length (Permutation_filter_b isOnline _ _ Hp)). reflexivity. }
    rewrite E, (Permutation_length Hp). vm_compute. reflexivity.
Defined.

(** What a report says of a trunk with fewer than 2^64 attempts and failures:
    their numbers, and in the long form a line for each status from 400 on
    that has occurred. *)
Theorem report_of_trunk (brief : bool) (address carrier : string) (es : list trunk_event) (t : TrunkStats) :
  attempts es < 2^64 -> Z.of_nat (length (failures es)) < 2^64 ->
  Forall (fun s => 0 <= s < MAX_STATUS) (failures es) ->
  record_events es (new_TrunkStats address carrier) = Ok t ->
  trunk_lines brief t = address +:+ " (" +:+ carrier +:+ ") attempts/failures: " +:+ dec (attempts es) +:+ "/" +:+
    dec (Z.of_nat (length (failures es))) +:+ endl +:+
    (if brief then EmptyString
     else concat_str (map (fun i => if 0 <? count_of i (failures es)
                                    then "   " +:+ dec i +:+ ": " +:+ dec (count_of i (failures es)) +:+ endl
                                    else EmptyString) (seqZ 400 300))).
Proof.
  intros Ha Hf Hs Ht. destruct (new_trunk_statistics address carrier es Ha Hf Hs) as (t' & Et & H1 & H2 & H3).
  rewrite Et in Ht. injection Ht as ->. destruct (record_events_names _ _ _ Et) as [Hn Hc]. simpl in Hn, Hc.
  unfold trunk_lines. rewrite Hn, Hc, H1, H2. destruct brief; [done|]. do 9 f_equal.
  apply map_ext_in. intros i Hi%list_elem_of_In%elem_of_seqZ. unfold status_line. by rewrite H3 by (unfold MAX_STATUS; lia).
Qed.

Lemma report_of_trunk_witness :
  exists t, record_events [TAttempt; TFailure 503; TAttempt] (new_TrunkStats "10.10.10.1" "im") = Ok t /\
    trunk_lines false t = "10.10.10.1 (im) attempts/failures: 2/1" +:+ endl +:+ "   503: 1" +:+ endl.
Proof.
  eexists. split; [vm_compute; reflexivity|].
  etransitivity; [eapply (report_of_trunk false "10.10.10.1" "im" [TAttempt; TFailure 503; TAttempt])|vm_compute; reflexivity].
  - vm_compute. reflexivity.
  - vm_compute. reflexivity.
  - repeat constructor; vm_compute; congruence.
  - vm_compute. reflexivity.
Defined.
