(* ===== verification/Spoofer.v ===== *)
(** * Spoofer: the stand-in for a FreeSWITCH server

    [fs-spoofer.cpp]: a program that accepts one event-socket connection and
    answers the commands of [FsInstance] with fixed texts, in which only the
    SIP address varies. *)

From S2P Require Import Prelude Text Tokenizer FsMessage FsInstance.

(** ** The command line

    [parseCmdArgs]: the results of [getopt_long] into [spoofAddress], which is
    empty at first; whether there is one decides whether [main] goes on. *)
Inductive getopt_result := OAddress (optarg : string) | OUnknown.

Fixpoint parseCmdArgs (args : list getopt_result) (spoofAddress : string) : bool * string :=
  match args with
  | [] => (negb (String.eqb spoofAddress EmptyString), spoofAddress)
  | OAddress optarg :: args => parseCmdArgs args optarg
  | OUnknown :: args => parseCmdArgs args spoofAddress
  end.

(** ** The messages, [initMessages] *)

Definition authRequest : string := "Content-Type: auth/request" +:+ endl +:+ endl.
Definition replyOk : string :=
  "Content-Type: command/reply" +:+ endl +:+ "Reply-Text: +OK accepted" +:+ endl +:+ endl.

(** [783 + 3*(spoofAddress.size()-12)], in [size_t]. *)
Definition sofia_length (spoofAddress : string) : Z := wrap64 (783 + 3 * wrap64 (length_ spoofAddress - 12)).

Definition sofia_lines (spoofAddress : string) : list string :=
  ["                     Name          Type                                       Data      State";
   "=================================================================================================";
   "           " +:+ spoofAddress +:+ "         alias                                   internal      ALIASED";
   "                 internal       profile          sip:mod_sofia@" +:+ spoofAddress +:+ "      RUNNING (0)";
   "                 external       profile          sip:mod_sofia@" +:+ spoofAddress +:+ "      RUNNING (0)";
   "    external::example.com       gateway                    sip:joeuser@example.com      NOREG";
   "            internal-ipv6       profile                   sip:mod_sofia@[::1]:5060      RUNNING (0)";
   "=================================================================================================";
   "3 profiles 1 alias"].

Definition sofiaStatus (spoofAddress : string) : string :=
  "Content-Type: api/response" +:+ endl +:+ "Content-Length: " +:+ dec (sofia_length spoofAddress) +:+ endl +:+ endl +:+
  unlines (sofia_lines spoofAddress) +:+ endl.

Definition spoofed_lines : list string :=
  ["UP 0 years, 1 day, 12 hours, 16 minutes, 39 seconds, 678 milliseconds, 919 microseconds";
   "FreeSWITCH (Version 1.2.10 git f4efa96 2013-06-05 16:21:38Z) is ready";
   "39 session(s) since startup";
   "0 session(s) - 0 out of max 30 per sec";
   "1000 session(s) max";
   "min idle cpu 0.00/100.00";
   "Current Stack Size/Max 240K/8192K"].

Definition apiStatus : string :=
  "Content-Type: api/response" +:+ endl +:+ "Content-Length: 304" +:+ endl +:+ endl +:+ unlines spoofed_lines +:+ endl.

(** ** The handlers *)

Section Handlers.
Context (spoofAddress : string).

(** The text written in answer to what was read, if any. *)
Definition answer (s : string) : option string :=
  if begins "auth ClueCon" s then Some replyOk
  else if begins "api sofia status" s then Some (sofiaStatus spoofAddress)
  else if begins "api status" s then Some apiStatus
  else None.

(** The reads and writes outstanding on the socket. *)
Record spoofer := mkSpoofer { sp_reads : Z; sp_writes : list string }.

Inductive spoof_event := SpAccept (ec : bool) | SpWrite | SpRead (ec : bool) (s : string).

Inductive spoof_result := Goes (sp : spoofer) | Exits (code : Z).

(** A handler; [None] when its operation is not outstanding. *)
Definition spoof_step (sp : spoofer) (e : spoof_event) : option spoof_result :=
  match e with
  | SpAccept ec => Some (Goes (if negb ec then mkSpoofer (sp_reads sp) (sp_writes sp ++ [authRequest]) else sp))
  | SpWrite =>
      match sp_writes sp with
      | [] => None
      | _ :: ws => Some (Goes (mkSpoofer (sp_reads sp + 1) ws))
      end
  | SpRead ec s =>
      if sp_reads sp =? 0 then None
      else if ec then Some (Exits (-1))
      else Some (Goes (mkSpoofer (sp_reads sp - 1 + 1)
                       (match answer s with Some w => sp_writes sp ++ [w] | None => sp_writes sp end)))
  end.
End Handlers.

(** ** Lemmas *)

(** A host and a port the parsers leave alone. *)
Definition plain_host (h : string) : Prop := h <> EmptyString /\ clean " @:" h = true /\ clean blank_tab h = true /\ clean endl h = true.

Definition spoof_address (h : string) (p : Z) : string := h +:+ ":" +:+ dec p.

(** No digit is a separator. *)
Ltac no_digits :=
  let c := fresh "c" in let H := fresh "H" in
  intros c H; simpl in H; rewrite ?orb_false_r in H;
  repeat (apply orb_true_iff in H as [H|H]); apply Ascii.eqb_eq in H as ->; reflexivity.

Lemma plain_address h p :
  plain_host h -> 0 <= p ->
  spoof_address h p <> EmptyString /\ clean blank_tab (spoof_address h p) = true /\
  clean endl (spoof_address h p) = true.
Proof.
  intros (Hne & Hc & Ht & He) Hp. unfold spoof_address. split; [by destruct h|].
  rewrite !clean_app, Ht, He. split; (apply clean_dec; [done|no_digits]).
Qed.

(** *** The lengths *)

Lemma length_sofia a : length_ (unlines (sofia_lines a)) = 747 + 3 * length_ a.
Proof. unfold sofia_lines. cbn [unlines]. unfold length_. rewrite !length_str_app. simpl String.length. lia. Qed.

Lemma sofia_length_spec a : length_ a < 2^31 -> sofia_length a = 747 + 3 * length_ a.
Proof.
  intros Ha. unfold sofia_length, wrap64. rewrite Z.add_mod, Z.mul_mod_idemp_r, <- Z.add_mod by lia.
  assert (0 <= length_ a) by (unfold length_; lia). rewrite Z.mod_small by lia. lia.
Qed.

Lemma sofia_is_lines a : clean endl a = true -> Forall (fun l => is_line l = true) (sofia_lines a).
Proof.
  intros Ha. unfold sofia_lines.
  repeat (apply List.Forall_cons; [unfold is_line; rewrite ?clean_app, ?Ha; reflexivity|]). apply List.Forall_nil.
Qed.

(** *** What the parser makes of the answers *)

Lemma append_sofia a :
  clean endl a = true -> length_ a < 2^30 ->
  append (sofiaStatus a) new_FsMessage =
  after_header (sofia_length a) (sofiaStatus a) (unlines (sofia_lines a)) true true.
Proof.
  intros Hc Ha. pose proof (sofia_length_spec a ltac:(lia)) as Hn. assert (0 <= length_ a) by (unfold length_; lia).
  assert (sofiaStatus a = api_header (sofia_length a) +:+ unlines (sofia_lines a) +:+ endl) as ->.
  { unfold sofiaStatus, api_header. cbn [unlines]. by rewrite !app_str_assoc. }
  rewrite append_header_body by (unfold is_u32; lia). cbv zeta.
  rewrite tokenize_unlines by by apply sofia_is_lines.
  change (tokenize endl endl) with (@nil string). rewrite app_nil_r, length_sofia, Hn, Z.eqb_refl. done.
Qed.

Lemma append_status : append apiStatus new_FsMessage = after_header 304 apiStatus (unlines spoofed_lines) true true.
Proof. vm_compute. reflexivity. Qed.

Lemma exists_char_app q a b : exists_char q (a +:+ b) = exists_char q a || exists_char q b.
Proof. induction a as [|c a IH]; [done|]. simpl. by rewrite IH, orb_assoc. Qed.

(** Cutting a line at its blanks. *)
Lemma blank_drop s : tokenize blank_tab (String " "%char s) = tokenize blank_tab s.
Proof. by apply tokenize_dropped. Qed.

Lemma blank_prefix b s : only_chars_of " " b = true -> tokenize blank_tab (b +:+ s) = tokenize blank_tab s.
Proof.
  induction b as [|c b IH]; [done|]. simpl. rewrite orb_false_r. intros [->%Ascii.eqb_eq H]%andb_true_iff.
  by rewrite blank_drop, IH.
Qed.

Lemma blank_word w s :
  w <> EmptyString -> clean blank_tab w = true -> tokenize blank_tab (w +:+ String " "%char s) = w :: tokenize blank_tab s.
Proof. intros. by apply tokenize_sep. Qed.

Lemma contact_tokens h p :
  plain_host h -> 0 <= p ->
  tokenize "@:" ("sip:mod_sofia@" +:+ spoof_address h p) = ["sip"; "mod_sofia"; h; dec p].
Proof.
  intros (Hne & Hc & _) Hp. assert (clean "@:" h = true) as Hh.
  { apply negb_true_iff in Hc. unfold clean. apply negb_true_iff. revert Hc. clear.
    induction h as [|c h IH]; [done|]. simpl. intros [H1 H2]%orb_false_iff. apply orb_false_iff in H1 as [_ H1].
    rewrite H1. by apply IH. }
  change ("sip:mod_sofia@" +:+ spoof_address h p) with ("sip" +:+ String ":"%char ("mod_sofia" +:+ String "@"%char (spoof_address h p))).
  rewrite !tokenize_sep by done. unfold spoof_address.
  change (h +:+ ":" +:+ dec p) with (h +:+ String ":"%char (dec p)). rewrite tokenize_sep by done.
  rewrite tokenize_one; [done|by apply dec_not_empty|apply clean_dec; [done|no_digits]].
Qed.

(** The profile's line, cut at its blanks; its contact, cut at its separators. *)
Lemma sofia_profile h p :
  plain_host h -> is_u32 p -> length_ (spoof_address h p) < 2^30 ->
  getSipProfile "internal" (append (sofiaStatus (spoof_address h p)) new_FsMessage) = Ok (Some (h, p)).
Proof.
  intros Hh Hp Hl. assert (0 <= p) as H0 by (by destruct Hp). destruct (plain_address h p Hh H0) as (Hne & Hb & He).
  rewrite append_sofia by done. set (m := after_header _ _ _ _ _).
  enough (getSipProfile "internal" m = Ok (Some (h, atoi_u32 (dec p)))) as E by by rewrite atoi_u32_dec in E.
  set (a := spoof_address h p) in *. apply (getSipProfile_line _ "internal" (take 3 (sofia_lines a)) (drop 4 (sofia_lines a))
    ("                 internal       profile          sip:mod_sofia@" +:+ a +:+ "      RUNNING (0)") EmptyString
    "profile" ("sip:mod_sofia@" +:+ a) "sip" "mod_sofia" h ["RUNNING"; "(0)"] [dec p]).
  - change (m_strContent m) with (unlines (sofia_lines a)). rewrite tokenize_unlines_all by by apply sofia_is_lines. done.
  - change (take 3 (sofia_lines a)) with
      [nth 0 (sofia_lines a) EmptyString; nth 1 (sofia_lines a) EmptyString;
       "           " +:+ a +:+ "         alias                                   internal      ALIASED"].
    apply List.Forall_cons; [|apply List.Forall_cons; [|apply List.Forall_cons; [|apply List.Forall_nil]]].
    { exists "Name", ["Type"; "Data"; "State"]. split; [reflexivity|discriminate]. }
    { exists (nth 1 (sofia_lines a) EmptyString), []. split; [reflexivity|discriminate]. }
    exists a, ["alias"; "internal"; "ALIASED"]. simpl. rewrite !blank_drop.
    rewrite (blank_word a) by done. split; [vm_compute; reflexivity|].
    intros E. apply (f_equal (exists_char (Ascii.eqb ":"%char))) in E. unfold a, spoof_address in E.
    rewrite exists_char_app in E. simpl in E. by rewrite orb_true_r in E.
  - change ("                 internal       profile          sip:mod_sofia@" +:+ a +:+ "      RUNNING (0)") with
      ("                 " +:+ "internal" +:+ String " "%char ("      " +:+ "profile" +:+ String " "%char
        ("         " +:+ ("sip:mod_sofia@" +:+ a) +:+ String " "%char "     RUNNING (0)"))).
    rewrite (blank_prefix "                 "), (blank_word "internal"), (blank_prefix "      "), (blank_word "profile"),
      (blank_prefix "         "), (blank_word ("sip:mod_sofia@" +:+ a)) by (done || by rewrite clean_app, Hb).
    reflexivity.
  - apply contact_tokens; done.
Qed.

(** ** Properties *)

(** What an instance has written. *)
Definition written (i : FsInstance) : list string :=
  omap (fun a => match a with AWrite d => Some d | _ => None end) (m_actions i).

(** The stand-in brings a server up.  For any host and port the parsers leave
    alone, the greeting and the answers of the stand-in to exactly what the
    instance writes take a new instance to a state in which it is available
    for calls, with that SIP address, no session out of 1000, and its health
    check timer set; in particular the lengths the stand-in announces are the
    ones the instance's parser counts. *)
Theorem spoofer_brings_up (ms : Z) (fs_address host : string) (fs_port port : Z) (ep : string) :
  plain_host host -> is_u32 port -> length_ (spoof_address host port) < 2^30 ->
  exists i r1 r2 r3, runs (step ms) (start (new_FsInstance fs_address fs_port))
    [EResolve (inr [ep]); EConnect false; ERead false authRequest true; ERead false r1 true; ERead false r2 true;
     ERead false r3 true] i /\
    map (answer (spoof_address host port)) (written i) = [Some r1; Some r2; Some r3] /\
    isAvailable i = true /\ m_strSipAddress i = host /\ m_nSipPort i = port /\
    m_nCurrentSessions i = 0 /\ m_nMaxSessions i = 1000 /\ m_pending i = [PTimer ms].
Proof.
  intros Hh Hp Hl. assert (0 <= port) as H0 by (by destruct Hp). destruct (plain_address host port Hh H0) as (_ & _ & He).
  pose proof (append_sofia _ He Hl) as Es. pose proof (sofia_profile host port Hh Hp Hl) as Ep.
  set (sofia := sofiaStatus (spoof_address host port)) in *.
  eexists _, replyOk, sofia, apiStatus. split.
  - change [EResolve (inr [ep]); EConnect false; ERead false authRequest true; ERead false replyOk true;
      ERead false sofia true; ERead false apiStatus true] with
      (connect_events ep ++ [ERead false sofia true; ERead false apiStatus true]).
    eapply runs_app; [apply connect_run|]. econstructor.
    + apply profile_step; [|exact Ep]. unfold complete_api_response. by rewrite Es.
    + econstructor; [|constructor]. apply (status_step _ _ _ _ _ _ _ 0 1000).
      * unfold complete_api_response. by rewrite append_status.
      * rewrite append_status. vm_compute. reflexivity.
  - split_and!; reflexivity.
Qed.

Lemma spoofer_brings_up_witness :
  exists i r1 r2 r3, runs (step 10000) (start (new_FsInstance "127.0.0.1" 8021))
    [EResolve (inr ["127.0.0.1:8021"]); EConnect false; ERead false authRequest true; ERead false r1 true;
     ERead false r2 true; ERead false r3 true] i /\ isAvailable i = true.
Proof.
  destruct (spoofer_brings_up 10000 "127.0.0.1" "10.10.2.35" 8021 5060 "127.0.0.1:8021") as (i & r1 & r2 & r3 & H & _ & Ha & _).
  - repeat split; discriminate.
  - vm_compute. split; [discriminate|reflexivity].
  - vm_compute. reflexivity.
  - exists i, r1, r2, r3. split; [exact H|exact Ha].
Defined.
