(* ===== verification/DuplicateTester.v ===== *)
(** * DuplicateTester: a test peer that answers INVITEs three times

    [duplicate-tester.cpp]: a stateless user agent that sends the 200 of each
    INVITE three times, to test what the other side does with retransmitted
    answers.  Messages live in a store and are counted by reference, as the SIP
    stack does it ([msg_create], [msg_dup], [msg_destroy]): a message whose
    last reference is given up is gone, and looking at it is undefined
    behaviour. *)

From S2P Require Import Prelude Text Sip.

(** ** [boost::replace_all]

    The occurrences are looked for from left to right, each after the end of
    the one before; [skip] characters of an occurrence are left to pass. *)
Fixpoint replace_from (search format : string) (skip : nat) (s : string) : string :=
  match s with
  | EmptyString => EmptyString
  | String c s' =>
      match skip with
      | S skip => replace_from search format skip s'
      | O =>
          if begins search s then format +:+ replace_from search format (String.length search - 1) s'
          else String c (replace_from search format 0 s')
      end
  end.

(** For a [search] that is not empty. *)
Definition replace_all (s search format : string) : string := replace_from search format 0 s.

(** [s.c_str()] as the stack reads it: up to the first NUL. *)
Fixpoint c_str (s : string) : string :=
  match s with
  | EmptyString => EmptyString
  | String c s => if code c =? 0 then EmptyString else String c (c_str s)
  end.

(** ** Messages *)

Record message_t := mkSip { sip_request : option sip_method; sip_payload : option string; sip_content_type : option string }.

(** A handle of a message; the store has those that exist, each with the
    number of its references. *)
Record answer_t := mkReply { to_msg : nat; re_status : Z; re_content_type : option string; re_payload : option string }.

Record Tester := mkTester { msgs : gmap nat (message_t * nat); next_msg : nat; replies : list answer_t }.

#[export] Instance Tester_rebuild : Rebuild Tester := fun t => mkTester (msgs t) (next_msg t) (replies t).

#[local] Abbreviation K := (M Tester).

(** Looking at the object of a message. *)
Definition sip_object (m : nat) : K message_t := fun t =>
  match msgs t !! m with Some (sip, _) => Ok (sip, t) | None => Fault PastTheEnd end.

(** [msg_dup]: a deep copy with one reference. *)
Definition msg_dup (m : nat) : K nat :=
  sip ← sip_object m;
  k ← gets next_msg;
  modify (fun t => t <| msgs ::= <[ k := (sip, 1%nat) ]> |> <| next_msg := S k |>);;
  mret k.

(** [msg_destroy] gives up a reference. *)
Definition msg_destroy (m : nat) : K unit :=
  modify (fun t => t <| msgs ::= fun l =>
    match l !! m with Some (sip, S (S n)) => <[ m := (sip, S n) ]> l | _ => delete m l end |>).

(** [nta_msg_treply]: the answer is sent, and a reference to the request is
    given up. *)
Definition nta_msg_treply (m : nat) (status : Z) (content_type payload : option string) : K unit :=
  modify (fun t => t <| replies ::= fun l => l ++ [mkReply m status content_type payload] |>);;
  msg_destroy m.

Definition loopback : string := "c=IN IP4 127.0.0.1".
Definition any_address : string := "c=IN IP4 0.0.0.0".

(** [stateless_callback]: [sip] is the object of [msg] each time it is
    used. *)
Definition stateless_callback (msg : nat) : K Z :=
  sip ← sip_object msg;
  match sip_request sip with
  | Some sip_method_invite =>
      payload ← deref (sip_payload sip);
      let sdp := Some (c_str (replace_all payload loopback any_address)) in
      msg2 ← msg_dup msg;
      msg3 ← msg_dup msg2;
      sip ← sip_object msg;
      nta_msg_treply msg 200 (sip_content_type sip) sdp;;
      sip ← sip_object msg;
      nta_msg_treply msg2 200 (sip_content_type sip) sdp;;
      sip ← sip_object msg;
      nta_msg_treply msg3 200 (sip_content_type sip) sdp;;
      mret 0
  | Some sip_method_bye => nta_msg_treply msg 200 None None;; mret 0
  | _ => mret 0
  end.

(** ** The command line and [main] *)

Inductive getopt_result := OAddress (optarg : string) | OUnknown.

(** [parseCmdArgs] into [sipAddress], empty at first. *)
Fixpoint parseCmdArgs (args : list getopt_result) (sipAddress : string) : bool * string :=
  match args with
  | [] => (negb (empty_ sipAddress), sipAddress)
  | OAddress optarg :: args => parseCmdArgs args optarg
  | OUnknown :: args => parseCmdArgs args sipAddress
  end.

(** [main], up to its event loop: [inl] is an exit status.  The arguments are
    the answers of [su_init], [su_root_create], [su_home_create] and
    [nta_agent_create]. *)
Definition main (args : list getopt_result) (su_init : Z) (su_root_create su_home_create nta_agent_create : bool)
  : outcome (Z + Tester) :=
  let '(ok, sipAddress) := parseCmdArgs args EmptyString in
  if negb ok then Ok (inl (-1))
  else if su_init <? 0 then Ok (inl (-1))
  else if negb su_root_create then Ok (inl (-1))
  else if negb su_home_create then Ok (inl (-1))
  else if length_ sipAddress <? URL_MAXLEN
       then (if nta_agent_create then Ok (inr (mkTester ∅ 1 [])) else Ok (inl (-1)))
       else Fault PastTheEnd.

(** [s.find( p ) != npos]. *)
Fixpoint occurs (p s : string) : bool :=
  begins p s || match s with EmptyString => false | String _ s' => occurs p s' end.

(** ** Lemmas *)

Lemma begins_nil s : begins EmptyString s = true.
Proof. by destruct s. Qed.

Lemma begins_cons c p d s : begins (String c p) (String d s) = Ascii.eqb c d && begins p s.
Proof. done. Qed.

(** A text whose first character is not in [p] cannot begin with [p]. *)
Lemma begins_not_mem c p s : mem_char c p = false -> begins p (String c s) = true -> p = EmptyString.
Proof.
  destruct p as [|d p]; [done|]. rewrite begins_cons. simpl. intros [H _]%orb_false_iff [E _]%andb_true_iff.
  apply Ascii.eqb_eq in E as ->. by rewrite Ascii.eqb_refl in H.
Qed.

Section Replace.
(** A text to look for whose first character it has nowhere else, and that the
    replacement has only at its start, which differs from it. *)
Context (c : Ascii.ascii) (search format : string).
Context (Hsearch : mem_char c search = false) (Hformat : mem_char c format = false).
#[local] Abbreviation pat := (String c search).
#[local] Abbreviation fmt := (String c format).

(** What begins the result without that character began the text. *)
Lemma begins_replaced p : forall s skip,
  mem_char c p = false -> (skip <= String.length s)%nat ->
  begins p (replace_from pat fmt skip s) = true -> begins p (drop_str skip s) = true.
Proof.
  induction p as [|d p IH]; intros s skip Hp Hk H; [apply begins_nil|].
  revert skip Hk H. induction s as [|e s IHs]; intros skip Hk H; [done|].
  destruct skip as [|skip]; [|apply IHs; [simpl in Hk; lia|exact H]].
  cbn [replace_from] in H. destruct (begins pat (String e s)) eqn:E.
  - simpl in H. apply begins_not_mem in H; done.
  - cbn [drop_str]. rewrite begins_cons in H |- *. apply andb_true_iff in H as [-> H]. simpl.
    simpl in Hp. apply orb_false_iff in Hp as [_ Hp]. apply (IH s 0%nat Hp); [lia|exact H].
Qed.

Lemma begins_length p s : begins p s = true -> (String.length p <= String.length s)%nat.
Proof. intros [r ->]%begins_spec. rewrite length_str_app. lia. Qed.

Lemma occurs_skip f s : mem_char c f = false -> occurs pat (f +:+ s) = occurs pat s.
Proof using Hsearch.
  induction f as [|d f IH]; [done|]. simpl. intros [Hd Hf]%orb_false_iff. rewrite (IH Hf), begins_cons, Hd. done.
Qed.

(** Nothing that is looked for is left, when the replacement does not begin
    like it. *)
Lemma replaced_clean : (forall r, begins search (format +:+ r) = false) ->
  forall s skip, (skip <= String.length s)%nat -> occurs pat (replace_from pat fmt skip s) = false.
Proof using Hsearch Hformat.
  intros Hdiff. induction s as [|e s IH]; intros skip Hk; [done|].
  destruct skip as [|skip]; [|apply IH; simpl in Hk; lia]. cbn [replace_from].
  destruct (begins pat (String e s)) eqn:E.
  - change (fmt +:+ ?x) with (String c (format +:+ x)). cbn [occurs]. rewrite begins_cons, Hdiff, andb_false_r.
    cbn [orb]. rewrite occurs_skip by done. apply IH. apply begins_length in E. simpl in *. lia.
  - cbn [occurs]. rewrite IH by lia. rewrite orb_false_r. apply not_true_iff_false. intros H.
    rewrite begins_cons in H, E. apply andb_true_iff in H as [Hc H]. rewrite Hc in E.
    apply (begins_replaced search s 0) in H; [|done|lia]. cbn [drop_str] in H. by rewrite H in E.
Qed.
End Replace.

Lemma replace_from_skip search format n : forall s, replace_from search format n s = replace_from search format 0 (drop_str n s).
Proof. induction n as [|n IH]; intros [|d s]; try done. simpl. apply IH. Qed.

(** What is not there is not replaced; the first occurrence is, and so on after
    it. *)
Lemma replace_none search format s : occurs search s = false -> replace_all s search format = s.
Proof.
  unfold replace_all. induction s as [|d s IH]; [done|]. cbn [occurs replace_from].
  intros [-> H]%orb_false_iff. by rewrite IH.
Qed.

Lemma replace_first search format s r :
  search <> EmptyString ->
  (forall k, (k < String.length s)%nat -> begins search (drop_str k (s +:+ search +:+ r)) = false) ->
  replace_all (s +:+ search +:+ r) search format = s +:+ format +:+ replace_all r search format.
Proof.
  intros Hs H. unfold replace_all. induction s as [|d s IH].
  - simpl. destruct search as [|e search]; [done|]. simpl. cbn [replace_from].
    assert (begins (String e search) (String e (search +:+ r)) = true) as -> by (apply begins_spec; by exists r).
    f_equal. simpl. rewrite Nat.sub_0_r, replace_from_skip. f_equal. clear. induction search as [|x search IH]; [done|exact IH].
  - simpl. cbn [replace_from]. pose proof (H 0%nat ltac:(simpl; lia)) as H0. cbn [drop_str] in H0. simpl in H0. rewrite H0.
    f_equal. apply IH. intros k Hk. apply (H (S k)). simpl. lia.
Qed.

(** ** Properties *)

(** The media of an answer is nowhere but on the wildcard address: no
    connection line with the loopback address is left, an offer without one is
    answered as it is, and the first one of an offer becomes a line with the
    wildcard address, as do those after it. *)
Theorem no_loopback_left (sdp : string) :
  occurs loopback (replace_all sdp loopback any_address) = false /\
  (occurs loopback sdp = false -> replace_all sdp loopback any_address = sdp) /\
  (forall s r, sdp = s +:+ loopback +:+ r ->
     (forall k, (k < String.length s)%nat -> begins loopback (drop_str k sdp) = false) ->
     replace_all sdp loopback any_address = s +:+ any_address +:+ replace_all r loopback any_address).
Proof.
  split; [apply replaced_clean; [done|done|done|lia]|]. split; [apply replace_none|].
  intros s r -> H. by apply replace_first.
Qed.

(** An INVITE is answered three times only if somebody else keeps it.  With
    another reference to the request, the callback sends the same 200 for it
    and for two copies, and leaves the store as it was but for the reference
    it gives up.  Without one, the first answer ends the request, and the
    second one looks at it again. *)
Theorem invite_answers (t : Tester) (m : nat) (sip : message_t) (payload : string) (n : nat) :
  msgs t !! m = Some (sip, S n) -> sip_request sip = Some sip_method_invite -> sip_payload sip = Some payload ->
  msgs t !! next_msg t = None -> msgs t !! S (next_msg t) = None ->
  let answer m := mkReply m 200 (sip_content_type sip) (Some (c_str (replace_all payload loopback any_address))) in
  (n = 0%nat -> stateless_callback m t = Fault PastTheEnd) /\
  (n <> 0%nat -> exists t', stateless_callback m t = Ok (0, t') /\
     replies t' = replies t ++ [answer m; answer (next_msg t); answer (S (next_msg t))] /\
     msgs t' = <[ m := (sip, n) ]> (msgs t)).
Proof.
  intros Hm Hr Hp H1 H2 answer. set (k := next_msg t) in *.
  assert (m <> k) as Nk by (intros ->; congruence). assert (m <> S k) as Nk' by (intros ->; congruence).
  assert (k <> S k) as Nkk by lia.
  set (l := <[ S k := (sip, 1%nat) ]> (<[ k := (sip, 1%nat) ]> (msgs t))).
  assert (l !! m = Some (sip, S n)) as Hl by (unfold l; by rewrite !lookup_insert_ne by done).
  assert (l !! k = Some (sip, 1%nat)) as Hlk by (unfold l; by rewrite lookup_insert_ne, lookup_insert_eq by done).
  assert (l !! S k = Some (sip, 1%nat)) as Hlk' by (unfold l; by rewrite lookup_insert_eq).
  unfold stateless_callback, msg_dup, nta_msg_treply, msg_destroy, sip_object, deref, mbind, M_bind, gets, modify, mret, M_ret.
  rewrite Hm. cbn beta iota. rewrite Hr, Hp. simpl. rewrite Hm. simpl. fold k.
  rewrite lookup_insert_eq. simpl. fold l. rewrite Hl. simpl. rewrite Hl. destruct n as [|n].
  - split; [|done]. intros _. by rewrite lookup_delete_eq.
  - split; [done|]. intros _. rewrite lookup_insert_eq. simpl. rewrite lookup_insert_ne, Hlk by done. simpl.
    rewrite lookup_delete_ne, lookup_insert_eq by done. simpl. rewrite lookup_delete_ne, lookup_insert_ne, Hlk' by done.
    eexists. split; [reflexivity|]. simpl. split; [by rewrite <- !app_assoc|].
    unfold l. apply map_eq. intros j.
    destruct (decide (j = S k)) as [->|]; [by rewrite lookup_delete_eq, lookup_insert_ne, H2|].
    rewrite lookup_delete_ne by done.
    destruct (decide (j = k)) as [->|]; [by rewrite lookup_delete_eq, lookup_insert_ne, H1|].
    rewrite lookup_delete_ne by done. destruct (decide (j = m)) as [->|]; [by rewrite !lookup_insert_eq|].
    by rewrite !lookup_insert_ne by done.
Qed.

Definition offer : string := "v=0 c=IN IP4 127.0.0.1 t=0 0".
Definition invite_with (refs : nat) : Tester :=
  mkTester {[ 0%nat := (mkSip (Some sip_method_invite) (Some offer) (Some "application/sdp"), refs) ]} 1 [].

Lemma invite_answers_witness :
  stateless_callback 0 (invite_with 1) = Fault PastTheEnd /\
  exists t', stateless_callback 0 (invite_with 2) = Ok (0, t') /\
    map re_payload (replies t') = replicate 3 (Some "v=0 c=IN IP4 0.0.0.0 t=0 0").
Proof.
  split.
  - refine (proj1 (invite_answers (invite_with 1) 0 _ offer 0 _ _ _ _ _) eq_refl); vm_compute; reflexivity.
  - destruct (proj2 (invite_answers (invite_with 2) 0 (mkSip (Some sip_method_invite) (Some offer) (Some "application/sdp")) offer 1
      eq_refl eq_refl eq_refl eq_refl eq_refl)) as (t' & H & Hr & _); [discriminate|].
    exists t'. split; [exact H|]. rewrite Hr. vm_compute. reflexivity.
Defined.
