(* ===== verification/Lifecycle.v ===== *)
(** * Lifecycle: start-up, reconfiguration and shutdown

    The parts of [SipLbController] around the handling of calls: the command
    line, the constructor, [installConfig], [handleSigHup], the sequence of
    [run] up to the event loop, [processWatchdogTimer] in both modes, and the
    events of the main thread ([ssp-controller.cpp], lines 178-246, 248-330,
    495-735; [main.cpp]).  The
    operating system and the SIP stack answer through an argument; logging,
    and what [daemonize] does to the process, are left out. *)

From S2P Require Import Prelude Text Sip Ssp Tokenizer FsMessage FsInstance FsMonitor PoolThread PropertyTree Routing SspConfig Routes.
From S2P Require Import Cdr CdrWriter TrunkStats Bimap CallControl CallTables CallSafety CallRuns Nagios.
From S2P Require Stateless.

#[local] Existing Instance Stateless.St_rebuild.

(** ** The command line *)

Inductive getopt_result := ODaemon | ODbTest | OFile (optarg : string) | OIterations (optarg : string)
  | OUser (optarg : string) | OVersion | OUnknown.

Record Arguments_t := mkArguments {
  m_bDaemonize : bool; m_bDbTest : bool; m_configFilename : string; m_user : string; a_nIterationCount : Z
}.

#[export] Instance Arguments_rebuild : Rebuild Arguments_t := fun a =>
  mkArguments (m_bDaemonize a) (m_bDbTest a) (m_configFilename a) (m_user a) (a_nIterationCount a).

Definition DEFAULT_CONFIG_FILENAME : string := "/etc/ssp.conf.xml".

Definition default_arguments : Arguments_t := mkArguments false false DEFAULT_CONFIG_FILENAME EmptyString (-1).

(** [parseCmdArgs]: [None] when [--version] ends the process. *)
Fixpoint parseCmdArgs (args : list getopt_result) (a : Arguments_t) : option Arguments_t :=
  match args with
  | [] => Some a
  | ODaemon :: args => parseCmdArgs args (a <| m_bDaemonize := true |>)
  | ODbTest :: args => parseCmdArgs args (a <| m_bDbTest := true |>)
  | OFile optarg :: args => parseCmdArgs args (a <| m_configFilename := optarg |>)
  | OUser optarg :: args => parseCmdArgs args (a <| m_user := optarg |>)
  | OIterations optarg :: args => parseCmdArgs args (a <| a_nIterationCount := atoi optarg |>)
  | OVersion :: _ => None
  | OUnknown :: args => parseCmdArgs args a
  end.

(** ** The process *)

(** The controller with the members that only this file uses.  [left_writers]:
    the [CdrWriter]s that [m_cdrWriter] no longer points to; the handler of
    their timer keeps them alive, and they go on with what was posted. *)
Record Process := mkProcess {
  m_args : Arguments_t;
  ctl : Proxy;
  m_mapInvitesInProgress : gmap string Stateless.SipInboundCall;
  m_deqCompletedCallIds : list string;
  counter : Z;
  m_ConfigNew : option Impl;
  m_nFSTimer : Z;
  m_current_severity_threshold : severity_levels;
  m_stats : option NagiosConnector;
  left_writers : list (list Z * CdrWriter);
  m_running : bool
}.

#[export] Instance Process_rebuild : Rebuild Process := fun p =>
  mkProcess (m_args p) (ctl p) (m_mapInvitesInProgress p) (m_deqCompletedCallIds p) (counter p) (m_ConfigNew p) (m_nFSTimer p)
    (m_current_severity_threshold p) (m_stats p) (left_writers p) (m_running p).

Section Controller.
Context (sort : (Z -> Z -> bool) -> list Z -> list Z).
Context (iteration : forall V, gmap string V -> list (string * V)).
(** The XML parser. *)
Context (read_xml : string -> option ptree).

(** What the system and the stack answer: the files there are, the
    uninitialised members of a configuration and the uninitialised port of [FsMonitor::reset], whether
    the statistics server can bind its port, the answers a new [CdrWriter]
    gets from the database, and the counts of transactions and the time for
    the watchdog. *)
Record system := mkSystem {
  sy_open : string -> option string; sy_junk : Impl; sy_garbage : Z; sy_binds : bool; sy_answers : list answer; sy_irq_used : Z; sy_orq_used : Z; sy_now : Z
}.

#[local] Abbreviation K := (M Process).

Definition read_file (sy : system) (file : string) : Impl := new_Impl (sy_open sy) read_xml (sy_junk sy) file.

Definition on_ctl (f : Proxy -> Proxy) : K unit := modify (fun p => p <| ctl ::= f |>).

(** [m_cdrWriter.reset( ... )]. *)
Definition leave_writer (q : Queue) : list Z * CdrWriter := (posted q, writer q).
Definition replace_writer (ans : option (list answer)) (p : Process) : Process :=
  let q := m_cdrs (ctl p) in
  let p := if CallControl.m_cdrWriter (ctl p) then p <| left_writers ::= fun l => l ++ [leave_writer q] |> else p in
  match ans with
  | Some ans => p <| ctl ::= fun s => s <| CallControl.m_cdrWriter := true |>
                  <| m_cdrs ::= fun q => q <| posted := [] |> <| writer := new_CdrWriter ans |> |> |>
  | None => p <| ctl ::= fun s => s <| CallControl.m_cdrWriter := false |> <| m_cdrs ::= fun q => q <| posted := [] |> |> |>
  end.

(** Creating the writer, if the configuration names a database. *)
Definition create_writer (sy : system) : K unit :=
  p ← get;
  match getCdrConnectInfo (m_Config (ctl p)) with
  | Some _ => modify (replace_writer (Some (sy_answers sy)))
  | None => mret tt
  end.

(** [installConfig]. *)
Definition installConfig (initial : bool) (sy : system) : K unit :=
  p ← get;
  match m_ConfigNew p with
  | Some c => on_ctl (fun s => s <| m_Config := c |>);; modify (fun p => p <| m_ConfigNew := None |>)
  | None => mret tt
  end;;
  cfg ← gets (fun p => m_Config (ctl p));
  on_ctl (fun s => s <| m_nTerminationRetries := Z.min (getCountOfOutboundTrunks cfg) (m_nMaxTerminationAttempts cfg) |>);;
  modify (fun p => p <| m_nFSTimer := m_nFSTimerMsecs cfg |> <| m_current_severity_threshold := m_loglevel cfg |>);;
  when (negb initial) (create_writer sy).

(** [handleSigHup]. *)
Definition handleSigHup (sy : system) : K unit :=
  p ← get;
  match m_ConfigNew p with
  | None =>
      let c := read_file sy (m_configFilename (m_args p)) in
      modify (fun p => p <| m_ConfigNew := if m_bIsValid c then Some c else None |>)
  | Some _ => mret tt
  end.

(** The statistics server of the configuration; binding its port may throw. *)
Definition open_stats (sy : system) : K unit :=
  cfg ← gets (fun p => m_Config (ctl p));
  when (negb (snd (getStatsPort cfg) =? 0))
    (if sy_binds sy then modify (fun p => p <| m_stats := Some new_NagiosConnector |>) else fail Uncaught).

(** The end of the event loop. *)
Definition shut_down : K unit := modify (fun p => p <| m_running := false |>).

(** The stateless tables as [Stateless] has them, and back. *)
Definition stateless_view (p : Process) : Stateless.St FsMonitor :=
  Stateless.mkSt (m_mapInvitesInProgress p) (m_deqCompletedCallIds p) (m_nIterationCount (ctl p))
    (m_bIsActive (m_Config (ctl p))) (m_fsMonitor (ctl p)) [] (counter p) (m_running p).

Definition stateless_back (s : Stateless.St FsMonitor) (p : Process) : Process :=
  p <| m_mapInvitesInProgress := Stateless.m_mapInvitesInProgress s |>
    <| m_deqCompletedCallIds := Stateless.m_deqCompletedCallIds s |>
    <| ctl ::= fun c => c <| m_nIterationCount := Stateless.m_nIterationCount s |> <| m_fsMonitor := Stateless.m_fsMonitor s |> |>
    <| counter := Stateless.m_counter s |> <| m_running := Stateless.m_running s |>.

Definition in_stateless {A} (m : M (Stateless.St FsMonitor) A) : K A := fun p =>
  match m (stateless_view p) with Ok (a, s) => Ok (a, stateless_back s p) | Fault f => Fault f end.

(** [processWatchdogTimer]. *)
Definition no_work (s : Proxy) : bool :=
  (0 =? m_nIterationCount s) && bool_decide (m_dialogs s = []) && bool_decide (m_mapTerminationAttempts s = ∅)
  && bool_decide (m_transactions s = []).

Definition processWatchdogTimer (sy : system) : K Z :=
  cfg ← gets (fun p => m_Config (ctl p));
  match m_agent_mode cfg with
  | agent_mode_stateless =>
      in_stateless (Stateless.watchdog (sy_now sy))
  | agent_mode_stateful =>
      s ← gets ctl;
      when (no_work s && (0 =? wrap64 (sy_irq_used sy + sy_orq_used sy)))
        (on_ctl (fun s => s <| m_mapTrunkStats := ∅ |>);;
         s ← gets ctl;
         when (CallControl.m_cdrWriter s) (modify (replace_writer None));;
         shut_down)
  end;;
  p ← get;
  match m_ConfigNew p with
  | Some _ =>
      installConfig false sy;;
      modify (fun p => p <| m_stats := None |>);;
      open_stats sy
  | None => mret tt
  end;;
  mret 0.

(** ** Start-up *)

(** Running a computation of the controller. *)
Definition in_ctl {A} (m : M Proxy A) : K A := fun p =>
  match m (ctl p) with Ok (a, s) => Ok (a, p <| ctl := s |>) | Fault f => Fault f end.

(** The records one round of [runDbTest] posts. *)
Definition dbtest_records (i : Z) (uuid : string) (now : Z) : list CdrInfo :=
  let new type := setUuid uuid (new_CdrInfo type) in
  setCallingPartyNumber "cli" (setCalledPartyNumberIn "did" (setOriginatingEdgeServerAddress "localhost-orig-edge"
    (setBLegCallId "B-leg-callid" (setALegCallId "A-leg-callid" (setOriginatingCarrierAddress "carrierX-address"
    (setOriginatingCarrier "carrierX" (setTimeStart now (new origination_request)))))))) ::
  (if i `mod` 2 =? 0 then
     [setCalledPartyNumberOut "8XX" (setTerminatingEdgeServerAddress "localhost-term-edge"
        (setTerminatingCarrierAddress "carrierY-address" (setTerminatingCarrier "carrierY"
        (setDLegCallId "D-Leg-callid" (setCLegCallId "C-Leg-callid" (setSipStatus 200
        (setTimeConnect now (setTimeStart now (new termination_attempt)))))))));
      setTimeConnect now (setSipStatus 200 (new origination_final_response));
      setReleaseCause calling_party_release (setTimeEnd now (new call_cleared))]
   else [setTimeEnd now (new origination_cancel)]).

(** [m_cdrWriter->postCdr( pCdr )] on new records: without a writer the null
    pointer is dereferenced. *)
Fixpoint post_all (l : list CdrInfo) : K unit :=
  match l with
  | [] => mret tt
  | c :: l =>
      w ← gets (fun p => CallControl.m_cdrWriter (ctl p));
      (if (w : bool) then mret tt else fail NullDeref);;
      p ← in_ctl (new_cdr c);
      in_ctl (postCdr p);;
      post_all l
  end.

(** [runDbTest]; [uuid i] is the text [generateUuid] makes in round [i]. *)
Definition runDbTest (uuid : Z -> string) (now : Z) : K unit :=
  post_all (mjoin (map (fun i => dbtest_records i (uuid i) now) (seqZ 0 100))).

(** What start-up is answered: the result of [su_init], whether the root, the
    message class, the agent and the default leg could be made, the contact
    of the agent, the version in the user agent's name, UUIDs for the test. *)
Record startup := mkStartup {
  su_init : Z; su_root_create : bool; sip_update_default_mclass : bool; nta_agent_create : bool;
  nta_leg_tcreate : bool; nta_agent_contact : url_t; SSP_VERSION : string; su_uuid : Z -> string
}.

Definition generateUserAgent (version : string) : string := "Raytheon/BBN Avoke Edge Server/" +:+ version.

(** The members after the constructor's initialiser list, and the
    configuration read. *)
Definition new_Process (a : Arguments_t) (c : Impl) : Process :=
  mkProcess a
    (mkCtl c new_FsMonitor false (mkQueue ∅ [] (new_CdrWriter [])) 1 (a_nIterationCount a) 0
       (mkUrl None None None) EmptyString [] [] ∅ ∅ ∅ [])
    ∅ [] 5 None 0 log_notice None [] false.

(** [SipLbController::SipLbController]: [inl] is an exit code. *)
Definition construct (args : list getopt_result) (sy : system) : Z + outcome (unit * Process) :=
  match parseCmdArgs args default_arguments with
  | None => inl 0
  | Some a =>
      let c := read_file sy (m_configFilename a) in
      if m_bIsValid c then inr (installConfig true sy (new_Process a c)) else inl (-1)
  end.

(** [run], up to [su_root_run]: false when it returns before that. *)
Definition run (sy : system) (su : startup) : K bool :=
  open_stats sy;;
  create_writer sy;;
  a ← gets m_args;
  if m_bDbTest a then runDbTest (su_uuid su) (sy_now sy);; mret false
  else
    cfg ← gets (fun p => m_Config (ctl p));
    if su_init su <? 0 then mret false
    else if negb (su_root_create su) then mret false
    else
      fits_url (m_sipUrl cfg);;
      if negb (sip_update_default_mclass su) then mret false
      else if negb (nta_agent_create su) then mret false
      else if bool_decide (m_agent_mode cfg = agent_mode_stateful) && negb (nta_leg_tcreate su) then mret false
      else
        on_ctl (fun s => s <| m_my_contact := nta_agent_contact su |>
                           <| m_my_user_agent := generateUserAgent (SSP_VERSION su) |>
                           <| m_fsMonitor ::= fun m =>
                                setRoundRobinInterval (m_nMaxRoundRobins cfg)
                                  (FsMonitor.reset (sy_garbage sy) (getAppservers iteration cfg) m) |>);;
        modify (fun p => p <| m_running := true |>);;
        mret true.

(** [main]: the process when its event loop starts. *)
Definition main (args : list getopt_result) (sy : system) (su : startup) : option Process :=
  match construct args sy with
  | inr (Ok (_, p)) => match run sy su p with Ok (true, p) => Some p | _ => None end
  | _ => None
  end.

(** ** Steps *)

(** A callback of the stack in stateful mode, one in stateless mode (at the
    time [now]; [rv] is what [nta_msg_tsend] returns), a signal, the watchdog,
    and the thread of a [CdrWriter] that was left. *)
Inductive event :=
| ECall (e : CallControl.event (P := FsMonitor))
| EStateless (now rv : Z) (sip : Stateless.sip_msg)
| EHup (sy : system)
| EWatchdog (sy : system)
| ELeft (k : nat).

(** The thread of a left writer takes a record. *)
Definition left_work (st : gmap Z CdrInfo) (lw : list Z * CdrWriter) : list Z * CdrWriter :=
  match fst lw with
  | [] => lw
  | p :: l => (l, match st !! p with Some c => writeCdr c (snd lw) | None => snd lw end)
  end.

Context (laws : sort_laws sort).
#[local] Existing Instance config_routes.

Definition handle (e : event) : K Z :=
  match e with
  | ECall e => in_ctl (@CallControl.handle _ _ (monitor_pool sort laws) _ e)
  | EStateless now rv sip => in_stateless (@Stateless.statelessCallback _ (monitor_pool sort laws) now rv sip)
  | EHup sy => handleSigHup sy;; mret 0
  | EWatchdog sy => processWatchdogTimer sy
  | ELeft k =>
      modify (fun p => p <| left_writers ::= alter (left_work (store (m_cdrs (ctl p)))) k |>);; mret 0
  end.
End Controller.

(** ** The invariant *)

(** Bounds on a configuration that its reader does not check. *)
Definition config_fits (c : Impl) : Prop :=
  Z.of_nat (length (m_vecTerminationCarrier c)) < 2^32 /\ Z.of_nat (size (m_mapAppserver c)) < 2^32 /\
  Forall (fun nr => short_route (snd nr)) (m_mapTerminationCarrierByName c).

Section Invariant.
Context (sort : (Z -> Z -> bool) -> list Z -> list Z) (laws : sort_laws sort).
Context (iteration : forall V, gmap string V -> list (string * V)).
Context (iteration_laws : forall V (m : gmap string V), Permutation (iteration V m) (map_to_list m)).
Context (read_xml : string -> option ptree).
Context (small_files : forall text pt, read_xml text = Some pt -> small pt).
#[local] Existing Instance config_routes.
#[local] Abbreviation pool := (monitor_pool sort laws).
#[local] Abbreviation handle := (handle sort read_xml laws).

Definition process_ok (p : Process) : Prop :=
  @ctl_ok _ _ pool config_routes (ctl p) /\ @Stateless.proxy_ok _ pool (stateless_view p) /\
  (forall c, m_ConfigNew p = Some c -> m_bIsValid c = true /\ impl_ok c).

(** What is expected of the system: a file that is valid is within the
    bounds; callbacks and the watchdog only come while the event loop runs; a
    new statistics server can bind its port. *)
Definition event_fits (p : Process) (e : event) : Prop :=
  match e with
  | ECall e => m_running p = true /\ @event_ok _ _ pool config_routes (ctl p) e
  | EStateless _ _ sip => m_running p = true /\ Stateless.message_ok (stateless_view p) sip
  | EHup sy => config_fits (read_file read_xml sy (m_configFilename (m_args p)))
  | EWatchdog sy => m_running p = true /\ sy_binds sy = true
  | ELeft _ => True
  end.

Definition process_step (p : Process) (e : event) (p' : Process) : Prop :=
  event_fits p e /\ exists r, handle e p = Ok (r, p').
End Invariant.

(** ** Lemmas *)

Section Lemmas.
Context (sort : (Z -> Z -> bool) -> list Z -> list Z) (laws : sort_laws sort).
Context (iteration : forall V, gmap string V -> list (string * V)).
Context (iteration_laws : forall V (m : gmap string V), Permutation (iteration V m) (map_to_list m)).
Context (read_xml : string -> option ptree).
Context (small_files : forall text pt, read_xml text = Some pt -> small pt).
#[local] Existing Instance config_routes.
#[local] Abbreviation pool := (monitor_pool sort laws).
#[local] Abbreviation handle := (handle sort read_xml laws).
#[local] Abbreviation process_ok := (process_ok sort laws).

(** A configuration that was read and is within the bounds. *)
Lemma new_config_ok sy file : let c := read_file read_xml sy file in config_fits c -> impl_ok c.
Proof.
  intros c (Hc & _ & Hs). split; [|by split].
  exact (proj1 (new_Impl_result (sy_open sy) read_xml (sy_junk sy) file small_files)).
Qed.

(** The tables of stateless mode. *)
Definition stateless_table (p : Process) := (m_mapInvitesInProgress p, m_deqCompletedCallIds p).

(** What a change of the controller must leave alone. *)
Definition same_calls (s s' : Proxy) : Prop :=
  m_fsMonitor s' = m_fsMonitor s /\ m_my_contact s' = m_my_contact s /\ m_nextCdr s' = m_nextCdr s /\
  store (m_cdrs s') = store (m_cdrs s) /\ tables_of s' = tables_of s.

Lemma same_calls_ok s s' :
  same_calls s s' -> impl_ok (m_Config s') -> @ctl_ok _ _ pool config_routes s -> @ctl_ok _ _ pool config_routes s'.
Proof.
  intros (Hm & Hc & Hn & Hs & Ht) Hi [(H1 & H2 & H3 & H4) H5]. unfold ctl_ok, env_ok, known in *.
  rewrite Hm, Hc, Hn, Hs, Ht. by split_and!.
Qed.

(** A change of the controller that leaves its calls alone, but may have
    another well-formed pool. *)
Lemma ctl_ok_pool s s' :
  same_calls (s <| m_fsMonitor := m_fsMonitor s' |>) s' -> m_Config s' = m_Config s -> monitor_ok (m_fsMonitor s') ->
  @ctl_ok _ _ pool config_routes s -> @ctl_ok _ _ pool config_routes s'.
Proof.
  intros Hs Hc Hm [(H1 & H2 & H3 & H4) H5]. eapply same_calls_ok; [exact Hs|by rewrite Hc|].
  split; [|exact H5]. split; [exact H1|]. split; [exact Hm|]. by split.
Qed.

(** *** The effect of installing a configuration *)

Definition installed (c : Impl) (p : Process) : Process :=
  p <| ctl ::= fun s => s <| m_Config := c |>
         <| m_nTerminationRetries := Z.min (getCountOfOutboundTrunks c) (m_nMaxTerminationAttempts c) |> |>
    <| m_ConfigNew := None |> <| m_nFSTimer := m_nFSTimerMsecs c |> <| m_current_severity_threshold := m_loglevel c |>.

Definition with_writer (sy : system) (p : Process) : Process :=
  match getCdrConnectInfo (m_Config (ctl p)) with
  | Some _ => replace_writer (Some (sy_answers sy)) p
  | None => p
  end.

Lemma create_writer_exact sy p : create_writer sy p = Ok (tt, with_writer sy p).
Proof. unfold create_writer, with_writer, mbind, M_bind, get, modify, mret, M_ret. by case_match. Qed.

Lemma installConfig_exact initial sy p :
  let p1 := installed (default (m_Config (ctl p)) (m_ConfigNew p)) p in
  installConfig initial sy p = Ok (tt, if initial then p1 else with_writer sy p1).
Proof.
  intros p1.
  assert (installConfig initial sy p = when (negb initial) (create_writer sy) p1) as ->.
  { unfold p1. destruct p as [? [] ? ? ? [c|] ? ? ? ? ?]; reflexivity. }
  destruct initial; [done|]. apply create_writer_exact.
Qed.

Lemma replace_writer_same ans p : same_calls (ctl p) (ctl (replace_writer ans p)).
Proof. unfold replace_writer. by destruct (CallControl.m_cdrWriter (ctl p)), ans. Qed.

Lemma replace_writer_others ans p :
  m_Config (ctl (replace_writer ans p)) = m_Config (ctl p) /\
  stateless_table (replace_writer ans p) = stateless_table p /\
  m_ConfigNew (replace_writer ans p) = m_ConfigNew p /\ m_running (replace_writer ans p) = m_running p.
Proof. unfold replace_writer. by destruct (CallControl.m_cdrWriter (ctl p)), ans. Qed.

Lemma process_ok_same p p' :
  same_calls (ctl p) (ctl p') -> impl_ok (m_Config (ctl p')) -> stateless_table p' = stateless_table p ->
  (m_ConfigNew p' = m_ConfigNew p \/ m_ConfigNew p' = None) -> process_ok p -> process_ok p'.
Proof.
  intros Hs Hi [= Hd Hq] Hn (Hc & (Hst & Hf & Hm) & Hnew). split; [by eapply same_calls_ok|]. split.
  { destruct Hs as (Hp & _). unfold Stateless.proxy_ok, Stateless.calls_ok in *. simpl in *. by rewrite Hp, Hd, Hq. }
  destruct Hn as [-> | ->]; [done|discriminate].
Qed.

Lemma process_config_ok p : process_ok p -> impl_ok (m_Config (ctl p)).
Proof. intros [[(_ & _ & H & _) _] _]. exact H. Qed.

Lemma with_writer_ok sy p : process_ok p -> process_ok (with_writer sy p).
Proof.
  intros Hp. unfold with_writer. case_match; [|done].
  destruct (replace_writer_others (Some (sy_answers sy)) p) as (Hc & Hd & Hn & _).
  eapply process_ok_same; [apply replace_writer_same| |exact Hd|by left|exact Hp]. rewrite Hc. by apply process_config_ok.
Qed.

Lemma installed_ok c p : impl_ok c -> process_ok p -> process_ok (installed c p).
Proof.
  intros Hc. apply process_ok_same; [by repeat split|exact Hc|done|by right].
Qed.

Lemma installConfig_ok initial sy p :
  process_ok p -> returns (installConfig initial sy) (fun _ p' => process_ok p' /\ m_running p' = m_running p) p.
Proof.
  intros Hp. unfold returns. rewrite installConfig_exact. set (c := default _ _).
  assert (impl_ok c) as Hc.
  { unfold c. destruct (m_ConfigNew p) as [c'|] eqn:E; simpl; [by apply Hp|by apply process_config_ok]. }
  pose proof (installed_ok c p Hc Hp) as H1.
  destruct initial; (split; [|]); [done|done|by apply with_writer_ok|].
  unfold with_writer. case_match; [|done]. by destruct (replace_writer_others (Some (sy_answers sy)) (installed c p)) as (_ & _ & _ & ->).
Qed.

Lemma open_stats_ok sy p :
  process_ok p -> sy_binds sy = true ->
  returns (open_stats sy) (fun _ p' => process_ok p' /\ m_running p' = m_running p) p.
Proof.
  intros Hp Hb. unfold open_stats. run. rewrite Hb. destruct (negb _); run; split; try done; try exact Hp.
Qed.

(** *** The watchdog *)

(** A computation on the stateless tables. *)
Lemma in_stateless_ok {A} (m : M (Stateless.St FsMonitor) A) p :
  process_ok p -> returns m (fun _ s => @Stateless.proxy_ok _ pool s) (stateless_view p) ->
  returns (in_stateless m) (fun _ p' => process_ok p') p.
Proof.
  intros (Hc & _ & Hn). unfold returns, in_stateless. destruct (m (stateless_view p)) as [[a s]|]; [|done].
  intros Hs. split; [|split; [exact Hs|exact Hn]].
  eapply ctl_ok_pool; [by repeat split|done|exact (proj2 (proj2 Hs))|exact Hc].
Qed.

Lemma on_ctl_ok f (Q : unit -> Process -> Prop) p :
  same_calls (ctl p) (f (ctl p)) -> m_Config (f (ctl p)) = m_Config (ctl p) -> process_ok p ->
  (process_ok (p <| ctl ::= f |>) -> Q tt (p <| ctl ::= f |>)) -> returns (on_ctl f) Q p.
Proof.
  intros Hs Hc Hp HQ. apply returns_modify, HQ. eapply process_ok_same; [exact Hs| |done|by left|exact Hp].
  simpl. rewrite Hc. by apply process_config_ok.
Qed.

(** The second half: a configuration that is waiting is installed. *)
Lemma install_waiting_ok sy p :
  process_ok p -> sy_binds sy = true ->
  returns (p ← get;
    match m_ConfigNew p with
    | Some _ => installConfig false sy;; modify (fun p => p <| m_stats := None |>);; open_stats sy
    | None => mret tt
    end;; mret 0) (fun _ p' => process_ok p' /\ m_running p' = m_running p) p.
Proof.
  intros Hp Hb. apply returns_bind. unfold returns at 1. simpl. apply returns_bind.
  destruct (m_ConfigNew p) as [c|] eqn:E; [|run; by split].
  apply returns_bind. eapply returns_mono; [by apply installConfig_ok|]. intros _ p1 [H1 Hr1].
  run. eapply returns_mono; [apply open_stats_ok; [exact H1|exact Hb]|]. intros _ p2 [H2 Hr2]. run.
  split; [exact H2|]. rewrite Hr2. exact Hr1.
Qed.

Lemma watchdog_tick_ok sy p :
  process_ok p -> sy_binds sy = true -> returns (processWatchdogTimer sy) (fun _ p' => process_ok p') p.
Proof.
  intros Hp Hb. unfold processWatchdogTimer. run.
  apply returns_mono with (Q := fun _ p' => process_ok p').
  - destruct (m_agent_mode _).
    + apply in_stateless_ok; [exact Hp|]. by apply (@Stateless.watchdog_returns _ pool), Hp.
    + run. destruct (_ && _); [|by run]. run.
      apply on_ctl_ok; [by repeat split|done|exact Hp|]. intros H1. run.
      set (p1 := p <| ctl ::= _ |>) in *. clearbody p1.
      assert (process_ok (replace_writer None p1)) as H2.
      { destruct (replace_writer_others None p1) as (Hc & Hd & Hn & _).
        eapply process_ok_same; [apply replace_writer_same| |exact Hd|by left|exact H1]. rewrite Hc. by apply process_config_ok. }
      destruct (CallControl.m_cdrWriter (ctl p1)); run; unfold shut_down; run.
      * eapply process_ok_same; [by repeat split|by apply process_config_ok|done|by left|exact H2].
      * eapply process_ok_same; [by repeat split|by apply process_config_ok|done|by left|exact H1].
  - intros _ p1 H1. eapply returns_mono; [by apply install_waiting_ok|]. by intros _ p2 [H2 _].
Qed.

Lemma hup_ok sy p :
  process_ok p -> config_fits (read_file read_xml sy (m_configFilename (m_args p))) ->
  returns (handleSigHup read_xml sy) (fun _ p' => process_ok p') p.
Proof.
  intros Hp Hf. unfold handleSigHup. apply returns_bind. unfold returns at 1. simpl.
  destruct (m_ConfigNew p) eqn:E; run; [exact Hp|]. destruct Hp as (H1 & H2 & H3).
  split; [exact H1|]. split; [exact H2|]. intros c. simpl. destruct (m_bIsValid _) eqn:Ev; [|done].
  intros [= <-]. split; [done|]. by apply new_config_ok.
Qed.

(** Every step that is allowed returns, and keeps the invariant. *)
Lemma process_handle_ok p e :
  process_ok p -> event_fits sort laws read_xml p e -> returns (handle e) (fun _ p' => process_ok p') p.
Proof.
  intros Hp He. destruct e as [e|now rv sip|sy|sy|k]; simpl in He |- *.
  - destruct He as [_ He]. destruct Hp as (H1 & H2 & H3).
    pose proof (@handle_safe _ _ pool config_routes (ctl p) e H1 He) as H. unfold returns, in_ctl in *.
    destruct (CallControl.handle e (ctl p)) as [[r s]|]; [|done]. destruct H as [H _].
    split; [exact H|]. split; [|exact H3]. destruct H2 as (Hc & Hf & _). split_and!; [exact Hc|exact Hf|].
    exact (proj1 (proj2 (proj1 H))).
  - destruct He as [_ He]. apply in_stateless_ok; [exact Hp|]. eapply returns_mono.
    + apply (@Stateless.callback_returns _ pool); [apply Hp|exact He].
    + by intros r s [H _].
  - apply returns_bind. eapply returns_mono; [by apply hup_ok|]. intros ? p1 H1. by run.
  - apply watchdog_tick_ok; [exact Hp|apply He].
  - run. eapply process_ok_same; [by repeat split|by apply process_config_ok|done|by left|exact Hp].
Qed.

Lemma process_runs_ok p es p' :
  process_ok p -> runs (process_step sort laws read_xml) p es p' -> process_ok p'.
Proof.
  intros Hp Hr. eapply (runs_invariant _ process_ok); [|exact Hr|exact Hp].
  intros p1 e p2 H1 [He [r E]]. pose proof (process_handle_ok p1 e H1 He) as H. unfold returns in H. by rewrite E in H.
Qed.

(** *** Start-up *)

Definition with_stats (p : Process) : Process :=
  if snd (getStatsPort (m_Config (ctl p))) =? 0 then p else p <| m_stats := Some new_NagiosConnector |>.

Definition loop_entered (sy : system) (su : startup) (p : Process) : Process :=
  p <| ctl ::= fun s => s <| m_my_contact := nta_agent_contact su |>
         <| m_my_user_agent := generateUserAgent (SSP_VERSION su) |>
         <| m_fsMonitor ::= fun m => setRoundRobinInterval (m_nMaxRoundRobins (m_Config s))
              (FsMonitor.reset (sy_garbage sy) (getAppservers iteration (m_Config s)) m) |> |>
    <| m_running := true |>.

(** The process when its event loop starts. *)
Definition started (a : Arguments_t) (c : Impl) (sy : system) (su : startup) : Process :=
  loop_entered sy su (with_writer sy (with_stats (installed c (new_Process a c)))).

Definition start_conditions (a : Arguments_t) (c : Impl) (sy : system) (su : startup) : Prop :=
  m_bIsValid c = true /\ (snd (getStatsPort c) <> 0 -> sy_binds sy = true) /\ m_bDbTest a = false /\
  0 <= su_init su /\ su_root_create su = true /\ length_ (m_sipUrl c) < URL_MAXLEN /\
  sip_update_default_mclass su = true /\ nta_agent_create su = true /\
  (m_agent_mode c = agent_mode_stateful -> nta_leg_tcreate su = true).

Lemma open_stats_exact sy p :
  open_stats sy p =
  if negb (snd (getStatsPort (m_Config (ctl p))) =? 0) && negb (sy_binds sy) then Fault Uncaught else Ok (tt, with_stats p).
Proof.
  unfold open_stats, with_stats, mbind, M_bind, gets, when. destruct (_ =? 0); [done|]. by destruct (sy_binds sy).
Qed.

Lemma with_stats_config p : m_Config (ctl (with_stats p)) = m_Config (ctl p).
Proof. unfold with_stats. by destruct (_ =? 0). Qed.

Lemma with_stats_args p : m_args (with_stats p) = m_args p.
Proof. unfold with_stats. by destruct (_ =? 0). Qed.

Lemma with_writer_args sy p : m_args (with_writer sy p) = m_args p.
Proof. unfold with_writer, replace_writer. case_match; [|done]. by destruct (CallControl.m_cdrWriter (ctl p)). Qed.

Lemma with_writer_config sy p : m_Config (ctl (with_writer sy p)) = m_Config (ctl p).
Proof. unfold with_writer. case_match; [|done]. apply replace_writer_others. Qed.

(** The event loop is only reached in that way, *)
Lemma run_gives sy su p :
  gives (run iteration sy su) (fun b p' => b = true -> p' = loop_entered sy su (with_writer sy (with_stats p))) p.
Proof.
  unfold run. apply gives_bind. unfold gives at 1. rewrite open_stats_exact.
  destruct (_ && _); [done|]. apply gives_bind. unfold gives at 1. rewrite create_writer_exact.
  run_gives. destruct (m_bDbTest _).
  - apply gives_bind. unfold gives. by destruct (runDbTest _ _ _) as [[[] ?]|].
  - run_gives. destruct (su_init su <? 0); [by run_gives|]. destruct (su_root_create su); [|by run_gives]. cbn [negb].
    apply gives_bind. unfold gives at 1, fits_url. destruct (_ <? _); [|done]. unfold mret at 1, M_ret at 1.
    destruct (sip_update_default_mclass su); [|by run_gives]. destruct (nta_agent_create su); [|by run_gives]. cbn [negb].
    destruct (bool_decide _ && _); run_gives; by intros ?.
Qed.

(** and it is reached under those conditions. *)
Lemma run_starts a c sy su p :
  m_args p = a -> m_Config (ctl p) = c -> start_conditions a c sy su ->
  run iteration sy su p = Ok (true, loop_entered sy su (with_writer sy (with_stats p))).
Proof.
  intros Hpa Hc (_ & Hb & Ht & Hi & Hr & Hl & Hm & Ha & Hd). unfold run, mbind, M_bind. rewrite open_stats_exact, Hc.
  assert (negb (snd (getStatsPort c) =? 0) && negb (sy_binds sy) = false) as ->.
  { destruct (Z.eqb_spec (snd (getStatsPort c)) 0); [done|]. by rewrite Hb. }
  rewrite create_writer_exact. unfold gets. rewrite with_writer_args, with_stats_args, Hpa, Ht. rewrite with_writer_config, with_stats_config, Hc.
  rewrite (proj2 (Z.ltb_ge _ _) Hi), Hr. unfold fits_url. rewrite (proj2 (Z.ltb_lt _ _) Hl), Hm, Ha. cbn [negb].
  assert (bool_decide (m_agent_mode c = agent_mode_stateful) && negb (nta_leg_tcreate su) = false) as ->.
  { destruct (bool_decide_reflect (m_agent_mode c = agent_mode_stateful)); [by rewrite Hd|done]. }
  assert (m_Config (ctl (with_writer sy (with_stats p))) = c) as Hc2 by (by rewrite with_writer_config, with_stats_config).
  revert Hc2. generalize (with_writer sy (with_stats p)). intros [? [] ? ? ? ? ? ? ? ? ?] <-. reflexivity.
Qed.

Lemma main_starts args a sy su :
  parseCmdArgs args default_arguments = Some a ->
  let c := read_file read_xml sy (m_configFilename a) in
  start_conditions a c sy su -> main iteration read_xml args sy su = Some (started a c sy su).
Proof.
  intros Ha c Hc. pose proof Hc as (Hv & _). unfold main, construct. rewrite Ha. fold c. rewrite Hv, installConfig_exact.
  by rewrite (run_starts a c) by done.
Qed.

Lemma main_inv args sy su p :
  main iteration read_xml args sy su = Some p ->
  exists a, parseCmdArgs args default_arguments = Some a /\
    let c := read_file read_xml sy (m_configFilename a) in
    m_bIsValid c = true /\ p = started a c sy su.
Proof.
  unfold main, construct. destruct (parseCmdArgs args default_arguments) as [a|]; [|done].
  set (c := read_file _ _ _). destruct (m_bIsValid c) eqn:Ev; [|done]. rewrite installConfig_exact.
  pose proof (run_gives sy su (installed c (new_Process a c))) as H. unfold gives in H.
  change (default (m_Config (ctl (new_Process a c))) (m_ConfigNew (new_Process a c))) with c.
  destruct (run iteration sy su (installed c (new_Process a c))) as [[[] p']|]; [|done..].
  intros [= <-]. exists a. split; [done|]. split; [done|]. by rewrite H.
Qed.

Definition has_database (c : Impl) : bool := match getCdrConnectInfo c with Some _ => true | None => false end.

Definition first_pool (c : Impl) (garbage : Z) : FsMonitor :=
  setRoundRobinInterval (m_nMaxRoundRobins c) (FsMonitor.reset garbage (getAppservers iteration c) new_FsMonitor).

Lemma started_ctl a c sy su :
  ctl (started a c sy su) =
  initial_ctl c (first_pool c (sy_garbage sy)) (has_database c)
    (new_CdrWriter (if has_database c then sy_answers sy else [])) (a_nIterationCount a)
    (Z.min (getCountOfOutboundTrunks c) (m_nMaxTerminationAttempts c)) (nta_agent_contact su)
    (generateUserAgent (SSP_VERSION su)).
Proof.
  unfold started, with_stats, with_writer, has_database.
  destruct (_ =? 0); cbn [installed update ctl m_Config new_Process]; by destruct (getCdrConnectInfo c).
Qed.

Lemma started_others a c sy su :
  let p := started a c sy su in
  m_running p = true /\ m_ConfigNew p = None /\ stateless_table p = (∅, []) /\ left_writers p = [] /\
  m_stats p = if snd (getStatsPort c) =? 0 then None else Some new_NagiosConnector.
Proof.
  intros p. unfold p, started, with_stats, with_writer.
  change (m_Config (ctl (installed c (new_Process a c)))) with c.
  destruct (snd (getStatsPort c) =? 0); cbn [installed update ctl m_Config new_Process]; by destruct (getCdrConnectInfo c).
Qed.

Lemma first_pool_all (Q : FsInstance -> Prop) c garbage :
  (forall h n, Q (start (new_FsInstance h n))) ->
  length (m_servers (first_pool c garbage)) = size (m_mapAppserver c) /\ Forall Q (m_servers (first_pool c garbage)).
Proof.
  intros HQ. set (m0 := new_FsMonitor <| m_servers := [] |> <| m_setServers := ∅ |>).
  destruct (reset_servers_fresh Q (getAppservers iteration c) (EmptyString, garbage) m0 HQ) as [H1 H2].
  assert (length (getAppservers iteration c) = size (m_mapAppserver c)) as E.
  { unfold getAppservers. rewrite length_map, (Permutation_length (iteration_laws _ _)). apply length_map_to_list. }
  change (m_servers m0) with (@nil FsInstance) in *. simpl length in H1. rewrite E in H1.
  assert (m_servers (first_pool c garbage) =
    m_servers (reset_servers (getAppservers iteration c) (EmptyString, garbage) m0)) as -> by done.
  split; [exact H1|by apply H2].
Qed.

Lemma first_pool_ok c garbage : Z.of_nat (size (m_mapAppserver c)) < 2^32 -> monitor_ok (first_pool c garbage).
Proof.
  intros Hs. destruct (first_pool_all short_address c garbage) as [Hl Hf]; [by intros; vm_compute|].
  split; [by rewrite Hl|exact Hf].
Qed.

Lemma initial_process_ok a c sy su :
  config_fits c -> impl_ok c -> is_Some (url_host (nta_agent_contact su)) -> process_ok (started a c sy su).
Proof.
  intros (_ & Hs & _) Hc Hu. destruct (started_others a c sy su) as (_ & Hn & Hd & _).
  assert (@ctl_ok _ _ pool config_routes (ctl (started a c sy su))) as Hok.
  { rewrite started_ctl. apply (@initial_ctl_ok _ _ pool config_routes); [exact Hc|by apply first_pool_ok|exact Hu]. }
  split; [exact Hok|]. split; [|by rewrite Hn]. apply Stateless.initial_proxy_ok; [exact Hd|exact (proj1 (proj2 (proj1 Hok)))].
Qed.

(** *** What a tick of the watchdog does *)

Definition refreshed (sy : system) (p : Process) : Process :=
  match m_ConfigNew p with
  | Some c => with_stats ((with_writer sy (installed c p)) <| m_stats := None |>)
  | None => p
  end.

Definition finished (p : Process) : Process :=
  let p := p <| ctl ::= fun s => s <| m_mapTrunkStats := ∅ |> |> in
  (if CallControl.m_cdrWriter (ctl p) then replace_writer None p else p) <| m_running := false |>.

Definition finishes (sy : system) (s : Proxy) : bool := no_work s && (0 =? wrap64 (sy_irq_used sy + sy_orq_used sy)).

Lemma watchdog_exact sy p :
  m_agent_mode (m_Config (ctl p)) = agent_mode_stateful -> sy_binds sy = true ->
  processWatchdogTimer sy p = Ok (0, refreshed sy (if finishes sy (ctl p) then finished p else p)).
Proof.
  intros Hm Hb. unfold processWatchdogTimer. unfold mbind at 1, M_bind at 1, gets at 1. rewrite Hm.
  set (p1 := if finishes sy (ctl p) then finished p else p).
  set (m := gets ctl ≫= _). assert (m p = Ok (tt, p1)) as E.
  { unfold m, p1, mbind, M_bind, gets, when. fold (finishes sy (ctl p)). destruct (finishes sy (ctl p)); [|done].
    unfold on_ctl, modify, finished. cbv zeta. set (p2 := p <| ctl ::= _ |>).
    destruct (CallControl.m_cdrWriter (ctl p2)); reflexivity. }
  unfold mbind at 1, M_bind at 1. rewrite E. unfold mbind at 1, M_bind at 1, get, refreshed.
  destruct (m_ConfigNew p1) as [c|] eqn:Ec; [|done].
  unfold mbind at 1, M_bind at 1. unfold mbind at 1, M_bind at 1. rewrite installConfig_exact, Ec. simpl default.
  unfold mbind at 1, M_bind at 1, modify at 1. rewrite open_stats_exact, Hb, andb_false_r. done.
Qed.

Lemma with_stats_others p :
  ctl (with_stats p) = ctl p /\ m_ConfigNew (with_stats p) = m_ConfigNew p /\ m_running (with_stats p) = m_running p.
Proof. unfold with_stats. by destruct (_ =? 0). Qed.

Lemma with_writer_others sy p :
  m_Config (ctl (with_writer sy p)) = m_Config (ctl p) /\ m_ConfigNew (with_writer sy p) = m_ConfigNew p /\
  m_running (with_writer sy p) = m_running p /\ m_nTerminationRetries (ctl (with_writer sy p)) = m_nTerminationRetries (ctl p) /\
  m_mapTrunkStats (ctl (with_writer sy p)) = m_mapTrunkStats (ctl p) /\ same_calls (ctl p) (ctl (with_writer sy p)).
Proof.
  unfold with_writer. destruct (getCdrConnectInfo _); [|by repeat split].
  destruct (replace_writer_others (Some (sy_answers sy)) p) as (H1 & _ & H2 & H3).
  split_and!; try assumption; [..|apply replace_writer_same]; unfold replace_writer; by destruct (CallControl.m_cdrWriter (ctl p)).
Qed.

Lemma refreshed_running sy p : m_running (refreshed sy p) = m_running p.
Proof.
  unfold refreshed. destruct (m_ConfigNew p) as [c|]; [|done].
  destruct (with_stats_others ((with_writer sy (installed c p)) <| m_stats := None |>)) as (_ & _ & ->).
  destruct (with_writer_others sy (installed c p)) as (_ & _ & H & _). exact H.
Qed.

Lemma no_work_spec s :
  @ctl_ok _ _ pool config_routes s ->
  no_work s = true <-> m_nIterationCount s = 0 /\ m_dialogs s = [] /\ m_transactions s = [].
Proof.
  intros Hok. unfold no_work. rewrite !andb_true_iff, Z.eqb_eq, !bool_decide_eq_true. split; [naive_solver|].
  intros (Hi & Hd & Ht). split_and!; try done. by apply (no_calls_left s Hok).
Qed.
End Lemmas.

(** ** Properties *)

Section Properties.
Context (sort : (Z -> Z -> bool) -> list Z -> list Z) (laws : sort_laws sort).
Context (iteration : forall V, gmap string V -> list (string * V)).
Context (read_xml : string -> option ptree).
#[local] Existing Instance config_routes.
#[local] Abbreviation pool := (monitor_pool sort laws).
#[local] Abbreviation handle := (handle sort read_xml laws).
#[local] Abbreviation process_ok := (process_ok sort laws).
#[local] Abbreviation process_step := (process_step sort laws read_xml).
#[local] Abbreviation main := (main iteration read_xml).


Lemma main_process_ok args sy su p :
  (forall V (m : gmap string V), Permutation (iteration V m) (map_to_list m)) ->
  (forall text pt, read_xml text = Some pt -> small pt) ->
  main args sy su = Some p ->
  (forall file, config_fits (read_file read_xml sy file)) ->
  is_Some (url_host (nta_agent_contact su)) -> process_ok p.
Proof.
  intros Hit Hsmall (a & _ & _ & ->)%main_inv Hf Hu. apply initial_process_ok; try done. by apply new_config_ok.
Qed.


End Properties.

(** *** An example: the distributed configuration *)

Definition example_system : system :=
  mkSystem (fun _ => Some EmptyString) junk0 8021 true [] 0 0 1000.

Definition example_xml : string -> option ptree := fun _ => Some (example_pt example_carriers).
Definition example_order (V : Type) (m : gmap string V) : list (string * V) := map_to_list m.

Definition example_startup : startup := mkStartup 0 true true true true own_url "1.0" (fun _ => "uuid").

Definition example_process : Process :=
  started example_order default_arguments (load (example_pt example_carriers)) example_system example_startup.

Lemma example_fits : config_fits (load (example_pt example_carriers)).
Proof. destruct load_short as (_ & H1 & H2). split; [exact H1|]. split; [vm_compute; reflexivity|exact H2]. Qed.

Lemma example_starts :
  start_conditions default_arguments (load (example_pt example_carriers)) example_system example_startup.
Proof. unfold start_conditions. split_and!; try reflexivity; vm_compute; congruence. Qed.

Lemma example_small text pt : example_xml text = Some pt -> small pt.
Proof. intros [= <-]. exact small_example. Qed.

Lemma example_process_ok : process_ok insertion_sort insertion_sort_laws example_process.
Proof.
  apply initial_process_ok; [by intros|exact example_fits|exact load_short|by eexists].
Qed.

Lemma example_read file : read_file example_xml example_system file = load (example_pt example_carriers).
Proof.
  unfold read_file, load, new_Impl, example_system, example_xml. cbn [sy_open sy_junk].
  destruct (read_config _ _). reflexivity.
Qed.

Lemma example_read_starts :
  start_conditions default_arguments (read_file example_xml example_system (m_configFilename default_arguments))
    example_system example_startup.
Proof. rewrite example_read. exact example_starts. Qed.

Lemma example_read_fits file : config_fits (read_file example_xml example_system file).
Proof. rewrite example_read. exact example_fits. Qed.

Lemma example_main : main example_order example_xml [] example_system example_startup = Some example_process.
Proof.
  rewrite (main_starts _ _ [] default_arguments _ _ eq_refl example_read_starts), example_read. reflexivity.
Qed.

Lemma example_order_laws V (m : gmap string V) : Permutation (example_order V m) (map_to_list m).
Proof. reflexivity. Qed.



(** The same process with a limit on the calls that has been reached. *)
Definition limit_reached (p : Process) : Process := p <| ctl ::= fun s => s <| m_nIterationCount := 0 |> |>.

Lemma limit_reached_ok sort laws p : process_ok sort laws p -> process_ok sort laws (limit_reached p).
Proof.
  intros Hp. apply (process_ok_same sort laws p); [by repeat split|exact (process_config_ok sort laws p Hp)|done|by left|exact Hp].
Qed.

Definition finished_process : Process := limit_reached example_process.

