(* ===== verification/Threads.v ===== *)
(** * Threads: the whole process

    The main thread with the event loop of the SIP stack, the signal handler
    and the writers of records ([Lifecycle]), the thread of the pool
    ([PoolThread]) and that of the statistics server ([Nagios]), run together:
    an event of the program is one handler of one of them.  What a handler
    does is atomic here; the locks and races inside one are not modelled. *)

From S2P Require Import Prelude Text Sip Ssp Tokenizer FsMessage FsInstance FsMonitor PoolThread PropertyTree Routing SspConfig.
From S2P Require Import Routes Cdr CdrWriter TrunkStats Bimap CallControl CallTables CallSafety CallRuns Nagios Lifecycle.
From S2P Require Stateless.

(** ** The program *)

(** [pool_running]: the thread of [FsMonitor] is in its loop. *)
Record Program := mkProgram { process : Process; pool_running : bool }.

#[export] Instance Program_rebuild : Rebuild Program := fun p => mkProgram (process p) (pool_running p).

Definition pool_of (p : Program) : FsMonitor := m_fsMonitor (ctl (process p)).

(** A handler of the statistics server. *)
Section Stats.
Context (sort : (Z -> Z -> bool) -> list Z -> list Z).
Context (iteration : gmap string TrunkStats -> list (string * TrunkStats)).

Definition stats_handle (e : stats_event) (n : NagiosConnector) : M Proxy NagiosConnector :=
  match e with
  | SAccept k ec => mret (accept_handler k ec n)
  | SRead k data wr => r ← Nagios.read_handler sort iteration wr data; mret (session_read k r n)
  | SWrite k => mret (Nagios.write_handler k n)
  | SController _ => mret n
  end.
End Stats.

Definition stats_fits (n : NagiosConnector) (e : stats_event) : Prop :=
  m_thread n = true /\
  match e with
  | SAccept k _ => m_sessions n !! k = None
  | SRead k _ _ => m_sessions n !! k = Some Reading
  | SWrite k => exists t, m_sessions n !! k = Some (Writing t)
  | SController _ => False
  end.

(** An event of the main thread, of the pool's (the operation at place [j] of
    server [k] completes), of the statistics server's. *)
Inductive program_event :=
| EMain (e : Lifecycle.event)
| EServer (k j : nat) (ev : FsInstance.event)
| EStats (e : stats_event).

Section Program.
Context (sort : (Z -> Z -> bool) -> list Z -> list Z) (laws : sort_laws sort).
Context (iteration : forall V, gmap string V -> list (string * V)).
Context (read_xml : string -> option ptree).
#[local] Existing Instance config_routes.
#[local] Abbreviation pool := (monitor_pool sort laws).

Definition on_process {A} (m : M Process A) : M Program A := fun p =>
  match m (process p) with Ok (a, q) => Ok (a, p <| process := q |>) | Fault f => Fault f end.

Definition on_pool {A} (m : M FsMonitor A) : M Proxy A := fun s =>
  match m (m_fsMonitor s) with Ok (a, q) => Ok (a, s <| m_fsMonitor := q |>) | Fault f => Fault f end.

Definition program_handle (e : program_event) : M Program Z :=
  match e with
  | EMain e => on_process (Lifecycle.handle sort read_xml laws e)
  | EServer k j ev =>
      ms ← gets (fun p => m_nFSTimer (process p));
      r ← on_process (in_ctl (on_pool (io_handler ms k j ev)));
      modify (fun p => p <| pool_running := thread_goes_on r |>);;
      mret 0
  | EStats e =>
      n ← gets (fun p => m_stats (process p));
      match n with
      | Some n =>
          n ← on_process (in_ctl (stats_handle sort (iteration TrunkStats) e n));
          modify (fun p => p <| process ::= fun q => q <| m_stats := Some n |> |>);;
          mret 0
      | None => mret 0
      end
  end.

(** What is expected: the pool changes by the events of its servers; an
    operation completes while its thread runs, with an answer that can be
    read; the statistics server's connections do what they can. *)
Definition program_fits (p : Program) (e : program_event) : Prop :=
  match e with
  | EMain (ECall (EPool _)) => False
  | EMain e => event_fits sort laws read_xml (process p) e
  | EServer k j ev => pool_running p = true /\ io_fits (pool_of p) k j ev
  | EStats e => exists n, m_stats (process p) = Some n /\ stats_fits n e
  end.

Definition program_step (p : Program) (e : program_event) (p' : Program) : Prop :=
  program_fits p e /\ exists r, program_handle e p = Ok (r, p').

Definition program_ok (p : Program) : Prop := process_ok sort laws (process p).

(** A step in which no server takes its configured address away from another
    one. *)
Definition clear_step (p : Program) (e : program_event) (p' : Program) : Prop :=
  program_step p e p' /\
  match e with EServer k j ev => no_clash (pool_of p) (Completes k j ev) | _ => True end.
End Program.

(** The program when its event loop starts. *)
Definition loop_starts (p : Process) : Program := mkProgram p true.

(** ** Lemmas *)

(** *** The statistics server *)

Lemma quiet_asking i : quiet i (asking i).
Proof.
  eapply quiet_trans; [|apply quiet_pend].
  apply quiet_trans with (act (AWrite ("api reloadxml" +:+ crlf +:+ crlf)) i); [by apply quiet_act|by apply quiet_same].
Qed.

Lemma quiet_ask_all ks servers : Forall2 quiet servers (ask_all ks servers).
Proof.
  assert (forall l, Forall2 quiet servers l -> Forall2 quiet servers (ask_all ks l)) as H.
  { induction ks as [|k ks IH]; intros l Hl; [exact Hl|]. simpl. apply IH.
    apply Forall2_alter_r; [exact Hl|]. intros x y _ _ Hq. eapply quiet_trans; [exact Hq|apply quiet_asking]. }
  apply H. apply Forall_Forall2_diag. apply Forall_true. intros i. apply quiet_refl.
Qed.

(** What the answer to a connection changes. *)
Definition served (s s' : Proxy) : Prop :=
  exists servers stats, Forall2 quiet (servers_of s) servers /\ s' = (set_servers servers s) <| m_mapTrunkStats := stats |>.

Lemma served_same s : served s s.
Proof.
  exists (servers_of s), (m_mapTrunkStats s). split; [apply Forall_Forall2_diag, Forall_true; intros; apply quiet_refl|].
  by rewrite set_servers_same; destruct s.
Qed.

Lemma read_handler_served sort iteration wr data s :
  sort_laws sort -> returns (Nagios.read_handler sort iteration wr data) (fun _ s' => served s s') s.
Proof.
  intros Hs. destruct (sorted_servers_spec sort s Hs) as (Hp & Hr & _).
  assert (forall brief, returns (answer_with (processNagiosRequest sort brief)) (fun _ s' => served s s') s) as H1.
  { intros brief. unfold answer_with, processNagiosRequest. run. rewrite Hr. run. apply served_same. }
  assert (forall brief, returns (answer_with (processOutboundTrunkStatsRequest iteration brief)) (fun _ s' => served s s') s) as H2.
  { intros brief. unfold answer_with, processOutboundTrunkStatsRequest. run. apply served_same. }
  unfold Nagios.read_handler. cbv zeta. repeat (case_match; [by auto|]).
  case_match.
  { unfold answer_with, processResetOutboundStatsRequest. run. exists (servers_of s), (TrunkStats.reset <$> m_mapTrunkStats s).
    split; [apply Forall_Forall2_diag, Forall_true; intros; apply quiet_refl|]. by rewrite set_servers_same. }
  case_match; [|run; apply served_same].
  unfold answer_with, processFsReloadxml. run. unfold returns. unfold mbind, M_bind. rewrite reload_servers_spec.
  - exists (ask_all (fst (asked wr (servers_of s) (sorted_servers sort s))) (servers_of s)), (m_mapTrunkStats s).
    split; [apply quiet_ask_all|done].
  - rewrite Hp. apply Forall_forall. intros k Hk%elem_of_seqZ. apply lookup_lt_is_Some_2. lia.
Qed.

Lemma stats_handle_served sort iteration e n s :
  sort_laws sort -> returns (stats_handle sort iteration e n) (fun _ s' => served s s') s.
Proof.
  intros Hs. destruct e; simpl; run; try apply served_same. eapply returns_mono; [by apply read_handler_served|].
  intros r s' H. by run.
Qed.

(** *** Every event that is expected returns *)

Section Returns.
Context {A : Type}.

Lemma on_process_returns (m : M Process A) (Q : A -> Program -> Prop) p :
  returns m (fun a q => Q a (p <| process := q |>)) (process p) -> returns (on_process m) Q p.
Proof. unfold returns, on_process. by destruct (m (process p)) as [[a q]|]. Qed.

Lemma in_ctl_returns (m : M Proxy A) (Q : A -> Process -> Prop) p :
  returns m (fun a s => Q a (p <| ctl := s |>)) (ctl p) -> returns (in_ctl m) Q p.
Proof. unfold returns, in_ctl. by destruct (m (ctl p)) as [[a s]|]. Qed.

Lemma on_pool_returns (m : M FsMonitor A) (Q : A -> Proxy -> Prop) s :
  returns m (fun a q => Q a (s <| m_fsMonitor := q |>)) (m_fsMonitor s) -> returns (on_pool m) Q s.
Proof. unfold returns, on_pool. by destruct (m (m_fsMonitor s)) as [[a q]|]. Qed.
End Returns.

Section Lemmas.
Context (sort : (Z -> Z -> bool) -> list Z -> list Z) (laws : sort_laws sort).
Context (iteration : forall V, gmap string V -> list (string * V)).
Context (read_xml : string -> option ptree).
Context (small_files : forall text pt, read_xml text = Some pt -> small pt).
#[local] Existing Instance config_routes.
#[local] Abbreviation pool := (monitor_pool sort laws).
#[local] Abbreviation program_ok := (program_ok sort laws).
#[local] Abbreviation process_ok := (process_ok sort laws).
#[local] Abbreviation ctl_ok := (@ctl_ok _ _ pool config_routes).

(** A process whose controller has another pool, or other statistics. *)
Lemma process_ok_ctl (p : Process) s :
  same_calls ((ctl p) <| m_fsMonitor := m_fsMonitor s |>) s -> m_Config s = m_Config (ctl p) -> monitor_ok (m_fsMonitor s) ->
  process_ok p -> process_ok (p <| ctl := s |>).
Proof.
  intros Hs Hc Hm (H1 & (H2 & H3 & _) & H4). split; [|split; [|exact H4]].
  - by eapply (ctl_ok_pool sort laws (ctl p) s).
  - split; [exact H2|]. split; [exact H3|exact Hm].
Qed.

Lemma served_monitor s s' : served s s' -> monitor_ok (m_fsMonitor s) -> monitor_ok (m_fsMonitor s').
Proof.
  intros (servers & stats & Hf & ->) [Hl Hs]. split; simpl; [by rewrite <- (Forall2_length _ _ _ Hf)|].
  clear Hl. change (Forall short_address (servers_of s)) in Hs. revert Hs.
  induction Hf as [|i i' l l' Hq _ IH]; [constructor|]. intros [Hi Hs]%Forall_cons. constructor; [by eapply quiet_short|by apply IH].
Qed.

Lemma process_monitor p : process_ok p -> monitor_ok (m_fsMonitor (ctl p)).
Proof. intros [[(_ & H & _) _] _]. exact H. Qed.

Lemma process_ok_served p s : served (ctl p) s -> process_ok p -> process_ok (p <| ctl := s |>).
Proof.
  intros Hs Hp. pose proof (served_monitor _ _ Hs (process_monitor p Hp)) as Hm.
  apply process_ok_ctl; [..|exact Hm|exact Hp]; destruct Hs as (servers & stats & _ & ->); by repeat split.
Qed.

Lemma server_event_ok ms k j ev (p : Process) :
  io_fits (m_fsMonitor (ctl p)) k j ev -> process_ok p ->
  returns (in_ctl (on_pool (io_handler ms k j ev))) (fun _ q => process_ok q) p.
Proof.
  intros He Hp. apply in_ctl_returns, on_pool_returns.
  destruct (pool_handle_ok sort laws ms (mkPool (m_fsMonitor (ctl p)) true) (Completes k j ev)) as (s' & E & Hm);
    [by apply process_monitor|by split|].
  unfold pool_handle, PoolThread.on_monitor, mbind, M_bind, modify in E. simpl in E. unfold returns.
  destruct (io_handler ms k j ev (m_fsMonitor (ctl p))) as [[r m']|]; [|done]. injection E as <-.
  apply process_ok_ctl; [by repeat split|done|exact Hm|exact Hp].
Qed.

Lemma program_handle_ok p e :
  program_ok p -> program_fits sort laws read_xml p e ->
  returns (program_handle sort laws iteration read_xml e) (fun _ p' => program_ok p') p.
Proof using small_files.
  intros Hp He. destruct e as [e|k j ev|e]; simpl in He |- *.
  - assert (event_fits sort laws read_xml (process p) e) as Hf by (destruct e as [[]| | | |]; first [exact He|done]).
    apply on_process_returns. by apply (process_handle_ok sort laws read_xml small_files).
  - destruct He as [_ He]. apply returns_bind, returns_gets, returns_bind, on_process_returns.
    eapply returns_mono; [by apply server_event_ok|]. intros r q Hq. run. exact Hq.
  - destruct He as (n & Hn & _). apply returns_bind, returns_gets. rewrite Hn. apply returns_bind, on_process_returns, in_ctl_returns.
    eapply returns_mono; [by apply stats_handle_served|]. intros n' s' Hs. run.
    pose proof (process_ok_served (process p) s' Hs Hp) as Hq. exact Hq.
Qed.

Lemma program_runs_ok p es p' :
  program_ok p -> runs (program_step sort laws iteration read_xml) p es p' -> program_ok p'.
Proof using small_files.
  intros Hp Hr. eapply (runs_invariant _ program_ok); [|exact Hr|exact Hp].
  intros p1 e p2 H1 [He [r E]]. pose proof (program_handle_ok p1 e H1 He) as H. unfold returns in H. by rewrite E in H.
Qed.
End Lemmas.

(** *** The main thread leaves the servers alone *)

Definition same_servers (m0 m : FsMonitor) : Prop := m_servers m = m_servers m0 /\ m_setServers m = m_setServers m0.

Section SameServers.
Context (sort : (Z -> Z -> bool) -> list Z -> list Z) (laws : sort_laws sort).
Context (iteration : forall V, gmap string V -> list (string * V)).
Context (read_xml : string -> option ptree).
Context (m0 : FsMonitor).
#[local] Existing Instance config_routes.
#[local] Abbreviation pool := (monitor_pool sort laws).

Lemma same_servers_asked m r m' : same_servers m0 m -> get_servers sort m = Ok (r, m') -> same_servers m0 m'.
Proof. intros [H1 H2] E. destruct (get_servers_same _ _ _ _ E) as [E1 E2]. split; congruence. Qed.

Lemma same_servers_framed : @framed _ _ pool config_routes (fun s => same_servers m0 (m_fsMonitor s)).
Proof.
  split.
  - intros f _ Hp _ _ _. apply keeps_modify. intros s. by rewrite Hp.
  - intros f _. by apply keeps_modify.
  - intros c s p s' Hs [= <- <-]. exact Hs.
  - intros m _ s r s' Hs E. unfold config in E. destruct (m (m_Config s)) as [[r0 c]|]; [|done]. by injection E as <- <-.
  - intros s r s' Hs E. unfold CallControl.getAvailableServers in E.
    destruct (pool_get (m_fsMonitor s)) as [[r0 q]|] eqn:Eq; [|done]. injection E as <- <-. by eapply same_servers_asked.
Qed.

Definition process_same (p : Process) : Prop := same_servers m0 (m_fsMonitor (ctl p)).

Lemma keeps_in_ctl {A} (m : M Proxy A) :
  keeps (fun s => same_servers m0 (m_fsMonitor s)) m -> keeps process_same (in_ctl m).
Proof. intros Hm p a p' Hp E. unfold in_ctl in E. destruct (m (ctl p)) as [[b s]|] eqn:Em; [|done]. injection E as <- <-. by eapply Hm. Qed.

Lemma keeps_in_stateless {A} (m : M (Stateless.St FsMonitor) A) :
  keeps (fun s => same_servers m0 (Stateless.m_fsMonitor s)) m -> keeps process_same (in_stateless m).
Proof.
  intros Hm p a p' Hp E. unfold in_stateless in E. destruct (m (stateless_view p)) as [[b s]|] eqn:Em; [|done].
  injection E as <- <-. by eapply (Hm (stateless_view p)).
Qed.

Lemma replace_writer_pool ans p : m_fsMonitor (ctl (replace_writer ans p)) = m_fsMonitor (ctl p).
Proof. unfold replace_writer. by destruct (CallControl.m_cdrWriter (ctl p)), ans. Qed.

Lemma keeps_process_modify (f : Process -> Process) :
  (forall p, m_fsMonitor (ctl (f p)) = m_fsMonitor (ctl p)) -> keeps process_same (modify f).
Proof. intros Hf. apply keeps_modify. intros p. unfold process_same. by rewrite Hf. Qed.

Lemma keeps_replace ans : keeps process_same (modify (replace_writer ans)).
Proof. apply keeps_process_modify. apply replace_writer_pool. Qed.

#[local] Hint Resolve keeps_replace : keeps.
#[local] Hint Extern 4 (keeps process_same (modify _)) => (by apply keeps_process_modify) : keeps.

Lemma lifecycle_keeps e :
  (forall q, e <> ECall (EPool q)) -> keeps process_same (Lifecycle.handle sort read_xml laws e).
Proof.
  intros He. destruct e as [e|now rv sip|sy|sy|k]; simpl.
  - apply keeps_in_ctl. apply keeps_handle; [exact same_servers_framed|]. intros q ->. by destruct (He q).
  - apply keeps_in_stateless. apply Stateless.callback_pool. intros m r m'. apply same_servers_asked.
  - unfold handleSigHup. keeps_auto.
  - unfold processWatchdogTimer, installConfig, create_writer, open_stats, on_ctl, shut_down.
    pose proof (keeps_in_stateless _ (Stateless.watchdog_pool (same_servers m0) (sy_now sy))). keeps_auto.
  - keeps_auto.
Qed.
End SameServers.

(** *** The servers that are online stay known *)

Section Known.
Context (sort : (Z -> Z -> bool) -> list Z -> list Z) (laws : sort_laws sort).
Context (iteration : forall V, gmap string V -> list (string * V)).
Context (read_xml : string -> option ptree).
#[local] Existing Instance config_routes.
#[local] Abbreviation clear_step := (clear_step sort laws iteration read_xml).

Lemma known_served s s' : served s s' -> known_online (m_fsMonitor s) -> known_online (m_fsMonitor s').
Proof.
  intros (servers & stats & Hf & ->) H k i' Hk Hon. simpl in Hk |- *.
  destruct (Forall2_lookup_r _ _ _ _ _ Hf Hk) as (i & Hi & (_ & Hs & _ & Ho & _)). rewrite Hs. apply (H k i); auto.
Qed.

(** An event of a server, on the pool alone. *)
Lemma server_event_pool ms k j ev (p : Process) r q :
  in_ctl (on_pool (io_handler ms k j ev)) p = Ok (r, q) ->
  exists m, io_handler ms k j ev (m_fsMonitor (ctl p)) = Ok (r, m) /\ q = p <| ctl ::= fun s => s <| m_fsMonitor := m |> |>.
Proof.
  unfold in_ctl, on_pool. destruct (io_handler _ _ _ _ _) as [[r0 m]|]; [|done]. intros [= <- <-]. by exists m.
Qed.

Lemma known_program_step p e p' : clear_step p e p' -> known_online (pool_of p) -> known_online (pool_of p').
Proof.
  intros [[He [r H]] Hc] Hk. destruct e as [e|k j ev|e]; simpl in He, H.
  - unfold on_process in H. destruct (Lifecycle.handle sort read_xml laws e (process p)) as [[r0 q]|] eqn:E; [|done].
    injection H as <- <-. assert (same_servers (pool_of p) (m_fsMonitor (ctl q))) as [E1 E2].
    { eapply (lifecycle_keeps sort laws read_xml (pool_of p) e); [|split; reflexivity|exact E]. by intros m ->. }
    unfold known_online, pool_of. simpl. by rewrite E1, E2.
  - unfold mbind, M_bind, gets in H. unfold on_process in H.
    destruct (in_ctl _ (process p)) as [[r0 q]|] eqn:E; [|done]. injection H as _ <-.
    destruct (server_event_pool _ _ _ _ _ _ _ E) as (m & Em & ->).
    apply (known_step sort (m_nFSTimer (process p)) (mkPool (pool_of p) true) (Completes k j ev) (mkPool m (thread_goes_on r0)));
      [|exact Hc|exact Hk]. split; [split; [done|apply He]|]. unfold pool_handle, PoolThread.on_monitor, mbind, M_bind, modify.
    change (ps_monitor (mkPool (pool_of p) true)) with (m_fsMonitor (ctl (process p))). by rewrite Em.
  - destruct He as (n & Hn & _). unfold mbind at 1, M_bind at 1, gets in H. rewrite Hn in H.
    apply M_bind_ok in H as (n' & p1 & H1 & H). injection H as _ <-.
    unfold on_process in H1. destruct (in_ctl _ (process p)) as [[n0 q]|] eqn:E; [|done]. injection H1 as _ <-.
    unfold in_ctl in E. pose proof (stats_handle_served sort (iteration TrunkStats) e n (ctl (process p)) laws) as Hs.
    unfold returns in Hs. destruct (stats_handle _ _ _ _ _) as [[n1 s']|]; [|done]. injection E as _ <-.
    exact (known_served _ _ Hs Hk).
Qed.

Lemma known_program_runs p es p' : runs clear_step p es p' -> known_online (pool_of p) -> known_online (pool_of p').
Proof. intros Hr. eapply (runs_invariant _ (fun p => known_online (pool_of p))); [|exact Hr]. intros; by eapply known_program_step. Qed.

(** At the start no server is online. *)
Lemma known_at_start args sy su p :
  (forall V (m : gmap string V), Permutation (iteration V m) (map_to_list m)) ->
  main iteration read_xml args sy su = Some p -> known_online (m_fsMonitor (ctl p)).
Proof.
  intros Hit (a & _ & _ & ->)%main_inv. rewrite started_ctl. intros k i Hk Hon. simpl in Hk.
  destruct (first_pool_all iteration Hit (fun i => isOnline i = false) (read_file read_xml sy (m_configFilename a)) (sy_garbage sy))
    as [_ Hf]; [done|]. pose proof (Forall_lookup_1 _ _ _ _ Hf Hk) as H. simpl in H. congruence.
Qed.

(** An event of the pool alone is one of the program. *)
Definition lift_pool (s : PoolState) (p : Program) : Program :=
  p <| process ::= fun q => q <| ctl ::= fun s0 => s0 <| m_fsMonitor := ps_monitor s |> |> |> <| pool_running := ps_running s |>.

Definition lift_event (e : PoolThread.pool_event) : program_event :=
  match e with Completes k j ev => EServer k j ev | _ => EMain (ELeft 0) end.

Lemma lift_runs s es s' p :
  runs (honest_step sort (m_nFSTimer (process p))) s es s' ->
  Forall (fun e => match e with Completes _ _ _ => True | _ => False end) es ->
  runs clear_step (lift_pool s p) (map lift_event es) (lift_pool s' p).
Proof.
  intros Hr. induction Hr as [s|s e s1 es s' [[He H] Hn] _ IH]; intros Hes; [constructor|].
  apply Forall_cons in Hes as [Hc Hes]. simpl. econstructor; [|by apply IH].
  destruct e as [k j ev| |]; [|done|done]. simpl in H, He, Hn. unfold PoolThread.on_monitor, mbind, M_bind, modify in H.
  destruct (io_handler _ k j ev (ps_monitor s)) as [[r m]|] eqn:E; [|done]. injection H as <-.
  split; [split; [exact He|]|exact Hn]. exists 0. simpl. unfold mbind, M_bind, gets, on_process, in_ctl, on_pool. simpl.
  by rewrite E.
Qed.
End Known.

(** ** Properties *)

(** C2: The process never crashes.  From start-up on, let the stack make callbacks
    as in [callbacks_never_crash], or those of stateless mode (an ACK belonging
    to a call), let SIGHUP ask for any files to be read, valid or not, let the
    watchdog tick, install what was read and restart the statistics server,
    let the threads of the database writers run, the servers of the pool answer
    what can be read or fail, and clients of the statistics server send
    anything, in any order, until the event loop ends: whatever comes next
    returns, and the tables, the pool and the configuration stay
    well-formed. *)
Theorem process_never_crashes (sort : (Z -> Z -> bool) -> list Z -> list Z) (laws : sort_laws sort)
    (iteration : forall V, gmap string V -> list (string * V)) (read_xml : string -> option ptree)
    (args : list getopt_result) (sy : system) (su : startup) (p0 : Process) (p : Program)
    (es : list program_event) (e : program_event) :
  (forall V (m : gmap string V), Permutation (iteration V m) (map_to_list m)) ->
  (forall text pt, read_xml text = Some pt -> small pt) ->
  main iteration read_xml args sy su = Some p0 -> (forall file, config_fits (read_file read_xml sy file)) ->
  is_Some (url_host (nta_agent_contact su)) ->
  runs (program_step sort laws iteration read_xml) (loop_starts p0) es p -> program_fits sort laws read_xml p e ->
  exists r p', program_handle sort laws iteration read_xml e p = Ok (r, p') /\ program_ok sort laws p'.
Proof.
  intros Hit Hsmall Hm Hf Hu Hr He. apply returns_elim, program_handle_ok; [exact Hsmall| |exact He].
  eapply program_runs_ok; [exact Hsmall| |exact Hr]. by eapply main_process_ok.
Qed.

Lemma process_never_crashes_witness :
  exists r p', program_handle insertion_sort insertion_sort_laws example_order example_xml (EMain (EWatchdog example_system))
      (loop_starts example_process) = Ok (r, p') /\ program_ok insertion_sort insertion_sort_laws p'.
Proof.
  apply (process_never_crashes insertion_sort insertion_sort_laws example_order example_xml [] example_system example_startup
    example_process (loop_starts example_process) [] (EMain (EWatchdog example_system)));
    [exact example_order_laws|exact example_small|exact example_main|exact example_read_fits|by eexists|constructor|].
  split; [exact (proj1 (started_others example_order default_arguments _ example_system example_startup))|reflexivity].
Defined.

(** C18: The calls of a server are taken for what they are.  Whatever the process
    has gone through since its start (callbacks, reloads, reconnections,
    requests to the statistics server), if no server, by reporting its SIP
    address, has taken its configured address away from another one that uses
    it, then a request from a server that is online (its Contact names the
    SIP address the server has reported) is a termination, unless the
    configuration gives that address to a carrier. *)
Theorem online_servers_are_recognised (sort : (Z -> Z -> bool) -> list Z -> list Z) (laws : sort_laws sort)
    (iteration : forall V, gmap string V -> list (string * V)) (read_xml : string -> option ptree)
    (args : list getopt_result) (sy : system) (su : startup) (p0 : Process) (p : Program) (es : list program_event)
    (k : nat) (i : FsInstance) (sip : sip_t) (contact : addr_t) :
  (forall V (m : gmap string V), Permutation (iteration V m) (map_to_list m)) ->
  main iteration read_xml args sy su = Some p0 ->
  runs (clear_step sort laws iteration read_xml) (loop_starts p0) es p ->
  m_servers (pool_of p) !! k = Some i -> isOnline i = true ->
  sip_contact sip = Some contact -> url_host (a_url contact) = Some (m_strSipAddress i) ->
  SspConfig.getCarrier (m_strSipAddress i) (m_Config (ctl (process p))) = None ->
  @determineCallType _ _ (monitor_pool sort laws) config_routes sip (ctl (process p)) =
    Ok ((termination_call_type, EmptyString), ctl (process p)).
Proof.
  intros Hit Hm Hr Hk Hon Hc Hh Hn.
  assert (known_online (pool_of p)) as Hknown.
  { eapply known_program_runs; [exact Hr|]. by eapply known_at_start. }
  assert (isAppserver (m_strSipAddress i) (pool_of p) = true) as Happ by (apply bool_decide_eq_true_2; by apply (Hknown k)).
  unfold determineCallType, to_string, mbind, M_bind, deref, gets. rewrite Hc. unfold mret, M_ret. rewrite Hh. cbv beta iota.
  change (routes_getCarrier ?a ?c) with (SspConfig.getCarrier a c). rewrite Hn.
  change (pool_isAppserver (m_strSipAddress i) (m_fsMonitor (ctl (process p)))) with (isAppserver (m_strSipAddress i) (pool_of p)).
  by rewrite Happ.
Qed.

Lemma online_servers_are_recognised_witness :
  exists p i, m_servers (pool_of p) !! 0%nat = Some i /\ isOnline i = true /\ m_strSipAddress i = "10.10.2.35" /\
    @determineCallType _ _ (monitor_pool insertion_sort insertion_sort_laws) config_routes
      (request_msg sip_method_invite "10.10.2.35") (ctl (process p)) = Ok ((termination_call_type, EmptyString), ctl (process p)).
Proof.
  assert (exists s, runs (honest_step insertion_sort 5000) (mkPool (first_pool example_order (load (example_pt example_carriers)) 8021) true)
      (brings_up 0 "127.0.0.1:8021" "10.10.2.35") s /\
    exists i, m_servers (ps_monitor s) !! 0%nat = Some i /\ isOnline i = true /\ m_strSipAddress i = "10.10.2.35")
    as (s & Hr & i & Hi & Hon & Ha).
  { eexists. split.
    - do 5 honest_go. apply runs_nil.
    - eexists. split; [vm_compute; reflexivity|]. split; vm_compute; reflexivity. }
  assert (m_nFSTimer (process (loop_starts example_process)) = 5000) as Hms by (vm_compute; reflexivity).
  rewrite <- Hms in Hr.
  assert (loop_starts example_process =
    lift_pool (mkPool (first_pool example_order (load (example_pt example_carriers)) 8021) true) (loop_starts example_process))
    as Hstart by (vm_compute; reflexivity).
  pose proof (lift_runs insertion_sort insertion_sort_laws example_order example_xml _ _ s (loop_starts example_process) Hr
    ltac:(repeat constructor)) as Hruns.
  rewrite <- Hstart in Hruns.
  exists (lift_pool s (loop_starts example_process)), i. split; [exact Hi|]. split; [exact Hon|]. split; [exact Ha|].
  refine (online_servers_are_recognised insertion_sort insertion_sort_laws example_order example_xml [] example_system example_startup
    example_process _ _ 0 i _ (mkAddr None (mkUrl (Some "gw") (Some "10.10.2.35") None) None)
    example_order_laws example_main Hruns Hi Hon _ _ _).
  - reflexivity.
  - rewrite Ha. reflexivity.
  - rewrite Ha. vm_compute. reflexivity.
Defined.
